(** * Career Suite v4.5: the staged resume pipeline, embedded and verified

    A shallow embedding of the Apps Script sources

    - [Constants.gs]        (thresholds, caps, bullet-column count),
    - [MasterResumeData.gs] (the sheet normaliser),
    - [TailoringLogic.gs]   (scorer and bullet tailor, response handling),
    - [Main.gs]             (stages 1, 2 and 3),

    followed by the properties the specification states about them.

    Modelling conventions.
    - Text is a Rocq [string] read as ASCII: [toUpperCase]/[toLowerCase] act
      on the letters a-z/A-Z and [trim] removes the ASCII white space
      (TAB, LF, VT, FF, CR, SPACE).
    - A JavaScript number is modelled by the exact rational it denotes;
      [NaN] and the infinities are separate constructors.  [JSON.parse]
      rounds a literal to the nearest binary64 value; [parseFloat] of a
      sheet cell is kept exact.
    - A JavaScript object is an insertion-ordered association list.
    - The language model is an arbitrary sequence of answers, consumed one
      per call ([callGroq] always returns a string). *)

From Stdlib Require Import String Ascii List Bool Arith ZArith NArith QArith.
From Stdlib Require Import Qround Qabs Lia Lqa.
From Stdlib Require Import Permutation Sorted.
Import ListNotations.

Set Warnings "-register-all".

Open Scope string_scope.
Open Scope list_scope.
Open Scope nat_scope.

(** ** JavaScript string primitives *)

Module JsString.

Definition code (c : ascii) : nat := nat_of_ascii c.

(** White space removed by [String.prototype.trim] (ASCII part). *)
Definition is_ws (c : ascii) : bool :=
  let n := code c in
  (Nat.leb 9 n && Nat.leb n 13) || Nat.eqb n 32.

Definition upper_char (c : ascii) : ascii :=
  let n := code c in
  if Nat.leb 97 n && Nat.leb n 122 then ascii_of_nat (n - 32) else c.

Definition lower_char (c : ascii) : ascii :=
  let n := code c in
  if Nat.leb 65 n && Nat.leb n 90 then ascii_of_nat (n + 32) else c.

Fixpoint map_chars (f : ascii -> ascii) (s : string) : string :=
  match s with
  | EmptyString => EmptyString
  | String c r => String (f c) (map_chars f r)
  end.

(** [toUpperCase] and [toLowerCase] as they act on ASCII text, where they
    change the letters [a-z] and [A-Z] and nothing else. *)
Definition toUpperCase : string -> string := map_chars upper_char.
Definition toLowerCase : string -> string := map_chars lower_char.

Fixpoint trimStart (s : string) : string :=
  match s with
  | EmptyString => EmptyString
  | String c r => if is_ws c then trimStart r else s
  end.

Fixpoint trimEnd (s : string) : string :=
  match s with
  | EmptyString => EmptyString
  | String c r =>
      match trimEnd r with
      | EmptyString => if is_ws c then EmptyString else String c EmptyString
      | r' => String c r'
      end
  end.

Definition trim (s : string) : string := trimEnd (trimStart s).

Definition is_empty (s : string) : bool :=
  match s with EmptyString => true | _ => false end.

Definition startsWith (s p : string) : bool := String.prefix p s.

Fixpoint rev_string (s : string) : string :=
  match s with
  | EmptyString => EmptyString
  | String c r => rev_string r ++ String c EmptyString
  end.

Definition endsWith (s p : string) : bool :=
  String.prefix (rev_string p) (rev_string s).

(** [s.substring(a, b)] for [0 <= a <= b]. *)
Definition substring (a b : nat) (s : string) : string :=
  String.substring a (b - a) s.

(** [s.substring(a)]. *)
Definition substring_from (a : nat) (s : string) : string :=
  String.substring a (String.length s - a) s.

(** [s.includes(p)]. *)
Fixpoint includes (s p : string) : bool :=
  String.prefix p s ||
  match s with
  | EmptyString => false
  | String _ r => includes r p
  end.

(** [xs.join(sep)] on an array of strings. *)
Fixpoint join (sep : string) (xs : list string) : string :=
  match xs with
  | [] => ""
  | [x] => x
  | x :: r => x ++ sep ++ join sep r
  end.

(** Text without white space at either end, the result shape of [trim]. *)
Definition trimmed (s : string) : Prop := trim s = s.

End JsString.
Import JsString.

(** ** Spreadsheet cells

    [getValues()] yields a string, a number, a boolean or a Date per cell.
    The pipeline only ever observes a non-string cell through [String(c)]
    and through its truthiness, so such a cell carries exactly these two
    observations.  [CUndef] is JavaScript's [undefined] (a property that is
    not there). *)

Inductive cell : Type :=
| CText (s : string)
| CUndef
| COther (truthy : bool) (shown : string).

Definition cell_String (c : cell) : string :=
  match c with
  | CText s => s
  | CUndef => "undefined"
  | COther _ shown => shown
  end.

Definition cell_truthy (c : cell) : bool :=
  match c with
  | CText s => negb (is_empty s)
  | CUndef => false
  | COther t _ => t
  end.

(** [c === "literal"]. *)
Definition cell_is (c : cell) (lit : string) : bool :=
  match c with
  | CText s => String.eqb s lit
  | _ => false
  end.

(** ** JavaScript numbers *)

Module JsNumber.

Inductive jsnum : Type :=
| NaN
| Fin (q : Q)
| PosInf
| NegInf.

(** [x >= y] on numbers; any comparison with [NaN] is false. *)
Definition jsnum_ge (x y : jsnum) : bool :=
  match x, y with
  | NaN, _ | _, NaN => false
  | PosInf, _ => true
  | _, NegInf => true
  | Fin a, Fin b => Qle_bool b a
  | Fin _, PosInf => false
  | NegInf, _ => false
  end.

(** [x < y]. *)
Definition jsnum_lt (x y : jsnum) : bool :=
  match x, y with
  | NaN, _ | _, NaN => false
  | PosInf, _ => false
  | _, NegInf => false
  | Fin a, Fin b => negb (Qle_bool b a)
  | Fin _, PosInf => true
  | NegInf, _ => true
  end.

(** [x - y]; the difference of equal infinities is [NaN]. *)
Definition jsnum_sub (x y : jsnum) : jsnum :=
  match x, y with
  | NaN, _ | _, NaN => NaN
  | Fin a, Fin b => Fin (a - b)
  | PosInf, PosInf => NaN
  | NegInf, NegInf => NaN
  | PosInf, _ => PosInf
  | NegInf, _ => NegInf
  | Fin _, PosInf => NegInf
  | Fin _, NegInf => PosInf
  end.

(** [v > 0], what [Array.prototype.sort] asks of a comparator's answer
    ([NaN] counts as [+0]). *)
Definition jsnum_pos (v : jsnum) : bool :=
  match v with
  | Fin q => negb (Qle_bool q 0)
  | PosInf => true
  | _ => false
  end.

Definition is_NaN (v : jsnum) : bool :=
  match v with NaN => true | _ => false end.

(** The value [m * 10^e] of a decimal literal. *)
Definition decimal (m e : Z) : Q :=
  if (0 <=? e)%Z then inject_Z (m * 10 ^ e)
  else Qmake m (Z.to_pos (10 ^ (- e))).

Definition digit_of (c : ascii) : option Z :=
  let n := code c in
  if Nat.leb 48 n && Nat.leb n 57 then Some (Z.of_nat (n - 48)) else None.

(** Reads the longest run of decimal digits at the head of [s]: the digits
    read so far (as a number, with their count) and the rest of [s]. *)
Fixpoint read_digits (acc : Z) (count : nat) (s : string) : Z * nat * string :=
  match s with
  | EmptyString => (acc, count, s)
  | String c r =>
      match digit_of c with
      | Some d => read_digits (acc * 10 + d) (S count) r
      | None => (acc, count, s)
      end
  end.

(** An exponent part [e], [e+] or [e-] followed by at least one digit;
    anything else is not part of the literal and the exponent is 0. *)
Definition read_exponent (s : string) : Z * string :=
  match s with
  | String c r =>
      if Nat.eqb (code c) 101 || Nat.eqb (code c) 69 then
        let '(neg, r1) :=
          match r with
          | String d r' =>
              if Nat.eqb (code d) 45 then (true, r')
              else if Nat.eqb (code d) 43 then (false, r')
              else (false, r)
          | EmptyString => (false, r)
          end in
        let '(v, n, rest) := read_digits 0 0 r1 in
        match n with
        | O => (0%Z, s)
        | _ => ((if neg then - v else v)%Z, rest)
        end
      else (0%Z, s)
  | EmptyString => (0%Z, s)
  end.

(** The longest prefix of [s] that is an unsigned decimal literal
    ([12], [12.], [12.5], [.5], each with an optional exponent), with
    the text after it. *)
Definition read_unsigned (s : string) : option (Q * string) :=
  let '(i, ni, r1) := read_digits 0 0 s in
  match r1 with
  | String c r2 =>
      if Nat.eqb (code c) 46 then
        let '(m, nf, r3) := read_digits i 0 r2 in
        match ni, nf with
        | O, O => None
        | _, _ =>
            let '(e, r4) := read_exponent r3 in
            Some (decimal m (e - Z.of_nat nf), r4)
        end
      else
        match ni with
        | O => None
        | _ => let '(e, r4) := read_exponent r1 in Some (decimal i e, r4)
        end
  | EmptyString =>
      match ni with
      | O => None
      | _ => Some (decimal i 0, r1)
      end
  end.

(** [parseFloat(s)]: leading white space is skipped, then the longest
    prefix that is a signed decimal literal or [Infinity] is read. *)
Definition parseFloat (s : string) : jsnum :=
  let t := trimStart s in
  let '(neg, u) :=
    match t with
    | String c r =>
        if Nat.eqb (code c) 45 then (true, r)
        else if Nat.eqb (code c) 43 then (false, r)
        else (false, t)
    | EmptyString => (false, t)
    end in
  if startsWith u "Infinity" then (if neg then NegInf else PosInf)
  else
    match read_unsigned u with
    | Some (q, _) => Fin (if neg then - q else q)
    | None => NaN
    end.

(** The decimal digits of a natural number, and of an integer. *)
Fixpoint digits_from (fuel : nat) (n : N) (acc : string) : string :=
  match fuel with
  | O => acc
  | S f =>
      let acc' := String (ascii_of_N (48 + n mod 10)) acc in
      if N.eqb (n / 10) 0 then acc' else digits_from f (n / 10) acc'
  end.

Definition digits (n : N) : string := digits_from (S (N.size_nat n)) n "".

Definition string_of_nat (n : nat) : string := digits (N.of_nat n).

Definition string_of_Z (z : Z) : string :=
  if (z <? 0)%Z then ("-" ++ digits (Z.abs_N z))%string else digits (Z.abs_N z).

End JsNumber.
Import JsNumber.

(** ** Sorting

    ECMAScript requires [Array.prototype.sort] to be stable.  For a
    comparator that is consistent on the array the stable order is unique;
    this insertion sort computes it.  [a] is moved behind [b] exactly when
    the comparator's answer on [(a, b)] is positive. *)

Section JsSort.

Context {A : Type}.
Variable cmp : A -> A -> jsnum.

Fixpoint sort_insert (a : A) (l : list A) : list A :=
  match l with
  | [] => [a]
  | b :: r => if jsnum_pos (cmp a b) then b :: sort_insert a r else a :: l
  end.

Fixpoint js_sort (l : list A) : list A :=
  match l with
  | [] => []
  | a :: r => sort_insert a (js_sort r)
  end.

End JsSort.

(** ** Constants.gs *)

Module Constants.

Definition STAGE3_FINAL_INCLUSION_SCORE_THRESHOLD : Q := 1 # 100.
Definition STAGE3_MAX_BULLETS_PER_JOB : nat := 5.
Definition STAGE3_MAX_BULLETS_PER_PROJECT : nat := 5.
Definition STAGE3_MAX_HIGHLIGHTS_FOR_SUMMARY : nat := 4.
Definition NUM_DEDICATED_BULLET_COLUMNS : nat := 3.

End Constants.
Import Constants.

(** ** Objects and the resume record *)

Section Objects.

Context {V : Type}.

(** [o[k]], [None] when the property is absent. *)
Fixpoint obj_get (k : string) (o : list (string * V)) : option V :=
  match o with
  | [] => None
  | (k', v) :: r => if String.eqb k k' then Some v else obj_get k r
  end.

(** [o[k] = v]: an existing property keeps its place, a new one goes last. *)
Fixpoint obj_set (k : string) (v : V) (o : list (string * V)) : list (string * V) :=
  match o with
  | [] => [(k, v)]
  | (k', v') :: r =>
      if String.eqb k k' then (k', v) :: r else (k', v') :: obj_set k v r
  end.

(** [delete o[k]]. *)
Fixpoint obj_delete (k : string) (o : list (string * V)) : list (string * V) :=
  match o with
  | [] => []
  | (k', v') :: r =>
      if String.eqb k k' then obj_delete k r else (k', v') :: obj_delete k r
  end.

End Objects.

(** A value held by a resume item: a cell value (text, as a rule), an array
    or a nested object. *)
Inductive jsv : Type :=
| VPrim (c : cell)
| VArr (l : list jsv)
| VObj (o : list (string * jsv)).

Definition object : Type := list (string * jsv).

Definition VStr (s : string) : jsv := VPrim (CText s).
Definition VStrs (l : list string) : jsv := VArr (map VStr l).

(** [o.k], [undefined] when absent. *)
Definition prop (o : object) (k : string) : jsv :=
  match obj_get k o with
  | Some v => v
  | None => VPrim CUndef
  end.

Definition jsv_truthy (v : jsv) : bool :=
  match v with
  | VPrim c => cell_truthy c
  | _ => true
  end.

(** [a || b]. *)
Definition jsv_or (a b : jsv) : jsv := if jsv_truthy a then a else b.

(** [c === v] for a sheet cell [c] and a field [v] of the master record.
    The normaliser stores text only, so the fields compared here are text
    or absent. *)
Definition strict_eq (c : cell) (v : jsv) : bool :=
  match c, v with
  | CText s, VPrim (CText t) => String.eqb s t
  | CUndef, VPrim CUndef => true
  | _, _ => false
  end.

(** The length of the array held by a field, 0 when it is not an array. *)
Definition arr_length (v : jsv) : nat :=
  match v with
  | VArr l => length l
  | _ => 0
  end.

Record subsection : Type := mkSubsection {
  sub_name : string;
  sub_items : list object
}.

(** A section is flat ([items]) or grouped ([subsections]). *)
Record section : Type := mkSection {
  title : string;
  items : option (list object);
  subsections : option (list subsection)
}.

Record resume : Type := mkResume {
  personalInfo : object;
  summary : string;
  sections : list section
}.

(** [sections.find(s => s.title === t)]. *)
Definition find_section (t : string) (secs : list section) : option section :=
  find (fun s => String.eqb (title s) t) secs.

(** ** The scoring sheet as stage 3 reads it (Main.gs, step 1c)

    Each data row becomes an object keyed by the header row. *)

Definition rowobj : Type := list (string * cell).

Definition row_get (r : rowobj) (k : string) : cell :=
  match obj_get k r with
  | Some c => c
  | None => CUndef
  end.

Fixpoint row_object_from (headers : list cell) (index : nat) (row : list cell)
    (obj : rowobj) : rowobj :=
  match headers with
  | [] => obj
  | h :: hs =>
      row_object_from hs (S index) row
        (obj_set (cell_String h) (nth index row CUndef) obj)
  end.

Definition row_object (headers row : list cell) : rowobj :=
  row_object_from headers 0 row [].

Definition load_scored_rows (allScoringDataWithHeaders : list (list cell))
    : list rowobj :=
  match allScoringDataWithHeaders with
  | headers :: ((_ :: _) as data) => map (row_object headers) data
  | _ => []
  end.

(** The nine columns stage 1 creates, in order. *)
Definition scoring_headers : list cell :=
  map CText
    ["UniqueID"; "Section"; "ItemIdentifier"; "OriginalBulletText";
     "RelevanceScore"; "MatchingKeywords"; "Justification";
     "SelectToTailor(Manual)"; "TailoredBulletText(Stage2)"].

(** ** Stage 3: assembly of the final record (Main.gs,
    [runStage3_BuildAndGenerateDocument]) *)

Module Stage3.

Definition score_of (r : rowobj) : jsnum :=
  parseFloat (cell_String (row_get r "RelevanceScore")).

(** [["YES","TRUE","1","X"].includes(String(flag).toUpperCase().trim())]. *)
Definition flag_text (c : cell) : string := trim (toUpperCase (cell_String c)).

Definition is_selected (c : cell) : bool :=
  existsb (String.eqb (flag_text c)) ["YES"; "TRUE"; "1"; "X"].

(** The filter applied to every dynamic section: score at or above the
    inclusion threshold and the row marked by the user. *)
Definition qualifies (r : rowobj) : bool :=
  jsnum_ge (score_of r) (Fin STAGE3_FINAL_INCLUSION_SCORE_THRESHOLD)
  && is_selected (row_get r "SelectToTailor(Manual)").

(** The comparator [(a, b) => parseFloat(b.RelevanceScore) -
    parseFloat(a.RelevanceScore)]. *)
Definition by_score_desc (a b : rowobj) : jsnum :=
  jsnum_sub (score_of b) (score_of a).

Definition not_suitable_sentinel : string :=
  "original bullet not suitable for significant tailoring towards this role.".

(** [getBulletTextToUse]. *)
Definition getBulletTextToUse (scoredBulletEntry : rowobj) : cell :=
  let bulletTextToUse := row_get scoredBulletEntry "OriginalBulletText" in
  let tailoredTextFromSheet := row_get scoredBulletEntry "TailoredBulletText(Stage2)" in
  let t := cell_String tailoredTextFromSheet in
  if cell_truthy tailoredTextFromSheet
     && negb (String.eqb (trim t) "")
     && negb (startsWith (toUpperCase t) "TAILOR_FAIL")
     && negb (String.eqb (toLowerCase t) not_suitable_sentinel)
  then CText (trim t)
  else bulletTextToUse.

(** The rows of one master item: [allScoredBulletRows.filter(r =>
    r.Section === sectionTitle && r.ItemIdentifier === identifier)]. *)
Definition rows_of_item (sectionTitle : string) (identifier : jsv)
    (allScoredBulletRows : list rowobj) : list rowobj :=
  filter (fun r => cell_is (row_get r "Section") sectionTitle
                   && strict_eq (row_get r "ItemIdentifier") identifier)
         allScoredBulletRows.

(** [.filter(score and flag).sort(by score, descending)]. *)
Definition selectedScoredBullets (sectionTitle : string) (identifier : jsv)
    (allScoredBulletRows : list rowobj) : list rowobj :=
  js_sort by_score_desc
    (filter qualifies (rows_of_item sectionTitle identifier allScoredBulletRows)).

(** The rows whose text an item carries: [.slice(0, cap)]. *)
Definition keptRows (cap : nat) (sectionTitle : string) (identifier : jsv)
    (allScoredBulletRows : list rowobj) : list rowobj :=
  firstn cap (selectedScoredBullets sectionTitle identifier allScoredBulletRows).

(** The body shared by the three [forEach] loops over master items: the
    item with its bullet field replaced, or nothing when no row survives. *)
Definition assembleItem (sectionTitle : string) (identifier : jsv)
    (bulletKey : string) (cap : nat) (masterItem : object)
    (allScoredBulletRows : list rowobj) : option object :=
  let selected := selectedScoredBullets sectionTitle identifier allScoredBulletRows in
  if Nat.ltb 0 (length selected) then
    let includedBulletsText := map getBulletTextToUse (firstn cap selected) in
    if Nat.ltb 0 (length includedBulletsText) then
      Some (obj_set bulletKey (VArr (map VPrim includedBulletsText)) masterItem)
    else None
  else None.

Definition option_list {A : Type} (o : option A) : list A :=
  match o with Some a => [a] | None => [] end.

Definition assembleExperienceItem (rows : list rowobj) (masterJob : object)
    : option object :=
  assembleItem "EXPERIENCE" (prop masterJob "company") "responsibilities"
    STAGE3_MAX_BULLETS_PER_JOB masterJob rows.

Definition assembleProjectItem (rows : list rowobj) (masterProject : object)
    : option object :=
  assembleItem "PROJECTS" (prop masterProject "projectName") "descriptionBullets"
    STAGE3_MAX_BULLETS_PER_PROJECT masterProject rows.

Definition assembleLeadershipItem (rows : list rowobj) (masterItem : object)
    : option object :=
  assembleItem "LEADERSHIP & UNIVERSITY INVOLVEMENT"
    (jsv_or (prop masterItem "organization") (prop masterItem "role"))
    "responsibilities" STAGE3_MAX_BULLETS_PER_JOB masterItem rows.

(** [(sections.find(s => s.title === t) || {}).items || []]. *)
Definition master_items (t : string) (master : resume) : list object :=
  match find_section t (sections master) with
  | Some s => match items s with Some l => l | None => [] end
  | None => []
  end.

Definition tailoredExperienceSection (master : resume) (rows : list rowobj)
    : section :=
  mkSection "EXPERIENCE"
    (Some (flat_map (fun j => option_list (assembleExperienceItem rows j))
                    (master_items "EXPERIENCE" master)))
    None.

Definition tailoredLeadershipSection (master : resume) (rows : list rowobj)
    : section :=
  mkSection "LEADERSHIP & UNIVERSITY INVOLVEMENT"
    (Some (flat_map (fun i => option_list (assembleLeadershipItem rows i))
                    (master_items "LEADERSHIP & UNIVERSITY INVOLVEMENT" master)))
    None.

(** One master subsection of PROJECTS: kept, under its name (or
    "General Projects"), when at least one of its projects is kept. *)
Definition tailoredProjectsSubsection (rows : list rowobj)
    (masterSubSection : subsection) : option subsection :=
  let tailoredProjectItemsForSubSection :=
    flat_map (fun p => option_list (assembleProjectItem rows p))
             (sub_items masterSubSection) in
  if Nat.ltb 0 (length tailoredProjectItemsForSubSection) then
    Some (mkSubsection
            (if is_empty (sub_name masterSubSection) then "General Projects"
             else sub_name masterSubSection)
            tailoredProjectItemsForSubSection)
  else None.

(** [None] when the master record has no PROJECTS section with
    subsections: nothing is pushed then. *)
Definition tailoredProjectsSection (master : resume) (rows : list rowobj)
    : option section :=
  match find_section "PROJECTS" (sections master) with
  | Some masterProjectsData =>
      match subsections masterProjectsData with
      | Some subs =>
          Some (mkSection "PROJECTS" None
                  (Some (flat_map
                           (fun ss => option_list (tailoredProjectsSubsection rows ss))
                           subs)))
      | None => None
      end
  | None => None
  end.

(** *** TECHNICAL SKILLS & CERTIFICATES *)

Definition tech_title : string := "TECHNICAL SKILLS & CERTIFICATES".

Definition selectedTechItemsFromSheet (rows : list rowobj) : list rowobj :=
  filter (fun row =>
            cell_is (row_get row "Section") tech_title
            && jsnum_ge (score_of row) (Fin STAGE3_FINAL_INCLUSION_SCORE_THRESHOLD)
            && is_selected (row_get row "SelectToTailor(Manual)"))
         rows.

(** [f && f.trim() === identifier] for a text field [f] of a master item. *)
Definition tech_field_matches (f : jsv) (identifier : cell) : bool :=
  match f with
  | VPrim (CText s) => negb (is_empty s) && cell_is identifier (trim s)
  | _ => false
  end.

Definition tech_item_matches (identifier : cell) (masterItm : object) : bool :=
  tech_field_matches (prop masterItm "skill") identifier
  || tech_field_matches (prop masterItm "name") identifier.

(** The first master subsection holding the item, with the item found. *)
Fixpoint locate_tech (subs : list subsection) (identifier : cell)
    : option (string * object) :=
  match subs with
  | [] => None
  | masterSub :: rest =>
      match find (tech_item_matches identifier) (sub_items masterSub) with
      | Some foundItem => Some (sub_name masterSub, foundItem)
      | None => locate_tech rest identifier
      end
  end.

(** Category and structure of one selected row; the degraded skill-only
    structure when the master record does not hold the identifier. *)
Definition resolve_tech (master : resume) (selectedSheetItem : rowobj)
    : string * object :=
  let fallback :=
    ("Uncategorized",
     [("skill", VPrim (row_get selectedSheetItem "OriginalBulletText"));
      ("details", VStr "")]) in
  match find_section tech_title (sections master) with
  | Some masterTechSkillsData =>
      match subsections masterTechSkillsData with
      | Some subs =>
          match locate_tech subs (row_get selectedSheetItem "ItemIdentifier") with
          | Some found => found
          | None => fallback
          end
      | None => fallback
      end
  | None => fallback
  end.

(** [skillsBySubCategoryMap]: categories in order of first use. *)
Fixpoint category_push (categoryName : string) (item : object)
    (m : list subsection) : list subsection :=
  match m with
  | [] => [mkSubsection categoryName [item]]
  | ss :: r =>
      if String.eqb (sub_name ss) categoryName
      then mkSubsection (sub_name ss) (sub_items ss ++ [item]) :: r
      else ss :: category_push categoryName item r
  end.

Definition tailoredTechSubsections (master : resume) (rows : list rowobj)
    : list subsection :=
  filter (fun sub => Nat.ltb 0 (length (sub_items sub)))
    (fold_left (fun m selectedSheetItem =>
                  let '(categoryName, structure) := resolve_tech master selectedSheetItem in
                  category_push categoryName structure m)
               (selectedTechItemsFromSheet rows) []).

(** *** The sections pushed by the dynamic assembly, in push order *)

Definition section_has_items (s : section) : bool :=
  match items s with Some l => Nat.ltb 0 (length l) | None => false end.

Definition some_subsection_has_items (s : section) : bool :=
  match subsections s with
  | Some subs => existsb (fun ss => Nat.ltb 0 (length (sub_items ss))) subs
  | None => false
  end.

Definition dynamicSections (master : resume) (rows : list rowobj) : list section :=
  (let s := tailoredExperienceSection master rows in
   if section_has_items s then [s] else [])
  ++ (match tailoredProjectsSection master rows with
      | Some s => if some_subsection_has_items s then [s] else []
      | None => []
      end)
  ++ (let s := tailoredLeadershipSection master rows in
      if section_has_items s then [s] else [])
  ++ (match selectedTechItemsFromSheet rows with
      | [] => []
      | _ :: _ =>
          let subs := tailoredTechSubsections master rows in
          if Nat.ltb 0 (length subs) then [mkSection tech_title None (Some subs)]
          else []
      end).

(** *** Static sections and the final order *)

Definition desiredFinalSectionOrder : list string :=
  ["EDUCATION"; "EXPERIENCE"; "PROJECTS"; "TECHNICAL SKILLS & CERTIFICATES";
   "LEADERSHIP & UNIVERSITY INVOLVEMENT"; "HONORS & AWARDS"].

Definition sub_empty (ss : subsection) : bool := Nat.eqb (length (sub_items ss)) 0.

Definition isStaticSectionEffectivelyEmpty (s : section) : bool :=
  let items_empty_array :=
    match items s with Some l => Nat.eqb (length l) 0 | None => false end in
  let no_items :=
    match items s with Some l => Nat.eqb (length l) 0 | None => true end in
  if items_empty_array
     && match subsections s with
        | None => true
        | Some subs => Nat.eqb (length subs) 0 || forallb sub_empty subs
        end
  then true
  else if no_items
          && match subsections s with
             | Some subs => forallb sub_empty subs
             | None => false
             end
  then true
  else match items s, subsections s with
       | None, None => true
       | _, _ => false
       end.

Definition includes_str (l : list string) (x : string) : bool :=
  existsb (String.eqb x) l.

(** The body of [desiredFinalSectionOrder.forEach]: a section whose title
    is not among the sections pushed so far is copied from the master
    record when it is there and not empty.  (The copy is a JSON round trip,
    the identity on the text the master record holds.) *)
Definition staticSections (master : resume) (dynamic : list section) : list section :=
  let processedDynamicSectionTitles := map (fun s => toUpperCase (title s)) dynamic in
  flat_map
    (fun sectionTitle =>
       if negb (includes_str processedDynamicSectionTitles (toUpperCase sectionTitle))
       then
         match find (fun s => String.eqb (toUpperCase (title s)) (toUpperCase sectionTitle))
                    (sections master) with
         | Some staticSectionData =>
             if negb (isStaticSectionEffectivelyEmpty staticSectionData)
             then [staticSectionData] else []
         | None => []
         end
       else [])
    desiredFinalSectionOrder.

(** [xs.indexOf(x)], [-1] when absent. *)
Fixpoint indexOf_from (i : Z) (xs : list string) (x : string) : Z :=
  match xs with
  | [] => (-1)%Z
  | y :: r => if String.eqb y x then i else indexOf_from (i + 1) r x
  end.

Definition section_order (a b : section) : jsnum :=
  let indexA := indexOf_from 0 desiredFinalSectionOrder (toUpperCase (title a)) in
  let indexB := indexOf_from 0 desiredFinalSectionOrder (toUpperCase (title b)) in
  if Z.eqb indexA (-1) && Z.eqb indexB (-1) then Fin 0
  else if Z.eqb indexA (-1) then Fin 1
  else if Z.eqb indexB (-1) then Fin (-1)
  else Fin (inject_Z (indexA - indexB)).

(** [finalTailoredResumeObject.sections] as handed to the renderer. *)
Definition finalSections (master : resume) (rows : list rowobj) : list section :=
  let dynamic := dynamicSections master rows in
  js_sort section_order (dynamic ++ staticSections master dynamic).

(** The final record; [tailoredSummary] is the summary generator's answer. *)
Definition finalTailoredResumeObject (master : resume) (rows : list rowobj)
    (tailoredSummary : string) : resume :=
  mkResume (personalInfo master)
    (if negb (is_empty tailoredSummary) && negb (startsWith tailoredSummary "ERROR:")
     then trim tailoredSummary else summary master)
    (finalSections master rows).

End Stage3.


(** ** MasterResumeData.gs: the helpers *)

Module MasterResumeData.

Local Open Scope string_scope.

Definition is_digit (c : ascii) : bool :=
  Nat.leb 48 (code c) && Nat.leb (code c) 57.

Definition is_letter (c : ascii) : bool :=
  let n := code c in
  (Nat.leb 65 n && Nat.leb n 90) || (Nat.leb 97 n && Nat.leb n 122).

Fixpoint all_chars (p : ascii -> bool) (s : string) : bool :=
  match s with
  | EmptyString => true
  | String c r => p c && all_chars p r
  end.

(** [/^\d{4}$/]. *)
Definition is_year (s : string) : bool :=
  Nat.eqb (String.length s) 4 && all_chars is_digit s.

(** The letters at the head of [s], counted, and what follows them. *)
Fixpoint span_letters (s : string) : nat * string :=
  match s with
  | EmptyString => (0, s)
  | String c r =>
      if is_letter c then let '(n, rest) := span_letters r in (S n, rest)
      else (0, s)
  end.

(** [/^[A-Za-z]{3,9}\s\d{4}$/]. *)
Definition is_month_year (s : string) : bool :=
  let '(n, rest) := span_letters s in
  Nat.leb 3 n && Nat.leb n 9
  && match rest with
     | String c r => is_ws c && is_year r
     | EmptyString => false
     end.

Definition monthNames : list string :=
  ["January"; "February"; "March"; "April"; "May"; "June"; "July"; "August";
   "September"; "October"; "November"; "December"].

(** The argument of [formatDateFromSheet]: [null]/[undefined], a [Date]
    object (with [getMonth()] and [getFullYear()] when its time is a
    number, and the text [String] gives for it), or any other value, seen
    through [String]. *)
Inductive dateCell : Type :=
| DNullish
| DDate (monthAndYear : option (nat * Z)) (shown : string)
| DText (s : string).

Definition dateCell_String (d : dateCell) : string :=
  match d with
  | DNullish => ""
  | DDate _ shown => shown
  | DText s => s
  end.

Section Dates.

(** [new Date(text)] followed by [getMonth()] and [getFullYear()];
    [None] when the time of the date is [NaN].  Which texts parse is left
    to the platform by the language. *)
Variable Date_parse : string -> option (nat * Z).

Definition formatDateFromSheet (dateCellValue : dateCell) (isPotentialEndDate : bool)
    : string :=
  let blank := if isPotentialEndDate then "Present" else "" in
  match dateCellValue with
  | DNullish => blank
  | _ =>
      if String.eqb (trim (dateCell_String dateCellValue)) "" then blank
      else
        let dateString := trim (dateCell_String dateCellValue) in
        if String.eqb (toUpperCase dateString) "PRESENT" then "Present"
        else
          let dateObj :=
            match dateCellValue with
            | DDate t _ => t
            | _ => Date_parse dateString
            end in
          match dateObj with
          | None => dateString
          | Some (month, year) =>
              if is_year dateString then dateString
              else if is_month_year dateString then dateString
              else nth month monthNames "undefined" ++ " " ++ string_of_Z year
          end
  end.

End Dates.

(** A stand-in for [new Date(text)] in worked examples: the year-only and
    year-month forms of the ISO format, which every platform reads; any
    other text is an invalid date here. *)
Definition Date_parse_iso (text : string) : option (nat * Z) :=
  let year_of (s : string) : Z :=
    let '(v, _, _) := read_digits 0 0 s in v in
  if is_year text then Some (0, year_of text)
  else if Nat.eqb (String.length text) 7
          && is_year (substring 0 4 text)
          && String.eqb (substring 4 5 text) "-"
          && all_chars is_digit (substring 5 7 text)
  then
    let m := Z.to_nat (year_of (substring 5 7 text)) in
    if Nat.leb 1 m && Nat.leb m 12 then Some (m - 1, year_of (substring 0 4 text))
    else None
  else None.

(** [smartSplitMultiLine]: literal backslash-n pairs become line breaks,
    the text is split at line breaks, the lines are trimmed and the empty
    ones dropped. *)
Fixpoint split_lines (s : string) (current : string) : list string :=
  match s with
  | EmptyString => [current]
  | String c r =>
      let n := code c in
      if Nat.eqb n 10 then current :: split_lines r ""
      else if Nat.eqb n 13 then
        match r with
        | String d r' =>
            if Nat.eqb (code d) 10 then current :: split_lines r' ""
            else current :: split_lines r ""
        | EmptyString => current :: split_lines r ""
        end
      else if Nat.eqb n 92 then
        match r with
        | String d r' =>
            if Nat.eqb (code d) 110 then current :: split_lines r' ""
            else split_lines r (current ++ String c "")
        | EmptyString => split_lines r (current ++ String c "")
        end
      else split_lines r (current ++ String c "")
  end.

Definition smartSplitMultiLine (textCellContent : string) : list string :=
  if is_empty textCellContent || String.eqb (trim textCellContent) "" then []
  else filter (fun s => negb (is_empty s)) (map trim (split_lines textCellContent "")).

Definition getCanonicalSectionTitle (text : string) : option string :=
  if is_empty text then None
  else
    let upperText := toUpperCase (trim text) in
    if startsWith upperText "PERSONAL INFO" then Some "PERSONAL INFO"
    else if startsWith upperText "SUMMARY" then Some "SUMMARY"
    else if startsWith upperText "EXPERIENCE" then Some "EXPERIENCE"
    else if startsWith upperText "EDUCATION" then Some "EDUCATION"
    else if startsWith upperText "PROJECTS" then Some "PROJECTS"
    else if startsWith upperText "TECHNICAL SKILLS" || includes upperText "CERTIFICATES"
    then Some "TECHNICAL SKILLS & CERTIFICATES"
    else if startsWith upperText "LEADERSHIP" || includes upperText "INVOLVEMENT"
    then Some "LEADERSHIP & UNIVERSITY INVOLVEMENT"
    else if startsWith upperText "HONORS" || startsWith upperText "AWARDS"
    then Some "HONORS & AWARDS"
    else None.

Definition isTabularSection (sectionTitleKey : string) : bool :=
  existsb (String.eqb sectionTitleKey)
    ["EXPERIENCE"; "EDUCATION"; "PROJECTS"; "TECHNICAL SKILLS & CERTIFICATES";
     "LEADERSHIP & UNIVERSITY INVOLVEMENT"; "HONORS & AWARDS"].

Definition cellIsBlank (c : cell) : bool :=
  match c with
  | CUndef => true
  | _ => String.eqb (trim (cell_String c)) ""
  end.

Definition rowIsEffectivelyBlank (rowArray : list cell) : bool :=
  forallb cellIsBlank rowArray.

(** [(c || "").toString().trim()]. *)
Definition cellTextOrEmpty (c : cell) : string :=
  if cell_truthy c then trim (cell_String c) else "".

(** [(c === null || c === undefined) ? "" : String(c)]. *)
Definition cellAsString (c : cell) : string :=
  match c with
  | CUndef => ""
  | _ => cell_String c
  end.

(** ** MasterResumeData.gs: [processAccumulatedSection] *)

(** [s.replace(/\s+/g, '')]. *)
Fixpoint remove_ws (s : string) : string :=
  match s with
  | EmptyString => EmptyString
  | String c r => if is_ws c then remove_ws r else String c (remove_ws r)
  end.

(** [s.charAt(0).toLowerCase() + s.slice(1)]. *)
Definition lower_first (s : string) : string :=
  match s with
  | EmptyString => EmptyString
  | String c r => String (lower_char c) r
  end.

(** [keyRaw.replace(/\s+(.)/g, (_, char) => char.toUpperCase())] on a
    trimmed key, where every run of white space is followed by a character. *)
Fixpoint camel_join (after_ws : bool) (s : string) : string :=
  match s with
  | EmptyString => EmptyString
  | String c r =>
      if is_ws c then camel_join true r
      else String (if after_ws then upper_char c else c) (camel_join false r)
  end.

Definition keyMappings : list (string * string) :=
  [("JobTitle", "jobTitle"); ("Company", "company");
   ("StartDate", "startDate"); ("EndDate", "endDate");
   ("Institution", "institution"); ("Degree", "degree");
   ("RelevantCoursework", "relevantCoursework");
   ("CategoryName", "categoryName"); ("SkillItem", "skillItem");
   ("Issuer", "issuer"); ("IssueDate", "issueDate");
   ("ProjectName", "projectName"); ("Organization", "organization");
   ("Impact", "impact"); ("FutureDevelopment", "futureDevelopment");
   ("GitHubName1", "githubName1"); ("GitHubURL1", "githubUrl1");
   ("AwardName", "awardName")].

(** The key under which step 2 files the column headed [headerKeyInSheet]. *)
Definition jsKeyOf (sectionTitleKey headerKeyInSheet : string) : string :=
  match obj_get headerKeyInSheet keyMappings with
  | Some k => k
  | None =>
      if String.eqb headerKeyInSheet "Date"
         && String.eqb sectionTitleKey "HONORS & AWARDS" then "date"
      else if String.eqb headerKeyInSheet "Description"
              && String.eqb sectionTitleKey "LEADERSHIP & UNIVERSITY INVOLVEMENT"
      then "description"
      else if String.eqb headerKeyInSheet "GPA"
              && String.eqb sectionTitleKey "EDUCATION" then "gpa"
      else lower_first (remove_ws headerKeyInSheet)
  end.

(** Step 1: one row against the header row, position by position; a
    blank header names no column. *)
Fixpoint itemFromSheet_from (headers : list string) (index : nat) (row : list string)
    (item : list (string * string)) : list (string * string) :=
  match headers with
  | [] => item
  | header :: rest =>
      itemFromSheet_from rest (S index) row
        (if negb (is_empty header) && negb (String.eqb (trim header) "")
         then obj_set (trim header) (nth index row "") item
         else item)
  end.

Definition itemFromSheet (headers row : list string) : list (string * string) :=
  itemFromSheet_from headers 0 row [].

(** Step 2: the [for ... in] loop that renames the keys and trims the
    values. *)
Definition mapKeys (sectionTitleKey : string) (itemFromSheet : list (string * string))
    : list (string * string) :=
  fold_left
    (fun newItem '(headerKeyInSheet, value) =>
       obj_set (jsKeyOf sectionTitleKey headerKeyInSheet) (trim value) newItem)
    itemFromSheet [].

(** A field as text, when it is text. *)
Definition field_text (item : object) (k : string) : option string :=
  match obj_get k item with
  | Some (VPrim (CText s)) => Some s
  | _ => None
  end.

(** The loop over the numbered bullet columns: for [k] from [k] on,
    [count] times, the trimmed text of a non-blank column is pushed and
    the column is deleted. *)
Fixpoint collectBullets (prefix : string) (k count : nat) (item : object)
    (bulletsArray : list string) : object * list string :=
  match count with
  | O => (item, bulletsArray)
  | S count' =>
      let bulletKey := prefix ++ string_of_nat k in
      let bulletsArray' :=
        match field_text item bulletKey with
        | Some s =>
            if negb (is_empty s) && negb (String.eqb (trim s) "")
            then (bulletsArray ++ [trim s])%list
            else bulletsArray
        | None => bulletsArray
        end in
      collectBullets prefix (S k) count' (obj_delete bulletKey item) bulletsArray'
  end.

Section Processing.

Variable Date_parse : string -> option (nat * Z).

(** [if (item.k) item.k = formatDateFromSheet(item.k, isEnd)]. *)
Definition formatField (k : string) (isEnd : bool) (item : object) : object :=
  match field_text item k with
  | Some s =>
      if is_empty s then item
      else obj_set k (VStr (formatDateFromSheet Date_parse (DText s) isEnd)) item
  | None => item
  end.

(** A multi-line cell split into lines; a field that is neither text nor
    an array becomes the empty array. *)
Definition splitField (k : string) (item : object) : object :=
  match obj_get k item with
  | Some (VPrim (CText s)) => obj_set k (VStrs (smartSplitMultiLine s)) item
  | Some (VArr _) => item
  | _ => obj_set k (VArr []) item
  end.

(** The final trim of every field that is text. *)
Definition trimFields (item : object) : object :=
  map (fun '(k, v) =>
         match v with
         | VPrim (CText s) => (k, VStr (trim s))
         | _ => (k, v)
         end)
      item.

(** Step 3 on one item. *)
Definition processItem (sectionTitleKey : string) (mapped : list (string * string))
    : object :=
  let item0 : object := map (fun '(k, v) => (k, VStr v)) mapped in
  let item1 := formatField "startDate" false item0 in
  let item2 := formatField "endDate" true item1 in
  let item3 :=
    if String.eqb sectionTitleKey "HONORS & AWARDS"
    then formatField "date" false item2 else item2 in
  let item4 :=
    if String.eqb sectionTitleKey "TECHNICAL SKILLS & CERTIFICATES"
    then formatField "issueDate" false item3 else item3 in
  let item5 :=
    if String.eqb sectionTitleKey "EXPERIENCE"
       || String.eqb sectionTitleKey "LEADERSHIP & UNIVERSITY INVOLVEMENT"
    then
      let '(item', bulletsArray) :=
        collectBullets "responsibility" 1 NUM_DEDICATED_BULLET_COLUMNS item4 [] in
      obj_set "responsibilities" (VStrs bulletsArray) item'
    else if String.eqb sectionTitleKey "PROJECTS" then
      let '(item', descBulletsArray) :=
        collectBullets "descriptionBullet" 1 NUM_DEDICATED_BULLET_COLUMNS item4 [] in
      splitField "technologies"
        (obj_set "descriptionBullets" (VStrs descBulletsArray) item')
    else item4 in
  let item6 :=
    if String.eqb sectionTitleKey "EDUCATION"
    then splitField "relevantCoursework" item5 else item5 in
  trimFields item6.

(** Steps 1 to 3 on one row of the sheet. *)
Definition normalizeRow (sectionTitleKey : string) (headers row : list string)
    : object :=
  processItem sectionTitleKey (mapKeys sectionTitleKey (itemFromSheet headers row)).

(** [item.k || ""]. *)
Definition fieldOrEmpty (item : object) (k : string) : jsv :=
  jsv_or (prop item k) (VStr "").

(** [item.k || []]. *)
Definition fieldOrNone (item : object) (k : string) : jsv :=
  jsv_or (prop item k) (VArr []).

(** A skill or, when an issuer or a date is given, a certificate. *)
Definition techItem (item : object) : object :=
  if jsv_truthy (prop item "issuer") || jsv_truthy (prop item "issueDate") then
    [("name", fieldOrEmpty item "skillItem");
     ("issuer", fieldOrEmpty item "issuer");
     ("issueDate", fieldOrEmpty item "issueDate")]
  else
    [("skill", fieldOrEmpty item "skillItem");
     ("details", fieldOrEmpty item "details")].

(** [item.categoryName || "Uncategorized"] as text. *)
Definition categoryOf (item : object) : string :=
  match prop item "categoryName" with
  | VPrim (CText s) => if is_empty s then "Uncategorized" else s
  | _ => "Uncategorized"
  end.

Fixpoint subsection_push (category : string) (item : object) (m : list subsection)
    : list subsection :=
  match m with
  | [] => [mkSubsection category [item]]
  | ss :: r =>
      if String.eqb (sub_name ss) category
      then mkSubsection (sub_name ss) (sub_items ss ++ [item])%list :: r
      else ss :: subsection_push category item r
  end.

Definition techSubsections (processedItems : list object) : list subsection :=
  fold_left (fun m item => subsection_push (categoryOf item) (techItem item) m)
            processedItems [].

Definition projectItem (item : object) : object :=
  [("projectName", fieldOrEmpty item "projectName");
   ("organization", fieldOrEmpty item "organization");
   ("role", fieldOrEmpty item "role");
   ("startDate", fieldOrEmpty item "startDate");
   ("endDate", fieldOrEmpty item "endDate");
   ("descriptionBullets", fieldOrNone item "descriptionBullets");
   ("technologies", fieldOrNone item "technologies");
   ("impact", fieldOrEmpty item "impact");
   ("futureDevelopment", fieldOrEmpty item "futureDevelopment");
   ("githubLinks",
    if jsv_truthy (prop item "githubName1") && jsv_truthy (prop item "githubUrl1")
    then VArr [VObj [("name", prop item "githubName1"); ("url", prop item "githubUrl1")]]
    else VArr []);
   ("subProjectsOrRoles", VArr [])].

Definition is_grouped (sectionTitleKey : string) : bool :=
  String.eqb sectionTitleKey "TECHNICAL SKILLS & CERTIFICATES"
  || String.eqb sectionTitleKey "PROJECTS".

(** The section a title starts out as. *)
Definition emptySection (sectionTitleKey : string) : section :=
  if is_grouped sectionTitleKey then
    mkSection sectionTitleKey None
      (Some (if String.eqb sectionTitleKey "PROJECTS"
             then [mkSubsection "General Projects" []] else []))
  else mkSection sectionTitleKey (Some []) None.

(** The first section with the title is replaced by [f] of it. *)
Fixpoint update_section (t : string) (f : section -> section) (secs : list section)
    : list section :=
  match secs with
  | [] => []
  | s :: r =>
      if String.eqb (title s) t then f s :: r else s :: update_section t f r
  end.

Definition ensure_section (sectionTitleKey : string) (secs : list section)
    : list section :=
  match find_section sectionTitleKey secs with
  | Some _ => secs
  | None => (secs ++ [emptySection sectionTitleKey])%list
  end.

(** The first subsection with the name gets the items appended. *)
Fixpoint append_to_subsection (name : string) (newItems : list object)
    (subs : list subsection) : list subsection :=
  match subs with
  | [] => []
  | ss :: r =>
      if String.eqb (sub_name ss) name
      then mkSubsection (sub_name ss) (sub_items ss ++ newItems)%list :: r
      else ss :: append_to_subsection name newItems r
  end.

(** Step 4 on the section object. *)
Definition pushItems (sectionTitleKey : string) (processedItems : list object)
    (sectionObject : section) : section :=
  if existsb (String.eqb sectionTitleKey)
       ["EXPERIENCE"; "EDUCATION"; "LEADERSHIP & UNIVERSITY INVOLVEMENT";
        "HONORS & AWARDS"]
  then
    mkSection (title sectionObject)
      (match items sectionObject with
       | Some l => Some (l ++ processedItems)%list
       | None => None
       end)
      (subsections sectionObject)
  else if String.eqb sectionTitleKey "TECHNICAL SKILLS & CERTIFICATES" then
    match techSubsections processedItems with
    | [] => sectionObject
    | subs => mkSection (title sectionObject) (items sectionObject) (Some subs)
    end
  else if String.eqb sectionTitleKey "PROJECTS" then
    match map projectItem processedItems with
    | [] => sectionObject
    | projectItemsStructured =>
        let subs0 :=
          match subsections sectionObject with
          | Some ((_ :: _) as subs) => subs
          | _ => [mkSubsection "General Projects" []]
          end in
        let subs1 :=
          if existsb (fun sub => String.eqb (sub_name sub) "General Projects") subs0
          then subs0
          else (subs0 ++ [mkSubsection "General Projects" []])%list in
        mkSection (title sectionObject) (items sectionObject)
          (Some (append_to_subsection "General Projects" projectItemsStructured subs1))
    end
  else sectionObject.

(** The record under construction. *)
Record output : Type := mkOutput {
  out_personalInfo : object;
  out_summary : string;
  out_sections : list section
}.

Definition personalInfoRow (info : object) (row : list string) : object :=
  let keyRaw := trim (nth 0 row "") in
  let value := trim (nth 1 row "") in
  if is_empty keyRaw || is_empty value then info
  else
    let keyNormalized := remove_ws (toLowerCase keyRaw) in
    if includes keyNormalized "fullname" || includes keyNormalized "name"
    then obj_set "fullName" (VStr value) info
    else if includes keyNormalized "linkedin" then obj_set "linkedin" (VStr value) info
    else if includes keyNormalized "github" then obj_set "github" (VStr value) info
    else if includes keyNormalized "portfolio" then obj_set "portfolio" (VStr value) info
    else if includes keyNormalized "phone" then obj_set "phone" (VStr value) info
    else if includes keyNormalized "email" then obj_set "email" (VStr value) info
    else if includes keyNormalized "location" then obj_set "location" (VStr value) info
    else obj_set (lower_first (camel_join false keyRaw)) (VStr value) info.

Definition fixFullName (info : object) : object :=
  if negb (jsv_truthy (prop info "fullName")) && jsv_truthy (prop info "fullname")
  then obj_delete "fullname" (obj_set "fullName" (prop info "fullname") info)
  else info.

Definition processAccumulatedSection (resumeOutput : output)
    (sectionTitleKey : string) (headers : list string) (dataRows : list (list string))
    : output :=
  if String.eqb sectionTitleKey "PERSONAL INFO" then
    mkOutput (fixFullName (fold_left personalInfoRow dataRows
                                     (out_personalInfo resumeOutput)))
             (out_summary resumeOutput) (out_sections resumeOutput)
  else if String.eqb sectionTitleKey "SUMMARY" then
    mkOutput (out_personalInfo resumeOutput)
             (trim (join (String (ascii_of_nat 10) "")
                         (map (fun rowArray => trim (nth 0 rowArray "")) dataRows)))
             (out_sections resumeOutput)
  else if negb (isTabularSection sectionTitleKey) then resumeOutput
  else
    match headers, dataRows with
    | [], _ | _, [] =>
        mkOutput (out_personalInfo resumeOutput) (out_summary resumeOutput)
                 (ensure_section sectionTitleKey (out_sections resumeOutput))
    | _, _ =>
        let processedItems := map (normalizeRow sectionTitleKey headers) dataRows in
        mkOutput (out_personalInfo resumeOutput) (out_summary resumeOutput)
                 (update_section sectionTitleKey
                    (pushItems sectionTitleKey processedItems)
                    (ensure_section sectionTitleKey (out_sections resumeOutput)))
    end.

(** ** MasterResumeData.gs: [getMasterResumeData] *)

(** The variables of the scanning loop. *)
Record scan_state : Type := mkScan {
  currentSectionTitleKey : option string;
  currentSectionRawData : list (list string);
  currentSectionHeaders : list string;
  resumeOutput : output
}.

(** The accumulated section is materialised when it has rows (or, for
    the summary, when a summary was already read). *)
Definition flush (st : scan_state) : output :=
  match currentSectionTitleKey st with
  | Some key =>
      if Nat.ltb 0 (length (currentSectionRawData st))
         || (String.eqb key "SUMMARY"
             && Nat.ltb 0 (String.length (out_summary (resumeOutput st))))
      then processAccumulatedSection (resumeOutput st) key
             (currentSectionHeaders st) (currentSectionRawData st)
      else resumeOutput st
  | None => resumeOutput st
  end.

(** [(row[0] || "").toString().trim()]. *)
Definition firstCellText (row : list cell) : string :=
  cellTextOrEmpty (nth 0 row CUndef).

(** The index of the first row that is not blank, counting from [index]
    at the head of [rows]; the index past the end when all are blank. *)
Fixpoint first_nonblank (rows : list (list cell)) (index : nat) : nat :=
  match rows with
  | [] => index
  | r :: rest =>
      if rowIsEffectivelyBlank r then first_nonblank rest (S index) else index
  end.

(** The text a row contributes to the summary, if any. *)
Definition summaryTextInRow (row : list cell) : string :=
  let cellBText := cellTextOrEmpty (nth 1 row CUndef) in
  let cellAText := cellTextOrEmpty (nth 0 row CUndef) in
  if negb (is_empty cellBText) && negb (startsWith cellBText "(")
     && Nat.ltb 5 (String.length cellBText)
  then cellBText
  else if negb (is_empty cellAText) && negb (startsWith cellAText "(")
          && match getCanonicalSectionTitle cellAText with
             | Some _ => false
             | None => true
             end
          && Nat.ltb 5 (String.length cellAText)
  then cellAText
  else "".

Section Scan.

Variable allData : list (list cell).

(** The [for] loop from row [i] on; every turn moves past at least one
    row, so [length allData] turns are enough. *)
Fixpoint scan (fuel : nat) (i : nat) (st : scan_state) : scan_state :=
  match fuel with
  | O => st
  | S f =>
      match nth_error allData i with
      | None => st
      | Some row =>
          match getCanonicalSectionTitle (firstCellText row) with
          | Some key =>
              let out := flush st in
              let no_headers := mkScan (Some key) [] [] out in
              if isTabularSection key && Nat.ltb (S i) (length allData) then
                let headerRowIndex := first_nonblank (skipn (S i) allData) (S i) in
                match nth_error allData headerRowIndex with
                | Some headerRow =>
                    match getCanonicalSectionTitle (firstCellText headerRow) with
                    | None =>
                        scan f (S headerRowIndex)
                          (mkScan (Some key) [] (map cellTextOrEmpty headerRow) out)
                    | Some _ => scan f (S i) no_headers
                    end
                | None => scan f (S i) no_headers
                end
              else scan f (S i) no_headers
          | None =>
              match currentSectionTitleKey st with
              | None => scan f (S i) st
              | Some current =>
                  if rowIsEffectivelyBlank row then scan f (S i) st
                  else if String.eqb current "SUMMARY" then
                    let text := summaryTextInRow row in
                    scan f (S i)
                      (if is_empty text then st
                       else mkScan (currentSectionTitleKey st)
                              (currentSectionRawData st ++ [[text]])%list
                              (currentSectionHeaders st) (resumeOutput st))
                  else if isTabularSection current
                          && Nat.eqb (length (currentSectionHeaders st)) 0
                          && Nat.ltb 1 (length (currentSectionRawData st))
                  then
                    scan f (S i)
                      (mkScan None (currentSectionRawData st)
                         (currentSectionHeaders st) (resumeOutput st))
                  else
                    scan f (S i)
                      (mkScan (currentSectionTitleKey st)
                         (currentSectionRawData st ++ [map cellAsString row])%list
                         (currentSectionHeaders st) (resumeOutput st))
              end
          end
      end
  end.

(** [getMasterResumeData] on the values of the sheet: [None] for a sheet
    without rows. *)
Definition getMasterResumeData : option resume :=
  match allData with
  | [] => None
  | _ =>
      let final :=
        flush (scan (length allData) 0 (mkScan None [] [] (mkOutput [] "" []))) in
      Some (mkResume (out_personalInfo final) (out_summary final) (out_sections final))
  end.

End Scan.

End Processing.

End MasterResumeData.

(** ** JSON values and [JSON.parse]

    A number is the binary64 value nearest to its literal, as an exact
    rational.  Text is ASCII: a [\u] escape above [007F] is outside the
    model and is rejected. *)

Module Json.

Inductive json : Type :=
| JNull
| JBool (b : bool)
| JNum (q : Q)
| JStr (s : string)
| JArr (l : list json)
| JObj (o : list (string * json)).

(** Truthiness of a parsed value. *)
Definition json_truthy (v : json) : bool :=
  match v with
  | JNull => false
  | JBool b => b
  | JNum q => negb (Qeq_bool q 0)
  | JStr s => negb (is_empty s)
  | JArr _ | JObj _ => true
  end.

(** [v.k] for the keys the pipeline reads (none of them is a built-in
    property of strings or arrays); [None] is [undefined]. *)
Definition json_prop (v : json) (k : string) : option json :=
  match v with
  | JObj o => obj_get k o
  | _ => None
  end.

(** Truthiness of [v.k]. *)
Definition prop_truthy (v : json) (k : string) : bool :=
  match json_prop v k with
  | Some x => json_truthy x
  | None => false
  end.

Definition is_json_ws (c : ascii) : bool :=
  let n := code c in
  Nat.eqb n 32 || Nat.eqb n 9 || Nat.eqb n 10 || Nat.eqb n 13.

Fixpoint skip_ws (s : string) : string :=
  match s with
  | EmptyString => EmptyString
  | String c r => if is_json_ws c then skip_ws r else s
  end.

Definition hex_of (c : ascii) : option nat :=
  let n := code c in
  if Nat.leb 48 n && Nat.leb n 57 then Some (n - 48)
  else if Nat.leb 65 n && Nat.leb n 70 then Some (n - 55)
  else if Nat.leb 97 n && Nat.leb n 102 then Some (n - 87)
  else None.

Definition unescape (c : ascii) : option ascii :=
  let n := code c in
  if Nat.eqb n 34 then Some c                      (* quote *)
  else if Nat.eqb n 92 then Some c                 (* backslash *)
  else if Nat.eqb n 47 then Some c                 (* slash *)
  else if Nat.eqb n 98 then Some (ascii_of_nat 8)  (* b *)
  else if Nat.eqb n 102 then Some (ascii_of_nat 12) (* f *)
  else if Nat.eqb n 110 then Some (ascii_of_nat 10) (* n *)
  else if Nat.eqb n 114 then Some (ascii_of_nat 13) (* r *)
  else if Nat.eqb n 116 then Some (ascii_of_nat 9)  (* t *)
  else None.

(** The characters of a string literal after its opening quote, up to
    and including the closing quote. *)
Fixpoint parse_string_body (s : string) : option (string * string) :=
  match s with
  | EmptyString => None
  | String c r =>
      if Nat.eqb (code c) 34 then Some (EmptyString, r)
      else if Nat.eqb (code c) 92 then
        match r with
        | String e r1 =>
            if Nat.eqb (code e) 117 then
              match r1 with
              | String h1 (String h2 (String h3 (String h4 r2))) =>
                  match hex_of h1, hex_of h2, hex_of h3, hex_of h4 with
                  | Some a, Some b, Some c', Some d =>
                      let n := ((a * 16 + b) * 16 + c') * 16 + d in
                      if Nat.ltb n 128 then
                        match parse_string_body r2 with
                        | Some (body, rest) => Some (String (ascii_of_nat n) body, rest)
                        | None => None
                        end
                      else None
                  | _, _, _, _ => None
                  end
              | _ => None
              end
            else
              match unescape e with
              | Some x =>
                  match parse_string_body r1 with
                  | Some (body, rest) => Some (String x body, rest)
                  | None => None
                  end
              | None => None
              end
        | EmptyString => None
        end
      else if Nat.ltb (code c) 32 then None
      else
        match parse_string_body r with
        | Some (body, rest) => Some (String c body, rest)
        | None => None
        end
  end.

(** *** Rounding to binary64 *)

(** [2^e] for an integer [e]. *)
Definition pow2 (e : Z) : Q :=
  if (0 <=? e)%Z then inject_Z (2 ^ e) else (1 # Z.to_pos (2 ^ (- e)))%Q.

(** The integer [e] with [2^e <= a < 2^(e+1)], for [a > 0]. *)
Definition floor_log2 (a : Q) : Z :=
  let e := (Z.log2 (Qnum a) - Z.log2 (Zpos (Qden a)))%Z in
  if Qle_bool (pow2 e) a then e else (e - 1)%Z.

(** The integer nearest to [x], the even one of two that are equally
    near. *)
Definition round_half_even (x : Q) : Z :=
  let f := Qfloor x in
  match Qcompare (x - inject_Z f) (1 # 2) with
  | Lt => f
  | Gt => (f + 1)%Z
  | Eq => if Z.even f then f else (f + 1)%Z
  end.

(** The binary64 value nearest to [q], ties to the even significand:
    53 bits of significand, the exponent of the unit in the last place
    not below [-1074].  Beyond the largest finite value the code has an
    infinity; the model keeps the rounded number. *)
Definition binary64 (q : Q) : Q :=
  if Qeq_bool q 0 then 0
  else
    let a := Qabs q in
    let ulp := pow2 (Z.max (floor_log2 a) (-1022) - 52) in
    let r := (inject_Z (round_half_even (a / ulp)) * ulp)%Q in
    if Qle_bool 0 q then r else (- r)%Q.

(** A JSON number: [-? int frac? exp?], no leading zero, every part that
    is begun has at least one digit; its value is rounded to binary64. *)
Definition parse_number (s : string) : option (Q * string) :=
  let '(neg, u) :=
    match s with
    | String c r => if Nat.eqb (code c) 45 then (true, r) else (false, s)
    | EmptyString => (false, s)
    end in
  let '(i, ni, r1) := read_digits 0 0 u in
  let leading_zero :=
    match u with
    | String c _ => Nat.eqb (code c) 48 && Nat.ltb 1 ni
    | EmptyString => false
    end in
  match ni with
  | O => None
  | _ =>
      if leading_zero then None
      else
        let frac :=
          match r1 with
          | String c r2 =>
              if Nat.eqb (code c) 46 then
                let '(m, nf, r3) := read_digits i 0 r2 in
                match nf with
                | O => None
                | _ => Some (m, nf, r3)
                end
              else Some (i, 0, r1)
          | EmptyString => Some (i, 0, r1)
          end in
        match frac with
        | None => None
        | Some (m, nf, r3) =>
            let exp :=
              match r3 with
              | String c r4 =>
                  if Nat.eqb (code c) 101 || Nat.eqb (code c) 69 then
                    let '(e, r5) := read_exponent r3 in
                    (* an exponent mark without digits is an error *)
                    if String.eqb r5 r3 then None else Some (e, r5)
                  else Some (0%Z, r3)
              | EmptyString => Some (0%Z, r3)
              end in
            match exp with
            | None => None
            | Some (e, rest) =>
                let q := decimal m (e - Z.of_nat nf) in
                Some (binary64 (if neg then (- q)%Q else q), rest)
            end
        end
  end.

Section Composite.

(** The parser of a value one level down. *)
Variable parse_inner : string -> option (json * string).

(** Elements after the first position of a non-empty array. *)
Fixpoint parse_elements (n : nat) (s : string) (acc : list json)
    : option (list json * string) :=
  match n with
  | O => None
  | S n' =>
      match parse_inner s with
      | Some (v, rest) =>
          match skip_ws rest with
          | String c r =>
              if Nat.eqb (code c) 44 then parse_elements n' r (acc ++ [v])
              else if Nat.eqb (code c) 93 then Some (acc ++ [v], r)
              else None
          | EmptyString => None
          end
      | None => None
      end
  end.

(** Members of a non-empty object; a repeated key keeps its first place
    and takes the last value. *)
Fixpoint parse_members (n : nat) (s : string) (acc : list (string * json))
    : option (list (string * json) * string) :=
  match n with
  | O => None
  | S n' =>
      match skip_ws s with
      | String q r =>
          if Nat.eqb (code q) 34 then
            match parse_string_body r with
            | Some (k, r1) =>
                match skip_ws r1 with
                | String c r2 =>
                    if Nat.eqb (code c) 58 then
                      match parse_inner r2 with
                      | Some (v, r3) =>
                          match skip_ws r3 with
                          | String d r4 =>
                              if Nat.eqb (code d) 44
                              then parse_members n' r4 (obj_set k v acc)
                              else if Nat.eqb (code d) 125
                              then Some (obj_set k v acc, r4)
                              else None
                          | EmptyString => None
                          end
                      | None => None
                      end
                    else None
                | EmptyString => None
                end
            | None => None
            end
          else None
      | EmptyString => None
      end
  end.

End Composite.

Fixpoint parse_value (fuel : nat) (s : string) : option (json * string) :=
  match fuel with
  | O => None
  | S f =>
      match skip_ws s with
      | EmptyString => None
      | String c r as t =>
          let n := code c in
          if Nat.eqb n 123 then                                   (* object *)
            match skip_ws r with
            | String d r' =>
                if Nat.eqb (code d) 125 then Some (JObj [], r')
                else
                  match parse_members (parse_value f) (String.length r) r [] with
                  | Some (o, rest) => Some (JObj o, rest)
                  | None => None
                  end
            | EmptyString => None
            end
          else if Nat.eqb n 91 then                               (* array *)
            match skip_ws r with
            | String d r' =>
                if Nat.eqb (code d) 93 then Some (JArr [], r')
                else
                  match parse_elements (parse_value f) (String.length r) r [] with
                  | Some (l, rest) => Some (JArr l, rest)
                  | None => None
                  end
            | EmptyString => None
            end
          else if Nat.eqb n 34 then                               (* string *)
            match parse_string_body r with
            | Some (x, rest) => Some (JStr x, rest)
            | None => None
            end
          else if startsWith t "true" then Some (JBool true, substring_from 4 t)
          else if startsWith t "false" then Some (JBool false, substring_from 5 t)
          else if startsWith t "null" then Some (JNull, substring_from 4 t)
          else
            match parse_number t with
            | Some (q, rest) => Some (JNum q, rest)
            | None => None
            end
      end
  end.

(** [JSON.parse(text)]; [None] when it throws a [SyntaxError]. *)
Definition JSON_parse (text : string) : option json :=
  match parse_value (S (String.length text)) text with
  | Some (v, rest) =>
      match skip_ws rest with
      | EmptyString => Some v
      | _ => None
      end
  | None => None
  end.

(** The double quote, and a quoted word, for writing JSON text. *)
Definition dq : string := String (ascii_of_nat 34) EmptyString.
Definition quoted (s : string) : string := (dq ++ s ++ dq)%string.

End Json.
Import Json.

(** ** TailoringLogic.gs *)

Module TailoringLogic.

(** A call that ends or throws ([TypeError] on a value of the wrong
    kind). *)
Inductive outcome (A : Type) : Type :=
| Throws
| Returns (a : A).
Arguments Throws {A}.
Arguments Returns {A} a.

(** The three lines that remove a leading [```json] or [```] and a
    trailing [```], each followed by [trim]. *)
Definition strip_code_fences (t : string) : string :=
  let p :=
    if startsWith t "```json" then trim (substring_from 7 t)
    else if startsWith t "```" then trim (substring_from 3 t)
    else t in
  if endsWith p "```" then trim (substring 0 (String.length p - 3) p) else p.

(** [groqResponseString && !groqResponseString.startsWith("ERROR:")]. *)
Definition is_answer (groqResponseString : string) : bool :=
  negb (is_empty groqResponseString)
  && negb (startsWith groqResponseString "ERROR:").

(** *** [tailorBulletPoint] *)

(** What [tailorBulletPoint] makes of the model's answer. *)
Definition tailoredFromResponse (groqResponseString : string) (originalBullet : string)
    : string :=
  if is_answer groqResponseString then
    let tailoredText := trim groqResponseString in
    let potentialJson := strip_code_fences tailoredText in
    match JSON_parse potentialJson with
    | Some parsedResponse =>
        match json_prop parsedResponse "rewritten_bullet" with
        | Some (JStr rewritten_bullet) =>
            if json_truthy parsedResponse && negb (is_empty rewritten_bullet)
            then trim rewritten_bullet
            else tailoredText
        | _ => tailoredText
        end
    | None => tailoredText
    end
  else
    ("ERROR: Groq API call failed during tailoring for bullet: "
     ++ dq ++ substring 0 50 originalBullet ++ "..." ++ dq)%string.

(** [(x || []).join(...)], also after [.slice(0, n)]: fine on a falsy
    value and on an array, a [TypeError] on anything else. *)
Definition joinable (x : option json) : bool :=
  match x with
  | None => true
  | Some (JArr _) => true
  | Some v => negb (json_truthy v)
  end.

(** The guards of [tailorBulletPoint] and the construction of its prompt:
    an early answer, a [TypeError], or (with [None]) the go-ahead for the
    call to the model, with the bullet's text. *)
Definition tailorGuards (originalBullet : cell) (jdAnalysisResults : json)
    (targetRoleTitle : option json) : outcome (string + string) :=
  match originalBullet with
  | COther true _ => Throws
  | COther false _ | CUndef => Returns (inl "ERROR: Original bullet empty.")
  | CText bullet =>
      if is_empty bullet || is_empty (trim bullet)
      then Returns (inl "ERROR: Original bullet empty.")
      else if negb (json_truthy jdAnalysisResults)
              || negb (prop_truthy jdAnalysisResults "primaryKeywords")
              || negb (prop_truthy jdAnalysisResults "jobTitle")
      then Returns (inl "ERROR: Invalid JD analysis.")
      else
        match targetRoleTitle with
        | None => Returns (inl "ERROR: Target role empty.")
        | Some role =>
            if negb (json_truthy role) then Returns (inl "ERROR: Target role empty.")
            else
              match role with
              | JStr title =>
                  if is_empty (trim title) then Returns (inl "ERROR: Target role empty.")
                  else if joinable (json_prop jdAnalysisResults "keyResponsibilities")
                          && joinable (json_prop jdAnalysisResults "primaryKeywords")
                          && joinable (json_prop jdAnalysisResults "requiredTechnicalSkills")
                  then Returns (inr bullet)
                  else Throws
              | _ => Throws
              end
        end
  end.

(** [tailorBulletPoint], given the answer [callGroq] returns if called. *)
Definition tailorBulletPoint (groqResponseString : string) (originalBullet : cell)
    (jdAnalysisResults : json) (targetRoleTitle : option json) : outcome string :=
  match tailorGuards originalBullet jdAnalysisResults targetRoleTitle with
  | Throws => Throws
  | Returns (inl early) => Returns early
  | Returns (inr bullet) => Returns (tailoredFromResponse groqResponseString bullet)
  end.

(** *** [matchResumeSection] *)

Definition matchError (error rawOutput : string) : json :=
  JObj [("error", JStr error); ("rawOutput", JStr rawOutput)].

Definition is_number (x : option json) : bool :=
  match x with Some (JNum _) => true | _ => false end.

Definition is_array (x : option json) : bool :=
  match x with Some (JArr _) => true | _ => false end.

Definition is_string (x : option json) : bool :=
  match x with Some (JStr _) => true | _ => false end.

(** What [matchResumeSection] makes of the model's answer, for a text and
    an analysis that pass its guards. *)
Definition matchFromResponse (groqResponseString : string) : json :=
  if is_answer groqResponseString then
    let cleanedResponse := strip_code_fences (trim groqResponseString) in
    match JSON_parse cleanedResponse with
    | Some parsedMatch =>
        if json_truthy parsedMatch
           && is_number (json_prop parsedMatch "relevanceScore")
           && is_array (json_prop parsedMatch "matchingKeywords")
           && is_string (json_prop parsedMatch "justification")
        then parsedMatch
        else matchError "Groq output structure mismatch for matching." cleanedResponse
    | None => matchError "Failed to parse Groq JSON for matching." groqResponseString
    end
  else matchError "Groq API call failed for matching." groqResponseString.

(** [matchResumeSection]: [resumeSectionText] is text of the master
    record; the model is called only when both guards pass. *)
Definition matchGuards (resumeSectionText : string) (jdAnalysisResults : json)
    : option json :=
  if is_empty resumeSectionText || is_empty (trim resumeSectionText)
  then Some (JObj [("error", JStr "Input resume section text is empty.")])
  else if negb (json_truthy jdAnalysisResults)
          || negb (prop_truthy jdAnalysisResults "primaryKeywords")
          || negb (prop_truthy jdAnalysisResults "jobTitle")
  then Some (JObj [("error",
                    JStr "Invalid JD analysis results (missing primaryKeywords or jobTitle).")])
  else None.

Definition matchResumeSection (groqResponseString : string)
    (resumeSectionText : string) (jdAnalysisResults : json) : json :=
  match matchGuards resumeSectionText jdAnalysisResults with
  | Some early => early
  | None => matchFromResponse groqResponseString
  end.

End TailoringLogic.
Import TailoringLogic.

(** ** Stage 1: scoring of the master record (Main.gs,
    [runStage1_AnalyzeAndScore]) *)

Module Stage1.

Local Open Scope string_scope.

(** *** Numbers as text *)

(** The integer nearest to [100 * q] for [q >= 0], the larger one on a
    tie: the [n] of [Number.prototype.toFixed] for two digits. *)
Definition hundredths (q : Q) : N := Z.to_N (Qfloor (q * 100 + (1 # 2))).

(** [n / 100] written with two digits after the point. *)
Definition fixed2 (n : N) : string :=
  (digits (n / 100) ++ "." ++ digits ((n mod 100) / 10) ++ digits (n mod 10))%string.

Section Printing.

(** [Number::toString], the shortest text that reads back as the number;
    left to the platform. *)
Variable Number_toString : Q -> string.

(** [x.toFixed(2)]. *)
Definition toFixed2 (x : Q) : string :=
  let a := Qabs x in
  let body :=
    if Qle_bool (inject_Z (10 ^ 21)) a then Number_toString a
    else fixed2 (hundredths a) in
  if negb (Qle_bool 0 x) then ("-" ++ body)%string else body.

(** An array element as [join] writes it, and a value as a template
    literal writes it. *)
Fixpoint json_template (v : json) : string :=
  match v with
  | JNull => "null"
  | JBool true => "true"
  | JBool false => "false"
  | JNum q => Number_toString q
  | JStr s => s
  | JArr l =>
      join ","
        (map (fun x => match x with JNull => "" | _ => json_template x end) l)
  | JObj _ => "[object Object]"
  end.

Definition json_join_element (v : json) : string :=
  match v with JNull => "" | _ => json_template v end.

(** A parsed value as the sheet cell it is written to. *)
Definition json_cell (v : json) : cell :=
  match v with
  | JStr s => CText s
  | _ => COther (json_truthy v) (json_template v)
  end.

(** *** One scored unit *)

(** The three messages in which the four scoring loops differ. *)
Record messages : Type := mkMessages {
  defaultJustification : string;
  noJustification : string;
  errorPrefix : string
}.

Definition bulletMessages : messages :=
  mkMessages "Match error/no numeric score." "No justification by AI." "Error: ".

Definition leadershipMessages : messages :=
  mkMessages "Match error/no numeric score." "No justification provided by AI."
    "Error: ".

Definition techMessages : messages :=
  mkMessages
    "Matching process failed, returned an error, or score was not a number."
    "No justification provided by AI." "Error during matching: ".

(** [score.toFixed(2)], [keywords.join("; ")] and [justification] for a
    result of [matchResumeSection]. *)
Definition scoredCells (msg : messages) (matchResult : json)
    : outcome (string * string * cell) :=
  if json_truthy matchResult && negb (prop_truthy matchResult "error") then
    match json_prop matchResult "relevanceScore" with
    | Some (JNum score) =>
        let justification :=
          match json_prop matchResult "justification" with
          | Some j => if json_truthy j then json_cell j
                      else CText (noJustification msg)
          | None => CText (noJustification msg)
          end in
        match json_prop matchResult "matchingKeywords" with
        | Some (JArr keywords) =>
            Returns (toFixed2 score, join "; " (map json_join_element keywords),
                     justification)
        | Some k =>
            if json_truthy k then Throws
            else Returns (toFixed2 score, "", justification)
        | None => Returns (toFixed2 score, "", justification)
        end
    | _ => Returns (toFixed2 0, "", CText (defaultJustification msg))
    end
  else if json_truthy matchResult && prop_truthy matchResult "error" then
    let error :=
      match json_prop matchResult "error" with
      | Some e => json_template e
      | None => "undefined"
      end in
    let raw :=
      match json_prop matchResult "rawOutput" with
      | Some r => if json_truthy r then json_template r else ""
      | None => ""
      end in
    Returns (toFixed2 0, "",
             CText (errorPrefix msg ++ error ++ ". Raw: " ++ raw))
  else Returns (toFixed2 0, "", CText (defaultJustification msg)).

(** The row pushed for one unit. *)
Definition scoredRow (uniqueId sectionTitle : string) (itemIdentifier : cell)
    (text : string) (cells : string * string * cell) : list cell :=
  let '(score, keywords, justification) := cells in
  [CText uniqueId; CText sectionTitle; itemIdentifier; CText text;
   CText score; CText keywords; justification; CText ""; CText ""].

(** *** The loops

    A computation reads the model's answers in order and may throw. *)

Definition M (A : Type) : Type := nat -> outcome (A * nat).

Definition ret {A : Type} (a : A) : M A := fun n => Returns (a, n).

Definition throw {A : Type} : M A := fun _ => Throws.

Definition bind {A B : Type} (m : M A) (k : A -> M B) : M B :=
  fun n =>
    match m n with
    | Throws => Throws
    | Returns (a, n') => k a n'
    end.

Notation "x <- m ;; k" := (bind m (fun x => k))
  (at level 61, m at next level, right associativity).

Variable answers : nat -> string.
Variable jdAnalysis : json.

(** [matchResumeSection(text, jdAnalysis)]; the model is asked only when
    the guards let the call through. *)
Definition callMatch (text : string) : M json :=
  fun n =>
    match matchGuards text jdAnalysis with
    | Some early => Returns (early, n)
    | None => Returns (matchFromResponse (answers n), S n)
    end.

(** Lifting of a plain outcome. *)
Definition lift {A : Type} (o : outcome A) : M A :=
  fun n => match o with Throws => Throws | Returns a => Returns (a, n) end.

(** A bullet as the loops test it with [!b || !b.trim()]: text to score,
    nothing to score, or a value without [trim]. *)
Definition bulletText (v : jsv) : outcome (option string) :=
  match v with
  | VPrim (CText s) =>
      if is_empty s || is_empty (trim s) then Returns None else Returns (Some s)
  | VPrim c => if cell_truthy c then Throws else Returns None
  | _ => Throws
  end.

(** [f && f.trim()] and [f.trim()] under the test [f]: the trimmed text of
    a truthy field, nothing for a falsy one. *)
Definition trimmedField (v : jsv) : outcome (option string) :=
  match v with
  | VPrim (CText s) => if is_empty s then Returns None else Returns (Some (trim s))
  | VPrim c => if cell_truthy c then Throws else Returns None
  | _ => Throws
  end.

(** [forEach] over tagged bullets, with the index of each. *)
Fixpoint scoreBullets (msg : messages) (uniqueIdOf : string -> nat -> string)
    (sectionTitle : string) (itemIdentifier : cell)
    (bulletIndex : nat) (bullets : list (string * jsv)) : M (list (list cell)) :=
  match bullets with
  | [] => ret []
  | (tag, b) :: rest =>
      text <- lift (bulletText b) ;;
      match text with
      | None =>
          scoreBullets msg uniqueIdOf sectionTitle itemIdentifier (S bulletIndex) rest
      | Some text =>
          matchResult <- callMatch text ;;
          cells <- lift (scoredCells msg matchResult) ;;
          rows <- scoreBullets msg uniqueIdOf sectionTitle itemIdentifier
                    (S bulletIndex) rest ;;
          ret (scoredRow (uniqueIdOf tag bulletIndex) sectionTitle itemIdentifier
                 text cells :: rows)
      end
  end.

(** [x && Array.isArray(x)]: the elements, none when it is no array. *)
Definition array_of (v : jsv) : list jsv :=
  match v with VArr l => l | _ => [] end.

Definition tagged (tag : string) (l : list jsv) : list (string * jsv) :=
  map (fun b => (tag, b)) l.

(** A field of a master item as a sheet cell (the fields are text). *)
Definition jsv_cell (v : jsv) : cell :=
  match v with VPrim c => c | _ => COther true "[object Object]" end.

Fixpoint concatM {A : Type} (ms : list (M (list A))) : M (list A) :=
  match ms with
  | [] => ret []
  | m :: rest => xs <- m ;; ys <- concatM rest ;; ret (xs ++ ys)%list
  end.

(** [xs.forEach((x, index) => ...)] as the list of the turns. *)
Fixpoint indexed {A B : Type} (f : A -> nat -> B) (i : nat) (xs : list A) : list B :=
  match xs with
  | [] => []
  | x :: r => f x i :: indexed f (S i) r
  end.

Definition scoreExperience (master : resume) : M (list (list cell)) :=
  match find_section "EXPERIENCE" (sections master) with
  | Some {| items := Some jobs |} =>
      concatM
        (indexed
           (fun job jobIndex =>
              scoreBullets bulletMessages
                (fun _ bulletIndex =>
                   "EXP_J" ++ string_of_nat jobIndex ++ "_B" ++ string_of_nat bulletIndex)
                "EXPERIENCE"
                (jsv_cell (jsv_or (prop job "company")
                                  (VStr ("ExperienceItem" ++ string_of_nat jobIndex))))
                0 (tagged "" (array_of (prop job "responsibilities"))))
           0 jobs)
  | _ => ret []
  end.

(** [s.replace(/\s+/g, "_")]. *)
Fixpoint underscore_spaces (in_run : bool) (s : string) : string :=
  match s with
  | EmptyString => EmptyString
  | String c r =>
      if is_ws c then
        if in_run then underscore_spaces true r
        else String "_" (underscore_spaces true r)
      else String c (underscore_spaces false r)
  end.

(** [(project.projectName || "NoName")] as text. *)
Definition nameOrNoName (v : jsv) : outcome string :=
  match v with
  | VPrim (CText s) => Returns (if is_empty s then "NoName" else s)
  | VPrim c => if cell_truthy c then Throws else Returns "NoName"
  | _ => Throws
  end.

(** The bullets of the sub-projects, each tagged [SPR<index>]; a
    sub-project that is not an object contributes none. *)
Definition subProjectBullets (subProjectsOrRoles : list jsv) : list (string * jsv) :=
  concat
    (indexed
       (fun spr sprIndex =>
          match spr with
          | VObj o => tagged ("SPR" ++ string_of_nat sprIndex)
                        (array_of (prop o "responsibilities"))
          | _ => []
          end)
       0 subProjectsOrRoles).

Definition projectBulletsToProcess (project : object) : list (string * jsv) :=
  let own :=
    (tagged "Desc" (array_of (prop project "descriptionBullets"))
     ++ subProjectBullets (array_of (prop project "subProjectsOrRoles")))%list in
  match own with
  | [] => tagged "MainRespFallbk" (array_of (prop project "responsibilities"))
  | _ => own
  end.

Definition scoreProjects (master : resume) : M (list (list cell)) :=
  match find_section "PROJECTS" (sections master) with
  | Some {| subsections := Some subs |} =>
      concatM
        (indexed
           (fun subsection subIndex =>
              concatM
                (indexed
                   (fun project projectIndex =>
                      name <- lift (nameOrNoName (prop project "projectName")) ;;
                      let baseProjectId :=
                        "PROJ_S" ++ string_of_nat subIndex ++ "_P"
                        ++ string_of_nat projectIndex ++ "_"
                        ++ substring 0 10 (underscore_spaces false name) in
                      scoreBullets bulletMessages
                        (fun tag bulletIndexInList =>
                           baseProjectId ++ "_" ++ tag ++ "_B"
                           ++ string_of_nat bulletIndexInList)
                        "PROJECTS"
                        (jsv_cell
                           (jsv_or (prop project "projectName")
                              (VStr ("ProjectItem" ++ string_of_nat projectIndex))))
                        0 (projectBulletsToProcess project))
                   0 (sub_items subsection)))
           0 subs)
  | _ => ret []
  end.

Definition scoreLeadership (master : resume) : M (list (list cell)) :=
  match find_section "LEADERSHIP & UNIVERSITY INVOLVEMENT" (sections master) with
  | Some {| items := Some entries |} =>
      concatM
        (indexed
           (fun item itemIndex =>
              scoreBullets leadershipMessages
                (fun _ bulletIndex =>
                   "LEAD_I" ++ string_of_nat itemIndex ++ "_B" ++ string_of_nat bulletIndex)
                "LEADERSHIP & UNIVERSITY INVOLVEMENT"
                (jsv_cell
                   (jsv_or (prop item "organization")
                      (jsv_or (prop item "role")
                         (VStr ("LeadershipItem" ++ string_of_nat itemIndex)))))
                0 (tagged "" (array_of (prop item "responsibilities"))))
           0 entries)
  | _ => ret []
  end.

(** The text to score, the identifier and the kind of a skill or
    certificate; nothing when the item has neither. *)
Definition techUnit (item : object) : outcome (option (string * string * string)) :=
  match trimmedField (prop item "skill") with
  | Throws => Throws
  | Returns (Some skill) =>
      match trimmedField (prop item "details") with
      | Throws => Throws
      | Returns (Some details) =>
          Returns (Some (if is_empty details then skill else skill ++ " " ++ details,
                         skill, "Skill"))
      | Returns None => Returns (Some (skill, skill, "Skill"))
      end
  | Returns None =>
      match trimmedField (prop item "name") with
      | Throws => Throws
      | Returns (Some name) =>
          match trimmedField (prop item "issuer") with
          | Throws => Throws
          | Returns (Some issuer) =>
              Returns (Some (if is_empty issuer then name
                             else name ++ " (Issuer: " ++ issuer ++ ")",
                             name, "Cert"))
          | Returns None => Returns (Some (name, name, "Cert"))
          end
      | Returns None => Returns None
      end
  end.

Definition scoreTechItem (subIndex : nat) (item : object) (itemIndex : nat)
    : M (list (list cell)) :=
  unit <- lift (techUnit item) ;;
  match unit with
  | None => ret []
  | Some (originalTextToScore, itemIdentifier, itemType) =>
      if is_empty originalTextToScore then ret []
      else
        matchResult <- callMatch originalTextToScore ;;
        cells <- lift (scoredCells techMessages matchResult) ;;
        ret [scoredRow
               ("TECH_Cat" ++ string_of_nat subIndex ++ "_" ++ itemType
                ++ string_of_nat itemIndex)
               "TECHNICAL SKILLS & CERTIFICATES" (CText itemIdentifier)
               originalTextToScore cells]
  end.

Definition scoreTechnicalSkills (master : resume) : M (list (list cell)) :=
  match find_section "TECHNICAL SKILLS & CERTIFICATES" (sections master) with
  | Some {| subsections := Some subs |} =>
      concatM
        (indexed
           (fun subsection subIndex =>
              concatM (indexed (scoreTechItem subIndex) 0 (sub_items subsection)))
           0 subs)
  | _ => ret []
  end.

(** [allScoredBulletsDataForSheet] at the end of the four loops. *)
Definition scoreMaster (master : resume) : M (list (list cell)) :=
  concatM [scoreExperience master; scoreProjects master;
           scoreLeadership master; scoreTechnicalSkills master].

End Printing.

(** The rows stage 1 writes under the header row, when no loop throws. *)
Definition allScoredBulletsDataForSheet (Number_toString : Q -> string)
    (answers : nat -> string) (jdAnalysis : json) (master : resume)
    : outcome (list (list cell)) :=
  match scoreMaster Number_toString answers jdAnalysis master 0 with
  | Throws => Throws
  | Returns (rows, _) => Returns rows
  end.

End Stage1.

(** ** Stage 2: tailoring of the selected rows (Main.gs,
    [runStage2_TailorSelectedBullets]) *)

Module Stage2.
Import Stage3.

(** [headers.indexOf(name)]; [None] is [-1]. *)
Fixpoint indexOf_cell_from (i : nat) (headers : list cell) (name : string)
    : option nat :=
  match headers with
  | [] => None
  | h :: r => if cell_is h name then Some i else indexOf_cell_from (S i) r name
  end.

Definition indexOf_cell (headers : list cell) (name : string) : option nat :=
  indexOf_cell_from 0 headers name.

(** [row[i] = v]: inside the array the element is replaced; beyond its end
    the array grows, the gap left [undefined]. *)
Fixpoint array_set (i : nat) (v : cell) (row : list cell) : list cell :=
  match i, row with
  | O, [] => [v]
  | O, _ :: r => v :: r
  | S i', [] => CUndef :: array_set i' v []
  | S i', c :: r => c :: array_set i' v r
  end.

Record columns : Type := mkColumns {
  originalBulletColIndex : nat;
  selectColIndex : nat;
  tailoredColIndex : nat;
  scoreColIndex : nat;
  uniqueIdColIndex : nat
}.

Definition find_columns (scoringSheetHeaders : list cell) : option columns :=
  match indexOf_cell scoringSheetHeaders "OriginalBulletText",
        indexOf_cell scoringSheetHeaders "SelectToTailor(Manual)",
        indexOf_cell scoringSheetHeaders "TailoredBulletText(Stage2)",
        indexOf_cell scoringSheetHeaders "RelevanceScore",
        indexOf_cell scoringSheetHeaders "UniqueID" with
  | Some o, Some s, Some t, Some sc, Some u => Some (mkColumns o s t sc u)
  | _, _, _, _, _ => None
  end.

(** The row's selection flag, as the loop reads it. *)
Definition row_selected (cols : columns) (rowData : list cell) : bool :=
  is_selected (nth (selectColIndex cols) rowData CUndef).

(** [tailoredOutput && !tailoredOutput.startsWith("ERROR:") &&
    tailoredOutput.toLowerCase() !== "original bullet not suitable ..."]. *)
Definition tailoring_succeeded (tailoredOutput : string) : bool :=
  negb (is_empty tailoredOutput)
  && negb (startsWith tailoredOutput "ERROR:")
  && negb (String.eqb (toLowerCase tailoredOutput) not_suitable_sentinel).

(** The cell written for a row, from what [tailorBulletPoint] returned. *)
Definition tailoredCell (tailoredOutput : string) : cell :=
  if tailoring_succeeded tailoredOutput
  then CText (trim tailoredOutput)
  else CText ("TAILOR_FAIL/SKIP: " ++ tailoredOutput).

(** The state the loop threads: the model's answers still to come are
    [answers calls], [answers (calls + 1)], ... *)
Record loop_state : Type := mkLoop {
  calls : nat;
  bulletsAttemptedToTailor : nat;
  bulletsSuccessfullyTailored : nat;
  modifiedDataForSheet : bool
}.

Section Loop.

Variable answers : nat -> string.
Variable jdAnalysis : json.
Variable cols : columns.

(** One turn of the [for] loop on [rowData]. *)
Definition tailorRow (st : loop_state) (rowData : list cell)
    : outcome (loop_state * list cell) :=
  if row_selected cols rowData then
    let originalBullet := nth (originalBulletColIndex cols) rowData CUndef in
    let role := json_prop jdAnalysis "jobTitle" in
    match tailorGuards originalBullet jdAnalysis role with
    | Throws => Throws
    | Returns guard =>
        let '(tailoredOutput, calls') :=
          match guard with
          | inl early => (early, calls st)
          | inr bullet => (tailoredFromResponse (answers (calls st)) bullet,
                           S (calls st))
          end in
        Returns (mkLoop calls'
                   (S (bulletsAttemptedToTailor st))
                   (if tailoring_succeeded tailoredOutput
                    then S (bulletsSuccessfullyTailored st)
                    else bulletsSuccessfullyTailored st)
                   true,
                 array_set (tailoredColIndex cols) (tailoredCell tailoredOutput)
                   rowData)
    end
  else Returns (st, rowData).

Fixpoint tailorRows (st : loop_state) (scoringSheetDataRows : list (list cell))
    : outcome (loop_state * list (list cell)) :=
  match scoringSheetDataRows with
  | [] => Returns (st, [])
  | rowData :: rest =>
      match tailorRow st rowData with
      | Throws => Throws
      | Returns (st1, rowData') =>
          match tailorRows st1 rest with
          | Throws => Throws
          | Returns (st2, rest') => Returns (st2, rowData' :: rest')
          end
      end
  end.

End Loop.

Inductive stage2_result : Type :=
| Stage2Failed (message : string)
| Stage2Threw
| Stage2Done (bulletsTailored : nat) (setValues : option (list (list cell))).

(** [runStage2_TailorSelectedBullets]: [jdCell] is cell A2 of the analysis
    sheet, [scoringSheet] all values of the scoring sheet, header row
    first.  [setValues] holds the rows handed to the sheet at the end,
    when anything is handed over. *)
Definition runStage2 (answers : nat -> string) (jdCell : cell)
    (scoringSheet : list (list cell)) : stage2_result :=
  match jdCell with
  | CText jdAnalysisJsonString =>
      if is_empty jdAnalysisJsonString || is_empty (trim jdAnalysisJsonString)
      then Stage2Failed "JD Analysis JSON string not found."
      else
        match JSON_parse jdAnalysisJsonString with
        | None => Stage2Failed "Error accessing Stage 2 data sheets"
        | Some jdAnalysis =>
            if negb (json_truthy jdAnalysis) || negb (prop_truthy jdAnalysis "jobTitle")
            then Stage2Failed "Parsed JD Analysis invalid."
            else
              match scoringSheet with
              | scoringSheetHeaders :: ((_ :: _) as scoringSheetDataRows) =>
                  match find_columns scoringSheetHeaders with
                  | None => Stage2Failed "Required columns missing in scoring sheet"
                  | Some cols =>
                      match tailorRows answers jdAnalysis cols
                              (mkLoop 0 0 0 false) scoringSheetDataRows with
                      | Throws => Stage2Threw
                      | Returns (st, rows') =>
                          Stage2Done (bulletsSuccessfullyTailored st)
                            (if modifiedDataForSheet st then Some rows' else None)
                      end
                  end
              | _ => Stage2Done 0 None
              end
        end
  | _ => Stage2Failed "JD Analysis JSON string not found."
  end.

(** The data rows of the scoring sheet after the stage; the write itself
    can fail ([write_ok]), which the stage logs and survives. *)
Definition rows_after (write_ok : bool) (scoringSheet : list (list cell))
    (result : stage2_result) : list (list cell) :=
  match result with
  | Stage2Done _ (Some rows') => if write_ok then rows' else tl scoringSheet
  | _ => tl scoringSheet
  end.

End Stage2.

(** ** Vocabulary of the statements about the final record *)

Module FinalRecord.
Import Stage3.

(** The items of a section, flat or grouped. *)
Definition all_items (s : section) : list object :=
  match items s with Some l => l | None => [] end
  ++ match subsections s with Some subs => flat_map sub_items subs | None => [] end.

Definition bullet_count (key : string) (it : object) : nat :=
  arr_length (prop it key).

(** The projects of the master record. *)
Definition master_projects (master : resume) : list object :=
  match find_section "PROJECTS" (sections master) with
  | Some s =>
      match subsections s with
      | Some subs => flat_map sub_items subs
      | None => []
      end
  | None => []
  end.

(** No item of the master record has more bullets than the sheet has
    bullet columns (the normaliser reads [NUM_DEDICATED_BULLET_COLUMNS]
    columns per item, see [processAccumulatedSection]). *)
Definition master_within_columns (master : resume) : Prop :=
  forall s it, In s (sections master) -> In it (all_items s) ->
    bullet_count "responsibilities" it <= NUM_DEDICATED_BULLET_COLUMNS
    /\ bullet_count "descriptionBullets" it <= NUM_DEDICATED_BULLET_COLUMNS.

(** The rows of a master item that pass the stage-3 filter, in sheet order. *)
Definition passing (T : string) (identifier : jsv) (rows : list rowobj)
    : list rowobj :=
  filter qualifies (rows_of_item T identifier rows).

(** [it] is an item of a section titled [T] of the final record. *)
Definition in_final (master : resume) (rows : list rowobj) (T : string)
    (it : object) : Prop :=
  exists s, In s (finalSections master rows) /\ title s = T /\ In it (all_items s).

(** When more than [cap] rows of a master item pass the filter, the final
    record holds the item with the texts of [cap] of them, none of which
    scores below a row left out. *)
Definition keeps_highest (master : resume) (rows : list rowobj) (T : string)
    (identifier : jsv) (key : string) (cap : nat) (masterItem : object) : Prop :=
  cap < length (passing T identifier rows) ->
  let kept := keptRows cap T identifier rows in
  let dropped := skipn cap (selectedScoredBullets T identifier rows) in
  Permutation (passing T identifier rows) (kept ++ dropped)
  /\ length kept = cap
  /\ (forall k d, In k kept -> In d dropped ->
        jsnum_ge (score_of k) (score_of d) = true)
  /\ in_final master rows T
       (obj_set key (VArr (map VPrim (map getBulletTextToUse kept))) masterItem).

(** The bullets of [it] under [key] are the texts of rows of the sheet
    that are filed under section [T] and pass the stage-3 filter. *)
Definition from_passing_rows (rows : list rowobj) (T key : string) (it : object)
    : Prop :=
  exists kept,
    prop it key = VArr (map VPrim (map getBulletTextToUse kept))
    /\ Forall (fun r => In r rows
                        /\ cell_is (row_get r "Section") T = true
                        /\ qualifies r = true) kept.

End FinalRecord.

(** ** Vocabulary of the statements about the tailoring fallback *)

Module TailoredText.
Import Stage3.

(** The sentence the model is told to answer when a bullet cannot be
    tailored (TailoringLogic.gs, guideline 7 of the prompt). *)
Definition NotSuitable : string :=
  "Original bullet not suitable for significant tailoring towards this role.".

Definition equal_ignoring_case (a b : string) : Prop :=
  toLowerCase a = toLowerCase b.

Definition begins_ignoring_case (t p : string) : Prop :=
  exists rest, toUpperCase t = (toUpperCase p ++ rest)%string.

(** A cell that holds nothing usable: falsy, or white space only. *)
Definition blank (c : cell) : Prop :=
  cell_truthy c = false \/ trim (cell_String c) = "".

(** The tailored text of an entry can stand in for the original. *)
Definition usable (c : cell) : Prop :=
  ~ blank c
  /\ ~ equal_ignoring_case (cell_String c) NotSuitable
  /\ ~ begins_ignoring_case (cell_String c) "TAILOR_FAIL".

End TailoredText.

(** ** Vocabulary of the statements about stage 1 *)

Module Scoring.
Import Stage1.

Local Open Scope string_scope.

(** What [matchResumeSection] checks before it returns a parsed answer. *)
Definition validated (m : json) : Prop :=
  json_truthy m = true
  /\ is_number (json_prop m "relevanceScore") = true
  /\ is_array (json_prop m "matchingKeywords") = true
  /\ is_string (json_prop m "justification") = true.

(** The error objects [matchResumeSection] builds. *)
Inductive error_object : json -> string -> string -> Prop :=
| error_with_raw (e raw : string) :
    e <> "" -> error_object (matchError e raw) e raw
| error_alone (e : string) :
    e <> "" -> error_object (JObj [("error", JStr e)]) e "".

(** A row of the scoring sheet as stage 1 records it: the cells of some
    unit, scored from some answer of the model. *)
Definition recorded (Number_toString : Q -> string) (jdAnalysis : json)
    (row : list cell) : Prop :=
  exists msg uniqueId sectionTitle identifier text resp cells,
    row = scoredRow uniqueId sectionTitle identifier text cells
    /\ scoredCells Number_toString msg (matchResumeSection resp text jdAnalysis)
       = Returns cells.

Definition rows_all (P : list cell -> Prop) (m : M (list (list cell))) : Prop :=
  forall n rows n', m n = Returns (rows, n') -> Forall P rows.

(** The first four cells of a row: the unit's identifier, section, item
    and text. *)
Definition unit_of (row : list cell) : list cell := firstn 4 row.

(** Two computations end alike: both throw, or both return, having asked
    the model equally often, rows for the same units in the same order. *)
Definition same_units (m m' : M (list (list cell))) : Prop :=
  forall n,
    match m n, m' n with
    | Returns (rows, k), Returns (rows', k') =>
        k = k' /\ map unit_of rows = map unit_of rows'
    | Throws, Throws => True
    | _, _ => False
    end.

End Scoring.

(** ** Vocabulary of the statements about stage 2 *)

Module Stage2Frame.
Import Stage2.

(** What one turn of the loop leaves of a row. *)
Definition row_frame (cols : columns) (before after : list cell) : Prop :=
  (row_selected cols before = false -> after = before)
  /\ (forall j, j <> tailoredColIndex cols ->
        nth j after CUndef = nth j before CUndef).

End Stage2Frame.

(** ** Vocabulary of the statements about the normaliser *)

Module BulletColumns.
Import MasterResumeData.

Local Open Scope string_scope.

(** The columns of a header row that carry a name, each with its name
    and its position in the row. *)
Fixpoint raw_columns (headers : list string) (index : nat) : list (string * nat) :=
  match headers with
  | [] => []
  | header :: rest =>
      if negb (is_empty header) && negb (String.eqb (trim header) "")
      then (trim header, index) :: raw_columns rest (S index)
      else raw_columns rest (S index)
  end.

(** The same columns, each with the key step 2 files it under. *)
Fixpoint columns_from (sectionTitleKey : string) (headers : list string) (index : nat)
    : list (string * nat) :=
  match headers with
  | [] => []
  | header :: rest =>
      if negb (is_empty header) && negb (String.eqb (trim header) "")
      then (jsKeyOf sectionTitleKey (trim header), index)
             :: columns_from sectionTitleKey rest (S index)
      else columns_from sectionTitleKey rest (S index)
  end.

(** No two columns of the header row are filed under the same key. *)
Definition columns_distinct (sectionTitleKey : string) (headers : list string) : Prop :=
  NoDup (map fst (columns_from sectionTitleKey headers 0)).







(** Non-empty text without white space at either end. *)
Definition clean_text (s : string) : Prop := s <> "" /\ trimmed s.

(** A bullet field: when it is an array, it has at most
    [NUM_DEDICATED_BULLET_COLUMNS] elements, each of them clean text. *)
Definition bullets_clean (v : jsv) : Prop :=
  match v with
  | VArr l =>
      length l <= NUM_DEDICATED_BULLET_COLUMNS
      /\ Forall (fun x => exists s, x = VStr s /\ clean_text s) l
  | _ => True
  end.

Definition item_clean (it : object) : Prop :=
  bullets_clean (prop it "responsibilities")
  /\ bullets_clean (prop it "descriptionBullets").

End BulletColumns.

(** ** Vocabulary of the statements about dates *)

Module DateCells.
Import MasterResumeData.

Local Open Scope string_scope.

(** The text the formatter works on: [String(dateCellValue).trim()]. *)
Definition date_text (d : dateCell) : string := trim (dateCell_String d).

(** The calendar date of a cell: the one a [Date] object carries, for any
    other value the one its trimmed text parses to; [None] when there is
    none. *)
Definition date_of (Date_parse : string -> option (nat * Z)) (d : dateCell)
    : option (nat * Z) :=
  match d with
  | DDate t _ => t
  | _ => Date_parse (date_text d)
  end.

(** The word "present" in any mix of cases. *)
Definition says_present (s : string) : bool :=
  String.eqb (toUpperCase s) "PRESENT".

(** [/^\d{4}$/] or [/^[A-Za-z]{3,9}\s\d{4}$/]. *)
Definition keeps_its_shape (s : string) : bool := is_year s || is_month_year s.

(** ["Month YYYY"] for month number [month] (from 0) of year [year]. *)
Definition month_year (month : nat) (year : Z) : string :=
  nth month monthNames "undefined" ++ " " ++ string_of_Z year.

End DateCells.

(** ** Sample data *)

Module Samples.

Definition acme : object :=
  [("jobTitle", VStr "Engineer"); ("company", VStr "Acme Corp");
   ("location", VStr "NYC"); ("startDate", VStr "2020"); ("endDate", VStr "2022");
   ("responsibilities", VStrs ["Built X"; "Led Y"])].

Definition beta : object :=
  [("jobTitle", VStr "Analyst"); ("company", VStr "Beta LLC");
   ("responsibilities", VStrs ["Did Z"])].

Definition master_two_jobs : resume :=
  mkResume [("fullName", VStr "Ada Doe")] "Engineer and analyst."
    [mkSection "EXPERIENCE" (Some [acme; beta]) None].

(** A row of the scoring sheet, column by column. *)
Definition scored (uniqueId sectionTitle identifier text score flag tailored : string)
    : list cell :=
  map CText [uniqueId; sectionTitle; identifier; text; score; ""; ""; flag; tailored].

Definition as_rows (data : list (list cell)) : list rowobj :=
  load_scored_rows (scoring_headers :: data).

(** Stage 1 has scored both jobs; the user has marked nothing. *)
Definition rows_nothing_marked : list rowobj :=
  as_rows
    [scored "EXP_J0_B0" "EXPERIENCE" "Acme Corp" "Built X" "0.90" "" "";
     scored "EXP_J0_B1" "EXPERIENCE" "Acme Corp" "Led Y" "0.50" "" "";
     scored "EXP_J1_B0" "EXPERIENCE" "Beta LLC" "Did Z" "0.70" "" ""].

(** The user has marked one bullet of the first job only. *)
Definition rows_one_marked : list rowobj :=
  as_rows
    [scored "EXP_J0_B0" "EXPERIENCE" "Acme Corp" "Built X" "0.90" "yes" "";
     scored "EXP_J0_B1" "EXPERIENCE" "Acme Corp" "Led Y" "0.50" "" "";
     scored "EXP_J1_B0" "EXPERIENCE" "Beta LLC" "Did Z" "0.70" "" ""].

(** Six marked bullets for one job, more than the cap of five. *)
Definition rows_six_marked : list rowobj :=
  as_rows
    [scored "EXP_J0_B0" "EXPERIENCE" "Acme Corp" "b0" "0.30" "YES" "";
     scored "EXP_J0_B1" "EXPERIENCE" "Acme Corp" "b1" "0.90" "x" "";
     scored "EXP_J0_B2" "EXPERIENCE" "Acme Corp" "b2" "0.10" "1" "";
     scored "EXP_J0_B3" "EXPERIENCE" "Acme Corp" "b3" "0.50" "true" "";
     scored "EXP_J0_B4" "EXPERIENCE" "Acme Corp" "b4" "0.70" " Yes " "";
     scored "EXP_J0_B5" "EXPERIENCE" "Acme Corp" "b5" "0.60" "YES" ""].

Definition entry_padded_tailoring : rowobj :=
  row_object scoring_headers
    (scored "EXP_J0_B0" "EXPERIENCE" "Acme Corp" "Built X" "0.90" "YES" " Led Y ").

Definition entry_lowercase_marker : rowobj :=
  row_object scoring_headers
    (scored "EXP_J0_B0" "EXPERIENCE" "Acme Corp" "Built X" "0.90" "YES"
            "tailor_fail/skip: no answer").

End Samples.

Module Samples2.
Import Samples.

(** The analysis stage 1 stored in the analysis sheet. *)
Definition jd_text : string :=
  ("{" ++ quoted "jobTitle" ++ ": " ++ quoted "Engineer" ++ ", "
   ++ quoted "primaryKeywords" ++ ": [" ++ quoted "Rocq" ++ "], "
   ++ quoted "keyResponsibilities" ++ ": []}")%string.

(** Two scored rows, the first marked by the user. *)
Definition sheet_one_marked : list (list cell) :=
  [scoring_headers;
   scored "EXP_J0_B0" "EXPERIENCE" "Acme Corp" "Built X" "0.90" "yes" "";
   scored "EXP_J0_B1" "EXPERIENCE" "Acme Corp" "Led Y" "0.50" "" ""].

(** The model answers in a JSON envelope inside a code fence. *)
Definition fenced_envelope : string :=
  ("```json" ++ String (ascii_of_nat 10) ""
   ++ "{" ++ quoted "rewritten_bullet" ++ ": " ++ quoted "Built X in Rocq" ++ "}"
   ++ String (ascii_of_nat 10) "" ++ "```")%string.

(** The model answers in plain text inside a code fence. *)
Definition fenced_plain : string :=
  ("```" ++ String (ascii_of_nat 10) "" ++ "Built X in Rocq"
   ++ String (ascii_of_nat 10) "" ++ "```")%string.

End Samples2.

Module Samples1.
Import Samples.

(** [Number::toString] on the whole numbers below [10^21]; the worked
    examples print no other number. *)
Definition show_whole (q : Q) : string := string_of_Z (Qfloor q).

(** The job-description analysis the scorer is given. *)
Definition jd_sample : json :=
  JObj [("jobTitle", JStr "Engineer");
        ("primaryKeywords", JArr [JStr "Rocq"]);
        ("keyResponsibilities", JArr [])].

Definition master_acme : resume :=
  mkResume [("fullName", VStr "Ada Doe")] ""
    [mkSection "EXPERIENCE" (Some [acme]) None].

(** A well-formed answer of the model with the given score. *)
Definition answer_scored (score : string) : string :=
  ("{" ++ quoted "relevanceScore" ++ ": " ++ score ++ ", "
   ++ quoted "matchingKeywords" ++ ": [" ++ quoted "Rocq" ++ "], "
   ++ quoted "justification" ++ ": " ++ quoted "Close match." ++ "}")%string.

(** The model fails on the first bullet and answers well on the second. *)
Definition answers_fail_then_score (call : nat) : string :=
  match call with
  | O => "ERROR: API Call Failed (Groq) - HTTP 429"
  | _ => answer_scored "0.8"
  end.

End Samples1.

(** ** Sample sheet rows for the normaliser *)

Module SamplesN.
Import MasterResumeData.

Local Open Scope string_scope.

Definition experience_headers : list string :=
  ["Company"; "JobTitle"; "Location"; "StartDate"; "EndDate";
   "Responsibility1"; "Responsibility2"; "Responsibility3"].

(** The third bullet column is blank. *)
Definition acme_row : list string :=
  ["Acme Corp"; "Engineer"; "NYC"; "2020"; "2022"; "Built X"; "Led Y"; ""].

(** The first and the last bullet columns are blank. *)
Definition beta_row : list string :=
  ["Beta LLC"; "Analyst"; "Boston"; "2018-06"; ""; "  "; " Did Z "; ""].



(** A master sheet with an experience section of two rows. *)
Definition text_row (cells : list string) : list cell := map CText cells.

Definition master_sheet : list (list cell) :=
  [ text_row ["EXPERIENCE"];
    text_row experience_headers;
    text_row acme_row;
    text_row beta_row ].

(** What the normaliser makes of [master_sheet]. *)
Definition acme_job : object :=
  [("company", VStr "Acme Corp"); ("jobTitle", VStr "Engineer");
   ("location", VStr "NYC"); ("startDate", VStr "2020"); ("endDate", VStr "2022");
   ("responsibilities", VStrs ["Built X"; "Led Y"])].

Definition beta_job : object :=
  [("company", VStr "Beta LLC"); ("jobTitle", VStr "Analyst");
   ("location", VStr "Boston"); ("startDate", VStr "June 2018");
   ("endDate", VStr ""); ("responsibilities", VStrs ["Did Z"])].

Definition normalised_master : resume :=
  mkResume [] "" [mkSection "EXPERIENCE" (Some [acme_job; beta_job]) None].





End SamplesN.

(** ** Notions the proofs use *)

(** A comparator of the shape [(a, b) => key(b) - key(a)], and the order
    it sorts into. *)
Definition desc_by_key {A : Type} (key : A -> jsnum) (a b : A) : jsnum :=
  jsnum_sub (key b) (key a).

Definition key_ge {A : Type} (key : A -> jsnum) (a b : A) : Prop :=
  jsnum_ge (key a) (key b) = true.

(** Text that is empty or begins with a character that is not white
    space. *)
Definition no_leading_ws (s : string) : Prop :=
  match s with
  | EmptyString => True
  | String c _ => is_ws c = false
  end.

Module Normalised.
Import MasterResumeData BulletColumns FinalRecord.

Local Open Scope string_scope.

(** What the loop over the bullet columns pushes for one numbered column. *)
Definition pushed (field : option string) : list string :=
  match field with
  | Some s =>
      if negb (is_empty s) && negb (String.eqb (trim s) "") then [trim s] else []
  | None => []
  end.

(** The dated item of a flat section, before the bullets are collected. *)
Definition dated (Date_parse : string -> option (nat * Z))
    (mapped : list (string * string)) : object :=
  formatField Date_parse "endDate" true
    (formatField Date_parse "startDate" false
       (map (fun '(k, v) => (k, VStr v)) mapped)).

Definition is_bullet_key (k : string) : Prop :=
  k = "responsibilities" \/ k = "descriptionBullets".

(** A field of an item under construction: text, or an array of texts
    that is short and clean when it is filed under a bullet key. *)
Definition field_ok (kv : string * jsv) : Prop :=
  (exists s, snd kv = VStr s)
  \/ (exists l, snd kv = VStrs l
                /\ (is_bullet_key (fst kv) ->
                    length l <= NUM_DEDICATED_BULLET_COLUMNS /\ Forall clean_text l)).

Definition fields_ok (it : object) : Prop := Forall field_ok it.

(** Every item of a section, flat or grouped, has clean bullets. *)
Definition section_clean (s : section) : Prop :=
  forall it, In it (all_items s) -> item_clean it.

(** The header row files no two of its columns under the same key, by
    evaluation. *)
Ltac distinct_keys :=
  unfold columns_distinct; cbv;
  repeat (constructor;
          [let Hin := fresh "Hin" in
           intro Hin; cbv in Hin; intuition discriminate |]);
  constructor.

End Normalised.

(** ** Vocabulary of the statements about the shape of the final record *)

Module FinalShape.
Import Stage3 FinalRecord.

(** The title as the last steps of stage 3 compare it. *)
Definition upper_title (s : section) : string := toUpperCase (title s).

(** The place of a section in [desiredFinalSectionOrder]; [-1] when its
    title is not there. *)
Definition order_index (s : section) : Z :=
  indexOf_from 0 desiredFinalSectionOrder (upper_title s).

Definition in_order (a b : section) : Prop := (order_index a <= order_index b)%Z.

(** One turn of [desiredFinalSectionOrder.forEach]: what is pushed for
    [sectionTitle]. *)
Definition static_for (master : resume) (dynamic : list section)
    (sectionTitle : string) : list section :=
  if negb (includes_str (map (fun s => toUpperCase (title s)) dynamic)
             (toUpperCase sectionTitle))
  then
    match find (fun s => String.eqb (toUpperCase (title s)) (toUpperCase sectionTitle))
               (sections master) with
    | Some staticSectionData =>
        if negb (isStaticSectionEffectivelyEmpty staticSectionData)
        then [staticSectionData] else []
    | None => []
    end
  else [].

(** The structure stage 3 files for a selected skill row. *)
Definition tech_structure (master : resume) (row : rowobj) : object :=
  snd (resolve_tech master row).

End FinalShape.

(** ** Vocabulary of further statements about stage 2 *)

Module Stage2Counts.
Import Stage2.

(** The data rows of the scoring sheet that the loop of stage 2 treats:
    those whose flag reads as selected, when the header row has the five
    columns the stage looks for. *)
Definition selected_rows (scoringSheet : list (list cell)) : list (list cell) :=
  match scoringSheet with
  | headers :: data =>
      match find_columns headers with
      | Some cols => filter (row_selected cols) data
      | None => []
      end
  | [] => []
  end.

End Stage2Counts.

(** ** Vocabulary of the statements about split cells and section titles *)

Module Lines.
Import MasterResumeData.

(** LF or CR. *)
Definition is_break (c : ascii) : bool :=
  Nat.eqb (code c) 10 || Nat.eqb (code c) 13.

Definition no_break (s : string) : Prop :=
  all_chars (fun c => negb (is_break c)) s = true.

(** Neither a line break nor a backslash. *)
Definition plain_char (c : ascii) : bool :=
  negb (is_break c) && negb (Nat.eqb (code c) 92).

Definition plain (s : string) : Prop := all_chars plain_char s = true.

(** A line as [smartSplitMultiLine] returns it. *)
Definition clean_line (s : string) : Prop := s <> "" /\ trimmed s /\ no_break s.

Definition LF : string := String (ascii_of_nat 10) "".

(** Text of ASCII characters only. *)
Definition ascii_text (s : string) : Prop :=
  all_chars (fun c => Nat.ltb (code c) 128) s = true.

(** The eight titles the parser knows. *)
Definition canonical_titles : list string :=
  ["PERSONAL INFO"; "SUMMARY"; "EXPERIENCE"; "EDUCATION"; "PROJECTS";
   "TECHNICAL SKILLS & CERTIFICATES"; "LEADERSHIP & UNIVERSITY INVOLVEMENT";
   "HONORS & AWARDS"].

(** The title is decided by the trimmed, upper-cased text alone. *)
Definition decided_by (upperText : string) : option string :=
  if startsWith upperText "PERSONAL INFO" then Some "PERSONAL INFO"
  else if startsWith upperText "SUMMARY" then Some "SUMMARY"
  else if startsWith upperText "EXPERIENCE" then Some "EXPERIENCE"
  else if startsWith upperText "EDUCATION" then Some "EDUCATION"
  else if startsWith upperText "PROJECTS" then Some "PROJECTS"
  else if startsWith upperText "TECHNICAL SKILLS" || includes upperText "CERTIFICATES"
  then Some "TECHNICAL SKILLS & CERTIFICATES"
  else if startsWith upperText "LEADERSHIP" || includes upperText "INVOLVEMENT"
  then Some "LEADERSHIP & UNIVERSITY INVOLVEMENT"
  else if startsWith upperText "HONORS" || startsWith upperText "AWARDS"
  then Some "HONORS & AWARDS"
  else None.

End Lines.

(** ** Vocabulary of the statements about the shape of the master record *)

Module RecordShape.
Import MasterResumeData.

Local Open Scope string_scope.

(** The titles whose sections hold their items directly. *)
Definition flat_titles : list string :=
  ["EXPERIENCE"; "EDUCATION"; "LEADERSHIP & UNIVERSITY INVOLVEMENT";
   "HONORS & AWARDS"].

(** A section as the parser builds it: flat with [items] only; PROJECTS
    with the one subsection "General Projects"; skills with subsections
    only, their names all different and none of them empty. *)
Definition section_shaped (s : section) : Prop :=
  (In (title s) flat_titles
   /\ (exists l, items s = Some l) /\ subsections s = None)
  \/ (title s = "PROJECTS" /\ items s = None
      /\ exists l, subsections s = Some [mkSubsection "General Projects" l])
  \/ (title s = "TECHNICAL SKILLS & CERTIFICATES" /\ items s = None
      /\ exists subs, subsections s = Some subs
                      /\ NoDup (map sub_name subs)
                      /\ Forall (fun ss => sub_items ss <> []) subs).

Definition record_shaped (secs : list section) : Prop :=
  NoDup (map title secs) /\ Forall section_shaped secs.

Definition out_shaped (out : output) : Prop :=
  record_shaped (out_sections out) /\ trimmed (out_summary out).

End RecordShape.

(** ** TailoringLogic.gs: [analyzeJobDescription] *)

Module JobAnalysis.

(** What [analyzeJobDescription] makes of the model's answer: the parsed
    object when it has a [jobTitle] and an array of
    [keyResponsibilities], an error object otherwise. *)
Definition analysisFromResponse (groqResponseString : string) : json :=
  if is_answer groqResponseString then
    let cleanedResponse := strip_code_fences (trim groqResponseString) in
    match JSON_parse cleanedResponse with
    | Some parsedJD =>
        if json_truthy parsedJD
           && match json_prop parsedJD "jobTitle" with Some _ => true | None => false end
           && is_array (json_prop parsedJD "keyResponsibilities")
        then parsedJD
        else matchError "Groq output structure mismatch for JD analysis." cleanedResponse
    | None =>
        matchError "Failed to parse Groq JSON output for JD analysis." groqResponseString
    end
  else matchError "Groq API call failed for JD analysis." groqResponseString.

(** [analyzeJobDescription], given the answer [callGroq] returns if
    called. *)
Definition analyzeJobDescription (groqResponseString : string)
    (jobDescriptionText : string) : json :=
  if is_empty jobDescriptionText || is_empty (trim jobDescriptionText)
  then JObj [("error", JStr "Input job description text is empty.")]
  else analysisFromResponse groqResponseString.

(** The test of stage 1 on the analysis: [!jdAnalysis || jdAnalysis.error]. *)
Definition analysis_failed (jdAnalysis : json) : bool :=
  negb (json_truthy jdAnalysis) || prop_truthy jdAnalysis "error".

End JobAnalysis.

(** ** TailoringLogic.gs: [generateTailoredSummary] *)

Module SummaryWriter.

(** What [generateTailoredSummary] makes of the model's answer. *)
Definition summaryFromResponse (groqResponseString : string) : string :=
  if is_answer groqResponseString then
    let summaryText := trim groqResponseString in
    let potentialJson := strip_code_fences summaryText in
    match JSON_parse potentialJson with
    | Some parsedResponse =>
        match json_prop parsedResponse "professionalSummary" with
        | Some (JStr professionalSummary) =>
            if json_truthy parsedResponse && negb (is_empty professionalSummary)
            then trim professionalSummary
            else summaryText
        | _ => summaryText
        end
    | None => summaryText
    end
  else "ERROR: Groq API call failed during summary generation.".

(** The guards and the construction of the prompt: an early answer, a
    [TypeError], or (with [None]) the go-ahead for the call. *)
Definition summaryGuards (topMatchedExperiencesHighlights : string)
    (jdAnalysisResults : json) (candidateFullName : jsv) : outcome (option string) :=
  if is_empty topMatchedExperiencesHighlights
     || is_empty (trim topMatchedExperiencesHighlights)
  then Returns (Some "ERROR: Highlights empty.")
  else if negb (json_truthy jdAnalysisResults)
          || negb (prop_truthy jdAnalysisResults "jobTitle")
  then Returns (Some "ERROR: Invalid JD analysis.")
  else
    match candidateFullName with
    | VPrim (CText name) =>
        if is_empty name || is_empty (trim name)
        then Returns (Some "ERROR: Candidate name empty.")
        else if joinable (json_prop jdAnalysisResults "keyResponsibilities")
                && joinable (json_prop jdAnalysisResults "primaryKeywords")
                && joinable (json_prop jdAnalysisResults "requiredTechnicalSkills")
        then Returns None
        else Throws
    | VPrim c =>
        if cell_truthy c then Throws else Returns (Some "ERROR: Candidate name empty.")
    | _ => Throws
    end.

Definition generateTailoredSummary (groqResponseString : string)
    (topMatchedExperiencesHighlights : string) (jdAnalysisResults : json)
    (candidateFullName : jsv) : outcome string :=
  match summaryGuards topMatchedExperiencesHighlights jdAnalysisResults
          candidateFullName with
  | Throws => Throws
  | Returns (Some early) => Returns early
  | Returns None => Returns (summaryFromResponse groqResponseString)
  end.

End SummaryWriter.

(** ** GroqService.js: [callGroq] *)

Module GroqService.

(** What [UrlFetchApp.fetch] does: it throws, or it returns a response
    with a code and a body. *)
Inductive fetched : Type :=
| FetchThrew (message : string)
| Fetched (responseCode : nat) (responseBody : string).

(** [x?.k]. *)
Definition opt_prop (x : option json) (k : string) : option json :=
  match x with
  | Some v => json_prop v k
  | None => None
  end.

(** [choices[0]]. *)
Definition first_of (choices : json) : option json :=
  match choices with
  | JArr (x :: _) => Some x
  | JStr (String c _) => Some (JStr (String c ""))
  | JObj o => obj_get "0" o
  | _ => None
  end.

(** [jsonResponse.choices && jsonResponse.choices[0]?.message?.content],
    [None] when it is falsy. *)
Definition message_content (jsonResponse : json) : option json :=
  match json_prop jsonResponse "choices" with
  | Some choices =>
      if json_truthy choices then
        match opt_prop (opt_prop (first_of choices) "message") "content" with
        | Some content => if json_truthy content then Some content else None
        | None => None
        end
      else None
  | None => None
  end.

Section CallGroq.

(** Left to the platform: how numbers and values are written, and the
    messages of the errors it throws. *)
Variable Number_toString : Q -> string.
Variable JSON_stringify : json -> string.
Variable SyntaxError_message : string -> string.
Variable TypeError_message : json -> string.

Definition exception (message : string) : string :=
  ("ERROR: Exception during Groq API call - " ++ message)%string.

(** The branch for response code 200. *)
Definition on200 (responseBody : string) : string :=
  match JSON_parse responseBody with
  | None => exception (SyntaxError_message responseBody)
  | Some JNull => exception (TypeError_message JNull)
  | Some jsonResponse =>
      match message_content jsonResponse with
      | Some (JStr generatedText) => trim generatedText
      | Some content => exception (TypeError_message content)
      | None =>
          match json_prop jsonResponse "error" with
          | Some error =>
              if json_truthy error then
                ("ERROR: Groq API Error - "
                 ++ match json_prop error "message" with
                    | Some m =>
                        if json_truthy m then Stage1.json_template Number_toString m
                        else JSON_stringify error
                    | None => JSON_stringify error
                    end)%string
              else "ERROR: Unexpected API Response Structure from Groq (HTTP 200)"
          | None => "ERROR: Unexpected API Response Structure from Groq (HTTP 200)"
          end
      end
  end.

(** The branch for any other response code. *)
Definition onFailure (responseCode : nat) (responseBody : string) : string :=
  let errorMessage :=
    ("ERROR: API Call Failed (Groq) - HTTP " ++ string_of_nat responseCode)%string in
  match JSON_parse responseBody with
  | Some errorJson =>
      match json_prop errorJson "error" with
      | Some error =>
          if json_truthy error then
            match json_prop error "message" with
            | Some m =>
                if json_truthy m
                then (errorMessage ++ ": " ++ Stage1.json_template Number_toString m)%string
                else errorMessage
            | None => errorMessage
            end
          else errorMessage
      | None => errorMessage
      end
  | None => errorMessage
  end.

(** [callGroq]: [apiKey] is the script property, [None] when it is not
    set; [fetch] is what the request does. *)
Definition callGroq (apiKey : option string) (fetch : fetched) : string :=
  match apiKey with
  | None => "ERROR: Groq API Key Missing"
  | Some key =>
      if is_empty key then "ERROR: Groq API Key Missing"
      else
        match fetch with
        | FetchThrew message => exception message
        | Fetched responseCode responseBody =>
            if Nat.eqb responseCode 200 then on200 responseBody
            else onFailure responseCode responseBody
        end
  end.

End CallGroq.

End GroqService.

(** ** Vocabulary: calls that give no answer, fenced answers *)

Module Calls.

Import GroqService.

(** The request gives no response with code 200: the key is not set,
    the request throws, or the service answers with another code. *)
Definition no_response (apiKey : option string) (fetch : fetched) : bool :=
  match apiKey with
  | None => true
  | Some key =>
      is_empty key
      || match fetch with
         | FetchThrew _ => true
         | Fetched responseCode _ => negb (Nat.eqb responseCode 200)
         end
  end.

(** A text in a Markdown code fence, with and without the language. *)
Definition fenced_json (s : string) : string :=
  ("```json" ++ Lines.LF ++ s ++ Lines.LF ++ "```")%string.

Definition fenced (s : string) : string :=
  ("```" ++ Lines.LF ++ s ++ Lines.LF ++ "```")%string.

(** A text that neither starts nor ends with a fence. *)
Definition unfenced (s : string) : Prop :=
  startsWith s "```" = false /\ endsWith s "```" = false.

End Calls.

(** ** Vocabulary: an analysis the scorer refuses *)

Module Refused.

Import Stage1.

(** The test [matchResumeSection] and [tailorBulletPoint] put to the
    analysis: [!jd || !jd.primaryKeywords || !jd.jobTitle]. *)
Definition unusable (jdAnalysisResults : json) : bool :=
  negb (json_truthy jdAnalysisResults)
  || negb (prop_truthy jdAnalysisResults "primaryKeywords")
  || negb (prop_truthy jdAnalysisResults "jobTitle").

(** A computation that never reads an answer of the model. *)
Definition asks_nothing {A : Type} (m : M A) : Prop :=
  forall n a n', m n = Returns (a, n') -> n' = n.

(** A row with score 0.00 and no keywords. *)
Definition unscored (row : list cell) : Prop :=
  nth 4 row CUndef = CText "0.00" /\ nth 5 row CUndef = CText "".

End Refused.

(** ** Worked examples: answers to the analysis *)

Module SamplesA.
Import Samples Samples1.

(** An analysis without a job title and without keywords. *)
Definition answer_untitled : string :=
  ("{" ++ quoted "jobTitle" ++ ": " ++ quoted "" ++ ", "
   ++ quoted "keyResponsibilities" ++ ": []}")%string.

Definition jd_untitled : json :=
  JObj [("jobTitle", JStr ""); ("keyResponsibilities", JArr [])].

(** A summary in the envelope the prompt asks for. *)
Definition answer_summary : string :=
  ("{" ++ quoted "professionalSummary" ++ ": "
   ++ quoted " Engineer with proofs. " ++ "}")%string.

End SamplesA.

(** ** Vocabulary: items stage 1 can score *)

Module Scorable.
Import Stage1 MasterResumeData FinalRecord.

Local Open Scope string_scope.

(** The keys under which the normaliser files arrays. *)
Definition array_keys : list string :=
  ["responsibilities"; "descriptionBullets"; "technologies"; "relevantCoursework"].

(** A field of a processed item: text, or an array of texts under one of
    the array keys. *)
Definition field_typed (kv : string * jsv) : Prop :=
  (exists s, snd kv = VStr s)
  \/ (exists l, snd kv = VStrs l /\ In (fst kv) array_keys).

Definition fields_typed (it : object) : Prop := Forall field_typed it.

(** A step that does not throw. *)
Definition quiet {A : Type} (o : outcome A) : Prop := exists a, o = Returns a.

Definition bullets_quiet (v : jsv) : Prop :=
  Forall (fun b => quiet (bulletText b)) (array_of v).

(** An item on which none of the reads of the scoring loops throws. *)
Definition scorable (it : object) : Prop :=
  bullets_quiet (prop it "responsibilities")
  /\ bullets_quiet (prop it "descriptionBullets")
  /\ Forall (fun spr =>
               match spr with
               | VObj o => bullets_quiet (prop o "responsibilities")
               | _ => True
               end)
            (array_of (prop it "subProjectsOrRoles"))
  /\ quiet (nameOrNoName (prop it "projectName"))
  /\ quiet (techUnit it).

(** Every item of a section, flat or grouped. *)
Definition items_all (P : object -> Prop) (s : section) : Prop :=
  forall it, In it (all_items s) -> P it.

(** A computation that returns, whatever has been asked before. *)
Definition never_throws {A : Type} (m : M A) : Prop :=
  forall n, exists a n', m n = Returns (a, n').

End Scorable.

(** ** The scanning loop, one row at a time

    The loop of [getMasterResumeData] looks ahead for the header row of
    a tabular section.  Read one row at a time, it is a machine with two
    modes: the ordinary one, and the one after the title of a tabular
    section, in which the next row that is not blank decides the
    headers. *)

Module RowAtATime.
Import MasterResumeData.

Inductive mode : Type :=
| Normal (st : scan_state)
| Awaiting (key : string) (out : output).

Section Step.

Variable Date_parse : string -> option (nat * Z).

(** A row that is no section title, in the ordinary mode. *)
Definition data_row (st : scan_state) (row : list cell) : scan_state :=
  match currentSectionTitleKey st with
  | None => st
  | Some current =>
      if rowIsEffectivelyBlank row then st
      else if String.eqb current "SUMMARY" then
        let text := summaryTextInRow row in
        if is_empty text then st
        else mkScan (currentSectionTitleKey st)
               (currentSectionRawData st ++ [[text]])%list
               (currentSectionHeaders st) (resumeOutput st)
      else if isTabularSection current
              && Nat.eqb (length (currentSectionHeaders st)) 0
              && Nat.ltb 1 (length (currentSectionRawData st))
      then mkScan None (currentSectionRawData st)
             (currentSectionHeaders st) (resumeOutput st)
      else mkScan (currentSectionTitleKey st)
             (currentSectionRawData st ++ [map cellAsString row])%list
             (currentSectionHeaders st) (resumeOutput st)
  end.

(** A row in the ordinary mode. *)
Definition normal_row (st : scan_state) (row : list cell) : mode :=
  match getCanonicalSectionTitle (firstCellText row) with
  | Some key =>
      let out := flush Date_parse st in
      if isTabularSection key then Awaiting key out
      else Normal (mkScan (Some key) [] [] out)
  | None => Normal (data_row st row)
  end.

Definition step (m : mode) (row : list cell) : mode :=
  match m with
  | Normal st => normal_row st row
  | Awaiting key out =>
      if rowIsEffectivelyBlank row then m
      else
        match getCanonicalSectionTitle (firstCellText row) with
        | None => Normal (mkScan (Some key) [] (map cellTextOrEmpty row) out)
        | Some _ => normal_row (mkScan (Some key) [] [] out) row
        end
  end.

(** The state of the loop when the rows are used up. *)
Definition finish (m : mode) : scan_state :=
  match m with
  | Normal st => st
  | Awaiting key out => mkScan (Some key) [] [] out
  end.

End Step.

(** The rows of a sheet that are not blank. *)
Definition without_blank_rows (allData : list (list cell)) : list (list cell) :=
  filter (fun row => negb (rowIsEffectivelyBlank row)) allData.

End RowAtATime.

(** ** Worked example: a sheet with blank rows *)

Module SamplesR.
Import MasterResumeData SamplesN.

Local Open Scope string_scope.

(** [master_sheet] with blank rows before the title, between the title
    and the headers, and between the two jobs. *)
Definition sheet_with_gaps : list (list cell) :=
  [ [];
    text_row ["EXPERIENCE"];
    text_row [""; "  "];
    [CUndef; CText ""];
    text_row experience_headers;
    text_row acme_row;
    text_row ["   "];
    text_row beta_row;
    [] ].

End SamplesR.

(** ** Vocabulary: the sheet of stage 1 in the hands of the user *)

Module Marked.
Import Stage3.

Local Open Scope string_scope.

(** A row that agrees with [row] in the seven columns stage 1 fills. *)
Definition marked_copy (row row' : list cell) : Prop :=
  forall j, j < 7 -> nth j row' CUndef = nth j row CUndef.

(** Data rows made of the rows stage 1 wrote: each agrees with one of
    them in the seven columns; rows may be marked, tailored, removed,
    repeated or moved. *)
Definition marked_sheet (data data' : list (list cell)) : Prop :=
  Forall (fun row' => exists row, In row data /\ marked_copy row row') data'.

(** A row of the skills section, or a row whose item identifier is
    truthy. *)
Definition identified (row : list cell) : Prop :=
  cell_is (nth 1 row CUndef) tech_title = true
  \/ cell_truthy (nth 2 row CUndef) = true.

(** A job that has no company; stage 1 scores its bullet. *)
Definition job_nameless : object :=
  [("company", VStr ""); ("jobTitle", VStr "Engineer");
   ("responsibilities", VStrs ["Built X"])].

Definition master_nameless : resume :=
  mkResume [] "" [mkSection "EXPERIENCE" (Some [job_nameless]) None].

End Marked.

(** ** Vocabulary: inputs on which stage 2 reads without a [TypeError] *)

Module Stage2Inputs.
Import Stage2.

Local Open Scope string_scope.

(** The three lists of the analysis are arrays or falsy. *)
Definition lists_joinable (jdAnalysis : json) : bool :=
  joinable (json_prop jdAnalysis "keyResponsibilities")
  && joinable (json_prop jdAnalysis "primaryKeywords")
  && joinable (json_prop jdAnalysis "requiredTechnicalSkills").

(** The job title is text or falsy. *)
Definition title_text (jdAnalysis : json) : bool :=
  match json_prop jdAnalysis "jobTitle" with
  | Some (JStr _) => true
  | Some v => negb (json_truthy v)
  | None => true
  end.

(** Cell A2 of the analysis sheet, when it parses, holds such an
    analysis. *)
Definition analysis_cell_ok (jdCell : cell) : bool :=
  match jdCell with
  | CText jdAnalysisJsonString =>
      match JSON_parse jdAnalysisJsonString with
      | Some jdAnalysis => lists_joinable jdAnalysis && title_text jdAnalysis
      | None => true
      end
  | _ => true
  end.

(** A bullet cell that is text or falsy. *)
Definition bullet_readable (c : cell) : bool :=
  match c with
  | COther true _ => false
  | _ => true
  end.

(** The bullet cells of the rows the loop treats. *)
Definition bullet_cells (scoringSheet : list (list cell)) : list cell :=
  match scoringSheet with
  | headers :: data =>
      match find_columns headers with
      | Some cols =>
          map (fun rowData => nth (originalBulletColIndex cols) rowData CUndef)
            (filter (row_selected cols) data)
      | None => []
      end
  | [] => []
  end.

(** A row of the scoring sheet that is selected and has text to tailor. *)
Definition selected_with_text (cols : columns) (rowData : list cell) : bool :=
  row_selected cols rowData
  && match nth (originalBulletColIndex cols) rowData CUndef with
     | CText bullet => negb (is_empty bullet) && negb (is_empty (trim bullet))
     | _ => false
     end.

(** An analysis that passes the checks of stage 1 and of stage 2 and has
    a truthy value that is no array for one of its three lists. *)
Definition scalar_list (jdAnalysis : json) : bool :=
  json_truthy jdAnalysis
  && prop_truthy jdAnalysis "primaryKeywords"
  && match json_prop jdAnalysis "jobTitle" with
     | Some (JStr title) => negb (is_empty title) && negb (is_empty (trim title))
     | _ => false
     end
  && negb (lists_joinable jdAnalysis).

(** The analysis of [jd_text] with its keywords as one text. *)
Definition jd_text_scalar : string :=
  ("{" ++ quoted "jobTitle" ++ ": " ++ quoted "Engineer" ++ ", "
   ++ quoted "primaryKeywords" ++ ": " ++ quoted "Rocq, proofs" ++ ", "
   ++ quoted "keyResponsibilities" ++ ": []}")%string.

Definition threw (result : stage2_result) : bool :=
  match result with
  | Stage2Threw => true
  | _ => false
  end.

End Stage2Inputs.

(** ** Vocabulary: the rows of PERSONAL INFO *)

Module PersonalInfo.
Import MasterResumeData.

Local Open Scope string_scope.

(** A row with a label and a value whose label, in lower case and
    without white space, contains [name]: the first test of the loop. *)
Definition name_row (row : list string) : bool :=
  let keyRaw := trim (nth 0 row "") in
  let value := trim (nth 1 row "") in
  negb (is_empty keyRaw || is_empty value)
  && (includes (remove_ws (toLowerCase keyRaw)) "fullname"
      || includes (remove_ws (toLowerCase keyRaw)) "name").

End PersonalInfo.

(** ** Vocabulary: a section read in more than one block *)

Module Blocks.
Import MasterResumeData.

Local Open Scope string_scope.

(** The section object of step 4: the section of the record with the
    title, or a new one. *)
Definition section_or_new (sectionTitleKey : string) (secs : list section) : section :=
  match find_section sectionTitleKey secs with
  | Some sectionObject => sectionObject
  | None => emptySection sectionTitleKey
  end.

(** A first block of skills, and a later block of certificates. *)
Definition skills_headers : list string := ["CategoryName"; "SkillItem"].

Definition skills_rows : list (list string) := [["Languages"; "Python"]].

Definition certificate_headers : list string := ["CategoryName"; "SkillItem"; "Issuer"].

Definition certificate_rows : list (list string) := [["Certificates"; "AWS"; "Amazon"]].

(** The record after the first block. *)
Definition after_skills : output :=
  mkOutput [] ""
    [mkSection "TECHNICAL SKILLS & CERTIFICATES" None
       (Some [mkSubsection "Languages"
                [[("skill", VStr "Python"); ("details", VStr "")]]])].

End Blocks.

(** ** Vocabulary: the tailored text as stage 3 reads it back *)

Module ReadBack.
Import Stage3.

Local Open Scope string_scope.

(** The stored text that stage 3 does not use: blank, a text that starts
    with [TAILOR_FAIL] in any case, or the sentence for a bullet that is
    not suitable, in any case. *)
Definition discarded (stored : string) : bool :=
  is_empty stored
  || startsWith (toUpperCase stored) "TAILOR_FAIL"
  || String.eqb (toLowerCase stored) not_suitable_sentinel.

End ReadBack.

(** ** Vocabulary: two sheets that differ in the tailored column only *)

Module Rerun.
Import Stage2.

(** Two rows with the same cells outside the tailored column. *)
Definition same_but_tailored (cols : columns) (r r' : list cell) : Prop :=
  forall j, j <> tailoredColIndex cols -> nth j r CUndef = nth j r' CUndef.

(** Two rows with the same cells. *)
Definition same_cells (r r' : list cell) : Prop :=
  forall j, nth j r CUndef = nth j r' CUndef.

(** Two rows after the stage: the same outside the tailored column, and
    the same altogether when the row is selected. *)
Definition rows_agree (cols : columns) (r r' : list cell) : Prop :=
  same_but_tailored cols r r'
  /\ (row_selected cols r = true -> same_cells r r').

(** Two runs of the stage end alike. *)
Definition results_agree (cols : columns) (a b : stage2_result) : Prop :=
  match a, b with
  | Stage2Failed m, Stage2Failed m' => m = m'
  | Stage2Threw, Stage2Threw => True
  | Stage2Done n w, Stage2Done n' w' =>
      n = n'
      /\ match w, w' with
         | Some rows, Some rows' => Forall2 (rows_agree cols) rows rows'
         | None, None => True
         | _, _ => False
         end
  | _, _ => False
  end.

End Rerun.

(** ** Vocabulary: the units of a master record and their rows *)

Module Units.
Import Stage1 Scoring.

Local Open Scope string_scope.

(** What stage 1 scores one at a time: a bullet, a skill or a
    certificate, with the messages of its loop and what its row says of
    it. *)
Record unit : Type := mkUnit {
  unit_messages : messages;
  unit_uniqueId : string;
  unit_sectionTitle : string;
  unit_itemIdentifier : cell;
  unit_text : string
}.

(** The text of a bullet that is scored: text that is not blank. *)
Definition scored_text (b : jsv) : option string :=
  match b with
  | VPrim (CText s) => if is_empty (trim s) then None else Some s
  | _ => None
  end.

(** The units among the bullets of one item, each bullet counted at its
    place in the list, blank or not. *)
Fixpoint bullet_units (msg : messages) (uniqueIdOf : string -> nat -> string)
    (sectionTitle : string) (itemIdentifier : cell) (bulletIndex : nat)
    (bullets : list (string * jsv)) : list unit :=
  match bullets with
  | [] => []
  | (tag, b) :: rest =>
      (match scored_text b with
       | Some text =>
           [mkUnit msg (uniqueIdOf tag bulletIndex) sectionTitle itemIdentifier text]
       | None => []
       end
       ++ bullet_units msg uniqueIdOf sectionTitle itemIdentifier (S bulletIndex) rest)%list
  end.

Definition experience_units (master : resume) : list unit :=
  match find_section "EXPERIENCE" (sections master) with
  | Some {| items := Some jobs |} =>
      concat
        (indexed
           (fun job jobIndex =>
              bullet_units bulletMessages
                (fun _ bulletIndex =>
                   "EXP_J" ++ string_of_nat jobIndex ++ "_B" ++ string_of_nat bulletIndex)
                "EXPERIENCE"
                (jsv_cell (jsv_or (prop job "company")
                                  (VStr ("ExperienceItem" ++ string_of_nat jobIndex))))
                0 (tagged "" (array_of (prop job "responsibilities"))))
           0 jobs)
  | _ => []
  end.

(** The name of a project in its identifier. *)
Definition project_name (project : object) : string :=
  match nameOrNoName (prop project "projectName") with
  | Returns name => name
  | Throws => ""
  end.

Definition project_units (master : resume) : list unit :=
  match find_section "PROJECTS" (sections master) with
  | Some {| subsections := Some subs |} =>
      concat
        (indexed
           (fun subsection subIndex =>
              concat
                (indexed
                   (fun project projectIndex =>
                      bullet_units bulletMessages
                        (fun tag bulletIndex =>
                           ("PROJ_S" ++ string_of_nat subIndex ++ "_P"
                            ++ string_of_nat projectIndex ++ "_"
                            ++ substring 0 10
                                 (underscore_spaces false (project_name project)))
                           ++ "_" ++ tag ++ "_B" ++ string_of_nat bulletIndex)
                        "PROJECTS"
                        (jsv_cell
                           (jsv_or (prop project "projectName")
                              (VStr ("ProjectItem" ++ string_of_nat projectIndex))))
                        0 (projectBulletsToProcess project))
                   0 (sub_items subsection)))
           0 subs)
  | _ => []
  end.

Definition leadership_units (master : resume) : list unit :=
  match find_section "LEADERSHIP & UNIVERSITY INVOLVEMENT" (sections master) with
  | Some {| items := Some entries |} =>
      concat
        (indexed
           (fun item itemIndex =>
              bullet_units leadershipMessages
                (fun _ bulletIndex =>
                   "LEAD_I" ++ string_of_nat itemIndex ++ "_B" ++ string_of_nat bulletIndex)
                "LEADERSHIP & UNIVERSITY INVOLVEMENT"
                (jsv_cell
                   (jsv_or (prop item "organization")
                      (jsv_or (prop item "role")
                         (VStr ("LeadershipItem" ++ string_of_nat itemIndex)))))
                0 (tagged "" (array_of (prop item "responsibilities"))))
           0 entries)
  | _ => []
  end.

(** A skill or a certificate with text to score is one unit. *)
Definition tech_item_units (subIndex : nat) (item : object) (itemIndex : nat)
    : list unit :=
  match techUnit item with
  | Returns (Some (text, identifier, kind)) =>
      if is_empty text then []
      else
        [mkUnit techMessages
           ("TECH_Cat" ++ string_of_nat subIndex ++ "_" ++ kind
            ++ string_of_nat itemIndex)
           "TECHNICAL SKILLS & CERTIFICATES" (CText identifier) text]
  | _ => []
  end.

Definition tech_units (master : resume) : list unit :=
  match find_section "TECHNICAL SKILLS & CERTIFICATES" (sections master) with
  | Some {| subsections := Some subs |} =>
      concat
        (indexed
           (fun subsection subIndex =>
              concat (indexed (tech_item_units subIndex) 0 (sub_items subsection)))
           0 subs)
  | _ => []
  end.

(** The units of a master record, in the order of the four loops. *)
Definition units (master : resume) : list unit :=
  (experience_units master ++ project_units master
   ++ leadership_units master ++ tech_units master)%list.

Section Numbering.

Variable jdAnalysis : json.

(** The model is asked about a unit unless the guards of
    [matchResumeSection] answer for it. *)
Definition asks (u : unit) : bool :=
  match matchGuards (unit_text u) jdAnalysis with
  | None => true
  | Some _ => false
  end.

(** Each unit with the number of the answer that is its own, when [n]
    answers have been read before the first. *)
Fixpoint numbered (n : nat) (us : list unit) : list (unit * nat) :=
  match us with
  | [] => []
  | u :: rest => (u, n) :: numbered (if asks u then S n else n) rest
  end.

(** The number of answers read after the last unit. *)
Fixpoint calls_after (n : nat) (us : list unit) : nat :=
  match us with
  | [] => n
  | u :: rest => calls_after (if asks u then S n else n) rest
  end.

Variable Number_toString : Q -> string.
Variable answers : nat -> string.

(** The scorer's result for a unit from the answer that is its own. *)
Definition result_for (uk : unit * nat) : json :=
  matchResumeSection (answers (snd uk)) (unit_text (fst uk)) jdAnalysis.

(** The row of a unit: its identifier, section, item and text, and the
    cells made of the scorer's result for it. *)
Definition row_of (uk : unit * nat) (row : list cell) : Prop :=
  exists cells,
    scoredCells Number_toString (unit_messages (fst uk)) (result_for uk)
    = Returns cells
    /\ row = scoredRow (unit_uniqueId (fst uk)) (unit_sectionTitle (fst uk))
               (unit_itemIdentifier (fst uk)) (unit_text (fst uk)) cells.

(** A computation records the rows of the units [us], each from its own
    answer, and reads as many answers as the units ask for. *)
Definition scores (us : list unit) (m : M (list (list cell))) : Prop :=
  forall n rows n',
    m n = Returns (rows, n') ->
    Forall2 row_of (numbered n us) rows /\ n' = calls_after n us.



(** The number a scorer's result carries as its score: the
    [relevanceScore] of a result without an error, when it is a
    number. *)
Definition model_score (m : json) : option Q :=
  if json_truthy m && negb (prop_truthy m "error") then
    match json_prop m "relevanceScore" with
    | Some (JNum q) => Some q
    | _ => None
    end
  else None.

(** The score cell of a unit's row is the number its own result carries,
    written with two decimals, and 0.00 when it carries none. *)
Definition score_of_own_answer (uk : unit * nat) (row : list cell) : Prop :=
  row_of uk row
  /\ nth 4 row CUndef
     = CText match model_score (result_for uk) with
             | Some q => toFixed2 Number_toString q
             | None => "0.00"
             end.

End Numbering.

(** A score cell that stage 3 reads as a number from 0 to 1. *)
Definition reads_in_unit_interval (score : string) : bool :=
  jsnum_ge (parseFloat score) (Fin 0) && jsnum_ge (Fin 1) (parseFloat score).

End Units.
(** * Properties *)

Example parseFloat_050 : parseFloat "0.50" = Fin (50 # 100).
Proof. reflexivity. Qed.

Example parseFloat_garbage : parseFloat "n/a" = NaN.
Proof. reflexivity. Qed.

Example parseFloat_prefix : parseFloat "  7e1x" = Fin (inject_Z 70).
Proof. reflexivity. Qed.


(** ** Objects *)

Section ObjectFacts.

Context {V : Type}.

Lemma obj_get_set_same (k : string) (v : V) (o : list (string * V)) :
  obj_get k (obj_set k v o) = Some v.
Proof.
  induction o as [|[k' v'] r IH]; simpl.
  - now rewrite String.eqb_refl.
  - destruct (String.eqb k k') eqn:E; simpl; rewrite E; [reflexivity | exact IH].
Qed.

Lemma obj_get_set_other (k k' : string) (v : V) (o : list (string * V)) :
  k <> k' -> obj_get k' (obj_set k v o) = obj_get k' o.
Proof.
  intros Hne. induction o as [|[k0 v0] r IH]; simpl.
  - destruct (String.eqb k' k) eqn:E; [|reflexivity].
    apply String.eqb_eq in E. congruence.
  - destruct (String.eqb k k0) eqn:E; simpl.
    + apply String.eqb_eq in E. subst k0.
      destruct (String.eqb k' k) eqn:E'; [|reflexivity].
      apply String.eqb_eq in E'. congruence.
    + destruct (String.eqb k' k0); [reflexivity | exact IH].
Qed.

End ObjectFacts.

(** ** The sort is a permutation *)

Section JsSortFacts.

Context {A : Type}.
Variable cmp : A -> A -> jsnum.

Lemma sort_insert_perm (a : A) (l : list A) :
  Permutation (a :: l) (sort_insert cmp a l).
Proof.
  induction l as [|b r IH]; simpl.
  - apply Permutation_refl.
  - destruct (jsnum_pos (cmp a b)).
    + eapply perm_trans; [apply perm_swap|]. now apply perm_skip.
    + apply Permutation_refl.
Qed.

Lemma js_sort_perm (l : list A) : Permutation l (js_sort cmp l).
Proof.
  induction l as [|a r IH]; simpl.
  - apply perm_nil.
  - eapply perm_trans; [apply perm_skip, IH | apply sort_insert_perm].
Qed.

Lemma js_sort_length (l : list A) : length (js_sort cmp l) = length l.
Proof. symmetry. apply Permutation_length, js_sort_perm. Qed.

Lemma js_sort_In (x : A) (l : list A) : In x (js_sort cmp l) <-> In x l.
Proof.
  split; intro H.
  - eapply Permutation_in; [apply Permutation_sym, js_sort_perm | exact H].
  - eapply Permutation_in; [apply js_sort_perm | exact H].
Qed.

End JsSortFacts.

(** ** Facts about numbers and the sort *)

Lemma jsnum_ge_refl (x : jsnum) : is_NaN x = false -> jsnum_ge x x = true.
Proof.
  destruct x; simpl; try reflexivity; try discriminate.
  intros _. apply Qle_bool_iff. apply Qle_refl.
Qed.

Lemma jsnum_ge_trans (x y z : jsnum) :
  jsnum_ge x y = true -> jsnum_ge y z = true -> jsnum_ge x z = true.
Proof.
  destruct x, y, z; simpl; try reflexivity; try discriminate.
  rewrite !Qle_bool_iff. intros H1 H2. eapply Qle_trans; eassumption.
Qed.

Lemma jsnum_ge_not_NaN_l (x y : jsnum) : jsnum_ge x y = true -> is_NaN x = false.
Proof. destruct x, y; simpl; auto; discriminate. Qed.

(** On numbers the comparator's answer [y - x] is positive exactly when
    [x < y]; otherwise [x >= y]. *)
Lemma jsnum_pos_sub (x y : jsnum) :
  is_NaN x = false -> is_NaN y = false ->
  jsnum_pos (jsnum_sub y x) = jsnum_lt x y.
Proof.
  destruct x as [|a| |], y as [|b| |]; simpl; try reflexivity; try discriminate.
  intros _ _. f_equal.
  destruct (Qle_bool (b - a) 0) eqn:E1, (Qle_bool b a) eqn:E2; try reflexivity.
  - apply Qle_bool_iff in E1.
    assert (H : ~ (b <= a)%Q) by (intro H; apply Qle_bool_iff in H; congruence).
    exfalso. apply H. lra.
  - apply Qle_bool_iff in E2.
    assert (H : ~ (b - a <= 0)%Q) by (intro H; apply Qle_bool_iff in H; congruence).
    exfalso. apply H. lra.
Qed.

Lemma jsnum_lt_false_ge (x y : jsnum) :
  is_NaN x = false -> is_NaN y = false ->
  jsnum_lt x y = false -> jsnum_ge x y = true.
Proof.
  destruct x as [|a| |], y as [|b| |]; simpl; try reflexivity; try discriminate.
  intros _ _ H. now apply negb_false_iff in H.
Qed.

Lemma jsnum_lt_true_ge (x y : jsnum) : jsnum_lt x y = true -> jsnum_ge y x = true.
Proof.
  destruct x as [|a| |], y as [|b| |]; simpl; try reflexivity; try discriminate.
  intros H. apply negb_true_iff in H. apply Qle_bool_iff.
  assert (Hn : ~ (b <= a)%Q) by (intro Hle; apply Qle_bool_iff in Hle; congruence).
  lra.
Qed.

Section SortByKey.

Context {A : Type}.
Variable key : A -> jsnum.

Lemma sort_insert_sorted (a : A) (l : list A) :
  is_NaN (key a) = false ->
  Forall (fun x => is_NaN (key x) = false) l ->
  StronglySorted (key_ge key) l ->
  StronglySorted (key_ge key) (sort_insert (desc_by_key key) a l).
Proof.
  intros Ha Hl Hs. induction Hs as [|b r Hsr IH Hb]; simpl.
  - constructor; constructor.
  - inversion Hl as [|? ? Hnb Hlr]; subst.
    unfold desc_by_key at 1. rewrite (jsnum_pos_sub (key a) (key b) Ha Hnb).
    destruct (jsnum_lt (key a) (key b)) eqn:E.
    + constructor; [now apply IH |].
      apply Forall_forall. intros x Hx.
      eapply Permutation_in in Hx;
        [| apply Permutation_sym, sort_insert_perm].
      destruct Hx as [<- | Hx].
      * now apply jsnum_lt_true_ge.
      * rewrite Forall_forall in Hb. now apply Hb.
    + assert (Hab : key_ge key a b) by now apply jsnum_lt_false_ge.
      constructor; [now constructor |].
      constructor; [exact Hab |].
      apply Forall_forall. intros x Hx. rewrite Forall_forall in Hb.
      unfold key_ge in *. eapply jsnum_ge_trans; [exact Hab | now apply Hb].
Qed.

Lemma js_sort_sorted (l : list A) :
  Forall (fun x => is_NaN (key x) = false) l ->
  StronglySorted (key_ge key) (js_sort (desc_by_key key) l).
Proof.
  induction l as [|a r IH]; simpl; intro H.
  - constructor.
  - inversion H as [|? ? Ha Hr]; subst.
    apply sort_insert_sorted; [exact Ha | | now apply IH].
    apply Forall_forall. intros x Hx. apply js_sort_In in Hx.
    rewrite Forall_forall in Hr. now apply Hr.
Qed.

(** In a sorted array every element of a prefix is at least as large as
    every element behind the prefix. *)
Lemma sorted_firstn_skipn (n : nat) (l : list A) :
  StronglySorted (key_ge key) l ->
  forall k d, In k (firstn n l) -> In d (skipn n l) -> key_ge key k d.
Proof.
  intros Hs. revert n. induction Hs as [|a r Hsr IH Ha]; intros n k d Hk Hd.
  - destruct n; simpl in Hk; contradiction.
  - destruct n as [|n]; simpl in Hk, Hd; [contradiction |].
    destruct Hk as [<- | Hk].
    + rewrite Forall_forall in Ha. apply Ha.
      rewrite <- (firstn_skipn n r). apply in_or_app. now right.
    + eapply IH; eassumption.
Qed.

End SortByKey.

(** ** Strings *)

Lemma prefix_app (p s : string) :
  String.prefix p s = true <-> exists rest, s = (p ++ rest)%string.
Proof.
  revert s. induction p as [|a p IH]; intro s.
  - split; [intros _; now exists s | intros _; destruct s; reflexivity].
  - destruct s as [|b s]; simpl.
    + split; [discriminate | intros [rest H]; discriminate].
    + destruct (ascii_dec a b) as [<- | Hne].
      * split.
        -- intro H. apply IH in H. destruct H as [rest H]. exists rest. now rewrite H.
        -- intros [rest H]. apply IH. exists rest. now injection H.
      * split; [discriminate |]. intros [rest H]. injection H as H1 H2. congruence.
Qed.

Lemma startsWith_app (s p : string) :
  startsWith s p = true <-> exists rest, s = (p ++ rest)%string.
Proof. apply prefix_app. Qed.

Lemma eqb_false_of_neq (a b : string) : a <> b -> String.eqb a b = false.
Proof. intro H. now apply String.eqb_neq. Qed.

(** ** [trim] *)

Lemma trimEnd_idem (s : string) : trimEnd (trimEnd s) = trimEnd s.
Proof.
  induction s as [|c r IH]; simpl; [reflexivity |].
  destruct (trimEnd r) as [|d r'] eqn:E.
  - destruct (is_ws c) eqn:Ec; simpl; [reflexivity | now rewrite Ec].
  - simpl in *. now rewrite IH.
Qed.

Lemma trimStart_no_leading_ws (s : string) : no_leading_ws (trimStart s).
Proof.
  induction s as [|c r IH]; simpl; [exact I |].
  destruct (is_ws c) eqn:E; [exact IH | exact E].
Qed.

Lemma trimStart_fixed (s : string) : no_leading_ws s -> trimStart s = s.
Proof. destruct s as [|c r]; simpl; [reflexivity | now intros ->]. Qed.

Lemma trimEnd_no_leading_ws (s : string) :
  no_leading_ws s -> no_leading_ws (trimEnd s).
Proof.
  destruct s as [|c r]; simpl; [auto |]. intro Hc.
  destruct (trimEnd r); [rewrite Hc |]; exact Hc.
Qed.

Lemma trim_idem (s : string) : trim (trim s) = trim s.
Proof.
  unfold trim.
  rewrite (trimStart_fixed (trimEnd (trimStart s))).
  - apply trimEnd_idem.
  - apply trimEnd_no_leading_ws, trimStart_no_leading_ws.
Qed.

Lemma is_empty_true (s : string) : is_empty s = true <-> s = "".
Proof. destruct s; simpl; split; congruence. Qed.

Lemma is_empty_false_iff (s : string) : is_empty s = false <-> s <> "".
Proof. destruct s; simpl; split; congruence. Qed.

(** ** Stage 3, one master item *)

Module Stage3Facts.
Import Stage3.

Lemma is_selected_spellings (c : cell) :
  is_selected c = true <->
  flag_text c = "YES" \/ flag_text c = "TRUE" \/ flag_text c = "1" \/ flag_text c = "X".
Proof.
  unfold is_selected. simpl. rewrite !orb_true_iff, !String.eqb_eq.
  intuition (try discriminate).
Qed.

Lemma qualifies_inv (r : rowobj) :
  qualifies r = true ->
  jsnum_ge (score_of r) (Fin STAGE3_FINAL_INCLUSION_SCORE_THRESHOLD) = true
  /\ is_selected (row_get r "SelectToTailor(Manual)") = true.
Proof. unfold qualifies. intro H. now apply andb_true_iff in H. Qed.

Lemma qualifies_not_NaN (r : rowobj) :
  qualifies r = true -> is_NaN (score_of r) = false.
Proof.
  intro H. apply qualifies_inv in H. destruct H as [H _].
  eapply jsnum_ge_not_NaN_l; exact H.
Qed.

Lemma by_score_desc_is_desc_by_key :
  by_score_desc = desc_by_key score_of.
Proof. reflexivity. Qed.

(** The rows an item keeps are rows of the sheet, filed under the item's
    section and identifier, and every one of them passes the filter. *)
Lemma selectedScoredBullets_In (sec : string) (ident : jsv)
    (rows : list rowobj) (r : rowobj) :
  In r (selectedScoredBullets sec ident rows) <->
  In r rows
  /\ cell_is (row_get r "Section") sec = true
  /\ strict_eq (row_get r "ItemIdentifier") ident = true
  /\ qualifies r = true.
Proof.
  unfold selectedScoredBullets, rows_of_item.
  rewrite js_sort_In, !filter_In, andb_true_iff. tauto.
Qed.

Lemma keptRows_In (cap : nat) (sec : string) (ident : jsv)
    (rows : list rowobj) (r : rowobj) :
  In r (keptRows cap sec ident rows) ->
  In r rows
  /\ cell_is (row_get r "Section") sec = true
  /\ strict_eq (row_get r "ItemIdentifier") ident = true
  /\ qualifies r = true.
Proof.
  unfold keptRows. intro H. apply selectedScoredBullets_In.
  rewrite <- (firstn_skipn cap (selectedScoredBullets sec ident rows)).
  apply in_or_app. now left.
Qed.

Lemma keptRows_length (cap : nat) (sec : string) (ident : jsv) (rows : list rowobj) :
  length (keptRows cap sec ident rows)
  = Nat.min cap (length (filter qualifies (rows_of_item sec ident rows))).
Proof.
  unfold keptRows, selectedScoredBullets.
  now rewrite length_firstn, js_sort_length.
Qed.

Lemma selectedScoredBullets_sorted (sec : string) (ident : jsv) (rows : list rowobj) :
  StronglySorted (key_ge score_of) (selectedScoredBullets sec ident rows).
Proof.
  unfold selectedScoredBullets. rewrite by_score_desc_is_desc_by_key.
  apply js_sort_sorted. apply Forall_forall. intros r Hr.
  apply filter_In in Hr. now apply qualifies_not_NaN.
Qed.

(** What [assembleItem] returns, case by case. *)
Lemma assembleItem_spec (sec : string) (ident : jsv) (key : string) (cap : nat)
    (masterItem : object) (rows : list rowobj) :
  assembleItem sec ident key cap masterItem rows =
  match keptRows cap sec ident rows with
  | [] => None
  | kept =>
      Some (obj_set key (VArr (map VPrim (map getBulletTextToUse kept))) masterItem)
  end.
Proof.
  unfold assembleItem, keptRows.
  destruct (selectedScoredBullets sec ident rows) as [|r l]; simpl.
  - now rewrite firstn_nil.
  - destruct cap; reflexivity.
Qed.

Lemma assembleItem_Some (sec : string) (ident : jsv) (key : string) (cap : nat)
    (masterItem it : object) (rows : list rowobj) :
  assembleItem sec ident key cap masterItem rows = Some it ->
  it = obj_set key
         (VArr (map VPrim (map getBulletTextToUse (keptRows cap sec ident rows))))
         masterItem.
Proof.
  rewrite assembleItem_spec.
  destruct (keptRows cap sec ident rows); [discriminate | now intros [= <-]].
Qed.

Lemma assembleItem_bullets (sec : string) (ident : jsv) (key : string) (cap : nat)
    (masterItem it : object) (rows : list rowobj) :
  assembleItem sec ident key cap masterItem rows = Some it ->
  prop it key
  = VArr (map VPrim (map getBulletTextToUse (keptRows cap sec ident rows))).
Proof.
  intro H. apply assembleItem_Some in H. subst it.
  unfold prop. now rewrite obj_get_set_same.
Qed.

Lemma assembleItem_cap (sec : string) (ident : jsv) (key : string) (cap : nat)
    (masterItem it : object) (rows : list rowobj) :
  assembleItem sec ident key cap masterItem rows = Some it ->
  arr_length (prop it key) <= cap.
Proof.
  intro H. rewrite (assembleItem_bullets _ _ _ _ _ _ _ H). simpl.
  rewrite !length_map, keptRows_length. apply Nat.le_min_l.
Qed.

(** An item none of whose rows passes the filter is not emitted. *)
Lemma assembleItem_None (sec : string) (ident : jsv) (key : string) (cap : nat)
    (masterItem : object) (rows : list rowobj) :
  filter qualifies (rows_of_item sec ident rows) = [] ->
  assembleItem sec ident key cap masterItem rows = None.
Proof.
  intro H. unfold assembleItem, selectedScoredBullets. now rewrite H.
Qed.

(** An item with a row that passes the filter is emitted (the caps are
    positive). *)
Lemma assembleItem_emits (sec : string) (ident : jsv) (key : string) (cap : nat)
    (masterItem : object) (rows : list rowobj) :
  0 < cap ->
  filter qualifies (rows_of_item sec ident rows) <> [] ->
  assembleItem sec ident key cap masterItem rows =
  Some (obj_set key
          (VArr (map VPrim (map getBulletTextToUse (keptRows cap sec ident rows))))
          masterItem).
Proof.
  intros Hcap Hne. rewrite assembleItem_spec.
  destruct (keptRows cap sec ident rows) eqn:E; [|reflexivity].
  exfalso. apply (f_equal (@length _)) in E. rewrite keptRows_length in E.
  destruct (filter qualifies (rows_of_item sec ident rows)); [now apply Hne |].
  simpl in E. lia.
Qed.

(** The rows kept are a highest-scored choice among the rows that pass. *)
Lemma keptRows_highest (cap : nat) (sec : string) (ident : jsv) (rows : list rowobj) :
  let kept := keptRows cap sec ident rows in
  let dropped := skipn cap (selectedScoredBullets sec ident rows) in
  Permutation (filter qualifies (rows_of_item sec ident rows)) (kept ++ dropped)
  /\ forall k d, In k kept -> In d dropped ->
       jsnum_ge (score_of k) (score_of d) = true.
Proof.
  simpl. split.
  - unfold keptRows. rewrite firstn_skipn. unfold selectedScoredBullets.
    apply js_sort_perm.
  - intros k d Hk Hd.
    exact (sorted_firstn_skipn score_of cap _
             (selectedScoredBullets_sorted sec ident rows) k d Hk Hd).
Qed.

End Stage3Facts.

(** ** Stage 3, the whole record *)

Module Stage3Record.
Import Stage3 Stage3Facts FinalRecord.

Lemma finalSections_In (master : resume) (rows : list rowobj) (s : section) :
  In s (finalSections master rows) <->
  In s (dynamicSections master rows)
  \/ In s (staticSections master (dynamicSections master rows)).
Proof. unfold finalSections. now rewrite js_sort_In, in_app_iff. Qed.

Lemma staticSections_In (master : resume) (dyn : list section) (s : section) :
  In s (staticSections master dyn) ->
  In s (sections master)
  /\ isStaticSectionEffectivelyEmpty s = false
  /\ includes_str (map (fun d => toUpperCase (title d)) dyn) (toUpperCase (title s))
     = false.
Proof.
  unfold staticSections. intro H. apply in_flat_map in H.
  destruct H as [t [_ H]].
  destruct (includes_str _ (toUpperCase t)) eqn:Hinc; simpl in H; [contradiction |].
  destruct (find _ (sections master)) as [d|] eqn:Hf; [|contradiction].
  destruct (isStaticSectionEffectivelyEmpty d) eqn:He; simpl in H; [contradiction |].
  destruct H as [<- | []].
  apply find_some in Hf. destruct Hf as [Hin Heq].
  apply String.eqb_eq in Heq. rewrite Heq. auto.
Qed.

(** The sections the dynamic assembly can push. *)
Lemma dynamicSections_In (master : resume) (rows : list rowobj) (s : section) :
  In s (dynamicSections master rows) ->
  (s = tailoredExperienceSection master rows /\ section_has_items s = true)
  \/ (tailoredProjectsSection master rows = Some s)
  \/ (s = tailoredLeadershipSection master rows /\ section_has_items s = true)
  \/ (title s = tech_title /\ items s = None).
Proof.
  unfold dynamicSections. rewrite !in_app_iff. intros [H | [H | [H | H]]].
  - destruct (section_has_items (tailoredExperienceSection master rows)) eqn:E;
      simpl in H; [|contradiction].
    destruct H as [<- | []]. auto.
  - destruct (tailoredProjectsSection master rows) as [p|]; [|contradiction].
    destruct (some_subsection_has_items p); simpl in H; [|contradiction].
    destruct H as [<- | []]. auto.
  - destruct (section_has_items (tailoredLeadershipSection master rows)) eqn:E;
      simpl in H; [|contradiction].
    destruct H as [<- | []]. auto.
  - destruct (selectedTechItemsFromSheet rows); [contradiction |].
    destruct (Nat.ltb 0 (length (tailoredTechSubsections master rows)));
      simpl in H; [|contradiction].
    destruct H as [<- | []]. auto.
Qed.

Lemma in_option_list {A : Type} (o : option A) (x : A) :
  In x (option_list o) <-> o = Some x.
Proof.
  destruct o; simpl; split; intro H.
  - destruct H as [-> | []]. reflexivity.
  - left. now injection H.
  - contradiction.
  - discriminate.
Qed.

Lemma tailoredExperience_items (master : resume) (rows : list rowobj) (it : object) :
  In it (all_items (tailoredExperienceSection master rows)) <->
  exists masterJob, In masterJob (master_items "EXPERIENCE" master)
                    /\ assembleExperienceItem rows masterJob = Some it.
Proof.
  unfold all_items, tailoredExperienceSection. simpl. rewrite app_nil_r, in_flat_map.
  split; intros [j [Hj H]]; exists j; (split; [exact Hj|]); now apply in_option_list.
Qed.

Lemma tailoredLeadership_items (master : resume) (rows : list rowobj) (it : object) :
  In it (all_items (tailoredLeadershipSection master rows)) <->
  exists masterItem,
    In masterItem (master_items "LEADERSHIP & UNIVERSITY INVOLVEMENT" master)
    /\ assembleLeadershipItem rows masterItem = Some it.
Proof.
  unfold all_items, tailoredLeadershipSection. simpl. rewrite app_nil_r, in_flat_map.
  split; intros [j [Hj H]]; exists j; (split; [exact Hj|]); now apply in_option_list.
Qed.

Lemma tailoredProjectsSubsection_items (rows : list rowobj) (ms ss : subsection)
    (it : object) :
  tailoredProjectsSubsection rows ms = Some ss ->
  (In it (sub_items ss) <->
   exists p, In p (sub_items ms) /\ assembleProjectItem rows p = Some it).
Proof.
  unfold tailoredProjectsSubsection.
  destruct (Nat.ltb 0 _); [|discriminate]. intros [= <-]. simpl.
  rewrite in_flat_map.
  split; intros [p [Hp H]]; exists p; (split; [exact Hp|]); now apply in_option_list.
Qed.

Lemma tailoredProjectsSubsection_Some (rows : list rowobj) (ms : subsection)
    (p it : object) :
  In p (sub_items ms) -> assembleProjectItem rows p = Some it ->
  exists ss, tailoredProjectsSubsection rows ms = Some ss /\ In it (sub_items ss).
Proof.
  intros Hp H. unfold tailoredProjectsSubsection.
  assert (Hin : In it (flat_map (fun p => option_list (assembleProjectItem rows p))
                                (sub_items ms))).
  { apply in_flat_map. exists p. split; [exact Hp | now apply in_option_list]. }
  destruct (flat_map _ (sub_items ms)) as [|x l] eqn:E; [contradiction |].
  simpl. eexists. split; [reflexivity |]. simpl. exact Hin.
Qed.

Lemma tailoredProjects_items (master : resume) (rows : list rowobj)
    (s : section) (it : object) :
  tailoredProjectsSection master rows = Some s ->
  title s = "PROJECTS"
  /\ (In it (all_items s) <->
      exists p, In p (master_projects master) /\ assembleProjectItem rows p = Some it).
Proof.
  unfold tailoredProjectsSection, master_projects.
  destruct (find_section "PROJECTS" (sections master)) as [mp|]; [|discriminate].
  destruct (subsections mp) as [subs|]; [|discriminate].
  intros [= <-]. split; [reflexivity |].
  unfold all_items. simpl. rewrite !in_flat_map. split.
  - intros [ss [Hss Hit]]. apply in_flat_map in Hss. destruct Hss as [ms [Hms Hss]].
    apply in_option_list in Hss.
    apply (tailoredProjectsSubsection_items rows ms ss it Hss) in Hit.
    destruct Hit as [p [Hp Hit]]. exists p. split; [|exact Hit].
    apply in_flat_map. now exists ms.
  - intros [p [Hp Hit]]. apply in_flat_map in Hp. destruct Hp as [ms [Hms Hp]].
    destruct (tailoredProjectsSubsection_Some rows ms p it Hp Hit) as [ss [Hss Hin]].
    exists ss. split; [|exact Hin].
    apply in_flat_map. exists ms. split; [exact Hms | now apply in_option_list].
Qed.


Lemma section_has_items_of_In (s : section) (it : object) (l : list object) :
  items s = Some l -> In it l -> section_has_items s = true.
Proof.
  unfold section_has_items. intros -> H. destruct l; [contradiction | reflexivity].
Qed.

Lemma experience_in_final (master : resume) (rows : list rowobj)
    (masterJob it : object) :
  In masterJob (master_items "EXPERIENCE" master) ->
  assembleExperienceItem rows masterJob = Some it ->
  in_final master rows "EXPERIENCE" it.
Proof.
  intros Hj H. exists (tailoredExperienceSection master rows).
  assert (Hin : In it (all_items (tailoredExperienceSection master rows))).
  { apply tailoredExperience_items. now exists masterJob. }
  split; [|split; [reflexivity | exact Hin]].
  apply finalSections_In. left. unfold dynamicSections.
  apply in_or_app. left.
  unfold all_items in Hin. simpl in Hin. rewrite app_nil_r in Hin.
  rewrite (section_has_items_of_In (tailoredExperienceSection master rows) it _
             eq_refl Hin).
  now left.
Qed.

Lemma leadership_in_final (master : resume) (rows : list rowobj)
    (masterItem it : object) :
  In masterItem (master_items "LEADERSHIP & UNIVERSITY INVOLVEMENT" master) ->
  assembleLeadershipItem rows masterItem = Some it ->
  in_final master rows "LEADERSHIP & UNIVERSITY INVOLVEMENT" it.
Proof.
  intros Hj H. exists (tailoredLeadershipSection master rows).
  assert (Hin : In it (all_items (tailoredLeadershipSection master rows))).
  { apply tailoredLeadership_items. now exists masterItem. }
  split; [|split; [reflexivity | exact Hin]].
  apply finalSections_In. left. unfold dynamicSections.
  apply in_or_app. right. apply in_or_app. right. apply in_or_app. left.
  unfold all_items in Hin. simpl in Hin. rewrite app_nil_r in Hin.
  rewrite (section_has_items_of_In (tailoredLeadershipSection master rows) it _
             eq_refl Hin).
  now left.
Qed.

Lemma project_in_final (master : resume) (rows : list rowobj)
    (masterProject it : object) :
  In masterProject (master_projects master) ->
  assembleProjectItem rows masterProject = Some it ->
  in_final master rows "PROJECTS" it.
Proof.
  intros Hp H.
  destruct (tailoredProjectsSection master rows) as [s|] eqn:Es.
  - destruct (tailoredProjects_items master rows s it Es) as [Ht Hiff].
    assert (Hin : In it (all_items s)) by (apply Hiff; now exists masterProject).
    exists s. split; [|split; assumption].
    apply finalSections_In. left. unfold dynamicSections.
    apply in_or_app. right. apply in_or_app. left. rewrite Es.
    assert (Hs : some_subsection_has_items s = true).
    { revert Es Hin. unfold tailoredProjectsSection.
      destruct (find_section "PROJECTS" (sections master)) as [mp|]; [|discriminate].
      destruct (subsections mp) as [subs|]; [|discriminate].
      intros [= <-]. unfold all_items, some_subsection_has_items. simpl.
      intro Hin. apply in_flat_map in Hin. destruct Hin as [ss [Hss Hit]].
      apply existsb_exists. exists ss. split; [exact Hss |].
      destruct (sub_items ss); [contradiction | reflexivity]. }
    rewrite Hs. now left.
  - exfalso. revert Es Hp. unfold tailoredProjectsSection, master_projects.
    destruct (find_section "PROJECTS" (sections master)) as [mp|]; [|now intros _ []].
    destruct (subsections mp); [discriminate | now intros _ []].
Qed.

Lemma keeps_highest_of_emits (master : resume) (rows : list rowobj) (T : string)
    (identifier : jsv) (key : string) (cap : nat) (masterItem : object) :
  0 < cap ->
  (forall it, assembleItem T identifier key cap masterItem rows = Some it ->
              in_final master rows T it) ->
  keeps_highest master rows T identifier key cap masterItem.
Proof.
  intros Hcap Hfin Hmore. simpl.
  destruct (keptRows_highest cap T identifier rows) as [Hperm Hge].
  split; [exact Hperm |]. split; [|split; [exact Hge |]].
  - rewrite keptRows_length. unfold passing in Hmore. lia.
  - apply Hfin. apply assembleItem_emits; [exact Hcap |].
    unfold passing in Hmore. intro E. rewrite E in Hmore. simpl in Hmore. lia.
Qed.

End Stage3Record.

(** ** Stage 2 *)

Module Stage2Facts.
Import Stage3 Stage2 Stage2Frame.

Lemma array_set_other (i j : nat) (v : cell) (row : list cell) :
  j <> i -> nth j (array_set i v row) CUndef = nth j row CUndef.
Proof.
  revert j row. induction i as [|i IH]; intros j row Hne.
  - destruct row as [|c r]; destruct j as [|j]; simpl; try congruence.
    now destruct j.
  - destruct row as [|c r]; destruct j as [|j]; simpl; try reflexivity.
    + rewrite IH by congruence. now destruct j.
    + apply IH. congruence.
Qed.

Lemma array_set_same (i : nat) (v : cell) (row : list cell) :
  nth i (array_set i v row) CUndef = v.
Proof.
  revert row. induction i as [|i IH]; intro row; destruct row; simpl; auto.
Qed.

Lemma indexOf_cell_from_spec (i : nat) (headers : list cell) (name : string) (j : nat) :
  indexOf_cell_from i headers name = Some j ->
  i <= j /\ nth (j - i) headers CUndef = CText name.
Proof.
  revert i. induction headers as [|h r IH]; intros i H; simpl in H; [discriminate |].
  destruct (cell_is h name) eqn:E.
  - injection H as <-. split; [lia |]. rewrite Nat.sub_diag. simpl.
    destruct h; simpl in E; try discriminate.
    apply String.eqb_eq in E. now subst.
  - apply IH in H. destruct H as [Hle Hn]. split; [lia |].
    replace (j - i) with (S (j - S i)) by lia. exact Hn.
Qed.

(** Columns found under different names are different columns. *)
Lemma indexOf_cell_distinct (headers : list cell) (a b : string) (i j : nat) :
  a <> b ->
  indexOf_cell headers a = Some i -> indexOf_cell headers b = Some j -> i <> j.
Proof.
  intros Hne Ha Hb ->. apply indexOf_cell_from_spec in Ha, Hb.
  destruct Ha as [_ Ha], Hb as [_ Hb]. rewrite Ha in Hb. congruence.
Qed.

Lemma tailorRow_frame (answers : nat -> string) (jd : json) (cols : columns)
    (st st' : loop_state) (row row' : list cell) :
  tailorRow answers jd cols st row = Returns (st', row') ->
  row_frame cols row row'.
Proof.
  unfold tailorRow, row_frame. destruct (row_selected cols row) eqn:Esel.
  - destruct (tailorGuards _ jd _) as [|guard]; [discriminate |].
    destruct guard as [early | bullet]; intros [= <- <-];
      (split; [discriminate | intros j Hj; now apply array_set_other]).
  - intros [= <- <-]. split; reflexivity.
Qed.

Lemma tailorRows_frame (answers : nat -> string) (jd : json) (cols : columns)
    (rows : list (list cell)) :
  forall st st' rows',
    tailorRows answers jd cols st rows = Returns (st', rows') ->
    Forall2 (row_frame cols) rows rows'.
Proof.
  induction rows as [|row rest IH]; intros st st' rows' H; simpl in H.
  - injection H as <- <-. constructor.
  - destruct (tailorRow answers jd cols st row) as [|[st1 row1]] eqn:E1;
      [discriminate |].
    destruct (tailorRows answers jd cols st1 rest) as [|[st2 rest2]] eqn:E2;
      [discriminate |].
    injection H as <- <-. constructor.
    + eapply tailorRow_frame; eassumption.
    + eapply IH; eassumption.
Qed.

Lemma row_frame_refl (cols : columns) (row : list cell) : row_frame cols row row.
Proof. split; reflexivity. Qed.

Lemma Forall2_refl_frame (cols : columns) (rows : list (list cell)) :
  Forall2 (row_frame cols) rows rows.
Proof. induction rows; constructor; [apply row_frame_refl | assumption]. Qed.

(** The rows of the sheet after stage 2, against the rows before it, for
    the columns the stage found. *)
Lemma runStage2_frame (answers : nat -> string) (jdCell : cell) (write_ok : bool)
    (headers : list cell) (data : list (list cell)) (cols : columns) :
  find_columns headers = Some cols ->
  Forall2 (row_frame cols) data
    (rows_after write_ok (headers :: data)
       (runStage2 answers jdCell (headers :: data))).
Proof.
  intro Hcols. unfold runStage2.
  destruct jdCell as [s| |]; try apply Forall2_refl_frame.
  destruct (is_empty s || is_empty (trim s)); [apply Forall2_refl_frame |].
  destruct (JSON_parse s) as [jd|]; [|apply Forall2_refl_frame].
  destruct (negb (json_truthy jd) || negb (prop_truthy jd "jobTitle"));
    [apply Forall2_refl_frame |].
  destruct data as [|row rest]; [constructor |].
  rewrite Hcols.
  destruct (tailorRows answers jd cols (mkLoop 0 0 0 false) (row :: rest))
    as [|[st rows']] eqn:E; [apply Forall2_refl_frame |].
  destruct (modifiedDataForSheet st); [|apply Forall2_refl_frame].
  destruct write_ok; [|apply Forall2_refl_frame].
  cbn [rows_after]. eapply tailorRows_frame; exact E.
Qed.

(** Without the columns the stage stops before it touches a row. *)
Lemma runStage2_no_columns (answers : nat -> string) (jdCell : cell) (write_ok : bool)
    (headers : list cell) (data : list (list cell)) :
  find_columns headers = None ->
  rows_after write_ok (headers :: data) (runStage2 answers jdCell (headers :: data))
  = data.
Proof.
  intro Hcols. unfold runStage2.
  destruct jdCell as [s| |]; try reflexivity.
  destruct (is_empty s || is_empty (trim s)); [reflexivity |].
  destruct (JSON_parse s) as [jd|]; [|reflexivity].
  destruct (negb (json_truthy jd) || negb (prop_truthy jd "jobTitle"));
    [reflexivity |].
  destruct data as [|row rest]; [reflexivity |].
  now rewrite Hcols.
Qed.

End Stage2Facts.

(** ** Stage 1 *)

Module Stage1Facts.
Import Stage1 Scoring.

Local Open Scope string_scope.

(** *** The scorer's results *)

Lemma matchFromResponse_cases (resp : string) :
  validated (matchFromResponse resp)
  \/ exists e raw, error_object (matchFromResponse resp) e raw.
Proof.
  unfold matchFromResponse.
  destruct (is_answer resp).
  - destruct (JSON_parse _) as [m|].
    + destruct (json_truthy m && is_number _ && is_array _ && is_string _) eqn:E.
      * left. apply andb_true_iff in E. destruct E as [E E4].
        apply andb_true_iff in E. destruct E as [E E3].
        apply andb_true_iff in E. destruct E as [E1 E2].
        repeat split; assumption.
      * right. eexists. eexists. apply error_with_raw. discriminate.
    + right. eexists. eexists. apply error_with_raw. discriminate.
  - right. eexists. eexists. apply error_with_raw. discriminate.
Qed.

Lemma matchResumeSection_cases (resp text : string) (jd : json) :
  validated (matchResumeSection resp text jd)
  \/ exists e raw, error_object (matchResumeSection resp text jd) e raw.
Proof.
  unfold matchResumeSection, matchGuards.
  destruct (is_empty text || is_empty (trim text)).
  - right. eexists. eexists. apply error_alone. discriminate.
  - destruct (negb (json_truthy jd) || _ || _).
    + right. eexists. eexists. apply error_alone. discriminate.
    + apply matchFromResponse_cases.
Qed.

Section WithPrinter.

Variable Number_toString : Q -> string.

Lemma toFixed2_zero : toFixed2 Number_toString 0 = "0.00".
Proof. reflexivity. Qed.

Lemma is_empty_false (s : string) : s <> "" -> is_empty s = false.
Proof. destruct s; [congruence | reflexivity]. Qed.

(** A failed scoring leaves the score at 0.00, no keywords, and the
    error text with the raw answer in the justification. *)
Lemma scoredCells_error (msg : messages) (m : json) (e raw : string) :
  error_object m e raw ->
  scoredCells Number_toString msg m
  = Returns ("0.00", "", CText (errorPrefix msg ++ e ++ ". Raw: " ++ raw)).
Proof.
  intros [e' raw' He | e' He]; unfold scoredCells, matchError, prop_truthy; simpl;
    rewrite (is_empty_false _ He); simpl.
  - destruct raw'; reflexivity.
  - reflexivity.
Qed.

(** The cells of a validated answer never throw. *)
Lemma scoredCells_validated (msg : messages) (m : json) :
  validated m -> exists cells, scoredCells Number_toString msg m = Returns cells.
Proof.
  intros [Ht [Hn [Ha Hs]]]. unfold scoredCells. rewrite Ht. simpl.
  destruct (prop_truthy m "error"); simpl.
  - eexists. reflexivity.
  - destruct (json_prop m "relevanceScore") as [[]|]; try discriminate.
    destruct (json_prop m "matchingKeywords") as [[]|]; try discriminate.
    eexists. reflexivity.
Qed.

Lemma scoredCells_returns (msg : messages) (resp text : string) (jd : json) :
  exists cells,
    scoredCells Number_toString msg (matchResumeSection resp text jd) = Returns cells.
Proof.
  destruct (matchResumeSection_cases resp text jd) as [Hv | [e [raw He]]].
  - now apply scoredCells_validated.
  - eexists. eapply scoredCells_error. exact He.
Qed.

(** *** The score cell *)

Lemma toFixed2_unit_interval (q : Q) :
  (0 <= q)%Q -> (q <= 1)%Q ->
  toFixed2 Number_toString q = fixed2 (hundredths q) /\ (hundredths q <= 100)%N.
Proof.
  intros H0 H1. unfold toFixed2.
  assert (Habs : Qabs q = q).
  { destruct q as [n d]. unfold Qabs. f_equal.
    apply Z.abs_eq. unfold Qle in H0. simpl in H0. lia. }
  rewrite Habs.
  assert (Hbig : Qle_bool (inject_Z (10 ^ 21)) q = false).
  { destruct (Qle_bool (inject_Z (10 ^ 21)) q) eqn:E; [|reflexivity].
    apply Qle_bool_iff in E. exfalso.
    assert (H : (inject_Z (10 ^ 21) <= 1)%Q) by (eapply Qle_trans; eassumption).
    apply Qle_bool_iff in H. vm_compute in H. discriminate. }
  rewrite Hbig.
  assert (Hpos : Qle_bool 0 q = true) by now apply Qle_bool_iff.
  rewrite Hpos. simpl. split; [reflexivity |].
  unfold hundredths.
  assert (Hle : (Qfloor (q * 100 + (1 # 2)) <= 100)%Z).
  { assert (Hq : (q * 100 + (1 # 2) <= 201 # 2)%Q) by lra.
    apply Qfloor_resp_le in Hq. exact Hq. }
  lia.
Qed.

(** The score cell of a recorded unit: 0.00, or the model's number to two
    decimals; within 0.00 .. 1.00 when the model's number is within
    0 .. 1. *)
Lemma scoredCells_score (msg : messages) (m : json) (score keywords : string)
    (justification : cell) :
  scoredCells Number_toString msg m = Returns (score, keywords, justification) ->
  (score = "0.00"
   \/ exists q, json_prop m "relevanceScore" = Some (JNum q)
                /\ score = toFixed2 Number_toString q)
  /\ (forall q, json_prop m "relevanceScore" = Some (JNum q) ->
        (0 <= q)%Q -> (q <= 1)%Q ->
        exists n, (n <= 100)%N /\ score = fixed2 n).
Proof.
  unfold scoredCells. intro H.
  assert (Hzero : forall k j,
            Returns (toFixed2 Number_toString 0, k, j)
            = Returns (score, keywords, justification) ->
            (score = "0.00"
             \/ exists q, json_prop m "relevanceScore" = Some (JNum q)
                          /\ score = toFixed2 Number_toString q)
            /\ (forall q, json_prop m "relevanceScore" = Some (JNum q) ->
                  (0 <= q)%Q -> (q <= 1)%Q ->
                  exists n, (n <= 100)%N /\ score = fixed2 n)).
  { intros k j [= <- _ _]. split; [now left |].
    intros q _ _ _. exists 0%N. split; [lia | reflexivity]. }
  destruct (json_truthy m && negb (prop_truthy m "error")).
  - destruct (json_prop m "relevanceScore") as [[| |q| | |]|] eqn:Eq;
      try (eapply Hzero; exact H).
    assert (Hq : score = toFixed2 Number_toString q).
    { destruct (json_prop m "matchingKeywords") as [k|].
      - destruct k; simpl in H;
          repeat match type of H with
                 | context [if ?b then _ else _] => destruct b
                 end;
          try discriminate; now injection H.
      - now injection H. }
    split.
    + right. exists q. split; [reflexivity | exact Hq].
    + intros q' [= <-] H0 H1.
      destruct (toFixed2_unit_interval q H0 H1) as [Hf Hn].
      exists (hundredths q). split; [exact Hn | congruence].
  - destruct (json_truthy m && prop_truthy m "error"); eapply Hzero; exact H.
Qed.

(** *** The loops *)

Variable answers : nat -> string.
Variable jdAnalysis : json.

Lemma callMatch_result (text : string) (n n' : nat) (m : json) :
  callMatch answers jdAnalysis text n = Returns (m, n') ->
  m = matchResumeSection (answers n) text jdAnalysis.
Proof.
  unfold callMatch, matchResumeSection.
  destruct (matchGuards text jdAnalysis); now intros [= <- _].
Qed.

Lemma rows_all_concatM (P : list cell -> Prop) (ms : list (M (list (list cell)))) :
  Forall (rows_all P) ms -> rows_all P (concatM ms).
Proof.
  induction 1 as [|m ms Hm _ IH]; intros n rows n' H; simpl in H.
  - injection H as <- _. constructor.
  - unfold bind in H. destruct (m n) as [|[xs n1]] eqn:E1; [discriminate |].
    destruct (concatM ms n1) as [|[ys n2]] eqn:E2; [discriminate |].
    injection H as <- _. apply Forall_app. split.
    + eapply Hm; exact E1.
    + eapply IH; exact E2.
Qed.

Lemma Forall_indexed {A B : Type} (Q : B -> Prop) (f : A -> nat -> B)
    (xs : list A) :
  (forall x i, Q (f x i)) -> forall i, Forall Q (indexed f i xs).
Proof. intro H. induction xs; intro i; simpl; constructor; auto. Qed.

Lemma scoreBullets_recorded (msg : messages) (uniqueIdOf : string -> nat -> string)
    (sectionTitle : string) (identifier : cell) (bullets : list (string * jsv)) :
  forall bulletIndex,
    rows_all (recorded Number_toString jdAnalysis)
      (scoreBullets Number_toString answers jdAnalysis msg uniqueIdOf sectionTitle
         identifier bulletIndex bullets).
Proof.
  induction bullets as [|[tag b] rest IH]; intros idx n rows n' H; simpl in H.
  - injection H as <- _. constructor.
  - unfold bind, lift in H.
    destruct (bulletText b) as [|[text|]]; [discriminate | |].
    + destruct (callMatch answers jdAnalysis text n) as [|[m n1]] eqn:Em;
        [discriminate |].
      destruct (scoredCells Number_toString msg m) as [|cells] eqn:Ec;
        [discriminate |].
      destruct (scoreBullets _ _ _ _ _ _ _ _ rest n1) as [|[rows1 n2]] eqn:Er;
        [discriminate |].
      injection H as <- _. constructor.
      * exists msg, (uniqueIdOf tag idx), sectionTitle, identifier, text,
          (answers n), cells.
        split; [reflexivity |]. now rewrite <- (callMatch_result _ _ _ _ Em).
      * eapply IH; exact Er.
    + eapply IH; exact H.
Qed.

Lemma scoreTechItem_recorded (subIndex : nat) (item : object) (itemIndex : nat) :
  rows_all (recorded Number_toString jdAnalysis)
    (scoreTechItem Number_toString answers jdAnalysis subIndex item itemIndex).
Proof.
  intros n rows n' H. unfold scoreTechItem, bind, lift in H.
  destruct (techUnit item) as [|[[[text ident] kind]|]]; [discriminate | |].
  - destruct (is_empty text); [injection H as <- _; constructor |].
    destruct (callMatch answers jdAnalysis text n) as [|[m n1]] eqn:Em;
      [discriminate |].
    destruct (scoredCells Number_toString techMessages m) as [|cells] eqn:Ec;
      [discriminate |].
    injection H as <- _. constructor; [|constructor].
    eexists techMessages, _, _, _, text, (answers n), cells.
    split; [reflexivity |]. now rewrite <- (callMatch_result _ _ _ _ Em).
  - injection H as <- _. constructor.
Qed.

Lemma rows_all_ret_nil (P : list cell -> Prop) : rows_all P (ret []).
Proof. intros n rows n' [= <- _]. constructor. Qed.

Lemma rows_all_bind_lift {A : Type} (P : list cell -> Prop) (o : outcome A)
    (k : A -> M (list (list cell))) :
  (forall a, rows_all P (k a)) -> rows_all P (bind (lift o) k).
Proof.
  intros Hk n rows n' H. unfold bind, lift in H.
  destruct o as [|a]; [discriminate |]. eapply Hk; exact H.
Qed.

Lemma scoreMaster_recorded (master : resume) :
  rows_all (recorded Number_toString jdAnalysis) (scoreMaster Number_toString answers jdAnalysis master).
Proof.
  unfold scoreMaster. apply rows_all_concatM. repeat constructor.
  - unfold scoreExperience.
    destruct (find_section "EXPERIENCE" (sections master)) as [[t [jobs|] subs]|];
      try apply rows_all_ret_nil.
    apply rows_all_concatM. apply Forall_indexed. intros job i.
    apply scoreBullets_recorded.
  - unfold scoreProjects.
    destruct (find_section "PROJECTS" (sections master)) as [[t its [subs|]]|];
      try apply rows_all_ret_nil.
    apply rows_all_concatM. apply Forall_indexed. intros sub i.
    apply rows_all_concatM. apply Forall_indexed. intros project j.
    apply rows_all_bind_lift. intro name. apply scoreBullets_recorded.
  - unfold scoreLeadership.
    destruct (find_section "LEADERSHIP & UNIVERSITY INVOLVEMENT" (sections master))
      as [[t [entries|] subs]|]; try apply rows_all_ret_nil.
    apply rows_all_concatM. apply Forall_indexed. intros item i.
    apply scoreBullets_recorded.
  - unfold scoreTechnicalSkills.
    destruct (find_section "TECHNICAL SKILLS & CERTIFICATES" (sections master))
      as [[t its [subs|]]|]; try apply rows_all_ret_nil.
    apply rows_all_concatM. apply Forall_indexed. intros sub i.
    apply rows_all_concatM. apply Forall_indexed. intros item j.
    apply scoreTechItem_recorded.
Qed.

End WithPrinter.


(** *** The answers do not decide what is recorded *)

Section TwoRuns.

Variable Number_toString : Q -> string.
Variable jdAnalysis : json.
Variables answers answers' : nat -> string.

Lemma same_units_ret_nil : same_units (ret []) (ret []).
Proof. intro n. simpl. auto. Qed.

Lemma same_units_concatM (ms ms' : list (M (list (list cell)))) :
  Forall2 same_units ms ms' -> same_units (concatM ms) (concatM ms').
Proof.
  induction 1 as [|m m' ms ms' Hm _ IH]; intro n; simpl.
  - auto.
  - unfold bind. specialize (Hm n).
    destruct (m n) as [|[xs k]], (m' n) as [|[xs' k']]; try contradiction; auto.
    destruct Hm as [<- Hx]. specialize (IH k).
    destruct (concatM ms k) as [|[ys j]], (concatM ms' k) as [|[ys' j']];
      try contradiction; auto.
    destruct IH as [<- Hy]. simpl. split; [reflexivity |].
    now rewrite !map_app, Hx, Hy.
Qed.

Lemma Forall2_indexed {A B : Type} (R : B -> B -> Prop) (f g : A -> nat -> B)
    (xs : list A) :
  (forall x i, R (f x i) (g x i)) ->
  forall i, Forall2 R (indexed f i xs) (indexed g i xs).
Proof. intro H. induction xs; intro i; simpl; constructor; auto. Qed.

Lemma same_units_bind_lift {A : Type} (o : outcome A)
    (k k' : A -> M (list (list cell))) :
  (forall a, same_units (k a) (k' a)) ->
  same_units (bind (lift o) k) (bind (lift o) k').
Proof.
  intros Hk n. unfold bind, lift. destruct o as [|a]; [exact I | apply Hk].
Qed.

Lemma callMatch_same_count (text : string) (n : nat) :
  exists m m' k,
    callMatch answers jdAnalysis text n = Returns (m, k)
    /\ callMatch answers' jdAnalysis text n = Returns (m', k).
Proof.
  unfold callMatch. destruct (matchGuards text jdAnalysis); eauto.
Qed.

Lemma scoreBullets_same_units (msg : messages) (uniqueIdOf : string -> nat -> string)
    (sectionTitle : string) (identifier : cell) (bullets : list (string * jsv)) :
  forall bulletIndex,
    same_units
      (scoreBullets Number_toString answers jdAnalysis msg uniqueIdOf sectionTitle
         identifier bulletIndex bullets)
      (scoreBullets Number_toString answers' jdAnalysis msg uniqueIdOf sectionTitle
         identifier bulletIndex bullets).
Proof.
  induction bullets as [|[tag b] rest IH]; intros idx n; simpl.
  - auto.
  - unfold bind, lift. destruct (bulletText b) as [|[text|]]; [exact I | |].
    + destruct (callMatch_same_count text n) as [m [m' [k [E E']]]].
      rewrite E, E'.
      destruct (scoredCells_returns Number_toString msg (answers n) text jdAnalysis)
        as [cells Hc].
      destruct (scoredCells_returns Number_toString msg (answers' n) text jdAnalysis)
        as [cells' Hc'].
      rewrite <- (callMatch_result answers jdAnalysis text n k m E) in Hc.
      rewrite <- (callMatch_result answers' jdAnalysis text n k m' E') in Hc'.
      rewrite Hc, Hc'. specialize (IH (S idx) k).
      destruct (scoreBullets _ answers _ _ _ _ _ _ rest k) as [|[rows j]],
               (scoreBullets _ answers' _ _ _ _ _ _ rest k) as [|[rows' j']];
        try contradiction; auto.
      destruct IH as [<- Hr]. simpl. split; [reflexivity |].
      destruct cells as [[? ?] ?], cells' as [[? ?] ?]. simpl. now rewrite Hr.
    + apply IH.
Qed.

Lemma scoreTechItem_same_units (subIndex : nat) (item : object) (itemIndex : nat) :
  same_units
    (scoreTechItem Number_toString answers jdAnalysis subIndex item itemIndex)
    (scoreTechItem Number_toString answers' jdAnalysis subIndex item itemIndex).
Proof.
  intro n. unfold scoreTechItem, bind, lift.
  destruct (techUnit item) as [|[[[text ident] kind]|]]; [exact I | |].
  - destruct (is_empty text); [simpl; auto |].
    destruct (callMatch_same_count text n) as [m [m' [k [E E']]]].
    rewrite E, E'.
    destruct (scoredCells_returns Number_toString techMessages (answers n) text
                jdAnalysis) as [cells Hc].
    destruct (scoredCells_returns Number_toString techMessages (answers' n) text
                jdAnalysis) as [cells' Hc'].
    rewrite <- (callMatch_result answers jdAnalysis text n k m E) in Hc.
    rewrite <- (callMatch_result answers' jdAnalysis text n k m' E') in Hc'.
    rewrite Hc, Hc'. simpl. split; [reflexivity |].
    destruct cells as [[? ?] ?], cells' as [[? ?] ?]. reflexivity.
  - simpl. auto.
Qed.

Lemma scoreMaster_same_units (master : resume) :
  same_units (scoreMaster Number_toString answers jdAnalysis master)
             (scoreMaster Number_toString answers' jdAnalysis master).
Proof.
  unfold scoreMaster. apply same_units_concatM. repeat constructor.
  - unfold scoreExperience.
    destruct (find_section "EXPERIENCE" (sections master)) as [[t [jobs|] subs]|];
      try apply same_units_ret_nil.
    apply same_units_concatM. apply Forall2_indexed. intros job i.
    apply scoreBullets_same_units.
  - unfold scoreProjects.
    destruct (find_section "PROJECTS" (sections master)) as [[t its [subs|]]|];
      try apply same_units_ret_nil.
    apply same_units_concatM. apply Forall2_indexed. intros sub i.
    apply same_units_concatM. apply Forall2_indexed. intros project j.
    apply same_units_bind_lift. intro name. apply scoreBullets_same_units.
  - unfold scoreLeadership.
    destruct (find_section "LEADERSHIP & UNIVERSITY INVOLVEMENT" (sections master))
      as [[t [entries|] subs]|]; try apply same_units_ret_nil.
    apply same_units_concatM. apply Forall2_indexed. intros item i.
    apply scoreBullets_same_units.
  - unfold scoreTechnicalSkills.
    destruct (find_section "TECHNICAL SKILLS & CERTIFICATES" (sections master))
      as [[t its [subs|]]|]; try apply same_units_ret_nil.
    apply same_units_concatM. apply Forall2_indexed. intros sub i.
    apply same_units_concatM. apply Forall2_indexed. intros item j.
    apply scoreTechItem_same_units.
Qed.

End TwoRuns.

End Stage1Facts.

(** ** The normaliser, one row *)

Section ObjectLookups.

Context {V : Type}.

Lemma obj_set_fresh (k : string) (v : V) (o : list (string * V)) :
  obj_get k o = None -> obj_set k v o = o ++ [(k, v)].
Proof.
  induction o as [|[k' v'] r IH]; simpl; [reflexivity |].
  destruct (String.eqb k k'); [discriminate |]. intro H. now rewrite IH.
Qed.

Lemma obj_get_app (k : string) (o o' : list (string * V)) :
  obj_get k (o ++ o') =
  match obj_get k o with Some v => Some v | None => obj_get k o' end.
Proof.
  induction o as [|[k' v'] r IH]; simpl; [reflexivity |].
  destruct (String.eqb k k'); [reflexivity | exact IH].
Qed.

Lemma obj_get_None (k : string) (o : list (string * V)) :
  obj_get k o = None <-> ~ In k (map fst o).
Proof.
  induction o as [|[k' v'] r IH]; simpl; [tauto |].
  destruct (String.eqb k k') eqn:E.
  - apply String.eqb_eq in E. subst. split; [discriminate | tauto].
  - apply String.eqb_neq in E. rewrite IH. intuition congruence.
Qed.

Lemma obj_get_delete_other (k k' : string) (o : list (string * V)) :
  k <> k' -> obj_get k' (obj_delete k o) = obj_get k' o.
Proof.
  intro Hne. induction o as [|[k0 v0] r IH]; simpl; [reflexivity |].
  destruct (String.eqb k k0) eqn:E; simpl.
  - apply String.eqb_eq in E. subst k0.
    destruct (String.eqb k' k) eqn:E'; [|exact IH].
    apply String.eqb_eq in E'. congruence.
  - destruct (String.eqb k' k0); [reflexivity | exact IH].
Qed.

Lemma obj_get_In (k : string) (v : V) (o : list (string * V)) :
  obj_get k o = Some v -> In (k, v) o.
Proof.
  induction o as [|[k' v'] r IH]; simpl; [discriminate |].
  destruct (String.eqb k k') eqn:E.
  - apply String.eqb_eq in E. subst. intros [= ->]. now left.
  - intro H. right. now apply IH.
Qed.

End ObjectLookups.

Lemma obj_get_map {A B : Type} (f : A -> B) (k : string) (o : list (string * A)) :
  obj_get k (map (fun '(k0, v) => (k0, f v)) o) = option_map f (obj_get k o).
Proof.
  induction o as [|[k' v'] r IH]; simpl; [reflexivity |].
  destruct (String.eqb k k'); [reflexivity | exact IH].
Qed.

Module RowFacts.
Import MasterResumeData BulletColumns Normalised.

Local Open Scope string_scope.

Lemma columns_of_raw (sec : string) (headers : list string) :
  forall i, columns_from sec headers i
            = map (fun '(k, j) => (jsKeyOf sec k, j)) (raw_columns headers i).
Proof.
  induction headers as [|h r IH]; intro i; simpl; [reflexivity |].
  destruct (negb (is_empty h) && negb (String.eqb (trim h) "")); simpl;
    now rewrite IH.
Qed.

(** Step 1 on a header row without repeated names: the named columns, in
    order, each with the cell of the row at its position. *)
Lemma itemFromSheet_from_spec (row : list string) (headers : list string) :
  forall i acc,
    NoDup (map fst acc ++ map fst (raw_columns headers i)) ->
    itemFromSheet_from headers i row acc
    = (acc ++ map (fun '(k, j) => (k, nth j row "")) (raw_columns headers i))%list.
Proof.
  induction headers as [|h r IH]; intros i acc Hnd; simpl.
  - now rewrite app_nil_r.
  - simpl in Hnd.
    destruct (negb (is_empty h) && negb (String.eqb (trim h) "")); simpl in *.
    + assert (Hfresh : obj_get (trim h) acc = None).
      { apply obj_get_None. intro Hin. apply NoDup_remove_2 in Hnd.
        apply Hnd. apply in_or_app. now left. }
      rewrite (obj_set_fresh _ _ _ Hfresh). rewrite IH.
      * now rewrite <- app_assoc.
      * rewrite map_app. simpl. rewrite <- app_assoc. simpl. exact Hnd.
    + now apply IH.
Qed.


(** Step 2 on an item whose names are filed under different keys: the
    same fields, renamed and trimmed, in the same order. *)
Lemma mapKeys_fold_spec (sec : string) (item : list (string * string)) :
  forall acc,
    NoDup (map fst acc ++ map (fun kv => jsKeyOf sec (fst kv)) item) ->
    fold_left (fun newItem '(k, v) => obj_set (jsKeyOf sec k) (trim v) newItem)
              item acc
    = (acc ++ map (fun '(k, v) => (jsKeyOf sec k, trim v)) item)%list.
Proof.
  induction item as [|[k v] r IH]; intros acc Hnd; simpl.
  - now rewrite app_nil_r.
  - simpl in Hnd.
    assert (Hfresh : obj_get (jsKeyOf sec k) acc = None).
    { apply obj_get_None. intro Hin. apply NoDup_remove_2 in Hnd.
      apply Hnd. apply in_or_app. now left. }
    rewrite (obj_set_fresh _ _ _ Hfresh). rewrite IH.
    + now rewrite <- app_assoc.
    + rewrite map_app. simpl. rewrite <- app_assoc. simpl. exact Hnd.
Qed.

(** Steps 1 and 2 on a row under distinct columns. *)
Lemma mapped_row_spec (sec : string) (headers row : list string) :
  columns_distinct sec headers ->
  mapKeys sec (itemFromSheet headers row)
  = map (fun '(k, j) => (jsKeyOf sec k, trim (nth j row "")))
        (raw_columns headers 0).
Proof.
  unfold columns_distinct, mapKeys, itemFromSheet. intro Hnd.
  rewrite columns_of_raw in Hnd. rewrite map_map in Hnd.
  rewrite (itemFromSheet_from_spec row headers 0 []).
  - simpl. rewrite mapKeys_fold_spec.
    + simpl. rewrite map_map. apply map_ext. now intros [k j].
    + simpl. rewrite map_map.
      erewrite map_ext; [exact Hnd |]. now intros [k j].
  - simpl. eapply NoDup_map_inv with (f := jsKeyOf sec).
    rewrite map_map. erewrite map_ext; [exact Hnd |]. now intros [k j].
Qed.

Lemma mapped_row_lookup (sec : string) (headers row : list string) (key : string) :
  columns_distinct sec headers ->
  obj_get key (mapKeys sec (itemFromSheet headers row))
  = option_map (fun j => trim (nth j row ""))
               (obj_get key (columns_from sec headers 0)).
Proof.
  intro Hnd. rewrite (mapped_row_spec sec headers row Hnd), columns_of_raw.
  induction (raw_columns headers 0) as [|[k j] r IH]; simpl; [reflexivity |].
  destruct (String.eqb key (jsKeyOf sec k)); [reflexivity | exact IH].
Qed.

Lemma collectBullets_step (prefix : string) (k count : nat) (item : object)
    (acc : list string) :
  collectBullets prefix k (S count) item acc
  = collectBullets prefix (S k) count
      (obj_delete (prefix ++ string_of_nat k) item)
      (acc ++ pushed (field_text item (prefix ++ string_of_nat k)))%list.
Proof.
  simpl. unfold pushed.
  destruct (field_text item (prefix ++ string_of_nat k)) as [s|].
  - destruct (negb (is_empty s) && negb (String.eqb (trim s) ""));
      [reflexivity | now rewrite app_nil_r].
  - now rewrite app_nil_r.
Qed.



(** Whatever the item holds, the loop pushes at most one text per
    column, each of them clean. *)
Lemma pushed_clean (field : option string) :
  length (pushed field) <= 1 /\ Forall clean_text (pushed field).
Proof.
  unfold pushed. destruct field as [s|]; [|simpl; auto].
  destruct (negb (is_empty s) && negb (String.eqb (trim s) "")) eqn:E;
    [|simpl; auto].
  simpl. split; [lia |]. constructor; [|constructor].
  apply andb_true_iff in E. destruct E as [_ E].
  apply negb_true_iff, String.eqb_neq in E.
  split; [exact E | apply trim_idem].
Qed.

Lemma collectBullets_clean (prefix : string) (count : nat) :
  forall k item acc,
    Forall clean_text acc ->
    let bullets := snd (collectBullets prefix k count item acc) in
    length bullets <= length acc + count /\ Forall clean_text bullets.
Proof.
  induction count as [|count IH]; intros k item acc Hacc.
  - simpl. split; [lia | exact Hacc].
  - rewrite collectBullets_step.
    destruct (pushed_clean (field_text item (prefix ++ string_of_nat k)))
      as [Hlen Hcl].
    specialize (IH (S k) (obj_delete (prefix ++ string_of_nat k) item)
                  (acc ++ pushed (field_text item (prefix ++ string_of_nat k)))%list).
    simpl in IH. destruct IH as [IH1 IH2].
    + apply Forall_app. now split.
    + rewrite length_app in IH1. simpl. split; [lia | exact IH2].
Qed.


Section Items.

Variable Date_parse : string -> option (nat * Z).

Lemma formatField_other (k key : string) (isEnd : bool) (item : object) :
  k <> key -> obj_get key (formatField Date_parse k isEnd item) = obj_get key item.
Proof.
  intro Hne. unfold formatField.
  destruct (field_text item k) as [s|]; [|reflexivity].
  destruct (is_empty s); [reflexivity |]. now apply obj_get_set_other.
Qed.


Lemma trimFields_lookup (key : string) (item : object) :
  obj_get key (trimFields item)
  = option_map (fun v => match v with
                         | VPrim (CText s) => VStr (trim s)
                         | _ => v
                         end)
               (obj_get key item).
Proof.
  unfold trimFields. induction item as [|[k v] r IH]; simpl; [reflexivity |].
  destruct v as [[s| |]| |]; simpl; destruct (String.eqb key k); auto.
Qed.



Lemma processItem_experience (mapped : list (string * string)) :
  processItem Date_parse "EXPERIENCE" mapped
  = trimFields
      (let '(item', bulletsArray) :=
         collectBullets "responsibility" 1 NUM_DEDICATED_BULLET_COLUMNS
           (dated Date_parse mapped) [] in
       obj_set "responsibilities" (VStrs bulletsArray) item').
Proof. reflexivity. Qed.

Lemma processItem_leadership (mapped : list (string * string)) :
  processItem Date_parse "LEADERSHIP & UNIVERSITY INVOLVEMENT" mapped
  = trimFields
      (let '(item', bulletsArray) :=
         collectBullets "responsibility" 1 NUM_DEDICATED_BULLET_COLUMNS
           (dated Date_parse mapped) [] in
       obj_set "responsibilities" (VStrs bulletsArray) item').
Proof. reflexivity. Qed.






End Items.

End RowFacts.

(** ** The normaliser, the whole record *)

Module RecordFacts.
Import MasterResumeData BulletColumns Normalised RowFacts FinalRecord.

Local Open Scope string_scope.

Lemma fields_ok_text (mapped : list (string * string)) :
  fields_ok (map (fun '(k, v) => (k, VStr v)) mapped).
Proof.
  induction mapped as [|[k v] r IH]; constructor; [|exact IH].
  left. now exists v.
Qed.

Lemma fields_ok_set (k : string) (v : jsv) (it : object) :
  field_ok (k, v) -> fields_ok it -> fields_ok (obj_set k v it).
Proof.
  intros Hv. induction 1 as [|[k' v'] r Hkv Hr IH]; simpl.
  - constructor; [exact Hv | constructor].
  - destruct (String.eqb k k') eqn:E.
    + apply String.eqb_eq in E. subst k'. constructor; assumption.
    + constructor; assumption.
Qed.

Lemma fields_ok_delete (k : string) (it : object) :
  fields_ok it -> fields_ok (obj_delete k it).
Proof.
  induction 1 as [|[k' v'] r Hkv _ IH]; simpl; [constructor |].
  destruct (String.eqb k k'); [exact IH | constructor; assumption].
Qed.

Lemma fields_ok_trim (it : object) : fields_ok it -> fields_ok (trimFields it).
Proof.
  induction 1 as [|[k v] r Hkv _ IH]; simpl; [constructor |].
  constructor; [|exact IH].
  destruct v as [[s| |]| |]; try exact Hkv. left. now eexists.
Qed.

Lemma fields_ok_collect (prefix : string) (count : nat) :
  forall k it acc, fields_ok it -> fields_ok (fst (collectBullets prefix k count it acc)).
Proof.
  induction count as [|count IH]; intros k it acc H; [exact H |].
  rewrite collectBullets_step. apply IH. now apply fields_ok_delete.
Qed.

Lemma fields_ok_lookup (key : string) (it : object) :
  fields_ok it -> bullets_clean (prop it key) \/ ~ is_bullet_key key.
Proof.
  intro H. unfold prop. destruct (obj_get key it) as [v|] eqn:E; [|left; exact I].
  apply obj_get_In in E. unfold fields_ok in H. rewrite Forall_forall in H.
  destruct (H _ E) as [[s Hs] | [l [Hl Hc]]]; simpl in *; subst v.
  - left. exact I.
  - destruct (string_dec key "responsibilities") as [-> | N1].
    + left. destruct Hc as [Hlen Hcl]; [now left |].
      simpl. rewrite length_map. split; [exact Hlen |].
      apply Forall_map. eapply Forall_impl; [|exact Hcl]. intros s Hs. now exists s.
    + destruct (string_dec key "descriptionBullets") as [-> | N2].
      * left. destruct Hc as [Hlen Hcl]; [now right |].
        simpl. rewrite length_map. split; [exact Hlen |].
        apply Forall_map. eapply Forall_impl; [|exact Hcl]. intros s Hs. now exists s.
      * right. intros [? | ?]; congruence.
Qed.

Lemma fields_ok_item_clean (it : object) : fields_ok it -> item_clean it.
Proof.
  intro H. split.
  - destruct (fields_ok_lookup "responsibilities" it H) as [Hc | Hn]; [exact Hc |].
    exfalso. apply Hn. now left.
  - destruct (fields_ok_lookup "descriptionBullets" it H) as [Hc | Hn]; [exact Hc |].
    exfalso. apply Hn. now right.
Qed.

Section Items.

Variable Date_parse : string -> option (nat * Z).

Lemma fields_ok_format (k : string) (isEnd : bool) (it : object) :
  fields_ok it -> fields_ok (formatField Date_parse k isEnd it).
Proof.
  intro H. unfold formatField. destruct (field_text it k) as [s|]; [|exact H].
  destruct (is_empty s); [exact H |].
  apply fields_ok_set; [|exact H]. left. now eexists.
Qed.

Lemma fields_ok_split (k : string) (it : object) :
  ~ is_bullet_key k -> fields_ok it -> fields_ok (splitField k it).
Proof.
  intros Hk H. unfold splitField.
  destruct (obj_get k it) as [[[s| |]| |]|]; try exact H;
    apply fields_ok_set; try exact H; right.
  - exists (smartSplitMultiLine s). split; [reflexivity | intro; contradiction].
  - exists []. split; [reflexivity | intro; contradiction].
  - exists []. split; [reflexivity | intro; contradiction].
  - exists []. split; [reflexivity | intro; contradiction].
  - exists []. split; [reflexivity | intro; contradiction].
Qed.

Lemma fields_ok_bullets (prefix key : string) (it : object) :
  fields_ok it ->
  fields_ok
    (let '(item', bullets) :=
       collectBullets prefix 1 NUM_DEDICATED_BULLET_COLUMNS it [] in
     obj_set key (VStrs bullets) item').
Proof.
  intro H.
  pose proof (fields_ok_collect prefix NUM_DEDICATED_BULLET_COLUMNS 1 it [] H) as H1.
  pose proof (collectBullets_clean prefix NUM_DEDICATED_BULLET_COLUMNS 1 it []
                (Forall_nil _)) as H2.
  destruct (collectBullets prefix 1 NUM_DEDICATED_BULLET_COLUMNS it [])
    as [item' bullets]. simpl in *.
  apply fields_ok_set; [|exact H1]. right. exists bullets.
  split; [reflexivity | intros _; exact H2].
Qed.

Lemma not_bullet_key_technologies : ~ is_bullet_key "technologies".
Proof. intros [H | H]; discriminate. Qed.

Lemma not_bullet_key_coursework : ~ is_bullet_key "relevantCoursework".
Proof. intros [H | H]; discriminate. Qed.

Lemma processItem_fields_ok (sec : string) (mapped : list (string * string)) :
  fields_ok (processItem Date_parse sec mapped).
Proof.
  unfold processItem. apply fields_ok_trim.
  assert (H4 : fields_ok
            (if String.eqb sec "TECHNICAL SKILLS & CERTIFICATES"
             then formatField Date_parse "issueDate" false
                    (if String.eqb sec "HONORS & AWARDS"
                     then formatField Date_parse "date" false (dated Date_parse mapped)
                     else dated Date_parse mapped)
             else (if String.eqb sec "HONORS & AWARDS"
                   then formatField Date_parse "date" false (dated Date_parse mapped)
                   else dated Date_parse mapped))).
  { assert (Hd : fields_ok (dated Date_parse mapped))
      by (unfold dated; repeat apply fields_ok_format; apply fields_ok_text).
    destruct (String.eqb sec "TECHNICAL SKILLS & CERTIFICATES"),
             (String.eqb sec "HONORS & AWARDS");
      [apply fields_ok_format; apply fields_ok_format; exact Hd
      | apply fields_ok_format; exact Hd
      | apply fields_ok_format; exact Hd
      | exact Hd]. }
  unfold dated in H4.
  match goal with
  | |- fields_ok (if ?b then splitField _ ?x else ?x) =>
      assert (H5 : fields_ok x); [|destruct b;
        [apply fields_ok_split; [apply not_bullet_key_coursework | exact H5]
        | exact H5]]
  end.
  destruct (String.eqb sec "EXPERIENCE"
            || String.eqb sec "LEADERSHIP & UNIVERSITY INVOLVEMENT").
  - now apply fields_ok_bullets.
  - destruct (String.eqb sec "PROJECTS"); [|exact H4].
    pose proof (fields_ok_bullets "descriptionBullet" "descriptionBullets" _ H4) as H.
    destruct (collectBullets "descriptionBullet" 1 NUM_DEDICATED_BULLET_COLUMNS _ [])
      as [item' bullets].
    apply fields_ok_split; [apply not_bullet_key_technologies | exact H].
Qed.

Lemma normalizeRow_clean (sec : string) (headers row : list string) :
  item_clean (normalizeRow Date_parse sec headers row).
Proof. apply fields_ok_item_clean, processItem_fields_ok. Qed.

Lemma projectItem_clean (it : object) : fields_ok it -> item_clean (projectItem it).
Proof.
  intro H. split; [exact I |].
  unfold projectItem, prop at 1. simpl obj_get. unfold fieldOrNone, jsv_or.
  destruct (jsv_truthy (prop it "descriptionBullets")).
  - destruct (fields_ok_lookup "descriptionBullets" it H) as [Hc | Hn]; [exact Hc |].
    exfalso. apply Hn. now right.
  - simpl. split; [unfold NUM_DEDICATED_BULLET_COLUMNS; lia | constructor].
Qed.

Lemma techItem_clean (it : object) : item_clean (techItem it).
Proof.
  unfold techItem.
  destruct (jsv_truthy (prop it "issuer") || jsv_truthy (prop it "issueDate"));
    split; exact I.
Qed.


End Items.

(** *** Sections *)

Lemma all_items_In (s : section) (it : object) :
  In it (all_items s) <->
  (exists l, items s = Some l /\ In it l)
  \/ (exists subs ss, subsections s = Some subs /\ In ss subs /\ In it (sub_items ss)).
Proof.
  unfold all_items. rewrite in_app_iff. split.
  - intros [H | H].
    + left. destruct (items s) as [l|]; [now exists l | contradiction].
    + right. destruct (subsections s) as [subs|]; [|contradiction].
      apply in_flat_map in H. destruct H as [ss [H1 H2]]. now exists subs, ss.
  - intros [[l [E H]] | [subs [ss [E [H1 H2]]]]]; rewrite E.
    + now left.
    + right. apply in_flat_map. now exists ss.
Qed.

Lemma emptySection_clean (t : string) : section_clean (emptySection t).
Proof.
  intros it H. apply all_items_In in H. unfold emptySection in H.
  destruct (is_grouped t); simpl in H.
  - destruct H as [[l [E _]] | [subs [ss [E [H1 H2]]]]]; [discriminate |].
    injection E as <-. destruct (String.eqb t "PROJECTS"); simpl in H1.
    + destruct H1 as [<- | []]. contradiction.
    + contradiction.
  - destruct H as [[l [E H]] | [subs [ss [E _]]]]; [|discriminate].
    injection E as <-. contradiction.
Qed.

Lemma ensure_section_clean (t : string) (secs : list section) :
  Forall section_clean secs -> Forall section_clean (ensure_section t secs).
Proof.
  intro H. unfold ensure_section. destruct (find_section t secs); [exact H |].
  apply Forall_app. split; [exact H |].
  constructor; [apply emptySection_clean | constructor].
Qed.

Lemma update_section_clean (t : string) (f : section -> section)
    (secs : list section) :
  (forall s, section_clean s -> section_clean (f s)) ->
  Forall section_clean secs -> Forall section_clean (update_section t f secs).
Proof.
  intros Hf. induction 1 as [|s r Hs Hr IH]; simpl; [constructor |].
  destruct (String.eqb (title s) t); constructor; auto.
Qed.

Lemma subsection_push_items (category : string) (x : object) (m : list subsection)
    (it : object) :
  In it (flat_map sub_items (subsection_push category x m)) ->
  it = x \/ In it (flat_map sub_items m).
Proof.
  induction m as [|ss r IH]; simpl.
  - intros [<- | []]. now left.
  - destruct (String.eqb (sub_name ss) category); simpl.
    + rewrite !in_app_iff. simpl. intros [[H | [<- | []]] | H]; auto.
    + rewrite !in_app_iff. intros [H | H]; [auto |].
      destruct (IH H); auto.
Qed.

Lemma techSubsections_items (processed : list object) (it : object) :
  In it (flat_map sub_items (techSubsections processed)) ->
  exists p, it = techItem p.
Proof.
  unfold techSubsections.
  assert (H : forall m,
            (forall x, In x (flat_map sub_items m) -> exists p, x = techItem p) ->
            In it (flat_map sub_items
                     (fold_left (fun m item =>
                                   subsection_push (categoryOf item) (techItem item) m)
                                processed m)) ->
            exists p, it = techItem p).
  { induction processed as [|p r IH]; intros m Hm Hin; simpl in Hin; [auto |].
    apply (IH _ (fun x Hx =>
                   match subsection_push_items _ _ _ _ Hx with
                   | or_introl E => ex_intro _ p E
                   | or_intror Hx' => Hm x Hx'
                   end) Hin). }
  apply H. intros x [].
Qed.

Lemma append_to_subsection_items (name : string) (new : list object)
    (subs : list subsection) (it : object) :
  In it (flat_map sub_items (append_to_subsection name new subs)) ->
  In it new \/ In it (flat_map sub_items subs).
Proof.
  induction subs as [|ss r IH]; simpl; [tauto |].
  destruct (String.eqb (sub_name ss) name); simpl.
  - rewrite !in_app_iff. tauto.
  - rewrite !in_app_iff. intros [H | H]; [auto |]. destruct (IH H); auto.
Qed.

Lemma pushItems_clean (sec : string) (processed : list object) (s : section) :
  Forall fields_ok processed ->
  section_clean s -> section_clean (pushItems sec processed s).
Proof.
  intros Hp Hs. unfold pushItems.
  destruct (existsb (String.eqb sec) _).
  { intros it H. apply all_items_In in H. simpl in H.
    destruct H as [[l [E H]] | [subs [ss [E [H1 H2]]]]].
    - destruct (items s) as [l0|] eqn:E0; [|discriminate]. injection E as <-.
      apply in_app_iff in H. destruct H as [H | H].
      + apply Hs. apply all_items_In. left. now exists l0.
      + apply fields_ok_item_clean. rewrite Forall_forall in Hp. now apply Hp.
    - apply Hs. apply all_items_In. right. now exists subs, ss. }
  destruct (String.eqb sec "TECHNICAL SKILLS & CERTIFICATES").
  { destruct (techSubsections processed) as [|t0 tr] eqn:Et; [exact Hs |].
    intros it H. apply all_items_In in H. simpl in H.
    destruct H as [[l [E H]] | [subs [ss [E [H1 H2]]]]].
    - apply Hs. apply all_items_In. left. now exists l.
    - injection E as <-.
      assert (Hin : In it (flat_map sub_items (techSubsections processed))).
      { rewrite Et. apply in_flat_map. now exists ss. }
      apply techSubsections_items in Hin. destruct Hin as [p ->].
      apply techItem_clean. }
  destruct (String.eqb sec "PROJECTS"); [|exact Hs].
  destruct (map projectItem processed) as [|p0 pr] eqn:Ep; [exact Hs |].
  intros it H. apply all_items_In in H. simpl in H.
  destruct H as [[l [E H]] | [subs [ss [E [H1 H2]]]]].
  - apply Hs. apply all_items_In. left. now exists l.
  - injection E as <-.
    assert (Hin : In it (flat_map sub_items
                           (append_to_subsection "General Projects" (p0 :: pr)
                              (let subs0 :=
                                 match subsections s with
                                 | Some ((_ :: _) as subs) => subs
                                 | _ => [mkSubsection "General Projects" []]
                                 end in
                               if existsb (fun sub => String.eqb (sub_name sub)
                                                        "General Projects") subs0
                               then subs0
                               else (subs0 ++ [mkSubsection "General Projects" []])%list)))).
    { apply in_flat_map. now exists ss. }
    apply append_to_subsection_items in Hin. destruct Hin as [Hin | Hin].
    + rewrite <- Ep in Hin. apply in_map_iff in Hin. destruct Hin as [p [<- Hpin]].
      apply projectItem_clean. rewrite Forall_forall in Hp. now apply Hp.
    + assert (Hold : In it (flat_map sub_items
                              match subsections s with
                              | Some ((_ :: _) as subs) => subs
                              | _ => [mkSubsection "General Projects" []]
                              end)).
      { cbv zeta in Hin.
        destruct (existsb _ _); [exact Hin |].
        rewrite flat_map_app in Hin. apply in_app_iff in Hin.
        destruct Hin as [Hin | Hin]; [exact Hin |]. simpl in Hin. contradiction. }
      destruct (subsections s) as [[|s0 sr]|] eqn:Es;
        [simpl in Hold; contradiction | | simpl in Hold; contradiction].
      apply Hs. apply all_items_In. right. exists (s0 :: sr).
      apply in_flat_map in Hold. destruct Hold as [ss' [Hs1 Hs2]].
      exists ss'. auto.
Qed.

Section Scanning.

Variable Date_parse : string -> option (nat * Z).

Lemma processAccumulatedSection_clean (out : output) (sec : string)
    (headers : list string) (dataRows : list (list string)) :
  Forall section_clean (out_sections out) ->
  Forall section_clean
    (out_sections (processAccumulatedSection Date_parse out sec headers dataRows)).
Proof.
  intro H. unfold processAccumulatedSection.
  destruct (String.eqb sec "PERSONAL INFO"); [exact H |].
  destruct (String.eqb sec "SUMMARY"); [exact H |].
  destruct (negb (isTabularSection sec)); [exact H |].
  destruct headers as [|h hs]; [simpl; now apply ensure_section_clean |].
  destruct dataRows as [|r rs]; [simpl; now apply ensure_section_clean |].
  simpl out_sections.
  apply update_section_clean; [|now apply ensure_section_clean].
  intros s Hs. apply pushItems_clean; [|exact Hs].
  apply Forall_forall. intros it Hit.
  assert (E : exists row, normalizeRow Date_parse sec (h :: hs) row = it).
  { destruct Hit as [<- | Hit]; [now exists r |].
    apply in_map_iff in Hit. destruct Hit as [row [E _]]. now exists row. }
  destruct E as [row <-]. apply processItem_fields_ok.
Qed.

Lemma flush_clean (st : scan_state) :
  Forall section_clean (out_sections (resumeOutput st)) ->
  Forall section_clean (out_sections (flush Date_parse st)).
Proof.
  intro H. unfold flush. destruct (currentSectionTitleKey st); [|exact H].
  destruct (_ || _); [now apply processAccumulatedSection_clean | exact H].
Qed.

Lemma scan_clean (allData : list (list cell)) (fuel : nat) :
  forall i st,
    Forall section_clean (out_sections (resumeOutput st)) ->
    Forall section_clean
      (out_sections (resumeOutput (scan Date_parse allData fuel i st))).
Proof.
  induction fuel as [|f IH]; intros i st H; simpl; [exact H |].
  destruct (nth_error allData i) as [row|]; [|exact H].
  destruct (getCanonicalSectionTitle (firstCellText row)) as [key|].
  - pose proof (flush_clean st H) as Hf.
    destruct (isTabularSection key && Nat.ltb (S i) (length allData));
      [|now apply IH].
    destruct (nth_error allData _) as [headerRow|]; [|now apply IH].
    destruct (getCanonicalSectionTitle (firstCellText headerRow)); now apply IH.
  - destruct (currentSectionTitleKey st) as [current|] eqn:Ec; [|now apply IH].
    destruct (rowIsEffectivelyBlank row); [now apply IH |].
    destruct (String.eqb current "SUMMARY").
    + apply IH. now destruct (is_empty (summaryTextInRow row)).
    + destruct (_ && _ && _); now apply IH.
Qed.

(** Every item of the record the normaliser returns has clean bullets,
    no more of them than the sheet has bullet columns. *)
Lemma getMasterResumeData_clean (allData : list (list cell)) (master : resume) :
  getMasterResumeData Date_parse allData = Some master ->
  forall s it, In s (sections master) -> In it (all_items s) -> item_clean it.
Proof.
  unfold getMasterResumeData. destruct allData as [|r0 rest]; [discriminate |].
  intros [= <-] s it Hs Hit. simpl in Hs.
  assert (H : Forall section_clean
                (out_sections
                   (flush Date_parse
                      (scan Date_parse (r0 :: rest) (length (r0 :: rest)) 0
                         (mkScan None [] [] (mkOutput [] "" [])))))).
  { apply flush_clean, scan_clean. constructor. }
  rewrite Forall_forall in H. exact (H s Hs it Hit).
Qed.

(** So no item has more bullets than the sheet has bullet columns. *)
Lemma getMasterResumeData_within_columns (allData : list (list cell))
    (master : resume) :
  getMasterResumeData Date_parse allData = Some master ->
  master_within_columns master.
Proof.
  intros H s it Hs Hit.
  destruct (getMasterResumeData_clean allData master H s it Hs Hit) as [Hr Hd].
  unfold bullet_count, bullets_clean in *.
  split.
  - destruct (prop it "responsibilities"); simpl; lia.
  - destruct (prop it "descriptionBullets"); simpl; lia.
Qed.

End Scanning.

End RecordFacts.

(** * The claims *)

Import Stage3 Stage3Facts Stage3Record FinalRecord TailoredText Samples.

(** ** Stage 3 *)

(** C1 (filtering invariant), evaluated where it breaks.  Stage 1 has
    scored every bullet of the two jobs of [master_two_jobs] and the user
    has marked none of them: every selection flag is blank, so no row
    passes the filter.  The final record nevertheless holds the EXPERIENCE
    section, with the job "Acme Corp" and both of its bullets: a section
    the dynamic assembly leaves empty is copied back from the master
    record by the static-section step. *)
Theorem C1_unmarked_bullets_included :
  Forall (fun r => flag_text (row_get r "SelectToTailor(Manual)") = ""
                   /\ qualifies r = false) rows_nothing_marked
  /\ in_final master_two_jobs rows_nothing_marked "EXPERIENCE" acme
  /\ prop acme "responsibilities" = VStrs ["Built X"; "Led Y"].
Proof.
  split; [|split].
  - repeat constructor.
  - exists (mkSection "EXPERIENCE" (Some [acme; beta]) None).
    split; [now left | split; [reflexivity | now left]].
  - reflexivity.
Qed.

(** The cap, for any master record whose items have no more bullets than
    the sheet has bullet columns. *)
Lemma final_record_capped (master : resume) (rows : list rowobj) :
  master_within_columns master ->
  (forall s it, In s (finalSections master rows) -> In it (all_items s) ->
     (title s = "EXPERIENCE" \/ title s = "LEADERSHIP & UNIVERSITY INVOLVEMENT" ->
        bullet_count "responsibilities" it <= STAGE3_MAX_BULLETS_PER_JOB)
     /\ (title s = "PROJECTS" ->
           bullet_count "descriptionBullets" it <= STAGE3_MAX_BULLETS_PER_PROJECT))
  /\ (forall job, In job (master_items "EXPERIENCE" master) ->
        keeps_highest master rows "EXPERIENCE" (prop job "company")
          "responsibilities" STAGE3_MAX_BULLETS_PER_JOB job)
  /\ (forall project, In project (master_projects master) ->
        keeps_highest master rows "PROJECTS" (prop project "projectName")
          "descriptionBullets" STAGE3_MAX_BULLETS_PER_PROJECT project)
  /\ (forall entry,
        In entry (master_items "LEADERSHIP & UNIVERSITY INVOLVEMENT" master) ->
        keeps_highest master rows "LEADERSHIP & UNIVERSITY INVOLVEMENT"
          (jsv_or (prop entry "organization") (prop entry "role"))
          "responsibilities" STAGE3_MAX_BULLETS_PER_JOB entry).
Proof.
  intro Hmaster. split; [|split; [|split]].
  - intros s it Hs Hit. apply finalSections_In in Hs. destruct Hs as [Hs | Hs].
    + apply dynamicSections_In in Hs.
      destruct Hs as [[-> _] | [Hp | [[-> _] | [Ht Hi]]]].
      * apply tailoredExperience_items in Hit. destruct Hit as [j [_ Hj]].
        split; [intros _ | discriminate].
        exact (assembleItem_cap _ _ _ _ _ _ _ Hj).
      * destruct (tailoredProjects_items master rows s it Hp) as [Ht Hiff].
        apply Hiff in Hit. destruct Hit as [p [_ Hj]].
        split; [rewrite Ht; intros [H | H]; discriminate | intros _].
        exact (assembleItem_cap _ _ _ _ _ _ _ Hj).
      * apply tailoredLeadership_items in Hit. destruct Hit as [j [_ Hj]].
        split; [intros _ | discriminate].
        exact (assembleItem_cap _ _ _ _ _ _ _ Hj).
      * rewrite Ht. split; [intros [H | H]; discriminate | discriminate].
    + apply staticSections_In in Hs. destruct Hs as [Hs _].
      destruct (Hmaster s it Hs Hit) as [H1 H2].
      unfold NUM_DEDICATED_BULLET_COLUMNS in *.
      unfold STAGE3_MAX_BULLETS_PER_JOB, STAGE3_MAX_BULLETS_PER_PROJECT.
      split; intros _; lia.
  - intros job Hjob. apply keeps_highest_of_emits.
    + unfold STAGE3_MAX_BULLETS_PER_JOB. lia.
    + intros it Hit. exact (experience_in_final master rows job it Hjob Hit).
  - intros p Hp. apply keeps_highest_of_emits.
    + unfold STAGE3_MAX_BULLETS_PER_PROJECT. lia.
    + intros it Hit. exact (project_in_final master rows p it Hp Hit).
  - intros e He. apply keeps_highest_of_emits.
    + unfold STAGE3_MAX_BULLETS_PER_JOB. lia.
    + intros it Hit. exact (leadership_in_final master rows e it He Hit).
Qed.

(** C2 (cap invariant).  For the master record the normaliser returns
    for a sheet and any scoring sheet, no experience or leadership item
    of the final record has more than [STAGE3_MAX_BULLETS_PER_JOB]
    bullets and no project more than [STAGE3_MAX_BULLETS_PER_PROJECT];
    and for every job, project and leadership entry of the master record
    of which more rows pass the filter than the cap allows, the final
    record holds the item with exactly cap bullets, taken from rows none
    of which scores below a row that was left out. *)
Theorem C2_cap_and_highest_scored (Date_parse : string -> option (nat * Z))
    (allData : list (list cell)) (master : resume) (rows : list rowobj) :
  MasterResumeData.getMasterResumeData Date_parse allData = Some master ->
  (forall s it, In s (finalSections master rows) -> In it (all_items s) ->
     (title s = "EXPERIENCE" \/ title s = "LEADERSHIP & UNIVERSITY INVOLVEMENT" ->
        bullet_count "responsibilities" it <= STAGE3_MAX_BULLETS_PER_JOB)
     /\ (title s = "PROJECTS" ->
           bullet_count "descriptionBullets" it <= STAGE3_MAX_BULLETS_PER_PROJECT))
  /\ (forall job, In job (master_items "EXPERIENCE" master) ->
        keeps_highest master rows "EXPERIENCE" (prop job "company")
          "responsibilities" STAGE3_MAX_BULLETS_PER_JOB job)
  /\ (forall project, In project (master_projects master) ->
        keeps_highest master rows "PROJECTS" (prop project "projectName")
          "descriptionBullets" STAGE3_MAX_BULLETS_PER_PROJECT project)
  /\ (forall entry,
        In entry (master_items "LEADERSHIP & UNIVERSITY INVOLVEMENT" master) ->
        keeps_highest master rows "LEADERSHIP & UNIVERSITY INVOLVEMENT"
          (jsv_or (prop entry "organization") (prop entry "role"))
          "responsibilities" STAGE3_MAX_BULLETS_PER_JOB entry).
Proof.
  intro H. apply final_record_capped.
  exact (RecordFacts.getMasterResumeData_within_columns Date_parse allData master H).
Qed.

(** C3 (drop invariant), evaluated where it breaks.  No row of either job
    of [master_two_jobs] passes the filter, so neither job should appear;
    the final record is the master's EXPERIENCE section, both jobs and all
    their bullets included. *)
Theorem C3_unmarked_items_reappear :
  passing "EXPERIENCE" (prop acme "company") rows_nothing_marked = []
  /\ passing "EXPERIENCE" (prop beta "company") rows_nothing_marked = []
  /\ finalSections master_two_jobs rows_nothing_marked
     = [mkSection "EXPERIENCE" (Some [acme; beta]) None].
Proof. repeat split. Qed.


(** The sheet of [master_sheet] with six marked rows for one job: the
    five with the highest scores are kept, in the order of their scores. *)
Lemma C2_witness :
  MasterResumeData.getMasterResumeData MasterResumeData.Date_parse_iso
    SamplesN.master_sheet = Some SamplesN.normalised_master
  /\ length (passing "EXPERIENCE" (prop SamplesN.acme_job "company") rows_six_marked) = 6
  /\ in_final SamplesN.normalised_master rows_six_marked "EXPERIENCE"
       (obj_set "responsibilities" (VStrs ["b1"; "b4"; "b5"; "b3"; "b0"])
          SamplesN.acme_job).
Proof.
  split; [reflexivity | split; [reflexivity |]].
  destruct (C2_cap_and_highest_scored MasterResumeData.Date_parse_iso
              SamplesN.master_sheet SamplesN.normalised_master rows_six_marked eq_refl)
    as [_ [Hjobs _]].
  assert (Hin : In SamplesN.acme_job
                   (master_items "EXPERIENCE" SamplesN.normalised_master))
    by now left.
  assert (Hmore : STAGE3_MAX_BULLETS_PER_JOB
                  < length (passing "EXPERIENCE" (prop SamplesN.acme_job "company")
                              rows_six_marked))
    by (vm_compute; lia).
  destruct (Hjobs SamplesN.acme_job Hin Hmore) as [_ [_ [_ Hfinal]]].
  exact Hfinal.
Defined.

(** C4 (tailoring fallback), as the code has it.  The text of a bullet is
    the entry's tailored text with the white space at its ends removed
    when that text is not blank, is not the "not suitable" sentence in any
    letter case and does not begin with "TAILOR_FAIL" in any letter case;
    in every other case it is the entry's original text. *)
Theorem C4_tailored_or_original (entry : rowobj) :
  let tailored := row_get entry "TailoredBulletText(Stage2)" in
  (usable tailored ->
     getBulletTextToUse entry = CText (trim (cell_String tailored)))
  /\ (~ usable tailored ->
        getBulletTextToUse entry = row_get entry "OriginalBulletText").
Proof.
  simpl. set (c := row_get entry "TailoredBulletText(Stage2)").
  assert (Hiff : usable c <->
            (cell_truthy c
             && negb (String.eqb (trim (cell_String c)) "")
             && negb (startsWith (toUpperCase (cell_String c)) "TAILOR_FAIL")
             && negb (String.eqb (toLowerCase (cell_String c)) not_suitable_sentinel))
            = true).
  { unfold usable, blank, equal_ignoring_case, begins_ignoring_case.
    change (toLowerCase NotSuitable) with not_suitable_sentinel.
    change (toUpperCase "TAILOR_FAIL") with "TAILOR_FAIL".
    rewrite !andb_true_iff, !negb_true_iff.
    rewrite <- startsWith_app, !String.eqb_neq.
    destruct (cell_truthy c), (startsWith (toUpperCase (cell_String c)) "TAILOR_FAIL");
      intuition congruence. }
  unfold getBulletTextToUse. fold c.
  destruct (cell_truthy c
            && negb (String.eqb (trim (cell_String c)) "")
            && negb (startsWith (toUpperCase (cell_String c)) "TAILOR_FAIL")
            && negb (String.eqb (toLowerCase (cell_String c)) not_suitable_sentinel))
    eqn:E.
  - split; [reflexivity |]. intro H. exfalso. apply H. now apply Hiff.
  - split; [|reflexivity]. intro H. apply Hiff in H. discriminate.
Qed.

(** C4 as stated fails twice.  A tailored text with white space around
    it is not what the bullet becomes (the bullet is the trimmed text);
    and a tailored text that begins with "tailor_fail" in lower case, which
    does not begin with "TAILOR_FAIL", is set aside for the original. *)
Lemma C4_counterexample :
  (row_get entry_padded_tailoring "TailoredBulletText(Stage2)" = CText " Led Y "
   /\ getBulletTextToUse entry_padded_tailoring = CText "Led Y")
  /\ (row_get entry_lowercase_marker "TailoredBulletText(Stage2)"
       = CText "tailor_fail/skip: no answer"
      /\ startsWith "tailor_fail/skip: no answer" "TAILOR_FAIL" = false
      /\ row_get entry_lowercase_marker "OriginalBulletText" = CText "Built X"
      /\ getBulletTextToUse entry_lowercase_marker = CText "Built X").
Proof. repeat split. Qed.


(** ** Stage 2 *)

Import Stage2 Stage2Facts Samples2.

Lemma Forall2_nth_error {A B : Type} (R : A -> B -> Prop) (l : list A) (l' : list B) :
  Forall2 R l l' ->
  forall i a b, nth_error l i = Some a -> nth_error l' i = Some b -> R a b.
Proof.
  induction 1 as [|x y l l' Hxy _ IH]; intros i a b Ha Hb.
  - destruct i; discriminate.
  - destruct i as [|i]; simpl in *.
    + injection Ha as <-. injection Hb as <-. exact Hxy.
    + eapply IH; eassumption.
Qed.

Lemma find_columns_inv (headers : list cell) (cols : columns) :
  find_columns headers = Some cols ->
  indexOf_cell headers "SelectToTailor(Manual)" = Some (selectColIndex cols)
  /\ indexOf_cell headers "TailoredBulletText(Stage2)" = Some (tailoredColIndex cols).
Proof.
  unfold find_columns.
  destruct (indexOf_cell headers "OriginalBulletText"); [|discriminate].
  destruct (indexOf_cell headers "SelectToTailor(Manual)"); [|discriminate].
  destruct (indexOf_cell headers "TailoredBulletText(Stage2)"); [|discriminate].
  destruct (indexOf_cell headers "RelevanceScore"); [|discriminate].
  destruct (indexOf_cell headers "UniqueID"); [|discriminate].
  intros [= <-]. simpl. auto.
Qed.

(** C10 (stage 2 is a partial update).  Whatever the model answers and
    whether or not the stage gets as far as writing, the scoring sheet has
    as many rows after stage 2 as before; a row whose selection flag,
    upper-cased and trimmed, is none of YES, TRUE, 1, X is the same row
    afterwards; and in every row every column headed by a name other than
    TailoredBulletText(Stage2) holds what it held. *)
Theorem C10_stage2_frame (answers : nat -> string) (jdCell : cell) (write_ok : bool)
    (headers : list cell) (data : list (list cell)) :
  let after :=
    rows_after write_ok (headers :: data)
      (runStage2 answers jdCell (headers :: data)) in
  length after = length data
  /\ forall i before row',
       nth_error data i = Some before -> nth_error after i = Some row' ->
       (forall s, indexOf_cell headers "SelectToTailor(Manual)" = Some s ->
                  is_selected (nth s before CUndef) = false -> row' = before)
       /\ (forall name j, name <> "TailoredBulletText(Stage2)" ->
             indexOf_cell headers name = Some j ->
             nth j row' CUndef = nth j before CUndef).
Proof.
  simpl. destruct (find_columns headers) as [cols|] eqn:Hcols.
  - pose proof (runStage2_frame answers jdCell write_ok headers data cols Hcols) as HF.
    split; [symmetry; eapply Forall2_length; exact HF |].
    intros i before row' Hb Ha.
    destruct (Forall2_nth_error _ _ _ HF i before row' Hb Ha) as [Hsel Hcol].
    destruct (find_columns_inv headers cols Hcols) as [Hs Ht].
    split.
    + intros s Hs' Hflag. apply Hsel. unfold row_selected.
      rewrite Hs in Hs'. injection Hs' as <-. exact Hflag.
    + intros name j Hne Hj. apply Hcol.
      exact (indexOf_cell_distinct headers name _ j _ Hne Hj Ht).
  - rewrite (runStage2_no_columns answers jdCell write_ok headers data Hcols).
    split; [reflexivity |].
    intros i before row' Hb Ha. rewrite Hb in Ha. injection Ha as <-.
    split; reflexivity.
Qed.

(** The stage at work: the marked row receives the tailored text, taken
    out of the model's fenced JSON envelope; the other row is as it was. *)
Example stage2_tailors_the_marked_row :
  runStage2 (fun _ => fenced_envelope) (CText jd_text) sheet_one_marked
  = Stage2Done 1
      (Some [Samples.scored "EXP_J0_B0" "EXPERIENCE" "Acme Corp" "Built X" "0.90"
               "yes" "Built X in Rocq";
             Samples.scored "EXP_J0_B1" "EXPERIENCE" "Acme Corp" "Led Y" "0.50"
               "" ""]).
Proof. reflexivity. Qed.

(** ** The bullet tailor *)

(** C6 (dual-mode parsing), as the code has it.  For an answer that is
    not an error, the tailor trims it, removes the code-fence markers
    from a copy and parses the copy as JSON.  When that yields an object
    whose [rewritten_bullet] is a non-empty string, the result is that
    string, trimmed.  When the copy does not parse, or parses to a value
    without such a string, the result is the whole trimmed answer (with
    whatever code-fence markers it has), not the copy. *)
Theorem C6_json_first_then_whole_answer (groqResponseString originalBullet : string) :
  is_answer groqResponseString = true ->
  let tailoredText := trim groqResponseString in
  let potentialJson := strip_code_fences tailoredText in
  (forall parsed s,
      JSON_parse potentialJson = Some parsed ->
      json_prop parsed "rewritten_bullet" = Some (JStr s) -> s <> "" ->
      tailoredFromResponse groqResponseString originalBullet = trim s)
  /\ (JSON_parse potentialJson = None ->
      tailoredFromResponse groqResponseString originalBullet = tailoredText)
  /\ (forall parsed,
        JSON_parse potentialJson = Some parsed ->
        (forall s, json_prop parsed "rewritten_bullet" = Some (JStr s) -> s = "") ->
        tailoredFromResponse groqResponseString originalBullet = tailoredText).
Proof.
  intro Hans. simpl. unfold tailoredFromResponse. rewrite Hans.
  split; [|split].
  - intros parsed s Hp Hk Hs. rewrite Hp, Hk.
    assert (Ht : json_truthy parsed = true).
    { destruct parsed; simpl in Hk; try discriminate. reflexivity. }
    rewrite Ht. destruct s; [congruence | reflexivity].
  - intros Hp. now rewrite Hp.
  - intros parsed Hp Hnone. rewrite Hp.
    destruct (json_prop parsed "rewritten_bullet") as [v|]; [|reflexivity].
    destruct v; try reflexivity.
    rewrite (Hnone s eq_refl). simpl. now rewrite andb_false_r.
Qed.

Lemma C6_witness :
  tailoredFromResponse fenced_envelope "Built X" = "Built X in Rocq".
Proof.
  destruct (C6_json_first_then_whole_answer fenced_envelope "Built X" eq_refl)
    as [Hjson _].
  exact (Hjson (JObj [("rewritten_bullet", JStr "Built X in Rocq")])
               "Built X in Rocq" eq_refl eq_refl
               (fun E => match E in (_ = s) return
                           match s with EmptyString => False | _ => True end
                         with eq_refl => I end)).
Defined.

(** C6 as stated fails: a plain-text answer inside a code fence does not
    parse as JSON, and the result keeps the fence, although the copy that
    was parsed had it removed. *)
Lemma C6_counterexample :
  is_answer fenced_plain = true
  /\ strip_code_fences (trim fenced_plain) = "Built X in Rocq"
  /\ JSON_parse "Built X in Rocq" = None
  /\ tailoredFromResponse fenced_plain "Built X" = fenced_plain
  /\ startsWith (tailoredFromResponse fenced_plain "Built X") "```" = true
  /\ endsWith (tailoredFromResponse fenced_plain "Built X") "```" = true.
Proof. repeat split. Qed.

(** ** Stage 1 *)

Import Stage1 Scoring Stage1Facts Samples1.

(** C8 as stated fails: the model answers with a relevance score of 7
    and the rows record 7.00. *)
Lemma C8_counterexample :
  allScoredBulletsDataForSheet show_whole (fun _ => answer_scored "7") jd_sample
    master_acme
  = Returns
      [scoredRow "EXP_J0_B0" "EXPERIENCE" (CText "Acme Corp") "Built X"
         ("7.00", "Rocq", CText "Close match.");
       scoredRow "EXP_J0_B1" "EXPERIENCE" (CText "Acme Corp") "Led Y"
         ("7.00", "Rocq", CText "Close match.")].
Proof. reflexivity. Qed.

(** The batch at work: the model's first answer is an error, the second
    a score; both bullets are recorded. *)
Example stage1_records_the_failure_and_goes_on :
  allScoredBulletsDataForSheet show_whole answers_fail_then_score jd_sample
    master_acme
  = Returns
      [scoredRow "EXP_J0_B0" "EXPERIENCE" (CText "Acme Corp") "Built X"
         ("0.00", "",
          CText "Error: Groq API call failed for matching.. Raw: ERROR: API Call Failed (Groq) - HTTP 429");
       scoredRow "EXP_J0_B1" "EXPERIENCE" (CText "Acme Corp") "Led Y"
         ("0.80", "Rocq", CText "Close match.")].
Proof. reflexivity. Qed.

(** ** The normaliser *)

Import MasterResumeData BulletColumns DateCells Normalised RowFacts RecordFacts SamplesN.










(** C7 (date formatting), as the code has it.  The formatter is a total
    function of the cell and the end-date flag.  With the text of the
    cell trimmed: a blank cell gives "Present" for an end date and the
    empty text otherwise; the word "present" in any mix of cases gives
    "Present"; a text shaped as a four-digit year or as "Month YYYY" comes
    back trimmed, and so does a text with no calendar date; any other
    cell gives the month name and the year of its date. *)
Theorem C7_date_formatting (Date_parse : string -> option (nat * Z))
    (d : dateCell) (isPotentialEndDate : bool) :
  let result := formatDateFromSheet Date_parse d isPotentialEndDate in
  (date_text d = "" ->
     result = if isPotentialEndDate then "Present" else "")
  /\ (says_present (date_text d) = true -> result = "Present")
  /\ (date_text d <> "" -> says_present (date_text d) = false ->
      keeps_its_shape (date_text d) = true -> result = date_text d)
  /\ (date_text d <> "" -> says_present (date_text d) = false ->
      date_of Date_parse d = None -> result = date_text d)
  /\ (forall month year,
        date_text d <> "" -> says_present (date_text d) = false ->
        keeps_its_shape (date_text d) = false ->
        date_of Date_parse d = Some (month, year) ->
        result = month_year month year).
Proof.
  unfold date_text, says_present, keeps_its_shape, month_year, date_of, date_text.
  assert (Hcase : forall (t : option (nat * Z)) (text : string),
            let result :=
              if String.eqb (trim text) "" then
                if isPotentialEndDate then "Present" else ""
              else if String.eqb (toUpperCase (trim text)) "PRESENT" then "Present"
              else match t with
                   | None => trim text
                   | Some (month, year) =>
                       if is_year (trim text) then trim text
                       else if is_month_year (trim text) then trim text
                       else (nth month monthNames "undefined" ++ " "
                             ++ string_of_Z year)%string
                   end in
            (trim text = "" ->
               result = if isPotentialEndDate then "Present" else "")
            /\ (String.eqb (toUpperCase (trim text)) "PRESENT" = true ->
                  result = "Present")
            /\ (trim text <> "" ->
                  String.eqb (toUpperCase (trim text)) "PRESENT" = false ->
                  is_year (trim text) || is_month_year (trim text) = true ->
                  result = trim text)
            /\ (trim text <> "" ->
                  String.eqb (toUpperCase (trim text)) "PRESENT" = false ->
                  t = None -> result = trim text)
            /\ (forall month year,
                  trim text <> "" ->
                  String.eqb (toUpperCase (trim text)) "PRESENT" = false ->
                  is_year (trim text) || is_month_year (trim text) = false ->
                  t = Some (month, year) ->
                  result = (nth month monthNames "undefined" ++ " "
                            ++ string_of_Z year)%string)).
  { intros t text. cbv zeta.
    destruct (String.eqb (trim text) "") eqn:Eb.
    - apply String.eqb_eq in Eb. rewrite Eb.
      split; [reflexivity |]. split; [intro H; discriminate H |].
      repeat split; intros; congruence.
    - apply String.eqb_neq in Eb.
      destruct (String.eqb (toUpperCase (trim text)) "PRESENT") eqn:Ep.
      + split; [intro; contradiction |]. split; [reflexivity |].
        repeat split; intros; congruence.
      + split; [intro; contradiction |]. split; [intro H; discriminate H |].
        split; [|split].
        * intros _ _ H. destruct t as [[m y]|]; [|reflexivity].
          destruct (is_year (trim text)); [reflexivity |].
          simpl in H. now rewrite H.
        * intros _ _ ->. reflexivity.
        * intros m y _ _ H ->. apply orb_false_iff in H. destruct H as [-> ->].
          reflexivity. }
  destruct d as [|t shown|s].
  - simpl. split; [reflexivity |]. split; [intro H; discriminate H |].
    repeat split; intros;
      match goal with H : _ <> _ |- _ => exfalso; apply H; reflexivity end.
  - exact (Hcase t shown).
  - exact (Hcase (Date_parse (trim s)) s).
Qed.

(** C7 as stated fails: "present" and " n/a " have no calendar date, and
    neither comes back as it was written. *)
Lemma C7_counterexample :
  Date_parse_iso "present" = None
  /\ formatDateFromSheet Date_parse_iso (DText "present") false = "Present"
  /\ Date_parse_iso " n/a " = None
  /\ formatDateFromSheet Date_parse_iso (DText " n/a ") false = "n/a".
Proof. repeat split. Qed.

Example dates_of_the_sheet :
  formatDateFromSheet Date_parse_iso (DText "2018-06") false = "June 2018"
  /\ formatDateFromSheet Date_parse_iso (DText "2020") false = "2020"
  /\ formatDateFromSheet Date_parse_iso (DText "June 2018") true = "June 2018"
  /\ formatDateFromSheet Date_parse_iso (DDate (Some (2, 2021%Z)) "Mon Mar 01 2021") false
     = "March 2021"
  /\ formatDateFromSheet Date_parse_iso (DText "  ") true = "Present"
  /\ formatDateFromSheet Date_parse_iso (DText "  ") false = ""
  /\ formatDateFromSheet Date_parse_iso DNullish true = "Present".
Proof. repeat split. Qed.

(** * Further properties *)

(** ** The sections stage 3 assembles hold only rows that pass *)

Lemma assembled_from_passing_rows (T : string) (identifier : jsv) (key : string)
    (cap : nat) (masterItem it : object) (rows : list rowobj) :
  assembleItem T identifier key cap masterItem rows = Some it ->
  from_passing_rows rows T key it.
Proof.
  intro H. exists (keptRows cap T identifier rows).
  split; [exact (assembleItem_bullets _ _ _ _ _ _ _ H) |].
  apply Forall_forall. intros r Hr. apply keptRows_In in Hr.
  destruct Hr as [H1 [H2 [_ H4]]]. auto.
Qed.

(** X1.  In the experience, projects and leadership sections that stage 3
    assembles from the scoring sheet, every bullet of every item is the
    text of a row of the sheet that is filed under the section, has a
    score at or above the threshold and is marked as selected. *)
Theorem assembled_sections_hold_passing_rows (master : resume) (rows : list rowobj)
    (s : section) (it : object) :
  In s (dynamicSections master rows) -> In it (all_items s) ->
  title s <> tech_title ->
  (title s = "PROJECTS" /\ from_passing_rows rows "PROJECTS" "descriptionBullets" it)
  \/ ((title s = "EXPERIENCE" \/ title s = "LEADERSHIP & UNIVERSITY INVOLVEMENT")
      /\ from_passing_rows rows (title s) "responsibilities" it).
Proof.
  intros Hs Hit Htech. apply dynamicSections_In in Hs.
  destruct Hs as [[-> _] | [Hp | [[-> _] | [Ht _]]]].
  - right. split; [now left |].
    apply tailoredExperience_items in Hit. destruct Hit as [j [_ Hj]].
    exact (assembled_from_passing_rows _ _ _ _ _ _ _ Hj).
  - left. destruct (tailoredProjects_items master rows s it Hp) as [Ht Hiff].
    split; [exact Ht |]. apply Hiff in Hit. destruct Hit as [p [_ Hj]].
    exact (assembled_from_passing_rows _ _ _ _ _ _ _ Hj).
  - right. split; [now right |].
    apply tailoredLeadership_items in Hit. destruct Hit as [j [_ Hj]].
    exact (assembled_from_passing_rows _ _ _ _ _ _ _ Hj).
  - contradiction.
Qed.

Lemma assembled_sections_hold_passing_rows_witness :
  from_passing_rows rows_one_marked "EXPERIENCE" "responsibilities"
    (obj_set "responsibilities" (VStrs ["Built X"]) acme).
Proof.
  destruct (assembled_sections_hold_passing_rows master_two_jobs rows_one_marked
              (tailoredExperienceSection master_two_jobs rows_one_marked)
              (obj_set "responsibilities" (VStrs ["Built X"]) acme)
              (or_introl eq_refl) (or_introl eq_refl)
              (fun E => eq_ind "EXPERIENCE"
                          (fun t => if String.eqb t "EXPERIENCE" then True else False)
                          I _ E))
    as [[Ht _] | [_ H]].
  - discriminate Ht.
  - exact H.
Defined.

(** ** A blank end date *)

Lemma collectBullets_keeps (prefix key : string) (count : nat) :
  (forall k, key <> (prefix ++ k)%string) ->
  forall k item acc,
    obj_get key (fst (collectBullets prefix k count item acc)) = obj_get key item.
Proof.
  intro Hne. induction count as [|c IH]; intros k item acc; [reflexivity |].
  rewrite collectBullets_step, IH. apply obj_get_delete_other.
  intro E. exact (Hne _ (eq_sym E)).
Qed.

Lemma formatField_blank (Date_parse : string -> option (nat * Z)) (k : string)
    (isEnd : bool) (item : object) :
  field_text item k = Some "" -> formatField Date_parse k isEnd item = item.
Proof. unfold formatField. now intros ->. Qed.

(** X2.  A row of an experience or leadership table whose EndDate cell is
    blank is normalised into an item whose [endDate] is the empty text:
    the formatter is called on non-empty cells only, so the "Present" it
    would give for a blank end date is never taken here. *)
Theorem blank_end_date_stays_blank (Date_parse : string -> option (nat * Z))
    (sec : string) (headers row : list string) (j : nat) :
  sec = "EXPERIENCE" \/ sec = "LEADERSHIP & UNIVERSITY INVOLVEMENT" ->
  columns_distinct sec headers ->
  obj_get "endDate" (columns_from sec headers 0) = Some j ->
  trim (nth j row "") = "" ->
  prop (normalizeRow Date_parse sec headers row) "endDate" = VStr ""
  /\ formatDateFromSheet Date_parse (DText (nth j row "")) true = "Present".
Proof.
  intros Hsec Hnd Hcol Hblank. split.
  - set (mapped := mapKeys sec (itemFromSheet headers row)).
    assert (Hm : obj_get "endDate" mapped = Some "").
    { unfold mapped. rewrite (mapped_row_lookup sec headers row _ Hnd), Hcol.
      simpl. now rewrite Hblank. }
    assert (Hd : obj_get "endDate" (dated Date_parse mapped) = Some (VStr "")).
    { unfold dated. rewrite formatField_blank.
      - rewrite formatField_other by discriminate.
        rewrite (obj_get_map VStr), Hm. reflexivity.
      - unfold field_text. rewrite formatField_other by discriminate.
        rewrite (obj_get_map VStr), Hm. reflexivity. }
    unfold normalizeRow, prop. fold mapped.
    assert (Hp : processItem Date_parse sec mapped
                 = trimFields
                     (let '(item', bulletsArray) :=
                        collectBullets "responsibility" 1 NUM_DEDICATED_BULLET_COLUMNS
                          (dated Date_parse mapped) [] in
                      obj_set "responsibilities" (VStrs bulletsArray) item'))
      by (destruct Hsec as [-> | ->]; reflexivity).
    rewrite Hp, trimFields_lookup.
    pose proof (collectBullets_keeps "responsibility" "endDate"
                  NUM_DEDICATED_BULLET_COLUMNS
                  (fun k => ltac:(discriminate)) 1 (dated Date_parse mapped) [])
      as Hk.
    destruct (collectBullets "responsibility" 1 NUM_DEDICATED_BULLET_COLUMNS
                (dated Date_parse mapped) []) as [item' bullets].
    simpl in Hk. rewrite obj_get_set_other by discriminate.
    rewrite Hk, Hd. reflexivity.
  - unfold formatDateFromSheet. simpl dateCell_String. rewrite Hblank. reflexivity.
Qed.

Lemma blank_end_date_stays_blank_witness :
  prop (normalizeRow Date_parse_iso "EXPERIENCE" experience_headers beta_row) "endDate"
  = VStr ""
  /\ formatDateFromSheet Date_parse_iso (DText (nth 4 beta_row "")) true = "Present".
Proof.
  exact (blank_end_date_stays_blank Date_parse_iso "EXPERIENCE" experience_headers
           beta_row 4 (or_introl eq_refl) ltac:(distinct_keys) eq_refl eq_refl).
Defined.

(** ** More about strings *)

Lemma string_app_nil_r (s : string) : (s ++ "")%string = s.
Proof. induction s as [|c r IH]; simpl; [|rewrite IH]; reflexivity. Qed.

Lemma string_app_assoc (a b c : string) :
  ((a ++ b) ++ c)%string = (a ++ (b ++ c))%string.
Proof. induction a as [|x r IH]; simpl; [|rewrite IH]; reflexivity. Qed.

Lemma string_length_app (a b : string) :
  String.length (a ++ b) = String.length a + String.length b.
Proof. induction a as [|x r IH]; simpl; [|rewrite IH]; reflexivity. Qed.

(** * More of the code *)

(** ** Stage 3: order and titles of the final record *)

Section SortByRelation.

Context {A : Type}.
Variable cmp : A -> A -> jsnum.
Variable R : A -> A -> Prop.
Variable P : A -> Prop.

Hypothesis R_trans : forall a b c, R a b -> R b c -> R a c.
Hypothesis cmp_pos : forall a b, P a -> P b -> jsnum_pos (cmp a b) = true -> R b a.
Hypothesis cmp_not_pos :
  forall a b, P a -> P b -> jsnum_pos (cmp a b) = false -> R a b.

Lemma sort_insert_sorted_by (a : A) (l : list A) :
  P a -> Forall P l -> StronglySorted R l -> StronglySorted R (sort_insert cmp a l).
Proof.
  intros Ha Hl Hs. induction Hs as [|b r Hsr IH Hb]; simpl.
  - constructor; constructor.
  - inversion Hl as [|? ? Hpb Hlr]; subst.
    destruct (jsnum_pos (cmp a b)) eqn:E.
    + constructor; [now apply IH |].
      apply Forall_forall. intros x Hx.
      eapply Permutation_in in Hx; [| apply Permutation_sym, sort_insert_perm].
      destruct Hx as [<- | Hx].
      * now apply cmp_pos.
      * rewrite Forall_forall in Hb. now apply Hb.
    + assert (Hab : R a b) by now apply cmp_not_pos.
      constructor; [now constructor |].
      constructor; [exact Hab |].
      apply Forall_forall. intros x Hx. rewrite Forall_forall in Hb.
      eapply R_trans; [exact Hab | now apply Hb].
Qed.

Lemma js_sort_sorted_by (l : list A) :
  Forall P l -> StronglySorted R (js_sort cmp l).
Proof.
  induction l as [|a r IH]; simpl; intro H.
  - constructor.
  - inversion H as [|? ? Ha Hr]; subst.
    apply sort_insert_sorted_by; [exact Ha | | now apply IH].
    apply Forall_forall. intros x Hx. apply js_sort_In in Hx.
    rewrite Forall_forall in Hr. now apply Hr.
Qed.

End SortByRelation.

Lemma NoDup_map_injective_on {A B : Type} (f : A -> B) (l : list A) (a b : A) :
  NoDup (map f l) -> In a l -> In b l -> f a = f b -> a = b.
Proof.
  induction l as [|x r IH]; simpl; intros Hnd Ha Hb E; [contradiction |].
  inversion Hnd as [|? ? Hx Hr]; subst.
  destruct Ha as [-> | Ha], Hb as [-> | Hb].
  - reflexivity.
  - exfalso. apply Hx. rewrite E. now apply in_map.
  - exfalso. apply Hx. rewrite <- E. now apply in_map.
  - now apply IH.
Qed.

Module FinalShapeFacts.
Import Stage3 Stage3Facts Stage3Record FinalRecord FinalShape.

Lemma staticSections_unfold (master : resume) (dyn : list section) :
  staticSections master dyn = flat_map (static_for master dyn) desiredFinalSectionOrder.
Proof. reflexivity. Qed.

Lemma static_for_cases (master : resume) (dyn : list section) (t : string) :
  static_for master dyn t = []
  \/ exists s, static_for master dyn t = [s]
               /\ upper_title s = toUpperCase t
               /\ includes_str (map upper_title dyn) (toUpperCase t) = false
               /\ In s (sections master).
Proof.
  unfold static_for. fold upper_title.
  destruct (includes_str _ (toUpperCase t)) eqn:Hinc; simpl; [now left |].
  destruct (find _ (sections master)) as [s|] eqn:Hf; [|now left].
  destruct (isStaticSectionEffectivelyEmpty s); simpl; [now left |].
  right. exists s. apply find_some in Hf. destruct Hf as [Hin Heq].
  apply String.eqb_eq in Heq. auto.
Qed.

Lemma includes_str_In (l : list string) (x : string) :
  includes_str l x = true <-> In x l.
Proof.
  unfold includes_str. rewrite existsb_exists. split.
  - intros [y [Hy E]]. apply String.eqb_eq in E. now subst.
  - intro H. exists x. split; [exact H | apply String.eqb_refl].
Qed.

(** The upper-cased titles of the sections pushed by the static step, for
    any list of titles without repetition once upper-cased. *)
Lemma static_titles_NoDup (master : resume) (dyn : list section) (ts : list string) :
  NoDup (map toUpperCase ts) ->
  NoDup (map upper_title (flat_map (static_for master dyn) ts))
  /\ forall s, In s (flat_map (static_for master dyn) ts) ->
       In (upper_title s) (map toUpperCase ts)
       /\ ~ In (upper_title s) (map upper_title dyn).
Proof.
  induction ts as [|t r IH]; simpl; intro Hnd.
  - split; [constructor | contradiction].
  - inversion Hnd as [|? ? Ht Hr]; subst. destruct (IH Hr) as [IH1 IH2].
    destruct (static_for_cases master dyn t) as [E | [s [E [Hs [Hinc Hin]]]]];
      rewrite E; simpl.
    + split; [exact IH1 |]. intros s Hs. destruct (IH2 s Hs). auto.
    + split.
      * constructor; [|exact IH1]. intro Hc. apply in_map_iff in Hc.
        destruct Hc as [s' [E' Hs']]. destruct (IH2 s' Hs') as [Hin' _].
        apply Ht. rewrite <- Hs, <- E'. exact Hin'.
      * intros s' [<- | Hs'].
        -- split; [left; now symmetry |].
           intro Hc. rewrite Hs in Hc. apply includes_str_In in Hc. congruence.
        -- destruct (IH2 s' Hs'). auto.
Qed.

Lemma desired_order_NoDup : NoDup (map toUpperCase desiredFinalSectionOrder).
Proof.
  cbv. repeat (constructor; [intro H; cbv in H; intuition discriminate |]).
  constructor.
Qed.

(** The sections pushed by the dynamic assembly carry four fixed titles,
    each at most once. *)
Lemma dynamic_titles (master : resume) (rows : list rowobj) :
  NoDup (map upper_title (dynamicSections master rows))
  /\ Forall (fun s => In (title s) desiredFinalSectionOrder)
       (dynamicSections master rows).
Proof.
  unfold dynamicSections.
  assert (Hp : match tailoredProjectsSection master rows with
               | Some s => title s = "PROJECTS"
               | None => True
               end).
  { unfold tailoredProjectsSection.
    destruct (find_section "PROJECTS" (sections master)) as [mp|]; [|exact I].
    destruct (subsections mp); [reflexivity | exact I]. }
  destruct (section_has_items (tailoredExperienceSection master rows));
    destruct (tailoredProjectsSection master rows) as [p|];
    try destruct (some_subsection_has_items p);
    destruct (section_has_items (tailoredLeadershipSection master rows));
    destruct (selectedTechItemsFromSheet rows);
    try destruct (Nat.ltb 0 (length (tailoredTechSubsections master rows)));
    cbn [app map]; unfold upper_title; cbn [title tailoredExperienceSection
      tailoredLeadershipSection]; try rewrite Hp;
    (split;
     [ repeat (constructor; [intro H; cbv in H; intuition discriminate |]);
       constructor
     | repeat (apply Forall_cons; [try rewrite Hp; cbv; tauto |]);
       apply Forall_nil ]).
Qed.

Lemma final_titles_NoDup (master : resume) (rows : list rowobj) :
  NoDup (map upper_title (finalSections master rows)).
Proof.
  unfold finalSections.
  eapply Permutation_NoDup;
    [apply Permutation_map, js_sort_perm |].
  rewrite map_app. destruct (dynamic_titles master rows) as [Hd _].
  destruct (static_titles_NoDup master (dynamicSections master rows)
              desiredFinalSectionOrder desired_order_NoDup) as [Hs Hdis].
  rewrite staticSections_unfold.
  apply NoDup_app; [exact Hd | exact Hs |].
  intros x Hx Hx'. apply in_map_iff in Hx'. destruct Hx' as [s [<- Hin]].
  destruct (Hdis s Hin) as [_ Hn]. exact (Hn Hx).
Qed.

Lemma upper_desired (t : string) :
  In t desiredFinalSectionOrder -> toUpperCase t = t.
Proof.
  intro H. cbv in H.
  repeat (destruct H as [<- | H]; [reflexivity |]). contradiction.
Qed.

Lemma order_index_known (t : string) :
  In t desiredFinalSectionOrder ->
  (0 <= indexOf_from 0 desiredFinalSectionOrder t < 6)%Z.
Proof.
  intro H. cbv in H.
  repeat (destruct H as [<- | H]; [vm_compute; split; [discriminate | reflexivity] |]).
  contradiction.
Qed.

Lemma final_titles_known (master : resume) (rows : list rowobj) :
  Forall (fun s => (0 <= order_index s < 6)%Z) (finalSections master rows).
Proof.
  apply Forall_forall. intros s Hs. apply finalSections_In in Hs.
  unfold order_index. destruct Hs as [Hs | Hs].
  - destruct (dynamic_titles master rows) as [_ Hd]. rewrite Forall_forall in Hd.
    specialize (Hd s Hs). unfold upper_title. rewrite (upper_desired _ Hd).
    now apply order_index_known.
  - rewrite staticSections_unfold in Hs.
    destruct (static_titles_NoDup master (dynamicSections master rows)
                desiredFinalSectionOrder desired_order_NoDup) as [_ Hdis].
    destruct (Hdis s Hs) as [Hin _]. apply in_map_iff in Hin.
    destruct Hin as [t [E Ht]]. rewrite <- E, (upper_desired _ Ht).
    now apply order_index_known.
Qed.

End FinalShapeFacts.

Import FinalShape FinalShapeFacts.

(** X3.  The sections of the final record stand in the order of
    [desiredFinalSectionOrder], whatever their order in the master record
    and in the assembly, and every one of them carries one of the titles
    of that list. *)
Theorem final_sections_in_desired_order (master : resume) (rows : list rowobj) :
  Forall (fun s => (0 <= order_index s < 6)%Z) (Stage3.finalSections master rows)
  /\ StronglySorted in_order (Stage3.finalSections master rows).
Proof.
  split; [apply final_titles_known |].
  unfold Stage3.finalSections.
  apply (js_sort_sorted_by Stage3.section_order in_order
           (fun s => (0 <= order_index s < 6)%Z)).
  - unfold in_order. intros a b c. lia.
  - intros a b Ha Hb. unfold Stage3.section_order, in_order.
    fold (upper_title a) (upper_title b). fold (order_index a) (order_index b).
    destruct (Z.eqb_spec (order_index a) (-1)); [lia |].
    destruct (Z.eqb_spec (order_index b) (-1)); [lia |].
    simpl. unfold jsnum_pos. intro H. apply negb_true_iff in H.
    assert (Hn : ~ (inject_Z (order_index a - order_index b) <= 0)%Q)
      by (intro Hle; apply Qle_bool_iff in Hle; congruence).
    unfold Qle in Hn. simpl in Hn. lia.
  - intros a b Ha Hb. unfold Stage3.section_order, in_order.
    fold (upper_title a) (upper_title b). fold (order_index a) (order_index b).
    destruct (Z.eqb_spec (order_index a) (-1)); [lia |].
    destruct (Z.eqb_spec (order_index b) (-1)); [lia |].
    simpl. unfold jsnum_pos. intro H. apply negb_false_iff in H.
    apply Qle_bool_iff in H. unfold Qle in H. simpl in H. lia.
  - pose proof (final_titles_known master rows) as H.
    unfold Stage3.finalSections in H.
    apply Forall_forall. intros s Hs. rewrite Forall_forall in H. apply H.
    now apply js_sort_In.
Qed.

(** X4.  No two sections of the final record have the same title, letter
    case aside; so a section that stage 3 assembled is the only section of
    its title there, and the master's section of that title is not
    copied. *)
Theorem assembled_section_is_the_final_one (master : resume) (rows : list rowobj)
    (d s : section) :
  In d (Stage3.dynamicSections master rows) ->
  In s (Stage3.finalSections master rows) ->
  upper_title s = upper_title d ->
  s = d.
Proof.
  intros Hd Hs E.
  apply (NoDup_map_injective_on upper_title (Stage3.finalSections master rows));
    [apply final_titles_NoDup | exact Hs | | exact E].
  apply Stage3Record.finalSections_In. now left.
Qed.

Lemma assembled_section_is_the_final_one_witness :
  mkSection "EXPERIENCE"
    (Some [obj_set "responsibilities" (VStrs ["Built X"]) Samples.acme]) None
  = Stage3.tailoredExperienceSection Samples.master_two_jobs Samples.rows_one_marked.
Proof.
  exact (assembled_section_is_the_final_one Samples.master_two_jobs
           Samples.rows_one_marked
           (Stage3.tailoredExperienceSection Samples.master_two_jobs
              Samples.rows_one_marked)
           (mkSection "EXPERIENCE"
              (Some [obj_set "responsibilities" (VStrs ["Built X"]) Samples.acme])
              None)
           (or_introl eq_refl) (or_introl eq_refl) eq_refl).
Defined.

(** ** Stage 3: the skills section *)

Module TechFacts.
Import Stage3 FinalRecord FinalShape.

Lemma category_push_items (c : string) (x : object) (m : list subsection) :
  Permutation (flat_map sub_items (category_push c x m))
              (x :: flat_map sub_items m).
Proof.
  induction m as [|ss r IH]; simpl.
  - apply Permutation_refl.
  - destruct (String.eqb (sub_name ss) c); simpl.
    + rewrite <- app_assoc. simpl.
      apply Permutation_sym.
      apply (Permutation_middle (sub_items ss) (flat_map sub_items r) x).
    + eapply perm_trans; [apply Permutation_app_head, IH |].
      apply Permutation_sym.
      apply (Permutation_middle (sub_items ss) (flat_map sub_items r) x).
Qed.

Lemma category_push_names_In (c : string) (x : object) (m : list subsection)
    (n : string) :
  In n (map sub_name (category_push c x m)) -> n = c \/ In n (map sub_name m).
Proof.
  induction m as [|ss r IH]; simpl.
  - intros [<- | []]. now left.
  - destruct (String.eqb (sub_name ss) c); simpl.
    + tauto.
    + intros [H | H]; [auto |]. destruct (IH H); auto.
Qed.

Lemma category_push_names_NoDup (c : string) (x : object) (m : list subsection) :
  NoDup (map sub_name m) -> NoDup (map sub_name (category_push c x m)).
Proof.
  induction m as [|ss r IH]; simpl; intro H.
  - constructor; [intros [] | constructor].
  - inversion H as [|? ? Hn Hr]; subst.
    destruct (String.eqb (sub_name ss) c) eqn:E; simpl.
    + constructor; assumption.
    + constructor; [|now apply IH].
      intro Hc. apply category_push_names_In in Hc. destruct Hc as [Hc | Hc].
      * apply String.eqb_neq in E. congruence.
      * contradiction.
Qed.

Lemma category_push_nonempty (c : string) (x : object) (m : list subsection) :
  Forall (fun ss => Nat.ltb 0 (length (sub_items ss)) = true) m ->
  Forall (fun ss => Nat.ltb 0 (length (sub_items ss)) = true) (category_push c x m).
Proof.
  induction 1 as [|ss r Hs Hr IH]; simpl.
  - repeat constructor.
  - destruct (String.eqb (sub_name ss) c).
    + constructor; [|exact Hr]. simpl. rewrite length_app. simpl.
      apply Nat.ltb_lt. lia.
    + constructor; assumption.
Qed.

Lemma filter_all {A : Type} (f : A -> bool) (l : list A) :
  Forall (fun a => f a = true) l -> filter f l = l.
Proof. induction 1 as [|a r Ha _ IH]; simpl; [|rewrite Ha, IH]; reflexivity. Qed.

Lemma tech_fold (master : resume) (selected : list rowobj) :
  forall m,
    NoDup (map sub_name m) ->
    Forall (fun ss => Nat.ltb 0 (length (sub_items ss)) = true) m ->
    let m' :=
      fold_left (fun m selectedSheetItem =>
                   let '(categoryName, structure) := resolve_tech master selectedSheetItem in
                   category_push categoryName structure m)
                selected m in
    Permutation (flat_map sub_items m')
                (flat_map sub_items m ++ map (tech_structure master) selected)
    /\ NoDup (map sub_name m')
    /\ Forall (fun ss => Nat.ltb 0 (length (sub_items ss)) = true) m'.
Proof.
  induction selected as [|r rest IH]; intros m Hnd Hne; simpl.
  - rewrite app_nil_r. auto.
  - unfold tech_structure at 1.
    destruct (resolve_tech master r) as [c x] eqn:E. simpl snd.
    destruct (IH (category_push c x m)
                (category_push_names_NoDup c x m Hnd)
                (category_push_nonempty c x m Hne)) as [Hp [Hn Hf]].
    split; [|split; assumption].
    eapply perm_trans; [exact Hp |].
    eapply perm_trans;
      [apply Permutation_app_tail, category_push_items |].
    simpl. apply Permutation_middle.
Qed.

End TechFacts.

(** X5.  The skills section stage 3 assembles holds one entry for every
    sheet row of the section that passes the filter, neither more nor
    fewer (no cap applies, and a skill selected twice is entered twice),
    grouped under category names that do not repeat. *)
Theorem skills_one_entry_per_passing_row (master : resume) (rows : list rowobj) :
  Permutation
    (flat_map sub_items (Stage3.tailoredTechSubsections master rows))
    (map (tech_structure master) (Stage3.selectedTechItemsFromSheet rows))
  /\ NoDup (map sub_name (Stage3.tailoredTechSubsections master rows)).
Proof.
  unfold Stage3.tailoredTechSubsections.
  destruct (TechFacts.tech_fold master (Stage3.selectedTechItemsFromSheet rows) []
              (NoDup_nil _) (Forall_nil _)) as [Hp [Hn Hf]].
  cbv zeta in Hp, Hn, Hf. rewrite (TechFacts.filter_all _ _ Hf).
  split; assumption.
Qed.

(** ** Stage 2: what is counted, and what stage 3 makes of a failure *)

Module Stage2More.
Import Stage3 Stage2 Stage2Counts.

Lemma tailorRow_counts (answers : nat -> string) (jd : json) (cols : columns)
    (st st' : loop_state) (row row' : list cell) :
  tailorRow answers jd cols st row = Returns (st', row') ->
  if row_selected cols row then
    bulletsAttemptedToTailor st' = S (bulletsAttemptedToTailor st)
    /\ bulletsSuccessfullyTailored st <= bulletsSuccessfullyTailored st'
       <= S (bulletsSuccessfullyTailored st)
    /\ calls st <= calls st' <= S (calls st)
    /\ modifiedDataForSheet st' = true
  else st' = st.
Proof.
  unfold tailorRow. destruct (row_selected cols row).
  - destruct (tailorGuards _ jd _) as [|guard]; [discriminate |].
    destruct guard as [early | bullet]; intros [= <- _]; simpl;
      repeat split; try lia;
      match goal with |- context [if ?b then _ else _] => destruct b end; lia.
  - now intros [= <- _].
Qed.

Lemma tailorRows_counts (answers : nat -> string) (jd : json) (cols : columns)
    (rows : list (list cell)) :
  forall st st' rows',
    tailorRows answers jd cols st rows = Returns (st', rows') ->
    let k := length (filter (row_selected cols) rows) in
    bulletsAttemptedToTailor st' = bulletsAttemptedToTailor st + k
    /\ bulletsSuccessfullyTailored st <= bulletsSuccessfullyTailored st'
       <= bulletsSuccessfullyTailored st + k
    /\ calls st <= calls st' <= calls st + k
    /\ modifiedDataForSheet st'
       = (modifiedDataForSheet st || Nat.ltb 0 k).
Proof.
  induction rows as [|row rest IH]; intros st st' rows' H; simpl in H.
  - injection H as <- _. simpl. rewrite orb_false_r. repeat split; lia.
  - destruct (tailorRow answers jd cols st row) as [|[st1 row1]] eqn:E1;
      [discriminate |].
    destruct (tailorRows answers jd cols st1 rest) as [|[st2 rest2]] eqn:E2;
      [discriminate |].
    injection H as <- _. apply tailorRow_counts in E1.
    specialize (IH _ _ _ E2). cbv zeta in IH.
    destruct IH as [Ha [Hs [Hc Hm]]]. simpl filter.
    destruct (row_selected cols row).
    + destruct E1 as [Ea [Es [Ec Em]]]. simpl length.
      rewrite Hm, Em. simpl. rewrite orb_true_r.
      repeat split; lia.
    + subst st1. repeat split; try lia. exact Hm.
Qed.

End Stage2More.

(** X6.  When stage 2 runs to its end, the number of bullets it reports
    as tailored is at most the number of selected rows, and it hands rows
    back to the sheet exactly when at least one row is selected: with
    nothing selected it reports 0 and writes nothing. *)
Theorem stage2_counts_selected_rows (answers : nat -> string) (jdCell : cell)
    (scoringSheet : list (list cell)) (bulletsTailored : nat)
    (setValues : option (list (list cell))) :
  Stage2.runStage2 answers jdCell scoringSheet = Stage2.Stage2Done bulletsTailored setValues ->
  bulletsTailored <= length (Stage2Counts.selected_rows scoringSheet)
  /\ (setValues = None <-> Stage2Counts.selected_rows scoringSheet = []).
Proof.
  unfold Stage2.runStage2, Stage2Counts.selected_rows.
  destruct jdCell as [s| |]; try discriminate.
  destruct (is_empty s || is_empty (trim s)); [discriminate |].
  destruct (JSON_parse s) as [jd|]; [|discriminate].
  destruct (negb (json_truthy jd) || negb (prop_truthy jd "jobTitle"));
    [discriminate |].
  destruct scoringSheet as [|headers [|row data]].
  - intros [= <- <-]. split; [lia | tauto].
  - intros [= <- <-]. split; [lia |].
    destruct (Stage2.find_columns headers); tauto.
  - destruct (Stage2.find_columns headers) as [cols|]; [|discriminate].
    destruct (Stage2.tailorRows answers jd cols (Stage2.mkLoop 0 0 0 false) (row :: data))
      as [|[st rows']] eqn:E; [discriminate |].
    intros [= <- <-].
    destruct (Stage2More.tailorRows_counts answers jd cols (row :: data) _ _ _ E)
      as [_ [Hs [_ Hm]]].
    simpl Stage2.bulletsSuccessfullyTailored in Hs.
    simpl Stage2.modifiedDataForSheet in Hm. rewrite Hm.
    split; [lia |].
    destruct (filter (Stage2.row_selected cols) (row :: data)) as [|x l]; simpl.
    + tauto.
    + split; discriminate.
Qed.

Lemma stage2_counts_selected_rows_witness :
  1 <= length (Stage2Counts.selected_rows Samples2.sheet_one_marked)
  /\ (Some [Samples.scored "EXP_J0_B0" "EXPERIENCE" "Acme Corp" "Built X" "0.90"
              "yes" "Built X in Rocq";
            Samples.scored "EXP_J0_B1" "EXPERIENCE" "Acme Corp" "Led Y" "0.50"
              "" ""] = None
      <-> Stage2Counts.selected_rows Samples2.sheet_one_marked = []).
Proof.
  exact (stage2_counts_selected_rows (fun _ => Samples2.fenced_envelope)
           (CText Samples2.jd_text) Samples2.sheet_one_marked _ _ eq_refl).
Defined.

(** *** The row objects of stage 3 *)

Lemma row_object_from_other (headers : list cell) (row : list cell) (name : string) :
  ~ In name (map cell_String headers) ->
  forall index obj,
    obj_get name (row_object_from headers index row obj) = obj_get name obj.
Proof.
  induction headers as [|h r IH]; simpl; intros Hn index obj; [reflexivity |].
  rewrite IH by tauto. apply obj_get_set_other. tauto.
Qed.

(** With header names that do not repeat, the object stage 3 builds for a
    row holds under a name the cell of the column that [indexOf] finds
    for it. *)
Lemma row_object_from_lookup (headers : list cell) (row : list cell) (name : string) :
  NoDup (map cell_String headers) ->
  forall index obj j,
    Stage2.indexOf_cell_from index headers name = Some j ->
    obj_get name (row_object_from headers index row obj) = Some (nth j row CUndef).
Proof.
  induction headers as [|h r IH]; simpl; intros Hnd index obj j H; [discriminate |].
  inversion Hnd as [|? ? Hh Hr]; subst.
  destruct (cell_is h name) eqn:E.
  - injection H as <-.
    assert (Hname : cell_String h = name).
    { destruct h; simpl in E; try discriminate. now apply String.eqb_eq in E. }
    rewrite Hname in *.
    rewrite (row_object_from_other r row name Hh). apply obj_get_set_same.
  - now apply IH.
Qed.

Lemma row_get_column (headers row : list cell) (name : string) (j : nat) :
  NoDup (map cell_String headers) ->
  Stage2.indexOf_cell headers name = Some j ->
  row_get (row_object headers row) name = nth j row CUndef.
Proof.
  intros Hnd H. unfold row_get, row_object.
  now rewrite (row_object_from_lookup headers row name Hnd 0 [] j H).
Qed.

(** X7.  A selected row whose tailoring stage 2 does not count as a
    success (the tailor refused, the model failed or answered with the
    "not suitable" sentence) is read by stage 3 with its original text:
    whatever stage 2 stored in the tailored column, no part of it reaches
    the document.  (Header names must not repeat.) *)
Theorem failed_tailoring_leaves_the_original (answers : nat -> string) (jd : json)
    (headers : list cell) (cols : Stage2.columns)
    (st st' : Stage2.loop_state) (row row' : list cell) :
  NoDup (map cell_String headers) ->
  Stage2.find_columns headers = Some cols ->
  Stage2.row_selected cols row = true ->
  Stage2.tailorRow answers jd cols st row = Returns (st', row') ->
  Stage2.bulletsSuccessfullyTailored st' = Stage2.bulletsSuccessfullyTailored st ->
  Stage3.getBulletTextToUse (row_object headers row')
  = nth (Stage2.originalBulletColIndex cols) row CUndef.
Proof.
  intros Hnd Hcols Hsel Hrow Hcount.
  unfold Stage2.find_columns in Hcols.
  destruct (Stage2.indexOf_cell headers "OriginalBulletText") as [o|] eqn:Ho;
    [|discriminate].
  destruct (Stage2.indexOf_cell headers "SelectToTailor(Manual)") as [s|];
    [|discriminate].
  destruct (Stage2.indexOf_cell headers "TailoredBulletText(Stage2)") as [t|] eqn:Ht;
    [|discriminate].
  destruct (Stage2.indexOf_cell headers "RelevanceScore") as [sc|]; [|discriminate].
  destruct (Stage2.indexOf_cell headers "UniqueID") as [u|]; [|discriminate].
  injection Hcols as <-.
  assert (Hot : o <> t).
  { apply (Stage2Facts.indexOf_cell_distinct headers "OriginalBulletText"
             "TailoredBulletText(Stage2)"); [discriminate | exact Ho | exact Ht]. }
  unfold Stage2.tailorRow in Hrow. rewrite Hsel in Hrow.
  simpl Stage2.originalBulletColIndex in *. simpl Stage2.tailoredColIndex in *.
  destruct (tailorGuards (nth o row CUndef) jd (json_prop jd "jobTitle"))
    as [|guard]; [discriminate |].
  set (out := match guard with
              | inl early => (early, Stage2.calls st)
              | inr bullet => (tailoredFromResponse (answers (Stage2.calls st)) bullet,
                               S (Stage2.calls st))
              end) in Hrow.
  destruct out as [tailoredOutput calls']. injection Hrow as <- <-.
  simpl in Hcount.
  assert (Hfail : Stage2.tailoring_succeeded tailoredOutput = false).
  { destruct (Stage2.tailoring_succeeded tailoredOutput); [lia | reflexivity]. }
  unfold Stage3.getBulletTextToUse.
  rewrite (row_get_column headers _ "TailoredBulletText(Stage2)" t Hnd Ht).
  rewrite (row_get_column headers _ "OriginalBulletText" o Hnd Ho).
  rewrite Stage2Facts.array_set_same, (Stage2Facts.array_set_other t o) by exact Hot.
  unfold Stage2.tailoredCell. rewrite Hfail. simpl.
  now rewrite !andb_false_r.
Qed.

Lemma scoring_headers_distinct : NoDup (map cell_String scoring_headers).
Proof.
  cbv. repeat (constructor; [intro H; cbv in H; intuition discriminate |]).
  constructor.
Qed.

Lemma failed_tailoring_leaves_the_original_witness :
  Stage3.getBulletTextToUse
    (row_object scoring_headers
       (Samples.scored "EXP_J0_B0" "EXPERIENCE" "Acme Corp" "Built X" "0.90" "yes"
          ("TAILOR_FAIL/SKIP: ERROR: Groq API call failed during tailoring for bullet: "
           ++ dq ++ "Built X..." ++ dq)))
  = CText "Built X".
Proof.
  exact (failed_tailoring_leaves_the_original
           (fun _ => "ERROR: API Call Failed (Groq) - HTTP 429")
           (JObj [("jobTitle", JStr "Engineer");
                  ("primaryKeywords", JArr [JStr "Rocq"])])
           scoring_headers (Stage2.mkColumns 3 7 8 4 0)
           (Stage2.mkLoop 0 0 0 false) _
           (Samples.scored "EXP_J0_B0" "EXPERIENCE" "Acme Corp" "Built X" "0.90"
              "yes" "")
           _ scoring_headers_distinct eq_refl eq_refl eq_refl eq_refl).
Defined.

(** ** From stage 1 to stage 3 *)

Module ScoreFacts.
Import Stage1 Scoring Stage1Facts Stage3.

Lemma small_N_cases (P : N -> Prop) :
  Forall P (map N.of_nat (seq 0 101)) -> forall n, (n <= 100)%N -> P n.
Proof.
  intros H n Hn. rewrite Forall_forall in H. apply H.
  apply in_map_iff. exists (N.to_nat n). split; [apply N2Nat.id |].
  apply in_seq. lia.
Qed.

(** A score of two decimals between 0.00 and 1.00 reads back as the
    number of hundredths it shows. *)
Lemma parseFloat_fixed2 (n : N) :
  (n <= 100)%N -> parseFloat (fixed2 n) = Fin (Z.of_N n # 100).
Proof.
  revert n. apply small_N_cases.
  repeat (constructor; [vm_compute; reflexivity |]). constructor.
Qed.

Lemma hundredths_at_least_one (q : Q) :
  (0 <= q)%Q -> ((1 <= hundredths q)%N <-> (1 # 200 <= q)%Q).
Proof.
  intro H0. unfold hundredths.
  assert (Hf : (0 <= Qfloor (q * 100 + (1 # 2)))%Z).
  { change 0%Z with (Qfloor 0). apply Qfloor_resp_le. lra. }
  split; intro H.
  - assert (H1 : (1 <= Qfloor (q * 100 + (1 # 2)))%Z) by lia.
    pose proof (Qfloor_le (q * 100 + (1 # 2))) as Hle.
    assert (H2 : (inject_Z 1 <= inject_Z (Qfloor (q * 100 + (1 # 2))))%Q)
      by (rewrite <- Zle_Qle; exact H1).
    change (inject_Z 1) with 1%Q in H2. lra.
  - assert (H1 : (Qfloor 1 <= Qfloor (q * 100 + (1 # 2)))%Z)
      by (apply Qfloor_resp_le; lra).
    change (Qfloor 1) with 1%Z in H1. lia.
Qed.

(** The row object stage 3 builds from a row of nine cells under the
    headers stage 1 writes. *)
Lemma scoring_row_cells (c0 c1 c2 c3 c4 c5 c6 c7 c8 : cell) :
  let r := row_object scoring_headers [c0; c1; c2; c3; c4; c5; c6; c7; c8] in
  row_get r "Section" = c1 /\ row_get r "ItemIdentifier" = c2
  /\ row_get r "OriginalBulletText" = c3 /\ row_get r "RelevanceScore" = c4
  /\ row_get r "SelectToTailor(Manual)" = c7
  /\ row_get r "TailoredBulletText(Stage2)" = c8.
Proof. repeat split. Qed.

End ScoreFacts.

(** X8.  A unit whose scoring failed is recorded with a score that
    stage 3 reads as 0, below the inclusion threshold: its row never
    passes the filter, whatever the user enters in the selection column
    and whatever stage 2 writes in the tailored column. *)
Theorem failed_scoring_never_qualifies (Number_toString : Q -> string)
    (msg : Stage1.messages) (matchResult : json) (e raw : string)
    (uniqueId sectionTitle text : string) (identifier : cell)
    (cells : string * string * cell) (flag tailored : cell) :
  Scoring.error_object matchResult e raw ->
  Stage1.scoredCells Number_toString msg matchResult = Returns cells ->
  Stage3.qualifies
    (row_object scoring_headers
       (Stage2.array_set 8 tailored
          (Stage2.array_set 7 flag
             (Stage1.scoredRow uniqueId sectionTitle identifier text cells))))
  = false.
Proof.
  intros He Hc.
  rewrite (Stage1Facts.scoredCells_error Number_toString msg matchResult e raw He) in Hc.
  injection Hc as <-. reflexivity.
Qed.

Lemma failed_scoring_never_qualifies_witness :
  Stage3.qualifies
    (row_object scoring_headers
       [CText "EXP_J0_B0"; CText "EXPERIENCE"; CText "Acme Corp"; CText "Built X";
        CText "0.00"; CText "";
        CText "Error: Groq API call failed for matching.. Raw: ERROR: HTTP 429";
        CText "YES"; CText "Built X, tailored"])
  = false.
Proof.
  exact (failed_scoring_never_qualifies Samples1.show_whole Stage1.bulletMessages
           (matchError "Groq API call failed for matching." "ERROR: HTTP 429")
           "Groq API call failed for matching." "ERROR: HTTP 429"
           "EXP_J0_B0" "EXPERIENCE" "Built X" (CText "Acme Corp") _
           (CText "YES") (CText "Built X, tailored")
           (Scoring.error_with_raw "Groq API call failed for matching."
              "ERROR: HTTP 429"
              (fun E => eq_ind "Groq API call failed for matching."
                          (fun s => if is_empty s then False else True) I _ E))
           eq_refl).
Defined.

(** X9.  A score between 0 and 1 that stage 1 writes with two decimals is
    read back by stage 3 as that number of hundredths, so the filter tests
    the rounded score: the row passes the threshold of 0.01 exactly when
    the model's score is at least 0.005. *)
Theorem score_read_back_rounded (Number_toString : Q -> string) (q : Q) :
  (0 <= q)%Q -> (q <= 1)%Q ->
  parseFloat (Stage1.toFixed2 Number_toString q)
  = Fin (Z.of_N (Stage1.hundredths q) # 100)
  /\ (jsnum_ge (parseFloat (Stage1.toFixed2 Number_toString q))
               (Fin STAGE3_FINAL_INCLUSION_SCORE_THRESHOLD) = true
      <-> (1 # 200 <= q)%Q).
Proof.
  intros H0 H1.
  destruct (Stage1Facts.toFixed2_unit_interval Number_toString q H0 H1) as [E Hn].
  rewrite E, (ScoreFacts.parseFloat_fixed2 _ Hn).
  split; [reflexivity |].
  rewrite <- (ScoreFacts.hundredths_at_least_one q H0).
  unfold jsnum_ge, STAGE3_FINAL_INCLUSION_SCORE_THRESHOLD.
  rewrite Qle_bool_iff. unfold Qle. simpl. lia.
Qed.

Lemma score_read_back_rounded_witness :
  parseFloat (Stage1.toFixed2 Samples1.show_whole (7 # 1000)) = Fin (1 # 100)
  /\ (jsnum_ge (parseFloat (Stage1.toFixed2 Samples1.show_whole (7 # 1000)))
               (Fin STAGE3_FINAL_INCLUSION_SCORE_THRESHOLD) = true
      <-> (1 # 200 <= 7 # 1000)%Q).
Proof.
  exact (score_read_back_rounded Samples1.show_whole (7 # 1000)
           ltac:(discriminate) ltac:(discriminate)).
Defined.

(** ** Stage 3 on the sheet as stage 1 leaves it *)

Module UnmarkedFacts.
Import Stage1 Scoring Stage1Facts Stage3 Stage3Facts Stage3Record FinalRecord.

Lemma recorded_row_unmarked (Number_toString : Q -> string) (jd : json)
    (row : list cell) :
  recorded Number_toString jd row ->
  qualifies (row_object scoring_headers row) = false.
Proof.
  intros [msg [uid [sec [ident [text [resp [[[score kw] just] [-> _]]]]]]]].
  unfold qualifies.
  replace (is_selected _) with false by reflexivity.
  apply andb_false_r.
Qed.

Lemma filter_nothing {A : Type} (f : A -> bool) (l : list A) :
  Forall (fun a => f a = false) l -> filter f l = [].
Proof. induction 1 as [|a r Ha _ IH]; simpl; [|rewrite Ha]; auto. Qed.

Lemma Forall_filter {A : Type} (P : A -> Prop) (f : A -> bool) (l : list A) :
  Forall P l -> Forall P (filter f l).
Proof.
  intro H. apply Forall_forall. intros a Ha. apply filter_In in Ha.
  rewrite Forall_forall in H. now apply H.
Qed.

Lemma flat_map_nothing {A B : Type} (f : A -> list B) (l : list A) :
  (forall a, f a = []) -> flat_map f l = [].
Proof. intro H. induction l as [|a r IH]; simpl; [|rewrite H, IH]; reflexivity. Qed.

Section NoRowPasses.

Variable master : resume.
Variable rows : list rowobj.
Hypothesis none : Forall (fun r => qualifies r = false) rows.

Lemma no_item_assembled (T : string) (identifier : jsv) (key : string) (cap : nat)
    (masterItem : object) :
  assembleItem T identifier key cap masterItem rows = None.
Proof.
  apply assembleItem_None. apply filter_nothing.
  unfold rows_of_item. now apply Forall_filter.
Qed.

Lemma nothing_assembled : dynamicSections master rows = [].
Proof.
  unfold dynamicSections.
  assert (He : tailoredExperienceSection master rows
               = mkSection "EXPERIENCE" (Some []) None).
  { unfold tailoredExperienceSection. rewrite flat_map_nothing; [reflexivity |].
    intro j. unfold assembleExperienceItem. now rewrite no_item_assembled. }
  assert (Hl : tailoredLeadershipSection master rows
               = mkSection "LEADERSHIP & UNIVERSITY INVOLVEMENT" (Some []) None).
  { unfold tailoredLeadershipSection. rewrite flat_map_nothing; [reflexivity |].
    intro j. unfold assembleLeadershipItem. now rewrite no_item_assembled. }
  assert (Hp : match tailoredProjectsSection master rows with
               | Some s => some_subsection_has_items s = false
               | None => True
               end).
  { unfold tailoredProjectsSection.
    destruct (find_section "PROJECTS" (sections master)) as [mp|]; [|exact I].
    destruct (subsections mp) as [subs|]; [|exact I].
    rewrite flat_map_nothing; [reflexivity |].
    intro ss. unfold tailoredProjectsSubsection. rewrite flat_map_nothing;
      [reflexivity |].
    intro p. unfold assembleProjectItem. now rewrite no_item_assembled. }
  assert (Ht : selectedTechItemsFromSheet rows = []).
  { unfold selectedTechItemsFromSheet. apply filter_nothing.
    eapply Forall_impl; [|exact none]. intros r Hr. simpl.
    unfold qualifies in Hr. rewrite <- andb_assoc, Hr. apply andb_false_r. }
  rewrite He, Hl, Ht. simpl.
  destruct (tailoredProjectsSection master rows) as [p|]; [|reflexivity].
  now rewrite Hp.
Qed.

End NoRowPasses.

End UnmarkedFacts.

(** X10.  Stage 1 leaves the selection column of every row blank, so
    stage 3 run on the sheet as stage 1 wrote it assembles no section at
    all, for any master record and any answers of the model; every
    section of the final record is then a section of the master record,
    copied as it is. *)
Theorem unmarked_sheet_assembles_nothing (Number_toString : Q -> string)
    (answers : nat -> string) (jdAnalysis : json) (master : resume)
    (data : list (list cell)) :
  Stage1.allScoredBulletsDataForSheet Number_toString answers jdAnalysis master
  = Returns data ->
  let rows := load_scored_rows (scoring_headers :: data) in
  Stage3.dynamicSections master rows = []
  /\ forall s, In s (Stage3.finalSections master rows) -> In s (sections master).
Proof.
  intro H. cbv zeta.
  assert (Hnone : Forall (fun r => Stage3.qualifies r = false)
                    (load_scored_rows (scoring_headers :: data))).
  { unfold Stage1.allScoredBulletsDataForSheet in H.
    destruct (Stage1.scoreMaster Number_toString answers jdAnalysis master 0)
      as [|[rows0 n]] eqn:E; [discriminate |].
    injection H as <-.
    pose proof (Stage1Facts.scoreMaster_recorded Number_toString answers jdAnalysis
                  master 0 rows0 n E) as Hrec.
    assert (Hall : Forall (fun r => Stage3.qualifies r = false)
                     (map (row_object scoring_headers) rows0)).
    { apply Forall_forall. intros r Hr. apply in_map_iff in Hr.
      destruct Hr as [row [<- Hrow]]. rewrite Forall_forall in Hrec.
      exact (UnmarkedFacts.recorded_row_unmarked Number_toString jdAnalysis row
               (Hrec row Hrow)). }
    destruct rows0; [constructor | exact Hall]. }
  pose proof (UnmarkedFacts.nothing_assembled master _ Hnone) as Hd.
  split; [exact Hd |].
  intros s Hs. apply Stage3Record.finalSections_In in Hs. rewrite Hd in Hs.
  destruct Hs as [[] | Hs].
  now apply Stage3Record.staticSections_In in Hs.
Qed.

Lemma unmarked_sheet_assembles_nothing_witness :
  Stage3.dynamicSections Samples1.master_acme
    (load_scored_rows
       [scoring_headers;
        Stage1.scoredRow "EXP_J0_B0" "EXPERIENCE" (CText "Acme Corp") "Built X"
          ("0.00", "",
           CText "Error: Groq API call failed for matching.. Raw: ERROR: API Call Failed (Groq) - HTTP 429");
        Stage1.scoredRow "EXP_J0_B1" "EXPERIENCE" (CText "Acme Corp") "Led Y"
          ("0.80", "Rocq", CText "Close match.")])
  = []
  /\ forall s,
       In s (Stage3.finalSections Samples1.master_acme
               (load_scored_rows
                  [scoring_headers;
                   Stage1.scoredRow "EXP_J0_B0" "EXPERIENCE" (CText "Acme Corp")
                     "Built X"
                     ("0.00", "",
                      CText "Error: Groq API call failed for matching.. Raw: ERROR: API Call Failed (Groq) - HTTP 429");
                   Stage1.scoredRow "EXP_J0_B1" "EXPERIENCE" (CText "Acme Corp")
                     "Led Y" ("0.80", "Rocq", CText "Close match.")])) ->
       In s (sections Samples1.master_acme).
Proof.
  exact (unmarked_sheet_assembles_nothing Samples1.show_whole
           Samples1.answers_fail_then_score Samples1.jd_sample Samples1.master_acme
           _ eq_refl).
Defined.

(** ** The normaliser: split cells *)

Module LinesFacts.
Import MasterResumeData Lines.

Local Open Scope string_scope.

Lemma all_chars_app (p : ascii -> bool) (a b : string) :
  all_chars p (a ++ b) = all_chars p a && all_chars p b.
Proof.
  induction a as [|c r IH]; simpl; [reflexivity |].
  now rewrite IH, andb_assoc.
Qed.

Lemma all_chars_trimStart (p : ascii -> bool) (s : string) :
  all_chars p s = true -> all_chars p (trimStart s) = true.
Proof.
  induction s as [|c r IH]; simpl; [auto |]. intro H.
  apply andb_true_iff in H. destruct H as [Hc Hr].
  destruct (is_ws c); [auto |]. simpl. now rewrite Hc, Hr.
Qed.

Lemma all_chars_trimEnd (p : ascii -> bool) (s : string) :
  all_chars p s = true -> all_chars p (trimEnd s) = true.
Proof.
  induction s as [|c r IH]; simpl; [auto |]. intro H.
  apply andb_true_iff in H. destruct H as [Hc Hr]. specialize (IH Hr).
  destruct (trimEnd r) as [|d r'].
  - destruct (is_ws c); simpl; [reflexivity | now rewrite Hc].
  - simpl in *. now rewrite Hc, IH.
Qed.

Lemma all_chars_trim (p : ascii -> bool) (s : string) :
  all_chars p s = true -> all_chars p (trim s) = true.
Proof. intro H. now apply all_chars_trimEnd, all_chars_trimStart. Qed.

Lemma no_break_snoc (cur : string) (c : ascii) :
  no_break cur -> is_break c = false -> no_break (cur ++ String c "").
Proof.
  unfold no_break. intros H Hc. rewrite all_chars_app, H. simpl. now rewrite Hc.
Qed.

Lemma split_lines_no_break (n : nat) :
  forall s cur, String.length s <= n -> no_break cur ->
                Forall no_break (split_lines s cur).
Proof.
  induction n as [|n IH]; intros s cur Hlen Hcur.
  - destruct s; [|simpl in Hlen; lia]. simpl. now constructor.
  - destruct s as [|c r]; simpl; [now constructor |].
    simpl in Hlen.
    assert (Hnil : no_break "") by reflexivity.
    destruct (Nat.eqb (code c) 10) eqn:E10.
    { constructor; [exact Hcur |]. apply IH; [lia | exact Hnil]. }
    destruct (Nat.eqb (code c) 13) eqn:E13.
    { destruct r as [|d r'].
      - constructor; [exact Hcur |]. apply IH; [simpl; lia | exact Hnil].
      - destruct (Nat.eqb (code d) 10);
          (constructor; [exact Hcur |]); apply IH; simpl in *; try lia; exact Hnil. }
    assert (Hc : is_break c = false) by (unfold is_break; now rewrite E10, E13).
    destruct (Nat.eqb (code c) 92).
    { destruct r as [|d r'].
      - apply IH; [simpl; lia | now apply no_break_snoc].
      - destruct (Nat.eqb (code d) 110).
        + constructor; [exact Hcur |]. apply IH; [simpl in *; lia | exact Hnil].
        + apply IH; [simpl in *; lia | now apply no_break_snoc]. }
    apply IH; [lia | now apply no_break_snoc].
Qed.

Lemma split_lines_plain_app (l : string) :
  plain l -> forall s cur, split_lines (l ++ s) cur = split_lines s (cur ++ l).
Proof.
  unfold plain. induction l as [|c r IH]; simpl; intros H s cur.
  - now rewrite string_app_nil_r.
  - apply andb_true_iff in H. destruct H as [Hc Hr].
    unfold plain_char, is_break in Hc.
    rewrite andb_true_iff, !negb_true_iff, orb_false_iff in Hc.
    destruct Hc as [[E10 E13] E92]. rewrite E10, E13, E92.
    rewrite (IH Hr). f_equal. rewrite string_app_assoc. reflexivity.
Qed.

Lemma split_lines_LF (s cur : string) :
  split_lines (LF ++ s) cur = cur :: split_lines s "".
Proof. reflexivity. Qed.

Lemma join_two (sep x y : string) (r : list string) :
  join sep (x :: y :: r) = x ++ sep ++ join sep (y :: r).
Proof. reflexivity. Qed.

Lemma split_lines_join (ls : list string) :
  Forall plain ls -> ls <> [] -> split_lines (join LF ls) "" = ls.
Proof.
  induction 1 as [|x r Hx Hr IH]; intro Hne; [congruence |].
  destruct r as [|y r'].
  - change (join LF [x]) with x. rewrite <- (string_app_nil_r x) at 1.
    now rewrite (split_lines_plain_app x Hx).
  - rewrite join_two, (split_lines_plain_app x Hx), split_lines_LF.
    change ("" ++ x) with x. f_equal. apply IH. discriminate.
Qed.

Lemma trimmed_head (s : string) :
  trimmed s -> s <> "" -> exists c r, s = String c r /\ is_ws c = false.
Proof.
  intros Ht Hne.
  assert (H : no_leading_ws (trim s))
    by apply trimEnd_no_leading_ws, trimStart_no_leading_ws.
  rewrite Ht in H. destruct s as [|c r]; [congruence |]. now exists c, r.
Qed.

Lemma trim_head_nonempty (c : ascii) (r : string) :
  is_ws c = false -> trim (String c r) <> "".
Proof.
  intro Hc. unfold trim. simpl. rewrite Hc. simpl.
  destruct (trimEnd r); [rewrite Hc |]; discriminate.
Qed.

End LinesFacts.

(** X11.  Every line [smartSplitMultiLine] returns is non-empty, has no
    white space at either end and holds no line break, whatever the
    cell's text; a blank cell gives no line. *)
Theorem split_lines_are_clean (textCellContent : string) :
  Forall Lines.clean_line (MasterResumeData.smartSplitMultiLine textCellContent)
  /\ (trim textCellContent = "" ->
      MasterResumeData.smartSplitMultiLine textCellContent = []).
Proof.
  unfold MasterResumeData.smartSplitMultiLine. split.
  - destruct (is_empty textCellContent || String.eqb (trim textCellContent) "");
      [constructor |].
    apply Forall_forall. intros l Hl. apply filter_In in Hl.
    destruct Hl as [Hin Hne]. apply negb_true_iff, is_empty_false_iff in Hne.
    apply in_map_iff in Hin. destruct Hin as [l0 [<- Hl0]].
    split; [exact Hne |]. split; [apply trim_idem |].
    apply LinesFacts.all_chars_trim.
    pose proof (LinesFacts.split_lines_no_break (String.length textCellContent)
                  textCellContent "" (Nat.le_refl _) eq_refl) as H.
    rewrite Forall_forall in H. now apply H.
  - intros ->. rewrite String.eqb_refl, orb_true_r. reflexivity.
Qed.

(** X12.  Lines that are non-empty, trimmed and free of line breaks and
    backslashes, joined by line feeds into one cell, come back from
    [smartSplitMultiLine] as they were, in order. *)
Theorem split_of_joined_lines (ls : list string) :
  Forall (fun l => l <> "" /\ trimmed l /\ Lines.plain l) ls ->
  MasterResumeData.smartSplitMultiLine (join Lines.LF ls) = ls.
Proof.
  intro H. destruct ls as [|x r]; [reflexivity |].
  assert (Hplain : Forall Lines.plain (x :: r))
    by (eapply Forall_impl; [|exact H]; simpl; tauto).
  assert (Hkeep : filter (fun s => negb (is_empty s)) (map trim (x :: r)) = x :: r).
  { clear Hplain. induction H as [|y l [Hne [Ht _]] _ IH]; [reflexivity |].
    simpl. rewrite Ht. apply is_empty_false_iff in Hne. rewrite Hne. simpl.
    now rewrite IH. }
  unfold MasterResumeData.smartSplitMultiLine.
  rewrite (LinesFacts.split_lines_join (x :: r) Hplain) by discriminate.
  inversion H as [|? ? [Hne [Ht _]] _]; subst.
  destruct (LinesFacts.trimmed_head x Ht Hne) as [c [x' [-> Hc]]].
  assert (Hj : exists rest, join Lines.LF (String c x' :: r) = String c rest).
  { destruct r; simpl; eauto. }
  destruct Hj as [rest Hj]. rewrite Hj.
  simpl is_empty. simpl orb.
  rewrite (eqb_false_of_neq _ _ (LinesFacts.trim_head_nonempty c rest Hc)).
  exact Hkeep.
Qed.

Lemma split_of_joined_lines_witness :
  MasterResumeData.smartSplitMultiLine
    (join Lines.LF ["Algorithms"; "Operating Systems"; "Logic"])
  = ["Algorithms"; "Operating Systems"; "Logic"].
Proof.
  apply (split_of_joined_lines ["Algorithms"; "Operating Systems"; "Logic"]).
  repeat constructor; discriminate.
Defined.

(** ** The normaliser: section titles *)

Module TitleFacts.
Import MasterResumeData Lines.

Local Open Scope string_scope.

Ltac by_char c := destruct c as [[] [] [] [] [] [] [] []]; reflexivity.

Lemma is_ws_lower (c : ascii) : is_ws (lower_char c) = is_ws c.
Proof. by_char c. Qed.

Lemma is_ws_upper (c : ascii) : is_ws (upper_char c) = is_ws c.
Proof. by_char c. Qed.

Lemma upper_lower (c : ascii) : upper_char (lower_char c) = upper_char c.
Proof. by_char c. Qed.

Lemma upper_upper (c : ascii) : upper_char (upper_char c) = upper_char c.
Proof. by_char c. Qed.

Section Mapped.

Variable f : ascii -> ascii.
Hypothesis f_ws : forall c, is_ws (f c) = is_ws c.

Lemma trimStart_map_chars (s : string) :
  trimStart (map_chars f s) = map_chars f (trimStart s).
Proof.
  induction s as [|c r IH]; simpl; [reflexivity |].
  rewrite f_ws. destruct (is_ws c); [exact IH | reflexivity].
Qed.

Lemma trimEnd_map_chars (s : string) :
  trimEnd (map_chars f s) = map_chars f (trimEnd s).
Proof.
  induction s as [|c r IH]; simpl; [reflexivity |].
  rewrite IH, f_ws. destruct (trimEnd r); simpl; [|reflexivity].
  destruct (is_ws c); reflexivity.
Qed.

Lemma trim_map_chars (s : string) : trim (map_chars f s) = map_chars f (trim s).
Proof. unfold trim. now rewrite trimStart_map_chars, trimEnd_map_chars. Qed.

End Mapped.

Lemma map_chars_compose (f g h : ascii -> ascii) (s : string) :
  (forall c, f (g c) = h c) -> map_chars f (map_chars g s) = map_chars h s.
Proof. intro H. induction s as [|c r IH]; simpl; [|rewrite H, IH]; reflexivity. Qed.

Lemma is_empty_map_chars (f : ascii -> ascii) (s : string) :
  is_empty (map_chars f s) = is_empty s.
Proof. now destruct s. Qed.

Lemma title_decided (text : string) :
  getCanonicalSectionTitle text = decided_by (toUpperCase (trim text)).
Proof.
  unfold getCanonicalSectionTitle. destruct text; reflexivity.
Qed.

Lemma decided_known (u t : string) :
  decided_by u = Some t ->
  In t canonical_titles /\ getCanonicalSectionTitle t = Some t.
Proof.
  unfold decided_by.
  repeat match goal with
         | |- context [if ?b then _ else _] => destruct b
         end;
    intros [= <-]; (split; [cbv; tauto | reflexivity]).
Qed.

End TitleFacts.

(** X13.  The canonical title of a text is one of the eight titles the
    parser knows and is its own canonical title; it does not change when
    the text loses the white space around it, and for a text of ASCII
    characters it does not change when the text is put in lower or upper
    case. *)
Theorem canonical_title_is_stable (text : string) :
  (forall t, MasterResumeData.getCanonicalSectionTitle text = Some t ->
     In t Lines.canonical_titles
     /\ MasterResumeData.getCanonicalSectionTitle t = Some t)
  /\ (Lines.ascii_text text ->
      MasterResumeData.getCanonicalSectionTitle (toLowerCase text)
      = MasterResumeData.getCanonicalSectionTitle text)
  /\ (Lines.ascii_text text ->
      MasterResumeData.getCanonicalSectionTitle (toUpperCase text)
      = MasterResumeData.getCanonicalSectionTitle text)
  /\ MasterResumeData.getCanonicalSectionTitle (trim text)
     = MasterResumeData.getCanonicalSectionTitle text.
Proof.
  rewrite !TitleFacts.title_decided. unfold toLowerCase, toUpperCase.
  rewrite (TitleFacts.trim_map_chars lower_char TitleFacts.is_ws_lower).
  rewrite (TitleFacts.trim_map_chars upper_char TitleFacts.is_ws_upper).
  rewrite (TitleFacts.map_chars_compose upper_char lower_char upper_char _
             TitleFacts.upper_lower).
  rewrite (TitleFacts.map_chars_compose upper_char upper_char upper_char _
             TitleFacts.upper_upper).
  rewrite trim_idem.
  split; [|auto]. intros t. apply TitleFacts.decided_known.
Qed.

(** ** The normaliser: the shape of the record *)

Module RecordShapeFacts.
Import MasterResumeData RecordShape.

Local Open Scope string_scope.

Lemma tabular_cases (t : string) :
  isTabularSection t = true ->
  In t flat_titles \/ t = "PROJECTS" \/ t = "TECHNICAL SKILLS & CERTIFICATES".
Proof.
  unfold isTabularSection. simpl. intro H.
  repeat match type of H with
         | (_ || _ = true) => apply orb_true_iff in H; destruct H as [H | H]
         end;
    try discriminate; apply String.eqb_eq in H; subst t; cbv; tauto.
Qed.

Lemma emptySection_shaped (t : string) :
  isTabularSection t = true -> section_shaped (emptySection t).
Proof.
  intro H. apply tabular_cases in H.
  destruct H as [H | [-> | ->]].
  - left. unfold flat_titles in H. simpl in H.
    destruct H as [<- | [<- | [<- | [<- | []]]]]; simpl;
      (split; [unfold flat_titles; simpl; tauto |]);
      (split; [now exists [] | reflexivity]).
  - right. left. simpl. repeat split. now exists [].
  - right. right. simpl. repeat split. exists []. repeat split; constructor.
Qed.

Lemma emptySection_title (t : string) : title (emptySection t) = t.
Proof. unfold emptySection. now destruct (is_grouped t). Qed.

Lemma find_section_None (t : string) (secs : list section) :
  find_section t secs = None -> ~ In t (map title secs).
Proof.
  unfold find_section. induction secs as [|s r IH]; simpl; [tauto |].
  destruct (String.eqb (title s) t) eqn:E; [discriminate |].
  apply String.eqb_neq in E. intros H [Hc | Hc]; [congruence | now apply IH].
Qed.

Lemma ensure_section_shaped (t : string) (secs : list section) :
  isTabularSection t = true -> record_shaped secs ->
  record_shaped (ensure_section t secs).
Proof.
  intros Ht [Hnd Hall]. unfold ensure_section.
  destruct (find_section t secs) eqn:E; [now split |].
  apply find_section_None in E. split.
  - rewrite map_app. simpl. rewrite emptySection_title.
    apply NoDup_app; [exact Hnd | repeat constructor; tauto |].
    intros x Hx [<- | []]. contradiction.
  - apply Forall_app. split; [exact Hall |].
    constructor; [now apply emptySection_shaped | constructor].
Qed.

Lemma update_section_shaped (t : string) (f : section -> section)
    (secs : list section) :
  (forall s, title s = t -> section_shaped s ->
             title (f s) = t /\ section_shaped (f s)) ->
  record_shaped secs -> record_shaped (update_section t f secs).
Proof.
  intros Hf [Hnd Hall].
  assert (H : map title (update_section t f secs) = map title secs
              /\ Forall section_shaped (update_section t f secs)).
  { clear Hnd. induction Hall as [|s r Hs Hr IH]; simpl; [split; constructor |].
    destruct (String.eqb (title s) t) eqn:E.
    - apply String.eqb_eq in E. destruct (Hf s E Hs) as [Ht Hsh].
      simpl. split; [congruence | now constructor].
    - destruct IH as [IH1 IH2]. simpl. split; [congruence | now constructor]. }
  destruct H as [H1 H2]. split; [now rewrite H1 | exact H2].
Qed.

Lemma subsection_push_names_In (c : string) (x : object) (m : list subsection)
    (n : string) :
  In n (map sub_name (subsection_push c x m)) -> n = c \/ In n (map sub_name m).
Proof.
  induction m as [|ss r IH]; simpl.
  - intros [<- | []]. now left.
  - destruct (String.eqb (sub_name ss) c); simpl.
    + tauto.
    + intros [H | H]; [auto |]. destruct (IH H); auto.
Qed.

Lemma subsection_push_shaped (c : string) (x : object) (m : list subsection) :
  NoDup (map sub_name m) /\ Forall (fun ss => sub_items ss <> []) m ->
  NoDup (map sub_name (subsection_push c x m))
  /\ Forall (fun ss => sub_items ss <> []) (subsection_push c x m).
Proof.
  induction m as [|ss r IH]; simpl; intros [Hnd Hne].
  - split; repeat constructor; [tauto | discriminate].
  - inversion Hnd as [|? ? Hn Hr]; subst. inversion Hne as [|? ? Hs Hl]; subst.
    destruct (String.eqb (sub_name ss) c) eqn:E; simpl.
    + split; [now constructor |]. constructor; [|exact Hl]. simpl.
      destruct (sub_items ss); discriminate.
    + destruct (IH (conj Hr Hl)) as [IH1 IH2]. split; [|now constructor].
      constructor; [|exact IH1]. intro Hc.
      apply subsection_push_names_In in Hc. destruct Hc as [Hc | Hc].
      * apply String.eqb_neq in E. congruence.
      * contradiction.
Qed.

Lemma techSubsections_shaped (processed : list object) :
  NoDup (map sub_name (techSubsections processed))
  /\ Forall (fun ss => sub_items ss <> []) (techSubsections processed).
Proof.
  unfold techSubsections.
  assert (H : forall m,
            NoDup (map sub_name m) /\ Forall (fun ss => sub_items ss <> []) m ->
            let m' := fold_left (fun m item =>
                                   subsection_push (categoryOf item) (techItem item) m)
                                processed m in
            NoDup (map sub_name m') /\ Forall (fun ss => sub_items ss <> []) m').
  { induction processed as [|p r IH]; intros m Hm; simpl; [exact Hm |].
    apply IH. now apply subsection_push_shaped. }
  apply H. split; constructor.
Qed.

Lemma pushItems_shaped (sec : string) (processed : list object) (s : section) :
  title s = sec -> section_shaped s ->
  title (pushItems sec processed s) = sec /\ section_shaped (pushItems sec processed s).
Proof.
  intros Ht Hs. subst sec. unfold pushItems.
  destruct Hs as [[Hflat [[l Hl] Hsub]] | [[Hp [Hi [l Hl]]] | [Htech [Hi Hsubs]]]].
  - assert (E : existsb (String.eqb (title s))
                  ["EXPERIENCE"; "EDUCATION"; "LEADERSHIP & UNIVERSITY INVOLVEMENT";
                   "HONORS & AWARDS"] = true).
    { apply existsb_exists. exists (title s).
      split; [exact Hflat | apply String.eqb_refl]. }
    rewrite E, Hl. simpl. split; [reflexivity |]. left. simpl.
    split; [exact Hflat |]. split; [eauto | exact Hsub].
  - rewrite Hp. simpl.
    destruct (map projectItem processed) as [|p0 pr]; [split; [exact Hp |] |].
    + right. left. split; [exact Hp |]. split; [exact Hi | eauto].
    + rewrite Hl. simpl. split; [reflexivity |]. right. left. simpl.
      split; [reflexivity |]. split; [exact Hi | eauto].
  - rewrite Htech. simpl.
    destruct (techSubsections processed) as [|t0 tr] eqn:Et; [split; [exact Htech |] |].
    + right. right. split; [exact Htech |]. split; [exact Hi | exact Hsubs].
    + simpl. split; [reflexivity |]. right. right. simpl.
      split; [reflexivity |]. split; [exact Hi |].
      exists (t0 :: tr). split; [reflexivity |]. rewrite <- Et.
      apply techSubsections_shaped.
Qed.

Section Scanning.

Variable Date_parse : string -> option (nat * Z).

Lemma processAccumulatedSection_shaped (out : output) (sec : string)
    (headers : list string) (dataRows : list (list string)) :
  out_shaped out ->
  out_shaped (processAccumulatedSection Date_parse out sec headers dataRows).
Proof.
  intros [Hr Hs]. unfold processAccumulatedSection.
  destruct (String.eqb sec "PERSONAL INFO"); [now split |].
  destruct (String.eqb sec "SUMMARY"); [split; [exact Hr | apply trim_idem] |].
  destruct (isTabularSection sec) eqn:Et; simpl; [|now split].
  destruct headers as [|h hs];
    [split; [now apply ensure_section_shaped | exact Hs] |].
  destruct dataRows as [|r rs];
    [split; [now apply ensure_section_shaped | exact Hs] |].
  split; [|exact Hs]. simpl out_sections.
  apply update_section_shaped; [|now apply ensure_section_shaped].
  intros s. apply pushItems_shaped.
Qed.

Lemma flush_shaped (st : scan_state) :
  out_shaped (resumeOutput st) -> out_shaped (flush Date_parse st).
Proof.
  intro H. unfold flush. destruct (currentSectionTitleKey st); [|exact H].
  destruct (_ || _); [now apply processAccumulatedSection_shaped | exact H].
Qed.

Lemma scan_shaped (allData : list (list cell)) (fuel : nat) :
  forall i st,
    out_shaped (resumeOutput st) ->
    out_shaped (resumeOutput (scan Date_parse allData fuel i st)).
Proof.
  induction fuel as [|f IH]; intros i st H; simpl; [exact H |].
  destruct (nth_error allData i) as [row|]; [|exact H].
  destruct (getCanonicalSectionTitle (firstCellText row)) as [key|].
  - pose proof (flush_shaped st H) as Hf.
    destruct (isTabularSection key && Nat.ltb (S i) (length allData));
      [|now apply IH].
    destruct (nth_error allData _) as [headerRow|]; [|now apply IH].
    destruct (getCanonicalSectionTitle (firstCellText headerRow)); now apply IH.
  - destruct (currentSectionTitleKey st) as [current|] eqn:Ec; [|now apply IH].
    destruct (rowIsEffectivelyBlank row); [now apply IH |].
    destruct (String.eqb current "SUMMARY").
    + apply IH. now destruct (is_empty (summaryTextInRow row)).
    + destruct (_ && _ && _); now apply IH.
Qed.

End Scanning.

End RecordShapeFacts.

(** X14.  In the record the parser returns, no two sections have the
    same title; a flat section (experience, education, leadership,
    honors) holds its items directly and has no subsections; PROJECTS has
    the single subsection "General Projects"; the skills section has
    subsections only, under names that do not repeat, none of them
    empty; and the summary has no white space at either end. *)
Theorem master_record_is_shaped (Date_parse : string -> option (nat * Z))
    (allData : list (list cell)) (master : resume) :
  MasterResumeData.getMasterResumeData Date_parse allData = Some master ->
  RecordShape.record_shaped (sections master) /\ trimmed (summary master).
Proof.
  unfold MasterResumeData.getMasterResumeData.
  destruct allData as [|r0 rest]; [discriminate |].
  intros [= <-].
  assert (H : RecordShape.out_shaped
                (MasterResumeData.flush Date_parse
                   (MasterResumeData.scan Date_parse (r0 :: rest)
                      (length (r0 :: rest)) 0
                      (MasterResumeData.mkScan None [] []
                         (MasterResumeData.mkOutput [] "" []))))).
  { apply RecordShapeFacts.flush_shaped, RecordShapeFacts.scan_shaped.
    split; [split; constructor | reflexivity]. }
  exact H.
Qed.

Lemma master_record_is_shaped_witness :
  RecordShape.record_shaped (sections SamplesN.normalised_master)
  /\ trimmed (summary SamplesN.normalised_master).
Proof.
  exact (master_record_is_shaped MasterResumeData.Date_parse_iso SamplesN.master_sheet
           SamplesN.normalised_master eq_refl).
Defined.

(** ** [callGroq]: an answer or an error text *)

Module GroqFacts.

Import GroqService.

Lemma exception_is_error (m : string) : startsWith (exception m) "ERROR:" = true.
Proof. reflexivity. Qed.

Lemma message_content_truthy (v content : json) :
  message_content v = Some content -> json_truthy content = true.
Proof.
  unfold message_content.
  destruct (json_prop v "choices") as [choices|]; [|discriminate].
  destruct (json_truthy choices); [|discriminate].
  destruct (opt_prop (opt_prop (first_of choices) "message") "content") as [c|];
    [|discriminate].
  destruct (json_truthy c) eqn:Hc; [|discriminate].
  intro H. injection H as H. subst c. exact Hc.
Qed.

Section Classified.

Variable Number_toString : Q -> string.
Variable JSON_stringify : json -> string.
Variable SyntaxError_message : string -> string.
Variable TypeError_message : json -> string.

Lemma onFailure_is_error (responseCode : nat) (responseBody : string) :
  startsWith (onFailure Number_toString responseCode responseBody) "ERROR:" = true.
Proof.
  unfold onFailure. cbv zeta.
  destruct (JSON_parse responseBody) as [errorJson|]; [|reflexivity].
  destruct (json_prop errorJson "error") as [error|]; [|reflexivity].
  destruct (json_truthy error); [|reflexivity].
  destruct (json_prop error "message") as [m|]; [|reflexivity].
  destruct (json_truthy m); reflexivity.
Qed.

Lemma on200_cases (responseBody : string) :
  startsWith (on200 Number_toString JSON_stringify SyntaxError_message
                TypeError_message responseBody) "ERROR:" = true
  \/ exists jsonResponse generatedText,
       JSON_parse responseBody = Some jsonResponse
       /\ message_content jsonResponse = Some (JStr generatedText)
       /\ on200 Number_toString JSON_stringify SyntaxError_message
            TypeError_message responseBody = trim generatedText.
Proof.
  unfold on200.
  destruct (JSON_parse responseBody) as [jsonResponse|]; [|left; reflexivity].
  assert (Hmain :
    startsWith
      match message_content jsonResponse with
      | Some (JStr generatedText) => trim generatedText
      | Some content => exception (TypeError_message content)
      | None =>
          match json_prop jsonResponse "error" with
          | Some error =>
              if json_truthy error then
                ("ERROR: Groq API Error - "
                 ++ match json_prop error "message" with
                    | Some m =>
                        if json_truthy m then Stage1.json_template Number_toString m
                        else JSON_stringify error
                    | None => JSON_stringify error
                    end)%string
              else "ERROR: Unexpected API Response Structure from Groq (HTTP 200)"
          | None => "ERROR: Unexpected API Response Structure from Groq (HTTP 200)"
          end
      end "ERROR:" = true
    \/ exists generatedText,
         message_content jsonResponse = Some (JStr generatedText)).
  { destruct (message_content jsonResponse) as [[| | |generatedText| |]|];
      try (left; reflexivity).
    - right. exists generatedText. reflexivity.
    - left. destruct (json_prop jsonResponse "error") as [error|]; [|reflexivity].
      destruct (json_truthy error); reflexivity. }
  destruct jsonResponse; try (destruct Hmain as [H|[g Hg]];
    [left; exact H
    |right; eexists; exists g; split; [reflexivity|split; [exact Hg|rewrite Hg; reflexivity]]]).
  left. reflexivity.
Qed.

End Classified.

End GroqFacts.

(** X15. Whatever the request does, [callGroq] returns either a text
    that starts with [ERROR:] or the trimmed, non-empty string found at
    [choices[0].message.content] of a response with code 200. *)
Theorem callGroq_answer_or_error
    (Number_toString : Q -> string) (JSON_stringify : json -> string)
    (SyntaxError_message : string -> string) (TypeError_message : json -> string)
    (apiKey : option string) (fetch : GroqService.fetched) :
  startsWith
    (GroqService.callGroq Number_toString JSON_stringify SyntaxError_message
       TypeError_message apiKey fetch) "ERROR:" = true
  \/ exists key responseBody jsonResponse generatedText,
       apiKey = Some key /\ key <> ""
       /\ fetch = GroqService.Fetched 200 responseBody
       /\ JSON_parse responseBody = Some jsonResponse
       /\ GroqService.message_content jsonResponse = Some (JStr generatedText)
       /\ generatedText <> ""
       /\ GroqService.callGroq Number_toString JSON_stringify SyntaxError_message
            TypeError_message apiKey fetch = trim generatedText.
Proof.
  unfold GroqService.callGroq.
  destruct apiKey as [key|]; [|left; reflexivity].
  destruct (is_empty key) eqn:Hkey; [left; reflexivity|].
  destruct fetch as [message|responseCode responseBody]; [left; reflexivity|].
  destruct (Nat.eqb responseCode 200) eqn:Hcode.
  - apply Nat.eqb_eq in Hcode. subst responseCode.
    destruct (GroqFacts.on200_cases Number_toString JSON_stringify
                SyntaxError_message TypeError_message responseBody)
      as [H|[jsonResponse [generatedText [Hp [Hc Hr]]]]]; [left; exact H|].
    right. exists key, responseBody, jsonResponse, generatedText.
    repeat split; try assumption.
    + apply is_empty_false_iff. exact Hkey.
    + apply GroqFacts.message_content_truthy in Hc. simpl in Hc.
      apply is_empty_false_iff. destruct (is_empty generatedText); [discriminate|reflexivity].
  - left. apply GroqFacts.onFailure_is_error.
Qed.

Lemma no_response_is_error
    (Number_toString : Q -> string) (JSON_stringify : json -> string)
    (SyntaxError_message : string -> string) (TypeError_message : json -> string)
    (apiKey : option string) (fetch : GroqService.fetched) :
  Calls.no_response apiKey fetch = true ->
  startsWith
    (GroqService.callGroq Number_toString JSON_stringify SyntaxError_message
       TypeError_message apiKey fetch) "ERROR:" = true.
Proof.
  unfold Calls.no_response, GroqService.callGroq.
  destruct apiKey as [key|]; [|reflexivity].
  destruct (is_empty key); [reflexivity|]. simpl.
  destruct fetch as [message|responseCode responseBody]; [reflexivity|].
  destruct (Nat.eqb responseCode 200); [discriminate|]. intros _.
  apply GroqFacts.onFailure_is_error.
Qed.

Lemma error_is_no_answer (r : string) :
  startsWith r "ERROR:" = true -> is_answer r = false.
Proof. unfold is_answer. intros ->. apply andb_false_r. Qed.

(** X16. When the key is not set, the request throws or the service
    answers with a code other than 200, each of the four callers of
    [callGroq] reports its failure: the two that return objects return
    an error object that carries [callGroq]'s text, the two that return
    text return an [ERROR:] text. *)
Theorem failed_call_is_reported
    (Number_toString : Q -> string) (JSON_stringify : json -> string)
    (SyntaxError_message : string -> string) (TypeError_message : json -> string)
    (apiKey : option string) (fetch : GroqService.fetched)
    (originalBullet : string) :
  Calls.no_response apiKey fetch = true ->
  let groqResponseString :=
    GroqService.callGroq Number_toString JSON_stringify SyntaxError_message
      TypeError_message apiKey fetch in
  JobAnalysis.analysisFromResponse groqResponseString
  = matchError "Groq API call failed for JD analysis." groqResponseString
  /\ matchFromResponse groqResponseString
     = matchError "Groq API call failed for matching." groqResponseString
  /\ tailoredFromResponse groqResponseString originalBullet
     = ("ERROR: Groq API call failed during tailoring for bullet: "
        ++ dq ++ substring 0 50 originalBullet ++ "..." ++ dq)%string
  /\ SummaryWriter.summaryFromResponse groqResponseString
     = "ERROR: Groq API call failed during summary generation.".
Proof.
  intros H r.
  assert (Hr : is_answer r = false).
  { apply error_is_no_answer.
    apply no_response_is_error. exact H. }
  unfold JobAnalysis.analysisFromResponse, matchFromResponse, tailoredFromResponse,
    SummaryWriter.summaryFromResponse.
  rewrite Hr. repeat split.
Qed.

Lemma failed_call_is_reported_witness :
  Calls.no_response (Some "key") (GroqService.Fetched 429 "{}") = true
  /\ matchFromResponse
       (GroqService.callGroq show_whole (fun _ => "") (fun _ => "") (fun _ => "")
          (Some "key") (GroqService.Fetched 429 "{}"))
     = matchError "Groq API call failed for matching."
         "ERROR: API Call Failed (Groq) - HTTP 429".
Proof.
  split; [reflexivity|].
  exact (proj1 (proj2 (failed_call_is_reported show_whole (fun _ => "")
                  (fun _ => "") (fun _ => "") (Some "key")
                  (GroqService.Fetched 429 "{}") "" eq_refl))).
Defined.

(** ** Code fences around an answer *)

Module FenceFacts.

Import Calls Lines.

Local Open Scope string_scope.

Lemma trimStart_app (a b : string) :
  trimStart (a ++ b) = if is_empty (trimStart a) then trimStart b else trimStart a ++ b.
Proof.
  induction a as [|c r IH]; simpl; [reflexivity |].
  destruct (is_ws c); [exact IH | reflexivity].
Qed.

Lemma trimStart_idem (s : string) : trimStart (trimStart s) = trimStart s.
Proof. apply trimStart_fixed, trimStart_no_leading_ws. Qed.

(** Nothing is trimmed from the end of a text that ends in [b], when
    nothing is trimmed from the end of [b]. *)
Lemma trimEnd_app_solid (a b : string) :
  b <> "" -> trimEnd b = b -> trimEnd (a ++ b) = a ++ b.
Proof.
  intros Hb Hfix. induction a as [|c r IH]; simpl; [exact Hfix |].
  rewrite IH. destruct (r ++ b) eqn:E; [|reflexivity].
  destruct r; simpl in E; [contradiction | discriminate].
Qed.

Lemma trimEnd_app_blank (a b : string) :
  trimEnd b = "" -> trimEnd (a ++ b) = trimEnd a.
Proof.
  intro Hb. induction a as [|c r IH]; simpl; [exact Hb |]. now rewrite IH.
Qed.

Lemma rev_string_app (a b : string) :
  rev_string (a ++ b) = rev_string b ++ rev_string a.
Proof.
  induction a as [|c r IH]; simpl.
  - now rewrite string_app_nil_r.
  - now rewrite IH, string_app_assoc.
Qed.

Lemma endsWith_app (a p : string) : endsWith (a ++ p) p = true.
Proof.
  unfold endsWith. rewrite rev_string_app.
  apply prefix_app. now exists (rev_string a).
Qed.

Lemma substring_head (a b : string) :
  String.substring 0 (String.length a) (a ++ b) = a.
Proof.
  induction a as [|c r IH]; simpl.
  - destruct b; reflexivity.
  - now rewrite IH.
Qed.

Lemma substring_all (s : string) : String.substring 0 (String.length s) s = s.
Proof.
  rewrite <- (string_app_nil_r s) at 2. apply substring_head.
Qed.

Lemma substring_skip (p s : string) :
  substring_from (String.length p) (p ++ s) = s.
Proof.
  unfold substring_from. rewrite string_length_app.
  replace (String.length p + String.length s - String.length p)%nat
    with (String.length s) by lia.
  induction p as [|c r IH]; simpl; [apply substring_all | exact IH].
Qed.

(** The last of the three lines, on a text that ends in a fence. *)
Lemma closing_fence_removed (s : string) :
  let p := trim (s ++ LF ++ "```") in
  (if endsWith p "```" then trim (substring 0 (String.length p - 3) p) else p)
  = trim s.
Proof.
  cbv zeta. unfold trim.
  rewrite (trimStart_app s (LF ++ "```")).
  destruct (is_empty (trimStart s)) eqn:He.
  - apply is_empty_true in He. rewrite He. reflexivity.
  - rewrite (trimEnd_app_solid (trimStart s) (LF ++ "```"));
      [| discriminate | reflexivity].
    replace (trimStart s ++ LF ++ "```") with ((trimStart s ++ LF) ++ "```")
      by (now rewrite string_app_assoc).
    rewrite endsWith_app.
    unfold substring. rewrite string_length_app.
    replace (String.length (trimStart s ++ LF) + String.length "```" - 3 - 0)%nat
      with (String.length (trimStart s ++ LF)) by (simpl; lia).
    rewrite substring_head.
    rewrite trimStart_app, trimStart_idem, He.
    now rewrite trimEnd_app_blank.
Qed.

Lemma trim_after_break (s : string) : trim (LF ++ s) = trim s.
Proof. reflexivity. Qed.

Lemma no_json_fence (s : string) :
  startsWith s "```" = false -> startsWith s "```json" = false.
Proof.
  intro H. destruct (startsWith s "```json") eqn:E; [|reflexivity].
  apply startsWith_app in E. destruct E as [rest ->]. discriminate.
Qed.

Lemma unfenced_kept (s : string) : unfenced s -> strip_code_fences s = s.
Proof.
  intros [Hs He]. unfold strip_code_fences.
  now rewrite (no_json_fence s Hs), Hs, He.
Qed.

Lemma trim_fenced_json (s : string) : trim (fenced_json s) = fenced_json s.
Proof.
  unfold fenced_json, trim.
  replace ("```json" ++ LF ++ s ++ LF ++ "```")
    with (("```json" ++ LF ++ s ++ LF) ++ "```")
    by (now rewrite !string_app_assoc).
  rewrite trimStart_fixed by reflexivity.
  apply trimEnd_app_solid; [discriminate | reflexivity].
Qed.

Lemma trim_fenced (s : string) : trim (fenced s) = fenced s.
Proof.
  unfold fenced, trim.
  replace ("```" ++ LF ++ s ++ LF ++ "```")
    with (("```" ++ LF ++ s ++ LF) ++ "```")
    by (now rewrite !string_app_assoc).
  rewrite trimStart_fixed by reflexivity.
  apply trimEnd_app_solid; [discriminate | reflexivity].
Qed.

Lemma strip_fenced_json (s : string) : strip_code_fences (fenced_json s) = trim s.
Proof.
  unfold strip_code_fences, fenced_json.
  change (startsWith ("```json" ++ LF ++ s ++ LF ++ "```") "```json") with true.
  cbv iota.
  rewrite (substring_skip "```json" (LF ++ s ++ LF ++ "```") : substring_from 7 _ = _).
  rewrite trim_after_break.
  apply closing_fence_removed.
Qed.

Lemma strip_fenced (s : string) : strip_code_fences (fenced s) = trim s.
Proof.
  unfold strip_code_fences, fenced.
  change (startsWith ("```" ++ LF ++ s ++ LF ++ "```") "```json") with false.
  change (startsWith ("```" ++ LF ++ s ++ LF ++ "```") "```") with true.
  cbv iota.
  rewrite (substring_skip "```" (LF ++ s ++ LF ++ "```") : substring_from 3 _ = _).
  rewrite trim_after_break.
  apply closing_fence_removed.
Qed.

End FenceFacts.

(** X17. Removing the code fences: from a text wrapped in a fence, with
    or without the language [json], the three lines leave exactly the
    trimmed text. *)
Theorem fences_are_removed (s : string) :
  strip_code_fences (Calls.fenced_json s) = trim s
  /\ strip_code_fences (Calls.fenced s) = trim s.
Proof.
  split; [apply FenceFacts.strip_fenced_json | apply FenceFacts.strip_fenced].
Qed.

(** X18. An answer that is JSON is read the same with and without a
    fence: for an answer [s] that carries no fence of its own and whose
    trimmed text is JSON, the score and the analysis read from the fenced
    answer are those read from [s]. *)
Theorem fenced_answer_reads_the_same (s : string) (v : json) :
  is_answer s = true ->
  Calls.unfenced (trim s) ->
  JSON_parse (trim s) = Some v ->
  matchFromResponse (Calls.fenced_json s) = matchFromResponse s
  /\ matchFromResponse (Calls.fenced s) = matchFromResponse s
  /\ JobAnalysis.analysisFromResponse (Calls.fenced_json s)
     = JobAnalysis.analysisFromResponse s
  /\ JobAnalysis.analysisFromResponse (Calls.fenced s)
     = JobAnalysis.analysisFromResponse s.
Proof.
  intros Ha Hu Hp.
  unfold matchFromResponse, JobAnalysis.analysisFromResponse.
  rewrite Ha.
  change (is_answer (Calls.fenced_json s)) with true.
  change (is_answer (Calls.fenced s)) with true.
  cbv iota zeta.
  rewrite FenceFacts.trim_fenced_json, FenceFacts.trim_fenced,
    FenceFacts.strip_fenced_json, FenceFacts.strip_fenced,
    (FenceFacts.unfenced_kept (trim s) Hu), Hp.
  repeat split.
Qed.

Lemma fenced_answer_reads_the_same_witness :
  is_answer "{}" = true
  /\ startsWith (trim "{}") "```" = false
  /\ endsWith (trim "{}") "```" = false
  /\ JSON_parse (trim "{}") = Some (JObj [])
  /\ matchFromResponse (Calls.fenced_json "{}") = matchFromResponse "{}".
Proof.
  split; [reflexivity|]. split; [reflexivity|]. split; [reflexivity|].
  split; [reflexivity|].
  exact (proj1 (fenced_answer_reads_the_same "{}" (JObj []) eq_refl
                  (conj eq_refl eq_refl) eq_refl)).
Defined.

(** ** Stage 1 under an analysis the scorer refuses *)

Module RefusedFacts.

Import Stage1 Scoring Stage1Facts Refused.

Local Open Scope string_scope.

Lemma matchGuards_unusable (text : string) (jd : json) :
  unusable jd = true ->
  exists e, e <> "" /\ matchGuards text jd = Some (JObj [("error", JStr e)]).
Proof.
  unfold unusable, matchGuards. intros ->.
  destruct (is_empty text || is_empty (trim text));
    eexists; (split; [|reflexivity]); discriminate.
Qed.

Section Loops.

Variable Number_toString : Q -> string.
Variable answers : nat -> string.
Variable jdAnalysis : json.
Hypothesis Hjd : unusable jdAnalysis = true.

Lemma callMatch_asks_nothing (text : string) :
  asks_nothing (callMatch answers jdAnalysis text).
Proof.
  intros n m n'. unfold callMatch.
  destruct (matchGuards_unusable text jdAnalysis Hjd) as [e [_ ->]].
  now intros [= _ <-].
Qed.

Lemma asks_nothing_ret {A : Type} (a : A) : asks_nothing (ret a).
Proof. intros n a' n'. unfold ret. now intros [= _ <-]. Qed.

Lemma asks_nothing_lift {A : Type} (o : outcome A) : asks_nothing (lift o).
Proof.
  intros n a n'. unfold lift. destruct o; [discriminate |]. now intros [= _ <-].
Qed.

Lemma asks_nothing_bind {A B : Type} (m : M A) (k : A -> M B) :
  asks_nothing m -> (forall a, asks_nothing (k a)) -> asks_nothing (bind m k).
Proof.
  intros Hm Hk n b n'. unfold bind.
  destruct (m n) as [|[a n1]] eqn:E; [discriminate |]. intro H.
  apply Hm in E. apply Hk in H. congruence.
Qed.

Lemma asks_nothing_concatM {A : Type} (ms : list (M (list A))) :
  Forall asks_nothing ms -> asks_nothing (concatM ms).
Proof.
  induction 1 as [|m ms Hm _ IH]; simpl.
  - apply asks_nothing_ret.
  - apply asks_nothing_bind; [exact Hm |]. intro xs.
    apply asks_nothing_bind; [exact IH |]. intro ys. apply asks_nothing_ret.
Qed.

Lemma scoreBullets_asks_nothing (msg : messages)
    (uniqueIdOf : string -> nat -> string) (sectionTitle : string)
    (identifier : cell) (bullets : list (string * jsv)) :
  forall bulletIndex,
    asks_nothing
      (scoreBullets Number_toString answers jdAnalysis msg uniqueIdOf sectionTitle
         identifier bulletIndex bullets).
Proof.
  induction bullets as [|[tag b] rest IH]; intro idx; simpl.
  - apply asks_nothing_ret.
  - apply asks_nothing_bind; [apply asks_nothing_lift |]. intros [text|]; [|apply IH].
    apply asks_nothing_bind; [apply callMatch_asks_nothing |]. intro m.
    apply asks_nothing_bind; [apply asks_nothing_lift |]. intro cells.
    apply asks_nothing_bind; [apply IH |]. intro rows. apply asks_nothing_ret.
Qed.

Lemma scoreTechItem_asks_nothing (subIndex : nat) (item : object) (itemIndex : nat) :
  asks_nothing (scoreTechItem Number_toString answers jdAnalysis subIndex item itemIndex).
Proof.
  unfold scoreTechItem.
  apply asks_nothing_bind; [apply asks_nothing_lift |].
  intros [[[text ident] kind]|]; [|apply asks_nothing_ret].
  destruct (is_empty text); [apply asks_nothing_ret |].
  apply asks_nothing_bind; [apply callMatch_asks_nothing |]. intro m.
  apply asks_nothing_bind; [apply asks_nothing_lift |]. intro cells.
  apply asks_nothing_ret.
Qed.

Lemma scoreMaster_asks_nothing (master : resume) :
  asks_nothing (scoreMaster Number_toString answers jdAnalysis master).
Proof.
  unfold scoreMaster. apply asks_nothing_concatM. repeat constructor.
  - unfold scoreExperience.
    destruct (find_section "EXPERIENCE" (sections master)) as [[t [jobs|] subs]|];
      try apply asks_nothing_ret.
    apply asks_nothing_concatM. apply Forall_indexed. intros job i.
    apply scoreBullets_asks_nothing.
  - unfold scoreProjects.
    destruct (find_section "PROJECTS" (sections master)) as [[t its [subs|]]|];
      try apply asks_nothing_ret.
    apply asks_nothing_concatM. apply Forall_indexed. intros sub i.
    apply asks_nothing_concatM. apply Forall_indexed. intros project j.
    apply asks_nothing_bind; [apply asks_nothing_lift |]. intro name.
    apply scoreBullets_asks_nothing.
  - unfold scoreLeadership.
    destruct (find_section "LEADERSHIP & UNIVERSITY INVOLVEMENT" (sections master))
      as [[t [entries|] subs]|]; try apply asks_nothing_ret.
    apply asks_nothing_concatM. apply Forall_indexed. intros item i.
    apply scoreBullets_asks_nothing.
  - unfold scoreTechnicalSkills.
    destruct (find_section "TECHNICAL SKILLS & CERTIFICATES" (sections master))
      as [[t its [subs|]]|]; try apply asks_nothing_ret.
    apply asks_nothing_concatM. apply Forall_indexed. intros sub i.
    apply asks_nothing_concatM. apply Forall_indexed. intros item j.
    apply scoreTechItem_asks_nothing.
Qed.

Lemma recorded_unscored (row : list cell) :
  recorded Number_toString jdAnalysis row -> unscored row.
Proof.
  intros [msg [uid [sec [ident [text [resp [[[score kw] just] [-> Hc]]]]]]]].
  unfold matchResumeSection in Hc.
  destruct (matchGuards_unusable text jdAnalysis Hjd) as [e [He Hg]].
  rewrite Hg in Hc.
  rewrite (scoredCells_error Number_toString msg _ e "" (error_alone e He)) in Hc.
  injection Hc as <- <- _. split; reflexivity.
Qed.

End Loops.

End RefusedFacts.

(** X19. Stage 1 under an analysis without a job title or without
    primary keywords (which [analyzeJobDescription] accepts, as it
    checks only that [jobTitle] is present and [keyResponsibilities] is
    an array): the scorer refuses every unit, so the model is never
    asked and every row written has score 0.00 and no keywords. *)
Theorem refused_analysis_scores_nothing (Number_toString : Q -> string)
    (answers : nat -> string) (jdAnalysis : json) (master : resume)
    (n n' : nat) (rows : list (list cell)) :
  Refused.unusable jdAnalysis = true ->
  Stage1.scoreMaster Number_toString answers jdAnalysis master n = Returns (rows, n') ->
  n' = n /\ Forall Refused.unscored rows.
Proof.
  intros Hjd H. split.
  - exact (RefusedFacts.scoreMaster_asks_nothing Number_toString answers jdAnalysis
             Hjd master n rows n' H).
  - eapply Forall_impl;
      [|exact (Stage1Facts.scoreMaster_recorded Number_toString answers jdAnalysis
                 master n rows n' H)].
    intro row. apply RefusedFacts.recorded_unscored. exact Hjd.
Qed.

Lemma refused_analysis_scores_nothing_witness :
  JobAnalysis.analyzeJobDescription SamplesA.answer_untitled "Engineer wanted"
  = SamplesA.jd_untitled
  /\ JobAnalysis.analysis_failed SamplesA.jd_untitled = false
  /\ Refused.unusable SamplesA.jd_untitled = true
  /\ 0 = 0
  /\ Forall Refused.unscored
       [Stage1.scoredRow "EXP_J0_B0" "EXPERIENCE" (CText "Acme Corp") "Built X"
          ("0.00", "",
           CText "Error: Invalid JD analysis results (missing primaryKeywords or jobTitle).. Raw: ");
        Stage1.scoredRow "EXP_J0_B1" "EXPERIENCE" (CText "Acme Corp") "Led Y"
          ("0.00", "",
           CText "Error: Invalid JD analysis results (missing primaryKeywords or jobTitle).. Raw: ")].
Proof.
  split; [reflexivity |]. split; [reflexivity |]. split; [reflexivity |].
  exact (refused_analysis_scores_nothing Samples1.show_whole (fun _ => "")
           SamplesA.jd_untitled Samples1.master_acme 0 0 _ eq_refl eq_refl).
Defined.

(** ** The summary of the final record *)

Module SummaryFacts.

Import SummaryWriter.

Local Open Scope string_scope.

Lemma summaryFromResponse_trimmed (resp : string) :
  is_answer resp = true ->
  trim (summaryFromResponse resp) = summaryFromResponse resp.
Proof.
  unfold summaryFromResponse. intros ->.
  destruct (JSON_parse _) as [parsed|]; [|apply trim_idem].
  destruct (json_prop parsed "professionalSummary") as [[| | |s| |]|];
    try apply trim_idem.
  destruct (json_truthy parsed && negb (is_empty s)); apply trim_idem.
Qed.

Lemma summaryFromResponse_failed (resp : string) :
  is_answer resp = false ->
  summaryFromResponse resp = "ERROR: Groq API call failed during summary generation.".
Proof. unfold summaryFromResponse. now intros ->. Qed.

(** What the guards answer early is an error text. *)
Lemma summaryGuards_early (highlights : string) (jd : json) (name : jsv)
    (early : string) :
  summaryGuards highlights jd name = Returns (Some early) ->
  is_answer early = false.
Proof.
  unfold summaryGuards.
  destruct (is_empty highlights || is_empty (trim highlights));
    [now intros [= <-] |].
  destruct (negb (json_truthy jd) || negb (prop_truthy jd "jobTitle"));
    [now intros [= <-] |].
  destruct name as [[s| |b t]| |]; try discriminate.
  - destruct (is_empty s || is_empty (trim s)); [now intros [= <-] |].
    destruct (joinable _ && joinable _ && joinable _); discriminate.
  - now intros [= <-].
  - destruct b; simpl; [discriminate | now intros [= <-]].
Qed.

Lemma generateTailoredSummary_cases (resp highlights : string) (jd : json)
    (name : jsv) (s : string) :
  generateTailoredSummary resp highlights jd name = Returns s ->
  is_answer s = false \/ (is_answer resp = true /\ trim s = s).
Proof.
  unfold generateTailoredSummary.
  destruct (summaryGuards highlights jd name) as [|[early|]] eqn:E; [discriminate | |].
  - intros [= <-]. left. eapply summaryGuards_early. exact E.
  - intros [= <-]. destruct (is_answer resp) eqn:Ha.
    + right. split; [reflexivity |]. now apply summaryFromResponse_trimmed.
    + left. now rewrite summaryFromResponse_failed.
Qed.

End SummaryFacts.

(** X20. The summary of the final record is the text
    [generateTailoredSummary] returns, unchanged, when that is an answer,
    and the master record's summary otherwise; it is the master record's
    whenever the call to the model failed. *)
Theorem summary_is_the_answer_or_the_masters (master : resume) (rows : list rowobj)
    (groqResponseString topMatchedHighlights : string) (jdAnalysis : json)
    (fullName : jsv) (tailoredSummary : string) :
  SummaryWriter.generateTailoredSummary groqResponseString topMatchedHighlights
    jdAnalysis fullName = Returns tailoredSummary ->
  summary (Stage3.finalTailoredResumeObject master rows tailoredSummary)
  = (if is_answer tailoredSummary then tailoredSummary else summary master)
  /\ (is_answer groqResponseString = false ->
      summary (Stage3.finalTailoredResumeObject master rows tailoredSummary)
      = summary master).
Proof.
  intro H. apply SummaryFacts.generateTailoredSummary_cases in H.
  unfold Stage3.finalTailoredResumeObject. simpl.
  change (negb (is_empty tailoredSummary)
          && negb (startsWith tailoredSummary "ERROR:"))
    with (is_answer tailoredSummary).
  destruct H as [Hs | [Hr Ht]].
  - rewrite Hs. split; reflexivity.
  - rewrite Ht. split; [reflexivity |]. rewrite Hr. discriminate.
Qed.

Lemma summary_is_the_answer_or_the_masters_witness :
  SummaryWriter.generateTailoredSummary SamplesA.answer_summary "Built X"
    Samples1.jd_sample (VStr "Ada Doe")
  = Returns "Engineer with proofs."
  /\ summary (Stage3.finalTailoredResumeObject Samples1.master_acme []
                "Engineer with proofs.")
     = "Engineer with proofs.".
Proof.
  split; [reflexivity |].
  exact (proj1 (summary_is_the_answer_or_the_masters Samples1.master_acme []
                  SamplesA.answer_summary "Built X" Samples1.jd_sample
                  (VStr "Ada Doe") "Engineer with proofs." eq_refl)).
Defined.

(** ** Stage 1 on the record the normaliser returns *)

Module TypedFacts.
Import MasterResumeData BulletColumns Normalised RowFacts FinalRecord RecordFacts
  Scorable.

Local Open Scope string_scope.

Lemma fields_typed_text (mapped : list (string * string)) :
  fields_typed (map (fun '(k, v) => (k, VStr v)) mapped).
Proof.
  induction mapped as [|[k v] r IH]; constructor; [|exact IH].
  left. now exists v.
Qed.

Lemma fields_typed_set (k : string) (v : jsv) (it : object) :
  field_typed (k, v) -> fields_typed it -> fields_typed (obj_set k v it).
Proof.
  intros Hv. induction 1 as [|[k' v'] r Hkv Hr IH]; simpl.
  - constructor; [exact Hv | constructor].
  - destruct (String.eqb k k') eqn:E.
    + apply String.eqb_eq in E. subst k'. constructor; assumption.
    + constructor; assumption.
Qed.

Lemma fields_typed_delete (k : string) (it : object) :
  fields_typed it -> fields_typed (obj_delete k it).
Proof.
  induction 1 as [|[k' v'] r Hkv _ IH]; simpl; [constructor |].
  destruct (String.eqb k k'); [exact IH | constructor; assumption].
Qed.

Lemma fields_typed_trim (it : object) : fields_typed it -> fields_typed (trimFields it).
Proof.
  induction 1 as [|[k v] r Hkv _ IH]; simpl; [constructor |].
  constructor; [|exact IH].
  destruct v as [[s| |]| |]; try exact Hkv. left. now eexists.
Qed.

Lemma fields_typed_collect (prefix : string) (count : nat) :
  forall k it acc,
    fields_typed it -> fields_typed (fst (collectBullets prefix k count it acc)).
Proof.
  induction count as [|count IH]; intros k it acc H; [exact H |].
  rewrite collectBullets_step. apply IH. now apply fields_typed_delete.
Qed.

Lemma fields_typed_bullets (prefix key : string) (it : object) :
  In key array_keys ->
  fields_typed it ->
  fields_typed
    (let '(item', bullets) :=
       collectBullets prefix 1 NUM_DEDICATED_BULLET_COLUMNS it [] in
     obj_set key (VStrs bullets) item').
Proof.
  intros Hk H.
  pose proof (fields_typed_collect prefix NUM_DEDICATED_BULLET_COLUMNS 1 it [] H) as H1.
  destruct (collectBullets prefix 1 NUM_DEDICATED_BULLET_COLUMNS it [])
    as [item' bullets]. simpl in *.
  apply fields_typed_set; [|exact H1]. right. exists bullets. now split.
Qed.

(** What a typed item holds under a key: text or nothing, unless the key
    is an array key. *)
Lemma fields_typed_lookup (key : string) (it : object) :
  fields_typed it ->
  prop it key = VPrim CUndef
  \/ (exists s, prop it key = VStr s)
  \/ (exists l, prop it key = VStrs l /\ In key array_keys).
Proof.
  intro H. unfold prop. destruct (obj_get key it) as [v|] eqn:E; [|now left].
  pose proof (obj_get_In _ _ _ E) as Hin.
  unfold fields_typed in H. rewrite Forall_forall in H.
  destruct (H _ Hin) as [[s Hs] | [l [Hl Hk]]]; simpl in *; subst v.
  - right. left. now exists s.
  - right. right. now exists l.
Qed.

Lemma fields_typed_text_key (key : string) (it : object) :
  fields_typed it -> ~ In key array_keys ->
  prop it key = VPrim CUndef \/ exists s, prop it key = VStr s.
Proof.
  intros H Hk.
  destruct (fields_typed_lookup key it H) as [E | [E | [l [_ Hin]]]]; auto.
  contradiction.
Qed.

Section Items.

Variable Date_parse : string -> option (nat * Z).

Lemma fields_typed_format (k : string) (isEnd : bool) (it : object) :
  fields_typed it -> fields_typed (formatField Date_parse k isEnd it).
Proof.
  intro H. unfold formatField. destruct (field_text it k) as [s|]; [|exact H].
  destruct (is_empty s); [exact H |].
  apply fields_typed_set; [|exact H]. left. now eexists.
Qed.

Lemma fields_typed_split (k : string) (it : object) :
  In k array_keys -> fields_typed it -> fields_typed (splitField k it).
Proof.
  intros Hk H. unfold splitField.
  destruct (obj_get k it) as [[[s| |]| |]|]; try exact H;
    apply fields_typed_set; try exact H; right.
  - exists (smartSplitMultiLine s). now split.
  - exists []. now split.
  - exists []. now split.
  - exists []. now split.
  - exists []. now split.
Qed.

Lemma processItem_fields_typed (sec : string) (mapped : list (string * string)) :
  fields_typed (processItem Date_parse sec mapped).
Proof.
  unfold processItem. apply fields_typed_trim.
  assert (H4 : fields_typed
            (if String.eqb sec "TECHNICAL SKILLS & CERTIFICATES"
             then formatField Date_parse "issueDate" false
                    (if String.eqb sec "HONORS & AWARDS"
                     then formatField Date_parse "date" false (dated Date_parse mapped)
                     else dated Date_parse mapped)
             else (if String.eqb sec "HONORS & AWARDS"
                   then formatField Date_parse "date" false (dated Date_parse mapped)
                   else dated Date_parse mapped))).
  { assert (Hd : fields_typed (dated Date_parse mapped))
      by (unfold dated; repeat apply fields_typed_format; apply fields_typed_text).
    destruct (String.eqb sec "TECHNICAL SKILLS & CERTIFICATES"),
             (String.eqb sec "HONORS & AWARDS");
      [apply fields_typed_format; apply fields_typed_format; exact Hd
      | apply fields_typed_format; exact Hd
      | apply fields_typed_format; exact Hd
      | exact Hd]. }
  unfold dated in H4.
  match goal with
  | |- fields_typed (if ?b then splitField _ ?x else ?x) =>
      assert (H5 : fields_typed x); [|destruct b;
        [apply fields_typed_split; [cbv; tauto | exact H5]
        | exact H5]]
  end.
  destruct (String.eqb sec "EXPERIENCE"
            || String.eqb sec "LEADERSHIP & UNIVERSITY INVOLVEMENT").
  - apply fields_typed_bullets; [cbv; tauto | exact H4].
  - destruct (String.eqb sec "PROJECTS"); [|exact H4].
    pose proof (fields_typed_bullets "descriptionBullet" "descriptionBullets" _
                  (or_intror (or_introl eq_refl)) H4) as H.
    destruct (collectBullets "descriptionBullet" 1 NUM_DEDICATED_BULLET_COLUMNS _ [])
      as [item' bullets].
    apply fields_typed_split; [cbv; tauto | exact H].
Qed.

End Items.

(** *** Any property of the items, through the whole record *)

Lemma techSubsections_items_In (processed : list object) (it : object) :
  In it (flat_map sub_items (techSubsections processed)) ->
  exists p, In p processed /\ it = techItem p.
Proof.
  unfold techSubsections.
  assert (H : forall done m,
            (forall x, In x (flat_map sub_items m) ->
                       exists p, In p done /\ x = techItem p) ->
            In it (flat_map sub_items
                     (fold_left (fun m item =>
                                   subsection_push (categoryOf item) (techItem item) m)
                                processed m)) ->
            exists p, In p (done ++ processed)%list /\ it = techItem p).
  { induction processed as [|p r IH]; intros done m Hm Hin; simpl in Hin.
    - destruct (Hm it Hin) as [q [Hq E]]. exists q. rewrite app_nil_r. now split.
    - destruct (IH (done ++ [p])%list (subsection_push (categoryOf p) (techItem p) m))
        as [q [Hq E]].
      + intros x Hx. apply subsection_push_items in Hx. destruct Hx as [-> | Hx].
        * exists p. split; [apply in_app_iff; right; now left | reflexivity].
        * destruct (Hm x Hx) as [q [Hq E]]. exists q.
          split; [apply in_app_iff; now left | exact E].
      + exact Hin.
      + exists q. rewrite <- app_assoc in Hq. now split. }
  intro Hin. destruct (H [] [] (fun x Hx => match Hx with end) Hin) as [p [Hp E]].
  exists p. now split.
Qed.

Section ItemsInvariant.

Variable Date_parse : string -> option (nat * Z).

(** [F] holds of every processed row; [P] is what it gives of the items
    filed in the record. *)
Variables F P : object -> Prop.
Hypothesis F_row : forall sec headers row, F (normalizeRow Date_parse sec headers row).
Hypothesis F_flat : forall it, F it -> P it.
Hypothesis F_project : forall it, F it -> P (projectItem it).
Hypothesis F_tech : forall it, F it -> P (techItem it).

Lemma emptySection_all (t : string) : items_all P (emptySection t).
Proof.
  intros it H. apply all_items_In in H. unfold emptySection in H.
  destruct (is_grouped t); simpl in H.
  - destruct H as [[l [E _]] | [subs [ss [E [H1 H2]]]]]; [discriminate |].
    injection E as <-. destruct (String.eqb t "PROJECTS"); simpl in H1.
    + destruct H1 as [<- | []]. contradiction.
    + contradiction.
  - destruct H as [[l [E H]] | [subs [ss [E _]]]]; [|discriminate].
    injection E as <-. contradiction.
Qed.

Lemma ensure_section_all (t : string) (secs : list section) :
  Forall (items_all P) secs -> Forall (items_all P) (ensure_section t secs).
Proof.
  intro H. unfold ensure_section. destruct (find_section t secs); [exact H |].
  apply Forall_app. split; [exact H |].
  constructor; [apply emptySection_all | constructor].
Qed.

Lemma update_section_all (t : string) (f : section -> section)
    (secs : list section) :
  (forall s, items_all P s -> items_all P (f s)) ->
  Forall (items_all P) secs -> Forall (items_all P) (update_section t f secs).
Proof.
  intros Hf. induction 1 as [|s r Hs Hr IH]; simpl; [constructor |].
  destruct (String.eqb (title s) t); constructor; auto.
Qed.

Lemma pushItems_all (sec : string) (processed : list object) (s : section) :
  Forall F processed ->
  items_all P s -> items_all P (pushItems sec processed s).
Proof.
  intros Hp Hs. unfold pushItems. rewrite Forall_forall in Hp.
  destruct (existsb (String.eqb sec) _).
  { intros it H. apply all_items_In in H. simpl in H.
    destruct H as [[l [E H]] | [subs [ss [E [H1 H2]]]]].
    - destruct (items s) as [l0|] eqn:E0; [|discriminate]. injection E as <-.
      apply in_app_iff in H. destruct H as [H | H].
      + apply Hs. apply all_items_In. left. now exists l0.
      + apply F_flat. now apply Hp.
    - apply Hs. apply all_items_In. right. now exists subs, ss. }
  destruct (String.eqb sec "TECHNICAL SKILLS & CERTIFICATES").
  { destruct (techSubsections processed) as [|t0 tr] eqn:Et; [exact Hs |].
    intros it H. apply all_items_In in H. simpl in H.
    destruct H as [[l [E H]] | [subs [ss [E [H1 H2]]]]].
    - apply Hs. apply all_items_In. left. now exists l.
    - injection E as <-.
      assert (Hin : In it (flat_map sub_items (techSubsections processed))).
      { rewrite Et. apply in_flat_map. now exists ss. }
      apply techSubsections_items_In in Hin. destruct Hin as [p [Hpin ->]].
      apply F_tech. now apply Hp. }
  destruct (String.eqb sec "PROJECTS"); [|exact Hs].
  destruct (map projectItem processed) as [|p0 pr] eqn:Ep; [exact Hs |].
  intros it H. apply all_items_In in H. simpl in H.
  destruct H as [[l [E H]] | [subs [ss [E [H1 H2]]]]].
  - apply Hs. apply all_items_In. left. now exists l.
  - injection E as <-.
    assert (Hin : In it (flat_map sub_items
                           (append_to_subsection "General Projects" (p0 :: pr)
                              (let subs0 :=
                                 match subsections s with
                                 | Some ((_ :: _) as subs) => subs
                                 | _ => [mkSubsection "General Projects" []]
                                 end in
                               if existsb (fun sub => String.eqb (sub_name sub)
                                                        "General Projects") subs0
                               then subs0
                               else (subs0 ++ [mkSubsection "General Projects" []])%list)))).
    { apply in_flat_map. now exists ss. }
    apply append_to_subsection_items in Hin. destruct Hin as [Hin | Hin].
    + rewrite <- Ep in Hin. apply in_map_iff in Hin. destruct Hin as [p [<- Hpin]].
      apply F_project. now apply Hp.
    + assert (Hold : In it (flat_map sub_items
                              match subsections s with
                              | Some ((_ :: _) as subs) => subs
                              | _ => [mkSubsection "General Projects" []]
                              end)).
      { cbv zeta in Hin.
        destruct (existsb _ _); [exact Hin |].
        rewrite flat_map_app in Hin. apply in_app_iff in Hin.
        destruct Hin as [Hin | Hin]; [exact Hin |]. simpl in Hin. contradiction. }
      destruct (subsections s) as [[|s0 sr]|] eqn:Es;
        [simpl in Hold; contradiction | | simpl in Hold; contradiction].
      apply Hs. apply all_items_In. right. exists (s0 :: sr).
      apply in_flat_map in Hold. destruct Hold as [ss' [Hs1 Hs2]].
      exists ss'. auto.
Qed.

Lemma processAccumulatedSection_all (out : output) (sec : string)
    (headers : list string) (dataRows : list (list string)) :
  Forall (items_all P) (out_sections out) ->
  Forall (items_all P)
    (out_sections (processAccumulatedSection Date_parse out sec headers dataRows)).
Proof.
  intro H. unfold processAccumulatedSection.
  destruct (String.eqb sec "PERSONAL INFO"); [exact H |].
  destruct (String.eqb sec "SUMMARY"); [exact H |].
  destruct (negb (isTabularSection sec)); [exact H |].
  destruct headers as [|h hs]; [simpl; now apply ensure_section_all |].
  destruct dataRows as [|r rs]; [simpl; now apply ensure_section_all |].
  simpl out_sections.
  apply update_section_all; [|now apply ensure_section_all].
  intros s Hs. apply pushItems_all; [|exact Hs].
  apply Forall_forall. intros it Hit.
  assert (E : exists row, normalizeRow Date_parse sec (h :: hs) row = it).
  { destruct Hit as [<- | Hit]; [now exists r |].
    apply in_map_iff in Hit. destruct Hit as [row [E _]]. now exists row. }
  destruct E as [row <-]. apply F_row.
Qed.

Lemma flush_all (st : scan_state) :
  Forall (items_all P) (out_sections (resumeOutput st)) ->
  Forall (items_all P) (out_sections (flush Date_parse st)).
Proof.
  intro H. unfold flush. destruct (currentSectionTitleKey st); [|exact H].
  destruct (_ || _); [now apply processAccumulatedSection_all | exact H].
Qed.

Lemma scan_all (allData : list (list cell)) (fuel : nat) :
  forall i st,
    Forall (items_all P) (out_sections (resumeOutput st)) ->
    Forall (items_all P)
      (out_sections (resumeOutput (scan Date_parse allData fuel i st))).
Proof.
  induction fuel as [|f IH]; intros i st H; simpl; [exact H |].
  destruct (nth_error allData i) as [row|]; [|exact H].
  destruct (getCanonicalSectionTitle (firstCellText row)) as [key|].
  - pose proof (flush_all st H) as Hf.
    destruct (isTabularSection key && Nat.ltb (S i) (length allData));
      [|now apply IH].
    destruct (nth_error allData _) as [headerRow|]; [|now apply IH].
    destruct (getCanonicalSectionTitle (firstCellText headerRow)); now apply IH.
  - destruct (currentSectionTitleKey st) as [current|] eqn:Ec; [|now apply IH].
    destruct (rowIsEffectivelyBlank row); [now apply IH |].
    destruct (String.eqb current "SUMMARY").
    + apply IH. now destruct (is_empty (summaryTextInRow row)).
    + destruct (_ && _ && _); now apply IH.
Qed.

Lemma getMasterResumeData_all (allData : list (list cell)) (master : resume) :
  getMasterResumeData Date_parse allData = Some master ->
  Forall (items_all P) (sections master).
Proof.
  unfold getMasterResumeData. destruct allData as [|r0 rest]; [discriminate |].
  intros [= <-]. simpl sections.
  assert (H : Forall (items_all P)
                (out_sections
                   (flush Date_parse
                      (scan Date_parse (r0 :: rest) (length (r0 :: rest)) 0
                         (mkScan None [] [] (mkOutput [] "" [])))))).
  { apply flush_all, scan_all. constructor. }
  exact H.
Qed.

End ItemsInvariant.

End TypedFacts.

(** *** The items of the record can be scored *)

Module ScorableFacts.
Import MasterResumeData FinalRecord RecordFacts Scorable TypedFacts Stage1 Scoring
  Stage1Facts.

Local Open Scope string_scope.

Lemma bulletText_text (s : string) : quiet (bulletText (VStr s)).
Proof.
  unfold bulletText, VStr.
  destruct (is_empty s || is_empty (trim s)); eexists; reflexivity.
Qed.

Lemma bullets_quiet_texts (l : list string) : bullets_quiet (VStrs l).
Proof.
  unfold bullets_quiet, VStrs. simpl. apply Forall_forall. intros b Hb.
  apply in_map_iff in Hb. destruct Hb as [s [<- _]]. apply bulletText_text.
Qed.

Lemma bullets_quiet_typed (key : string) (it : object) :
  fields_typed it -> bullets_quiet (prop it key).
Proof.
  intro H.
  destruct (fields_typed_lookup key it H) as [-> | [[s ->] | [l [-> _]]]].
  - constructor.
  - constructor.
  - apply bullets_quiet_texts.
Qed.

Lemma trimmedField_text_key (key : string) (it : object) :
  fields_typed it -> ~ In key array_keys ->
  quiet (trimmedField (prop it key)).
Proof.
  intros H Hk.
  destruct (fields_typed_text_key key it H Hk) as [-> | [s ->]].
  - eexists. reflexivity.
  - unfold trimmedField, VStr. destruct (is_empty s); eexists; reflexivity.
Qed.

Lemma techUnit_quiet (it : object) :
  quiet (trimmedField (prop it "skill")) ->
  quiet (trimmedField (prop it "details")) ->
  quiet (trimmedField (prop it "name")) ->
  quiet (trimmedField (prop it "issuer")) ->
  quiet (techUnit it).
Proof.
  intros [a Ha] [b Hb] [c Hc] [d Hd]. unfold techUnit.
  rewrite Ha, Hb, Hc, Hd.
  destruct a; [destruct b; eexists; reflexivity |].
  destruct c; [destruct d; eexists; reflexivity | eexists; reflexivity].
Qed.

Ltac not_array_key :=
  let H := fresh in
  intro H; cbv in H; intuition discriminate.

Lemma typed_scorable (it : object) : fields_typed it -> scorable it.
Proof.
  intro H. repeat split.
  - now apply bullets_quiet_typed.
  - now apply bullets_quiet_typed.
  - destruct (fields_typed_text_key "subProjectsOrRoles" it H) as [-> | [s ->]];
      [not_array_key | constructor | constructor].
  - destruct (fields_typed_text_key "projectName" it H) as [-> | [s ->]];
      [not_array_key | eexists; reflexivity | eexists; reflexivity].
  - apply techUnit_quiet; apply trimmedField_text_key; try exact H; not_array_key.
Qed.

Lemma fieldOrEmpty_text (key : string) (it : object) :
  fields_typed it -> ~ In key array_keys ->
  exists s, fieldOrEmpty it key = VStr s.
Proof.
  intros H Hk. unfold fieldOrEmpty, jsv_or.
  destruct (fields_typed_text_key key it H Hk) as [-> | [s ->]].
  - now exists "".
  - destruct (jsv_truthy (VStr s)); eexists; reflexivity.
Qed.

Lemma trimmedField_text (s : string) : quiet (trimmedField (VStr s)).
Proof. unfold trimmedField, VStr. destruct (is_empty s); eexists; reflexivity. Qed.

Lemma project_scorable (it : object) : fields_typed it -> scorable (projectItem it).
Proof.
  intro H.
  destruct (fieldOrEmpty_text "projectName" it H) as [name Hname]; [not_array_key |].
  unfold scorable, projectItem, prop. simpl obj_get.
  split; [constructor |]. split.
  - unfold fieldOrNone, jsv_or.
    destruct (jsv_truthy (prop it "descriptionBullets"));
      [now apply bullets_quiet_typed | constructor].
  - split; [constructor |]. split.
    + rewrite Hname. eexists. reflexivity.
    + eexists. reflexivity.
Qed.

Lemma tech_scorable (it : object) : fields_typed it -> scorable (techItem it).
Proof.
  intro H.
  destruct (fieldOrEmpty_text "skillItem" it H) as [skill Hskill]; [not_array_key |].
  destruct (fieldOrEmpty_text "details" it H) as [details Hdetails]; [not_array_key |].
  destruct (fieldOrEmpty_text "issuer" it H) as [issuer Hissuer]; [not_array_key |].
  unfold techItem.
  destruct (jsv_truthy (prop it "issuer") || jsv_truthy (prop it "issueDate")).
  - unfold scorable, prop. simpl obj_get.
    split; [constructor |]. split; [constructor |]. split; [constructor |].
    split; [eexists; reflexivity |].
    apply techUnit_quiet; unfold prop; simpl obj_get;
      try (eexists; reflexivity).
    + rewrite Hskill. apply trimmedField_text.
    + rewrite Hissuer. apply trimmedField_text.
  - unfold scorable, prop. simpl obj_get.
    split; [constructor |]. split; [constructor |]. split; [constructor |].
    split; [eexists; reflexivity |].
    apply techUnit_quiet; unfold prop; simpl obj_get;
      try (eexists; reflexivity).
    + rewrite Hskill. apply trimmedField_text.
    + rewrite Hdetails. apply trimmedField_text.
Qed.

(** Every item of the record the normaliser returns can be scored. *)
Lemma getMasterResumeData_scorable (Date_parse : string -> option (nat * Z))
    (allData : list (list cell)) (master : resume) :
  getMasterResumeData Date_parse allData = Some master ->
  Forall (items_all scorable) (sections master).
Proof.
  apply (getMasterResumeData_all Date_parse fields_typed scorable).
  - intros sec headers row. apply processItem_fields_typed.
  - apply typed_scorable.
  - apply project_scorable.
  - apply tech_scorable.
Qed.

(** *** The loops return *)

Section Loops.

Variable Number_toString : Q -> string.
Variable answers : nat -> string.
Variable jdAnalysis : json.

Lemma never_throws_ret {A : Type} (a : A) : never_throws (ret a).
Proof. intro n. now exists a, n. Qed.

Lemma never_throws_bind {A B : Type} (R : A -> Prop) (m : M A) (k : A -> M B) :
  never_throws m ->
  (forall n a n', m n = Returns (a, n') -> R a) ->
  (forall a, R a -> never_throws (k a)) ->
  never_throws (bind m k).
Proof.
  intros Hm HR Hk n. unfold bind.
  destruct (Hm n) as [a [n1 E]]. rewrite E.
  apply (Hk a (HR _ _ _ E)).
Qed.

Lemma never_throws_lift {A B : Type} (o : outcome A) (k : A -> M B) :
  quiet o -> (forall a, never_throws (k a)) -> never_throws (bind (lift o) k).
Proof.
  intros [a ->] Hk n. unfold bind, lift. apply Hk.
Qed.

Lemma never_throws_concatM {A : Type} (ms : list (M (list A))) :
  Forall never_throws ms -> never_throws (concatM ms).
Proof.
  induction 1 as [|m ms Hm _ IH]; simpl.
  - apply never_throws_ret.
  - apply (never_throws_bind (fun _ => True)); [exact Hm | auto |]. intros xs _.
    apply (never_throws_bind (fun _ => True)); [exact IH | auto |]. intros ys _.
    apply never_throws_ret.
Qed.

Lemma Forall_indexed_In {A B : Type} (Q : B -> Prop) (f : A -> nat -> B)
    (xs : list A) :
  (forall x i, In x xs -> Q (f x i)) -> forall i, Forall Q (indexed f i xs).
Proof.
  induction xs as [|x r IH]; intros H i; simpl; constructor.
  - apply H. now left.
  - apply IH. intros y j Hy. apply H. now right.
Qed.

(** A unit scored: the call and the cells made of its result. *)
Lemma scored_unit_returns {B : Type} (msg : messages) (text : string)
    (k : string * string * cell -> M B) :
  (forall cells, never_throws (k cells)) ->
  never_throws
    (bind (callMatch answers jdAnalysis text)
       (fun matchResult =>
          bind (lift (scoredCells Number_toString msg matchResult)) k)).
Proof.
  intro Hk.
  apply (never_throws_bind
           (fun m => exists resp, m = matchResumeSection resp text jdAnalysis)).
  - intro n. unfold callMatch. destruct (matchGuards text jdAnalysis);
      eexists; eexists; reflexivity.
  - intros n m n' H. exists (answers n). eapply callMatch_result. exact H.
  - intros m [resp ->]. apply never_throws_lift; [|exact Hk].
    apply scoredCells_returns.
Qed.

Lemma scoreBullets_returns (msg : messages) (uniqueIdOf : string -> nat -> string)
    (sectionTitle : string) (identifier : cell) (bullets : list (string * jsv)) :
  Forall (fun tb => quiet (bulletText (snd tb))) bullets ->
  forall bulletIndex,
    never_throws
      (scoreBullets Number_toString answers jdAnalysis msg uniqueIdOf sectionTitle
         identifier bulletIndex bullets).
Proof.
  induction 1 as [|[tag b] rest Hb _ IH]; intro idx; simpl.
  - apply never_throws_ret.
  - apply never_throws_lift; [exact Hb |]. intros [text|]; [|apply IH].
    apply scored_unit_returns. intro cells.
    apply (never_throws_bind (fun _ => True)); [apply IH | auto |]. intros rows _.
    apply never_throws_ret.
Qed.

Lemma scoreTechItem_returns (subIndex : nat) (item : object) (itemIndex : nat) :
  quiet (techUnit item) ->
  never_throws (scoreTechItem Number_toString answers jdAnalysis subIndex item itemIndex).
Proof.
  intro H. unfold scoreTechItem. apply never_throws_lift; [exact H |].
  intros [[[text ident] kind]|]; [|apply never_throws_ret].
  destruct (is_empty text); [apply never_throws_ret |].
  apply scored_unit_returns. intro cells. apply never_throws_ret.
Qed.

Lemma tagged_quiet (tag : string) (v : jsv) :
  bullets_quiet v ->
  Forall (fun tb => quiet (bulletText (snd tb))) (tagged tag (array_of v)).
Proof.
  unfold bullets_quiet, tagged. intro H. apply Forall_forall. intros tb Hin.
  apply in_map_iff in Hin. destruct Hin as [b [<- Hb]].
  rewrite Forall_forall in H. now apply H.
Qed.

Lemma subProjectBullets_quiet (subProjects : list jsv) :
  Forall (fun spr =>
            match spr with
            | VObj o => bullets_quiet (prop o "responsibilities")
            | _ => True
            end) subProjects ->
  Forall (fun tb => quiet (bulletText (snd tb))) (subProjectBullets subProjects).
Proof.
  unfold subProjectBullets. intro H. generalize 0.
  induction H as [|spr r Hs _ IH]; intro n; simpl; [constructor |].
  apply Forall_app. split; [|apply IH].
  destruct spr as [c|l|o]; try constructor. now apply tagged_quiet.
Qed.

Lemma projectBullets_quiet (project : object) :
  scorable project ->
  Forall (fun tb => quiet (bulletText (snd tb))) (projectBulletsToProcess project).
Proof.
  intros [Hr [Hd [Hs _]]]. unfold projectBulletsToProcess.
  assert (Hown : Forall (fun tb => quiet (bulletText (snd tb)))
                   (tagged "Desc" (array_of (prop project "descriptionBullets"))
                    ++ subProjectBullets (array_of (prop project "subProjectsOrRoles")))%list).
  { apply Forall_app. split; [now apply tagged_quiet | now apply subProjectBullets_quiet]. }
  destruct (_ ++ _)%list; [now apply tagged_quiet | exact Hown].
Qed.

Lemma find_section_In (t : string) (secs : list section) (s : section) :
  find_section t secs = Some s -> In s secs.
Proof. unfold find_section. intro H. apply find_some in H. tauto. Qed.

Lemma scoreMaster_returns (master : resume) :
  Forall (items_all scorable) (sections master) ->
  never_throws (scoreMaster Number_toString answers jdAnalysis master).
Proof.
  intro H. rewrite Forall_forall in H.
  unfold scoreMaster. apply never_throws_concatM. repeat constructor.
  - unfold scoreExperience.
    destruct (find_section "EXPERIENCE" (sections master)) as [[t [jobs|] subs]|] eqn:E;
      try apply never_throws_ret.
    apply find_section_In in E. specialize (H _ E).
    apply never_throws_concatM. apply Forall_indexed_In. intros job i Hjob.
    apply scoreBullets_returns. apply tagged_quiet.
    apply (H job). apply all_items_In. left. now exists jobs.
  - unfold scoreProjects.
    destruct (find_section "PROJECTS" (sections master)) as [[t its [subs|]]|] eqn:E;
      try apply never_throws_ret.
    apply find_section_In in E. specialize (H _ E).
    apply never_throws_concatM. apply Forall_indexed_In. intros sub i Hsub.
    apply never_throws_concatM. apply Forall_indexed_In. intros project j Hproject.
    assert (Hp : scorable project).
    { apply H. apply all_items_In. right. now exists subs, sub. }
    apply never_throws_lift; [apply Hp |]. intro name.
    apply scoreBullets_returns. now apply projectBullets_quiet.
  - unfold scoreLeadership.
    destruct (find_section "LEADERSHIP & UNIVERSITY INVOLVEMENT" (sections master))
      as [[t [entries|] subs]|] eqn:E; try apply never_throws_ret.
    apply find_section_In in E. specialize (H _ E).
    apply never_throws_concatM. apply Forall_indexed_In. intros item i Hitem.
    apply scoreBullets_returns. apply tagged_quiet.
    apply (H item). apply all_items_In. left. now exists entries.
  - unfold scoreTechnicalSkills.
    destruct (find_section "TECHNICAL SKILLS & CERTIFICATES" (sections master))
      as [[t its [subs|]]|] eqn:E; try apply never_throws_ret.
    apply find_section_In in E. specialize (H _ E).
    apply never_throws_concatM. apply Forall_indexed_In. intros sub i Hsub.
    apply never_throws_concatM. apply Forall_indexed_In. intros item j Hitem.
    apply scoreTechItem_returns.
    apply (H item). apply all_items_In. right. now exists subs, sub.
Qed.

End Loops.

End ScorableFacts.

(** X21. Stage 1 scores every record the normaliser returns: whatever
    the sheet holds, whatever the analysis and whatever the model
    answers, no read of the four scoring loops throws, and the stage has
    its rows to write. *)
Theorem parsed_record_is_scored (Date_parse : string -> option (nat * Z))
    (Number_toString : Q -> string) (answers : nat -> string) (jdAnalysis : json)
    (allData : list (list cell)) (master : resume) :
  MasterResumeData.getMasterResumeData Date_parse allData = Some master ->
  exists rows,
    Stage1.allScoredBulletsDataForSheet Number_toString answers jdAnalysis master
    = Returns rows.
Proof.
  intro H. apply ScorableFacts.getMasterResumeData_scorable in H.
  unfold Stage1.allScoredBulletsDataForSheet.
  destruct (ScorableFacts.scoreMaster_returns Number_toString answers jdAnalysis
              master H 0) as [rows [n E]].
  rewrite E. now exists rows.
Qed.

Lemma parsed_record_is_scored_witness :
  MasterResumeData.getMasterResumeData MasterResumeData.Date_parse_iso
    SamplesN.master_sheet = Some SamplesN.normalised_master
  /\ exists rows,
       Stage1.allScoredBulletsDataForSheet Samples1.show_whole
         Samples1.answers_fail_then_score Samples1.jd_sample
         SamplesN.normalised_master
       = Returns rows.
Proof.
  split; [reflexivity |].
  exact (parsed_record_is_scored MasterResumeData.Date_parse_iso Samples1.show_whole
           Samples1.answers_fail_then_score Samples1.jd_sample
           SamplesN.master_sheet SamplesN.normalised_master eq_refl).
Defined.

(** ** Blank rows of the sheet *)

Module BlankRowFacts.
Import MasterResumeData RowAtATime.

Local Open Scope string_scope.

Lemma blank_cell_text (c : cell) : cellIsBlank c = true -> cellTextOrEmpty c = "".
Proof.
  unfold cellIsBlank, cellTextOrEmpty.
  destruct c as [s| |t shown]; simpl; [| reflexivity |].
  - intro H. apply String.eqb_eq in H. rewrite H. now destruct (negb (is_empty s)).
  - intro H. apply String.eqb_eq in H. rewrite H. now destruct t.
Qed.

Lemma blank_row_no_title (row : list cell) :
  rowIsEffectivelyBlank row = true ->
  getCanonicalSectionTitle (firstCellText row) = None.
Proof.
  intro H. unfold firstCellText.
  assert (E : cellTextOrEmpty (nth 0 row CUndef) = "").
  { destruct row as [|c r]; [reflexivity |]. simpl in *.
    apply andb_true_iff in H. now apply blank_cell_text. }
  now rewrite E.
Qed.

Section Machine.

Variable Date_parse : string -> option (nat * Z).

Lemma step_blank (m : mode) (row : list cell) :
  rowIsEffectivelyBlank row = true -> step Date_parse m row = m.
Proof.
  intro H. destruct m as [st|key out]; simpl.
  - unfold normal_row, data_row. rewrite (blank_row_no_title row H), H.
    now destruct (currentSectionTitleKey st).
  - now rewrite H.
Qed.

Lemma fold_blank_rows (rows : list (list cell)) (m : mode) :
  Forall (fun row => rowIsEffectivelyBlank row = true) rows ->
  fold_left (step Date_parse) rows m = m.
Proof.
  induction 1 as [|row r Hrow _ IH]; simpl; [reflexivity |].
  now rewrite (step_blank m row Hrow).
Qed.

(** The machine does not see the blank rows. *)
Lemma fold_without_blank_rows (rows : list (list cell)) :
  forall m,
    fold_left (step Date_parse) (without_blank_rows rows) m
    = fold_left (step Date_parse) rows m.
Proof.
  unfold without_blank_rows.
  induction rows as [|row r IH]; intro m; simpl; [reflexivity |].
  destruct (rowIsEffectivelyBlank row) eqn:E; simpl.
  - rewrite (step_blank m row E). apply IH.
  - apply IH.
Qed.

(** The row the look-ahead stops at. *)
Lemma first_nonblank_spec (rows : list (list cell)) :
  forall b,
  exists k,
    first_nonblank rows b = b + k
    /\ Forall (fun row => rowIsEffectivelyBlank row = true) (firstn k rows)
    /\ match nth_error rows k with
       | Some row => rowIsEffectivelyBlank row = false
       | None => True
       end.
Proof.
  induction rows as [|row r IH]; intro b; simpl.
  - exists 0. split; [lia |]. split; [constructor | exact I].
  - destruct (rowIsEffectivelyBlank row) eqn:E.
    + destruct (IH (S b)) as [k [Hk [Hb Hn]]]. exists (S k).
      split; [lia |]. split; [simpl; now constructor | exact Hn].
    + exists 0. split; [lia |]. split; [constructor | exact E].
Qed.

Lemma fold_skip_blank (rows : list (list cell)) (k : nat) (m : mode) :
  Forall (fun row => rowIsEffectivelyBlank row = true) (firstn k rows) ->
  fold_left (step Date_parse) rows m
  = fold_left (step Date_parse) (skipn k rows) m.
Proof.
  intro H. rewrite <- (firstn_skipn k rows) at 1.
  rewrite fold_left_app. now rewrite (fold_blank_rows _ m H).
Qed.

Lemma skipn_at {A : Type} (l : list A) (k : nat) (x : A) :
  nth_error l k = Some x -> skipn k l = x :: skipn (S k) l.
Proof.
  revert l. induction k as [|k IH]; intros [|a l] H; try discriminate.
  - now injection H as ->.
  - simpl in H. simpl. now apply IH.
Qed.

Lemma skipn_past {A : Type} (l : list A) (k : nat) :
  nth_error l k = None -> skipn k l = [].
Proof. intro H. apply skipn_all2. now apply nth_error_None. Qed.

Lemma fold_step (row : list cell) (rows : list (list cell)) (m : mode) :
  fold_left (step Date_parse) (row :: rows) m
  = fold_left (step Date_parse) rows (step Date_parse m row).
Proof. reflexivity. Qed.

(** The loop with its look-ahead is the machine run over the rows that
    are left. *)
Lemma scan_is_fold (allData : list (list cell)) (fuel : nat) :
  forall i st,
    length allData - i <= fuel ->
    scan Date_parse allData fuel i st
    = finish (fold_left (step Date_parse) (skipn i allData) (Normal st)).
Proof.
  induction fuel as [|f IH]; intros i st Hfuel.
  - simpl. rewrite skipn_all2 by lia. reflexivity.
  - simpl scan.
    destruct (nth_error allData i) as [row|] eqn:Erow;
      [|rewrite (skipn_past _ _ Erow); reflexivity].
    assert (Hi : i < length allData)
      by (apply nth_error_Some; congruence).
    rewrite (skipn_at _ _ _ Erow). rewrite fold_step; cbn [step]. unfold normal_row.
    destruct (getCanonicalSectionTitle (firstCellText row)) as [key|] eqn:Etitle.
    + cbv zeta.
      destruct (isTabularSection key) eqn:Etab; simpl andb;
        [|apply IH; lia].
      destruct (Nat.ltb (S i) (length allData)) eqn:Elt.
      * change (match allData with [] => [] | _ :: l => skipn i l end)
          with (skipn (S i) allData).
        destruct (first_nonblank_spec (skipn (S i) allData) (S i))
          as [k [Hk [Hblank Hrow]]].
        rewrite Hk. rewrite <- (nth_error_skipn (S i) allData k).
        rewrite (fold_skip_blank (skipn (S i) allData) k _ Hblank).
        destruct (nth_error (skipn (S i) allData) k) as [headerRow|] eqn:Eh.
        -- rewrite (skipn_at _ _ _ Eh). rewrite fold_step; cbn [step]. rewrite Hrow.
           destruct (getCanonicalSectionTitle (firstCellText headerRow)) eqn:Eht.
           ++ rewrite IH by lia.
              rewrite (fold_skip_blank (skipn (S i) allData) k _ Hblank).
              rewrite (skipn_at _ _ _ Eh). rewrite fold_step; cbn [step].
              unfold normal_row. rewrite Eht. reflexivity.
           ++ rewrite IH by lia.
              rewrite skipn_skipn.
              replace (S k + S i) with (S (S i + k)) by lia. reflexivity.
        -- rewrite (skipn_past _ _ Eh). simpl.
           rewrite IH by lia.
           rewrite (fold_skip_blank (skipn (S i) allData) k _ Hblank).
           rewrite (skipn_past _ _ Eh). reflexivity.
      * apply Nat.ltb_ge in Elt.
        rewrite IH by lia. rewrite !skipn_all2 by lia. reflexivity.
    + unfold data_row.
      destruct (currentSectionTitleKey st) as [current|] eqn:Ec; [|apply IH; lia].
      destruct (rowIsEffectivelyBlank row); [apply IH; lia |].
      destruct (String.eqb current "SUMMARY").
      * cbv zeta. rewrite IH by lia.
        destruct (is_empty (summaryTextInRow row)); now rewrite ?Ec.
      * destruct (_ && _ && _); rewrite IH by lia; now rewrite ?Ec.
Qed.

End Machine.

End BlankRowFacts.

(** X22. Blank rows do not matter to the normaliser: a sheet with its
    blank rows taken out (some row being left) is read into the same
    record as the sheet itself. *)
Theorem blank_rows_are_ignored (Date_parse : string -> option (nat * Z))
    (allData : list (list cell)) :
  RowAtATime.without_blank_rows allData <> [] ->
  MasterResumeData.getMasterResumeData Date_parse
    (RowAtATime.without_blank_rows allData)
  = MasterResumeData.getMasterResumeData Date_parse allData.
Proof.
  intro Hsome. unfold MasterResumeData.getMasterResumeData.
  destruct (RowAtATime.without_blank_rows allData) as [|r0 rest] eqn:E;
    [contradiction |].
  destruct allData as [|a0 arest]; [discriminate |].
  rewrite <- E. cbv zeta.
  rewrite !(BlankRowFacts.scan_is_fold Date_parse) by lia.
  rewrite !skipn_O.
  rewrite BlankRowFacts.fold_without_blank_rows. reflexivity.
Qed.

Lemma blank_rows_are_ignored_witness :
  RowAtATime.without_blank_rows SamplesR.sheet_with_gaps = SamplesN.master_sheet
  /\ MasterResumeData.getMasterResumeData MasterResumeData.Date_parse_iso
       (RowAtATime.without_blank_rows SamplesR.sheet_with_gaps)
     = MasterResumeData.getMasterResumeData MasterResumeData.Date_parse_iso
         SamplesR.sheet_with_gaps.
Proof.
  split; [reflexivity |].
  apply (blank_rows_are_ignored MasterResumeData.Date_parse_iso
           SamplesR.sheet_with_gaps).
  discriminate.
Defined.

(** ** Item identifiers, from stage 1 to stage 3 *)

Module IdentifierFacts.
Import Stage1 Scoring Stage1Facts Stage3 Stage3Facts Marked.

Local Open Scope string_scope.

Lemma strict_eq_truthy_falsy (c : cell) (v : jsv) :
  cell_truthy c = true -> jsv_truthy v = false -> strict_eq c v = false.
Proof.
  destruct c as [s| |t shown], v as [[s'| |t' shown']|l|o]; simpl;
    try reflexivity; try discriminate.
  intros Hs Hs'. destruct s; [discriminate |]. destruct s'; [reflexivity | discriminate].
Qed.

Lemma jsv_cell_truthy (v : jsv) : jsv_truthy v = true -> cell_truthy (jsv_cell v) = true.
Proof. destruct v; simpl; auto. Qed.

(** [v || "<prefix><index>"] is truthy. *)
Lemma identifier_or_index (v : jsv) (c : ascii) (prefix index : string) :
  cell_truthy (jsv_cell (jsv_or v (VStr (String c prefix ++ index)))) = true.
Proof.
  unfold jsv_or. destruct (jsv_truthy v) eqn:E; [now apply jsv_cell_truthy | reflexivity].
Qed.

Section Loops.

Variable Number_toString : Q -> string.
Variable answers : nat -> string.
Variable jdAnalysis : json.

Lemma scoreBullets_all (P : list cell -> Prop) (msg : messages)
    (uniqueIdOf : string -> nat -> string) (sectionTitle : string)
    (identifier : cell) (bullets : list (string * jsv)) :
  (forall uid text cells, P (scoredRow uid sectionTitle identifier text cells)) ->
  forall bulletIndex,
    rows_all P
      (scoreBullets Number_toString answers jdAnalysis msg uniqueIdOf sectionTitle
         identifier bulletIndex bullets).
Proof.
  intro HP.
  induction bullets as [|[tag b] rest IH]; intros idx n rows n' H; simpl in H.
  - injection H as <- _. constructor.
  - unfold bind, lift in H.
    destruct (bulletText b) as [|[text|]]; [discriminate | |].
    + destruct (callMatch answers jdAnalysis text n) as [|[m n1]];
        [discriminate |].
      destruct (scoredCells Number_toString msg m) as [|cells]; [discriminate |].
      destruct (scoreBullets _ _ _ _ _ _ _ _ rest n1) as [|[rows1 n2]] eqn:Er;
        [discriminate |].
      injection H as <- _. constructor; [apply HP |].
      eapply IH; exact Er.
    + eapply IH; exact H.
Qed.

Lemma identified_row (uid sectionTitle : string) (identifier : cell) (text : string)
    (cells : string * string * cell) :
  cell_truthy identifier = true ->
  identified (scoredRow uid sectionTitle identifier text cells).
Proof. intro H. right. destruct cells as [[score kw] just]. exact H. Qed.

Lemma scoreTechItem_identified (subIndex : nat) (item : object) (itemIndex : nat) :
  rows_all identified
    (scoreTechItem Number_toString answers jdAnalysis subIndex item itemIndex).
Proof.
  intros n rows n' H. unfold scoreTechItem, bind, lift in H.
  destruct (techUnit item) as [|[[[text ident] kind]|]]; [discriminate | |].
  - destruct (is_empty text); [injection H as <- _; constructor |].
    destruct (callMatch answers jdAnalysis text n) as [|[m n1]]; [discriminate |].
    destruct (scoredCells Number_toString techMessages m) as [|[[score kw] just]];
      [discriminate |].
    injection H as <- _. constructor; [|constructor]. left. reflexivity.
  - injection H as <- _. constructor.
Qed.

Lemma scoreMaster_identified (master : resume) :
  rows_all identified (scoreMaster Number_toString answers jdAnalysis master).
Proof.
  unfold scoreMaster. apply rows_all_concatM. repeat constructor.
  - unfold scoreExperience.
    destruct (find_section "EXPERIENCE" (sections master)) as [[t [jobs|] subs]|];
      try apply rows_all_ret_nil.
    apply rows_all_concatM. apply Forall_indexed. intros job i.
    apply scoreBullets_all. intros uid text cells.
    apply identified_row. apply identifier_or_index.
  - unfold scoreProjects.
    destruct (find_section "PROJECTS" (sections master)) as [[t its [subs|]]|];
      try apply rows_all_ret_nil.
    apply rows_all_concatM. apply Forall_indexed. intros sub i.
    apply rows_all_concatM. apply Forall_indexed. intros project j.
    apply rows_all_bind_lift. intro name.
    apply scoreBullets_all. intros uid text cells.
    apply identified_row. apply identifier_or_index.
  - unfold scoreLeadership.
    destruct (find_section "LEADERSHIP & UNIVERSITY INVOLVEMENT" (sections master))
      as [[t [entries|] subs]|]; try apply rows_all_ret_nil.
    apply rows_all_concatM. apply Forall_indexed. intros item i.
    apply scoreBullets_all. intros uid text cells.
    apply identified_row. unfold jsv_or at 1.
    destruct (jsv_truthy (prop item "organization")) eqn:E;
      [now apply jsv_cell_truthy | apply identifier_or_index].
  - unfold scoreTechnicalSkills.
    destruct (find_section "TECHNICAL SKILLS & CERTIFICATES" (sections master))
      as [[t its [subs|]]|]; try apply rows_all_ret_nil.
    apply rows_all_concatM. apply Forall_indexed. intros sub i.
    apply rows_all_concatM. apply Forall_indexed. intros item j.
    apply scoreTechItem_identified.
Qed.

End Loops.

Lemma marked_copy_identified (row row' : list cell) :
  marked_copy row row' -> identified row -> identified row'.
Proof.
  intros H [Hs | Hi]; [left | right].
  - rewrite (H 1) by lia. exact Hs.
  - rewrite (H 2) by lia. exact Hi.
Qed.

(** No row object of an identified row is a row of an item whose
    identifier is falsy, in the three sections assembled by item. *)
Lemma no_rows_of_nameless (sectionTitle : string) (identifier : jsv)
    (data : list (list cell)) :
  String.eqb tech_title sectionTitle = false ->
  jsv_truthy identifier = false ->
  Forall identified data ->
  rows_of_item sectionTitle identifier (load_scored_rows (scoring_headers :: data)) = [].
Proof.
  intros Hsec Hid Hall. unfold rows_of_item.
  apply UnmarkedFacts.filter_nothing.
  assert (H : Forall (fun r => cell_is (row_get r "Section") sectionTitle
                               && strict_eq (row_get r "ItemIdentifier") identifier
                               = false)
                (map (row_object scoring_headers) data)).
  { apply Forall_forall. intros r Hr. apply in_map_iff in Hr.
    destruct Hr as [row [<- Hrow]]. rewrite Forall_forall in Hall.
    rewrite (row_get_column scoring_headers row "Section" 1
               scoring_headers_distinct eq_refl).
    rewrite (row_get_column scoring_headers row "ItemIdentifier" 2
               scoring_headers_distinct eq_refl).
    destruct (Hall row Hrow) as [Hs | Hi].
    - destruct (nth 1 row CUndef) as [s| |]; try discriminate. simpl in Hs.
      apply String.eqb_eq in Hs. subst s.
      change (cell_is (CText tech_title) sectionTitle)
        with (String.eqb tech_title sectionTitle).
      now rewrite Hsec.
    - rewrite (strict_eq_truthy_falsy _ _ Hi Hid). apply andb_false_r. }
  unfold load_scored_rows. destruct data; [constructor | exact H].
Qed.

End IdentifierFacts.

(** X23. An item of the master record without identifier is scored but
    never assembled.  Stage 1 files the rows of a job without company
    under [ExperienceItem<index>] (a project without name under
    [ProjectItem<index>], a leadership entry without organization and
    role under [LeadershipItem<index>]), while stage 3 looks the rows up
    under the item's own, empty, identifier: whatever the user marks on
    the sheet stage 1 wrote, stage 3 assembles no such item. *)
Theorem item_without_identifier_is_never_assembled (Number_toString : Q -> string)
    (answers : nat -> string) (jdAnalysis : json) (master : resume)
    (data data' : list (list cell)) (masterItem : object) :
  Stage1.allScoredBulletsDataForSheet Number_toString answers jdAnalysis master
  = Returns data ->
  Marked.marked_sheet data data' ->
  let rows := load_scored_rows (scoring_headers :: data') in
  (jsv_truthy (prop masterItem "company") = false ->
   Stage3.assembleExperienceItem rows masterItem = None)
  /\ (jsv_truthy (prop masterItem "projectName") = false ->
      Stage3.assembleProjectItem rows masterItem = None)
  /\ (jsv_truthy (jsv_or (prop masterItem "organization") (prop masterItem "role"))
      = false ->
      Stage3.assembleLeadershipItem rows masterItem = None).
Proof.
  intros H Hmarked. cbv zeta.
  assert (Hall : Forall Marked.identified data').
  { unfold Stage1.allScoredBulletsDataForSheet in H.
    destruct (Stage1.scoreMaster Number_toString answers jdAnalysis master 0)
      as [|[rows0 n]] eqn:E; [discriminate |].
    injection H as <-.
    pose proof (IdentifierFacts.scoreMaster_identified Number_toString answers
                  jdAnalysis master 0 rows0 n E) as Hid.
    rewrite Forall_forall in Hid.
    eapply Forall_impl; [|exact Hmarked].
    intros row' [row [Hin Hcopy]].
    exact (IdentifierFacts.marked_copy_identified row row' Hcopy (Hid row Hin)). }
  split; [|split]; intro Hfalsy.
  - unfold Stage3.assembleExperienceItem. apply Stage3Facts.assembleItem_None.
    now rewrite (IdentifierFacts.no_rows_of_nameless "EXPERIENCE" _ data' eq_refl
                   Hfalsy Hall).
  - unfold Stage3.assembleProjectItem. apply Stage3Facts.assembleItem_None.
    now rewrite (IdentifierFacts.no_rows_of_nameless "PROJECTS" _ data' eq_refl
                   Hfalsy Hall).
  - unfold Stage3.assembleLeadershipItem. apply Stage3Facts.assembleItem_None.
    now rewrite (IdentifierFacts.no_rows_of_nameless
                   "LEADERSHIP & UNIVERSITY INVOLVEMENT" _ data' eq_refl Hfalsy Hall).
Qed.

Lemma item_without_identifier_is_never_assembled_witness :
  Stage1.allScoredBulletsDataForSheet Samples1.show_whole
    (fun _ => Samples1.answer_scored "0.9") Samples1.jd_sample Marked.master_nameless
  = Returns
      [[CText "EXP_J0_B0"; CText "EXPERIENCE"; CText "ExperienceItem0";
        CText "Built X"; CText "0.90"; CText "Rocq"; CText "Close match.";
        CText ""; CText ""]]
  /\ Stage3.assembleExperienceItem
       (load_scored_rows
          [scoring_headers;
           [CText "EXP_J0_B0"; CText "EXPERIENCE"; CText "ExperienceItem0";
            CText "Built X"; CText "0.90"; CText "Rocq"; CText "Close match.";
            CText "YES"; CText ""]])
       Marked.job_nameless
     = None.
Proof.
  split; [reflexivity |].
  refine (proj1 (item_without_identifier_is_never_assembled Samples1.show_whole
                   (fun _ => Samples1.answer_scored "0.9") Samples1.jd_sample
                   Marked.master_nameless _ _ Marked.job_nameless eq_refl _)
            eq_refl).
  constructor; [|constructor].
  eexists. split; [left; reflexivity |].
  intros j Hj. do 7 (destruct j as [|j]; [reflexivity |]). lia.
Defined.

(** ** Stage 2 on readable inputs *)

Module Stage2Completes.
Import Stage2 Stage2Inputs.

Local Open Scope string_scope.

Lemma tailorGuards_returns (originalBullet : cell) (jd : json) :
  bullet_readable originalBullet = true ->
  lists_joinable jd = true ->
  title_text jd = true ->
  exists guard,
    tailorGuards originalBullet jd (json_prop jd "jobTitle") = Returns guard.
Proof.
  intros Hb Hl Ht. unfold tailorGuards.
  destruct originalBullet as [bullet| |[|] shown]; try discriminate;
    try (eexists; reflexivity).
  destruct (is_empty bullet || is_empty (trim bullet)); [eexists; reflexivity |].
  destruct (negb (json_truthy jd) || negb (prop_truthy jd "primaryKeywords")
            || negb (prop_truthy jd "jobTitle")); [eexists; reflexivity |].
  unfold title_text in Ht. unfold lists_joinable in Hl.
  destruct (json_prop jd "jobTitle") as [role|]; [|eexists; reflexivity].
  destruct (negb (json_truthy role)) eqn:Er; [eexists; reflexivity |].
  destruct role as [|b|q|title|l|o]; try discriminate;
    try (rewrite Er in Ht; discriminate).
  destruct (is_empty (trim title)); [eexists; reflexivity |].
  rewrite Hl. eexists. reflexivity.
Qed.

Lemma tailorRows_returns (answers : nat -> string) (jd : json) (cols : columns)
    (rows : list (list cell)) :
  lists_joinable jd = true ->
  title_text jd = true ->
  Forall (fun c => bullet_readable c = true)
    (map (fun rowData => nth (originalBulletColIndex cols) rowData CUndef)
       (filter (row_selected cols) rows)) ->
  forall st, exists st' rows',
    tailorRows answers jd cols st rows = Returns (st', rows').
Proof.
  intros Hl Ht. induction rows as [|row rest IH]; intros Hall st; simpl.
  - eexists. eexists. reflexivity.
  - assert (Hrow : exists st1 row', tailorRow answers jd cols st row
                                    = Returns (st1, row')).
    { unfold tailorRow. destruct (row_selected cols row) eqn:Es;
        [|eexists; eexists; reflexivity].
      simpl in Hall. rewrite Es in Hall. inversion Hall as [|c l Hc Hrest]; subst.
      destruct (tailorGuards_returns _ jd Hc Hl Ht) as [guard ->].
      destruct guard; eexists; eexists; reflexivity. }
    destruct Hrow as [st1 [row' ->]].
    assert (Hrest : Forall (fun c => bullet_readable c = true)
                      (map (fun rowData => nth (originalBulletColIndex cols) rowData CUndef)
                         (filter (row_selected cols) rest))).
    { simpl in Hall. destruct (row_selected cols row); [|exact Hall].
      now inversion Hall. }
    destruct (IH Hrest st1) as [st2 [rest' ->]].
    eexists. eexists. reflexivity.
Qed.

End Stage2Completes.

(** X24. Stage 2 ends without a [TypeError] on readable inputs: when
    the stored analysis has arrays (or nothing) for its three lists and
    text (or nothing) for its job title, and the bullet cell of every
    selected row is text or blank, the stage fails with a message or
    runs to its end, whatever the model answers. *)
Theorem stage2_ends_on_readable_inputs (answers : nat -> string) (jdCell : cell)
    (scoringSheet : list (list cell)) :
  Stage2Inputs.analysis_cell_ok jdCell = true ->
  Forall (fun c => Stage2Inputs.bullet_readable c = true)
    (Stage2Inputs.bullet_cells scoringSheet) ->
  Stage2Inputs.threw (Stage2.runStage2 answers jdCell scoringSheet) = false.
Proof.
  intros Hjd Hcells. unfold Stage2.runStage2.
  destruct jdCell as [s| |]; try reflexivity.
  destruct (is_empty s || is_empty (trim s)); [reflexivity |].
  unfold Stage2Inputs.analysis_cell_ok in Hjd.
  destruct (JSON_parse s) as [jd|]; [|reflexivity].
  apply andb_true_iff in Hjd. destruct Hjd as [Hl Ht].
  destruct (negb (json_truthy jd) || negb (prop_truthy jd "jobTitle"));
    [reflexivity |].
  destruct scoringSheet as [|headers [|r0 rest]]; try reflexivity.
  unfold Stage2Inputs.bullet_cells in Hcells.
  destruct (Stage2.find_columns headers) as [cols|]; [|reflexivity].
  destruct (Stage2Completes.tailorRows_returns answers jd cols (r0 :: rest) Hl Ht
              Hcells (Stage2.mkLoop 0 0 0 false)) as [st' [rows' ->]].
  reflexivity.
Qed.

Lemma stage2_ends_on_readable_inputs_witness :
  Stage2Inputs.analysis_cell_ok (CText Samples2.jd_text) = true
  /\ Stage2Inputs.bullet_cells Samples2.sheet_one_marked = [CText "Built X"]
  /\ Stage2Inputs.threw
       (Stage2.runStage2 (fun _ => Samples2.fenced_envelope)
          (CText Samples2.jd_text) Samples2.sheet_one_marked)
     = false.
Proof.
  split; [reflexivity |]. split; [reflexivity |].
  apply (stage2_ends_on_readable_inputs (fun _ => Samples2.fenced_envelope)
           (CText Samples2.jd_text) Samples2.sheet_one_marked eq_refl).
  repeat constructor.
Defined.

Lemma scalar_list_throws (bullet : string) (jd : json) :
  is_empty bullet || is_empty (trim bullet) = false ->
  Stage2Inputs.scalar_list jd = true ->
  tailorGuards (CText bullet) jd (json_prop jd "jobTitle") = Throws.
Proof.
  intros Hb Hjd. unfold Stage2Inputs.scalar_list in Hjd.
  apply andb_true_iff in Hjd. destruct Hjd as [Hjd Hl].
  apply andb_true_iff in Hjd. destruct Hjd as [Hjd Ht].
  apply andb_true_iff in Hjd. destruct Hjd as [Hj Hp].
  unfold tailorGuards. rewrite Hb.
  assert (Hjt : prop_truthy jd "jobTitle" = true).
  { unfold prop_truthy. destruct (json_prop jd "jobTitle") as [[| | |title| |]|];
      try discriminate. simpl. now apply andb_true_iff in Ht. }
  rewrite Hj, Hp, Hjt. simpl.
  destruct (json_prop jd "jobTitle") as [[| | |title| |]|]; try discriminate.
  apply andb_true_iff in Ht. destruct Ht as [Ht1 Ht2]. simpl. rewrite Ht1. simpl.
  apply negb_true_iff in Ht2. rewrite Ht2.
  unfold Stage2Inputs.lists_joinable in Hl. apply negb_true_iff in Hl.
  now rewrite Hl.
Qed.

Lemma tailorRows_throws (answers : nat -> string) (jd : json)
    (cols : Stage2.columns) (rows : list (list cell)) :
  Stage2Inputs.scalar_list jd = true ->
  existsb (Stage2Inputs.selected_with_text cols) rows = true ->
  forall st, Stage2.tailorRows answers jd cols st rows = Throws.
Proof.
  intros Hjd. induction rows as [|row rest IH]; intros Hex st; simpl in *;
    [discriminate |].
  destruct (Stage2Inputs.selected_with_text cols row) eqn:Erow.
  - unfold Stage2Inputs.selected_with_text in Erow.
    apply andb_true_iff in Erow. destruct Erow as [Es Eb].
    unfold Stage2.tailorRow. rewrite Es.
    destruct (nth (Stage2.originalBulletColIndex cols) row CUndef) as [bullet| |];
      try discriminate.
    rewrite (scalar_list_throws bullet jd); [reflexivity | | exact Hjd].
    apply andb_true_iff in Eb. destruct Eb as [E1 E2].
    apply negb_true_iff in E1, E2. now rewrite E1, E2.
  - simpl in Hex.
    destruct (Stage2.tailorRow answers jd cols st row) as [|[st1 row']];
      [reflexivity |].
    now rewrite (IH Hex st1).
Qed.

(** X25. A stored analysis with a truthy value that is no array for
    [keyResponsibilities], [primaryKeywords] or [requiredTechnicalSkills]
    (of the three, [analyzeJobDescription] checks only the first) stops
    stage 2 with a
    [TypeError] as soon as a selected row has text to tailor; nothing is
    written then, and the data rows stay as they were. *)
Theorem scalar_list_stops_stage2 (answers : nat -> string)
    (jdAnalysisJsonString : string) (jdAnalysis : json) (write_ok : bool)
    (headers : list cell) (cols : Stage2.columns) (data : list (list cell)) :
  is_empty (trim jdAnalysisJsonString) = false ->
  JSON_parse jdAnalysisJsonString = Some jdAnalysis ->
  Stage2Inputs.scalar_list jdAnalysis = true ->
  Stage2.find_columns headers = Some cols ->
  existsb (Stage2Inputs.selected_with_text cols) data = true ->
  Stage2.runStage2 answers (CText jdAnalysisJsonString) (headers :: data)
  = Stage2.Stage2Threw
  /\ Stage2.rows_after write_ok (headers :: data)
       (Stage2.runStage2 answers (CText jdAnalysisJsonString) (headers :: data))
     = data.
Proof.
  intros Hs Hp Hjd Hcols Hex.
  assert (H : Stage2.runStage2 answers (CText jdAnalysisJsonString) (headers :: data)
              = Stage2.Stage2Threw).
  { unfold Stage2.runStage2.
    assert (Hne : is_empty jdAnalysisJsonString = false)
      by (destruct jdAnalysisJsonString; [discriminate | reflexivity]).
    rewrite Hne, Hs, Hp. simpl.
    assert (Hj : json_truthy jdAnalysis = true /\ prop_truthy jdAnalysis "jobTitle" = true).
    { unfold Stage2Inputs.scalar_list in Hjd.
      apply andb_true_iff in Hjd. destruct Hjd as [Hjd _].
      apply andb_true_iff in Hjd. destruct Hjd as [Hjd Ht].
      apply andb_true_iff in Hjd. destruct Hjd as [Hj _]. split; [exact Hj |].
      unfold prop_truthy.
      destruct (json_prop jdAnalysis "jobTitle") as [[| | |title| |]|];
        try discriminate. simpl. now apply andb_true_iff in Ht. }
    destruct Hj as [-> ->]. simpl.
    destruct data as [|r0 rest]; [discriminate |].
    rewrite Hcols.
    now rewrite (tailorRows_throws answers jdAnalysis cols (r0 :: rest) Hjd Hex). }
  split; [exact H |]. rewrite H. reflexivity.
Qed.

Lemma scalar_list_stops_stage2_witness :
  JSON_parse Stage2Inputs.jd_text_scalar
  = Some (JObj [("jobTitle", JStr "Engineer");
                ("primaryKeywords", JStr "Rocq, proofs");
                ("keyResponsibilities", JArr [])])
  /\ Stage2.find_columns scoring_headers = Some (Stage2.mkColumns 3 7 8 4 0)
  /\ Stage2.runStage2 (fun _ => Samples2.fenced_envelope)
       (CText Stage2Inputs.jd_text_scalar) Samples2.sheet_one_marked
     = Stage2.Stage2Threw.
Proof.
  split; [reflexivity |]. split; [reflexivity |].
  exact (proj1 (scalar_list_stops_stage2 (fun _ => Samples2.fenced_envelope)
                  Stage2Inputs.jd_text_scalar _ true scoring_headers _
                  (tl Samples2.sheet_one_marked)
                  eq_refl eq_refl eq_refl eq_refl eq_refl)).
Defined.

(** ** The normaliser: PERSONAL INFO *)

Module PersonalFacts.
Import MasterResumeData PersonalInfo TitleFacts.

Local Open Scope string_scope.

Lemma lower_upper (c : ascii) : lower_char (upper_char c) = lower_char c.
Proof. by_char c. Qed.

Lemma lower_lower (c : ascii) : lower_char (lower_char c) = lower_char c.
Proof. by_char c. Qed.

(** In lower case, the camel-cased key is the key without white space. *)
Lemma lower_camel (k : string) :
  forall b, toLowerCase (camel_join b k) = remove_ws (toLowerCase k).
Proof.
  unfold toLowerCase.
  induction k as [|c r IH]; intro b; simpl; [reflexivity |].
  rewrite is_ws_lower. destruct (is_ws c); [apply IH |].
  simpl. rewrite IH. destruct b; [now rewrite lower_upper | reflexivity].
Qed.

Lemma lower_lower_first (s : string) : toLowerCase (lower_first s) = toLowerCase s.
Proof. destruct s; simpl; [reflexivity |]. unfold toLowerCase. simpl. now rewrite lower_lower. Qed.

Lemma fallback_key (keyRaw : string) :
  includes (remove_ws (toLowerCase keyRaw)) "fullname" = false ->
  lower_first (camel_join false keyRaw) <> "fullName".
Proof.
  intros H E. apply (f_equal toLowerCase) in E.
  rewrite lower_lower_first, lower_camel in E.
  change (toLowerCase "fullName") with "fullname" in E.
  rewrite E in H. discriminate.
Qed.

Lemma prop_set_other (k k' : string) (v : jsv) (o : object) :
  k <> k' -> prop (obj_set k v o) k' = prop o k'.
Proof. intro H. unfold prop. now rewrite obj_get_set_other. Qed.

Lemma prop_set_same (k : string) (v : jsv) (o : object) :
  prop (obj_set k v o) k = v.
Proof. unfold prop. now rewrite obj_get_set_same. Qed.

Lemma name_row_sets (info : object) (row : list string) :
  name_row row = true ->
  prop (personalInfoRow info row) "fullName" = VStr (trim (nth 1 row "")).
Proof.
  unfold name_row, personalInfoRow. cbv zeta. intro H.
  apply andb_true_iff in H. destruct H as [H1 H2].
  apply negb_true_iff in H1. rewrite H1, H2. apply prop_set_same.
Qed.

Lemma other_row_keeps (info : object) (row : list string) :
  name_row row = false ->
  prop (personalInfoRow info row) "fullName" = prop info "fullName".
Proof.
  unfold name_row, personalInfoRow. cbv zeta. intro H.
  destruct (is_empty (trim (nth 0 row "")) || is_empty (trim (nth 1 row "")));
    [reflexivity |].
  simpl in H. rewrite H.
  apply orb_false_iff in H. destruct H as [Hfull _].
  repeat match goal with
         | |- context [if ?b then _ else _] => destruct b
         end;
    apply prop_set_other; try discriminate.
  now apply fallback_key.
Qed.

Lemma other_rows_keep (rows : list (list string)) :
  forallb (fun r => negb (name_row r)) rows = true ->
  forall info,
    prop (fold_left personalInfoRow rows info) "fullName" = prop info "fullName".
Proof.
  induction rows as [|r rest IH]; intros H info; simpl in *; [reflexivity |].
  apply andb_true_iff in H. destruct H as [Hr Hrest].
  apply negb_true_iff in Hr.
  rewrite (IH Hrest). now apply other_row_keeps.
Qed.

Lemma fixFullName_keeps (info : object) :
  jsv_truthy (prop info "fullName") = true -> fixFullName info = info.
Proof. unfold fixFullName. now intros ->. Qed.

End PersonalFacts.

(** X26. The full name of the record is the value of the last row of
    PERSONAL INFO whose label contains [name] (in any case, white space
    apart), whatever else the label says: the test for a name comes
    first, so a row labelled "GitHub Username" sets the full name and not
    the GitHub entry. *)
Theorem last_name_row_decides_the_full_name
    (Date_parse : string -> option (nat * Z)) (out : MasterResumeData.output)
    (headers : list string) (before after : list (list string))
    (row : list string) :
  PersonalInfo.name_row row = true ->
  forallb (fun r => negb (PersonalInfo.name_row r)) after = true ->
  prop (MasterResumeData.out_personalInfo
          (MasterResumeData.processAccumulatedSection Date_parse out "PERSONAL INFO"
             headers (before ++ row :: after)))
       "fullName"
  = VStr (trim (nth 1 row "")).
Proof.
  intros Hrow Hafter.
  unfold MasterResumeData.processAccumulatedSection.
  rewrite String.eqb_refl. simpl MasterResumeData.out_personalInfo.
  rewrite fold_left_app. simpl fold_left.
  assert (H : prop (fold_left MasterResumeData.personalInfoRow after
                      (MasterResumeData.personalInfoRow
                         (fold_left MasterResumeData.personalInfoRow before
                            (MasterResumeData.out_personalInfo out)) row))
                   "fullName"
              = VStr (trim (nth 1 row ""))).
  { rewrite (PersonalFacts.other_rows_keep after Hafter).
    now apply PersonalFacts.name_row_sets. }
  rewrite PersonalFacts.fixFullName_keeps; [exact H |].
  rewrite H. unfold PersonalInfo.name_row in Hrow. cbv zeta in Hrow.
  apply andb_true_iff in Hrow. destruct Hrow as [Hne _].
  apply negb_true_iff, orb_false_iff in Hne. destruct Hne as [_ Hv].
  simpl. now rewrite Hv.
Qed.

Lemma last_name_row_decides_the_full_name_witness :
  PersonalInfo.name_row ["GitHub Username"; "ada42"] = true
  /\ prop (MasterResumeData.out_personalInfo
             (MasterResumeData.processAccumulatedSection
                MasterResumeData.Date_parse_iso
                (MasterResumeData.mkOutput [] "" []) "PERSONAL INFO" []
                [["Full Name"; "Ada Doe"]; ["GitHub Username"; "ada42"];
                 ["Email"; "ada@example.org"]]))
          "fullName"
     = VStr "ada42".
Proof.
  split; [reflexivity |].
  exact (last_name_row_decides_the_full_name MasterResumeData.Date_parse_iso
           (MasterResumeData.mkOutput [] "" []) []
           [["Full Name"; "Ada Doe"]] [["Email"; "ada@example.org"]]
           ["GitHub Username"; "ada42"] eq_refl eq_refl).
Defined.

(** ** The normaliser: a section read in more than one block *)

Module BlockFacts.
Import MasterResumeData Blocks RecordShape.

Local Open Scope string_scope.

Lemma find_updated (t : string) (f : section -> section) (secs : list section)
    (s : section) :
  (forall x, title (f x) = title x) ->
  find_section t secs = Some s ->
  find_section t (update_section t f secs) = Some (f s).
Proof.
  intros Hf. unfold find_section.
  induction secs as [|x r IH]; simpl; [discriminate |].
  destruct (String.eqb (title x) t) eqn:E.
  - intros [= <-]. simpl. now rewrite Hf, E.
  - intro H. simpl. rewrite E. now apply IH.
Qed.

Lemma find_appended (t : string) (secs : list section) (e : section) :
  find_section t secs = None -> title e = t ->
  find_section t (secs ++ [e]) = Some e.
Proof.
  unfold find_section. intros H He.
  induction secs as [|x r IH]; simpl in *.
  - now rewrite He, String.eqb_refl.
  - destruct (String.eqb (title x) t); [discriminate | now apply IH].
Qed.

(** Step 4 finds the section object, or makes it, and the record holds
    what the step makes of it. *)
Lemma find_after_update (t : string) (f : section -> section) (secs : list section) :
  (forall x, title (f x) = title x) ->
  find_section t (update_section t f (ensure_section t secs))
  = Some (f (section_or_new t secs)).
Proof.
  intro Hf. unfold ensure_section, section_or_new.
  destruct (find_section t secs) as [s|] eqn:E.
  - now apply find_updated.
  - apply find_updated; [exact Hf |].
    apply find_appended; [exact E | apply RecordShapeFacts.emptySection_title].
Qed.

Lemma pushItems_title (sec : string) (processed : list object) (s : section) :
  title (pushItems sec processed s) = title s.
Proof.
  unfold pushItems.
  destruct (existsb (String.eqb sec) _); [reflexivity |].
  destruct (String.eqb sec "TECHNICAL SKILLS & CERTIFICATES").
  - now destruct (techSubsections processed).
  - destruct (String.eqb sec "PROJECTS"); [|reflexivity].
    now destruct (map projectItem processed).
Qed.

Lemma subsection_push_some (c : string) (x : object) (m : list subsection) :
  subsection_push c x m <> [].
Proof.
  destruct m as [|ss r]; simpl; [discriminate |].
  destruct (String.eqb (sub_name ss) c); discriminate.
Qed.

Lemma techSubsections_some (processed : list object) :
  processed <> [] -> techSubsections processed <> [].
Proof.
  unfold techSubsections.
  assert (H : forall (l : list object) m, m <> [] ->
            fold_left (fun m item => subsection_push (categoryOf item) (techItem item) m)
              l m <> []).
  { induction l as [|p r IH]; intros m Hm; simpl; [exact Hm |].
    apply IH. apply subsection_push_some. }
  destruct processed as [|p r]; [contradiction |]. intros _. simpl.
  apply H. discriminate.
Qed.

Lemma after_the_block (Date_parse : string -> option (nat * Z)) (out : output)
    (sec : string) (headers : list string) (rows : list (list string)) :
  isTabularSection sec = true ->
  headers <> [] -> rows <> [] ->
  find_section sec
    (out_sections (processAccumulatedSection Date_parse out sec headers rows))
  = Some (pushItems sec (map (normalizeRow Date_parse sec headers) rows)
            (section_or_new sec (out_sections out))).
Proof.
  intros Htab Hh Hr. unfold processAccumulatedSection.
  assert (Hp : String.eqb sec "PERSONAL INFO" = false).
  { destruct (String.eqb sec "PERSONAL INFO") eqn:E; [|reflexivity].
    apply String.eqb_eq in E. subst sec. discriminate. }
  assert (Hs : String.eqb sec "SUMMARY" = false).
  { destruct (String.eqb sec "SUMMARY") eqn:E; [|reflexivity].
    apply String.eqb_eq in E. subst sec. discriminate. }
  rewrite Hp, Hs, Htab. simpl negb. cbv iota.
  destruct headers as [|h hs]; [contradiction |].
  destruct rows as [|r rs]; [contradiction |].
  simpl out_sections.
  apply find_after_update. intro x. apply pushItems_title.
Qed.

End BlockFacts.

(** X27. A section read in a second block: the items of a later block
    of a flat section (EXPERIENCE, EDUCATION, LEADERSHIP & UNIVERSITY
    INVOLVEMENT, HONORS & AWARDS) are added to those the record has;
    the subsections of a later block of the skills section replace those
    the record has, so what an earlier block put there is lost. *)
Theorem later_block_extends_flat_replaces_skills
    (Date_parse : string -> option (nat * Z)) (out : MasterResumeData.output)
    (sec : string) (headers : list string) (rows : list (list string)) :
  headers <> [] -> rows <> [] ->
  let processedItems := map (MasterResumeData.normalizeRow Date_parse sec headers) rows in
  let sectionObject := Blocks.section_or_new sec (MasterResumeData.out_sections out) in
  let after :=
    find_section sec
      (MasterResumeData.out_sections
         (MasterResumeData.processAccumulatedSection Date_parse out sec headers rows)) in
  (In sec RecordShape.flat_titles ->
   exists s, after = Some s
             /\ items s = option_map (fun l => l ++ processedItems) (items sectionObject)
             /\ subsections s = subsections sectionObject)
  /\ (sec = "TECHNICAL SKILLS & CERTIFICATES"%string ->
      exists s, after = Some s
                /\ items s = items sectionObject
                /\ subsections s
                   = Some (MasterResumeData.techSubsections processedItems)).
Proof.
  intros Hh Hr. cbv zeta. split.
  - intro Hsec.
    assert (Htab : MasterResumeData.isTabularSection sec = true)
      by (cbv in Hsec; intuition (subst sec; reflexivity)).
    rewrite (BlockFacts.after_the_block Date_parse out sec headers rows Htab Hh Hr).
    eexists. split; [reflexivity |].
    unfold MasterResumeData.pushItems.
    replace (existsb (String.eqb sec)
               ["EXPERIENCE"; "EDUCATION"; "LEADERSHIP & UNIVERSITY INVOLVEMENT";
                "HONORS & AWARDS"]%string) with true
      by (cbv in Hsec; intuition (subst sec; reflexivity)).
    simpl. split; [|reflexivity].
    now destruct (items (Blocks.section_or_new sec (MasterResumeData.out_sections out))).
  - intros ->.
    rewrite (BlockFacts.after_the_block Date_parse out
               "TECHNICAL SKILLS & CERTIFICATES" headers rows eq_refl Hh Hr).
    eexists. split; [reflexivity |].
    unfold MasterResumeData.pushItems. simpl existsb. cbv iota.
    rewrite String.eqb_refl.
    destruct (MasterResumeData.techSubsections
                (map (MasterResumeData.normalizeRow Date_parse
                        "TECHNICAL SKILLS & CERTIFICATES" headers) rows))
      as [|t0 tr] eqn:E.
    + exfalso. revert E. apply BlockFacts.techSubsections_some.
      intro H. apply map_eq_nil in H. contradiction.
    + split; reflexivity.
Qed.

Lemma later_block_extends_flat_replaces_skills_witness :
  MasterResumeData.processAccumulatedSection MasterResumeData.Date_parse_iso
    (MasterResumeData.mkOutput [] "" []) "TECHNICAL SKILLS & CERTIFICATES"
    Blocks.skills_headers Blocks.skills_rows
  = Blocks.after_skills
  /\ exists s,
       find_section "TECHNICAL SKILLS & CERTIFICATES"
         (MasterResumeData.out_sections
            (MasterResumeData.processAccumulatedSection
               MasterResumeData.Date_parse_iso Blocks.after_skills
               "TECHNICAL SKILLS & CERTIFICATES"
               Blocks.certificate_headers Blocks.certificate_rows))
       = Some s
       /\ items s = None
       /\ subsections s
          = Some [mkSubsection "Certificates"
                    [[("name", VStr "AWS"); ("issuer", VStr "Amazon");
                      ("issueDate", VStr "")]]].
Proof.
  split; [reflexivity |].
  refine (proj2 (later_block_extends_flat_replaces_skills
                   MasterResumeData.Date_parse_iso Blocks.after_skills
                   "TECHNICAL SKILLS & CERTIFICATES"
                   Blocks.certificate_headers Blocks.certificate_rows _ _)
            eq_refl); discriminate.
Defined.

(** ** Stage 2 to stage 3: a tailoring that succeeded *)

(** X28. A selected row whose tailoring stage 2 counts as a success
    holds the trimmed answer in the tailored column, and stage 3 reads
    that text for the document, unless the trimmed answer is blank,
    starts with [TAILOR_FAIL] or is the "not suitable" sentence (which
    stage 2 compares before trimming): then stage 3 reads the original
    text.  (Header names must not repeat.) *)
Theorem successful_tailoring_is_read_back (answers : nat -> string) (jd : json)
    (headers : list cell) (cols : Stage2.columns)
    (st st' : Stage2.loop_state) (row row' : list cell) :
  NoDup (map cell_String headers) ->
  Stage2.find_columns headers = Some cols ->
  Stage2.row_selected cols row = true ->
  Stage2.tailorRow answers jd cols st row = Returns (st', row') ->
  Stage2.bulletsSuccessfullyTailored st'
  = S (Stage2.bulletsSuccessfullyTailored st) ->
  exists stored,
    nth (Stage2.tailoredColIndex cols) row' CUndef = CText stored
    /\ trim stored = stored
    /\ Stage3.getBulletTextToUse (row_object headers row')
       = if ReadBack.discarded stored
         then nth (Stage2.originalBulletColIndex cols) row CUndef
         else CText stored.
Proof.
  intros Hnd Hcols Hsel Hrow Hcount.
  unfold Stage2.find_columns in Hcols.
  destruct (Stage2.indexOf_cell headers "OriginalBulletText") as [o|] eqn:Ho;
    [|discriminate].
  destruct (Stage2.indexOf_cell headers "SelectToTailor(Manual)") as [s|];
    [|discriminate].
  destruct (Stage2.indexOf_cell headers "TailoredBulletText(Stage2)") as [t|] eqn:Ht;
    [|discriminate].
  destruct (Stage2.indexOf_cell headers "RelevanceScore") as [sc|]; [|discriminate].
  destruct (Stage2.indexOf_cell headers "UniqueID") as [u|]; [|discriminate].
  injection Hcols as <-.
  assert (Hot : o <> t).
  { apply (Stage2Facts.indexOf_cell_distinct headers "OriginalBulletText"
             "TailoredBulletText(Stage2)"); [discriminate | exact Ho | exact Ht]. }
  unfold Stage2.tailorRow in Hrow. rewrite Hsel in Hrow.
  simpl Stage2.originalBulletColIndex in *. simpl Stage2.tailoredColIndex in *.
  destruct (tailorGuards (nth o row CUndef) jd (json_prop jd "jobTitle"))
    as [|guard]; [discriminate |].
  set (out := match guard with
              | inl early => (early, Stage2.calls st)
              | inr bullet => (tailoredFromResponse (answers (Stage2.calls st)) bullet,
                               S (Stage2.calls st))
              end) in Hrow.
  destruct out as [tailoredOutput calls']. injection Hrow as <- <-.
  simpl in Hcount.
  assert (Hok : Stage2.tailoring_succeeded tailoredOutput = true).
  { destruct (Stage2.tailoring_succeeded tailoredOutput); [reflexivity | lia]. }
  exists (trim tailoredOutput).
  rewrite Stage2Facts.array_set_same.
  unfold Stage2.tailoredCell. rewrite Hok.
  split; [reflexivity |]. split; [apply trim_idem |].
  unfold Stage3.getBulletTextToUse.
  rewrite (row_get_column headers _ "TailoredBulletText(Stage2)" t Hnd Ht).
  rewrite (row_get_column headers _ "OriginalBulletText" o Hnd Ho).
  rewrite Stage2Facts.array_set_same, (Stage2Facts.array_set_other t o) by exact Hot.
  unfold ReadBack.discarded. simpl cell_truthy. simpl cell_String.
  rewrite !trim_idem.
  destruct (is_empty (trim tailoredOutput)) eqn:He.
  - reflexivity.
  - assert (Hnb : String.eqb (trim tailoredOutput) "" = false).
    { apply String.eqb_neq. now apply is_empty_false_iff. }
    rewrite Hnb. simpl.
    destruct (startsWith (toUpperCase (trim tailoredOutput)) "TAILOR_FAIL");
      [reflexivity |].
    simpl.
    now destruct (String.eqb (toLowerCase (trim tailoredOutput))
                    Stage3.not_suitable_sentinel).
Qed.

Lemma successful_tailoring_is_read_back_witness :
  exists stored,
    nth 8 (Samples.scored "EXP_J0_B0" "EXPERIENCE" "Acme Corp" "Built X" "0.90" "yes"
             "Built X in Rocq") CUndef
    = CText stored
    /\ trim stored = stored
    /\ Stage3.getBulletTextToUse
         (row_object scoring_headers
            (Samples.scored "EXP_J0_B0" "EXPERIENCE" "Acme Corp" "Built X" "0.90"
               "yes" "Built X in Rocq"))
       = if ReadBack.discarded stored then CText "Built X" else CText stored.
Proof.
  exact (successful_tailoring_is_read_back
           (fun _ => Samples2.fenced_envelope)
           (JObj [("jobTitle", JStr "Engineer");
                  ("primaryKeywords", JArr [JStr "Rocq"])])
           scoring_headers (Stage2.mkColumns 3 7 8 4 0)
           (Stage2.mkLoop 0 0 0 false) _
           (Samples.scored "EXP_J0_B0" "EXPERIENCE" "Acme Corp" "Built X" "0.90"
              "yes" "")
           _ scoring_headers_distinct eq_refl eq_refl eq_refl eq_refl).
Defined.

(** ** Stage 2 does not read the tailored column *)

Module RerunFacts.
Import Stage2 Stage2Facts Rerun.

Local Open Scope string_scope.

Lemma columns_apart (headers : list cell) (cols : columns) :
  find_columns headers = Some cols ->
  originalBulletColIndex cols <> tailoredColIndex cols
  /\ selectColIndex cols <> tailoredColIndex cols.
Proof.
  unfold find_columns.
  destruct (indexOf_cell headers "OriginalBulletText") as [o|] eqn:Ho; [|discriminate].
  destruct (indexOf_cell headers "SelectToTailor(Manual)") as [s|] eqn:Hs;
    [|discriminate].
  destruct (indexOf_cell headers "TailoredBulletText(Stage2)") as [t|] eqn:Ht;
    [|discriminate].
  destruct (indexOf_cell headers "RelevanceScore"); [|discriminate].
  destruct (indexOf_cell headers "UniqueID"); [|discriminate].
  intros [= <-]. simpl. split.
  - apply (indexOf_cell_distinct headers "OriginalBulletText"
             "TailoredBulletText(Stage2)"); [discriminate | exact Ho | exact Ht].
  - apply (indexOf_cell_distinct headers "SelectToTailor(Manual)"
             "TailoredBulletText(Stage2)"); [discriminate | exact Hs | exact Ht].
Qed.

Section TwoSheets.

Variable answers : nat -> string.
Variable jd : json.
Variable cols : columns.
Hypothesis bullet_apart : originalBulletColIndex cols <> tailoredColIndex cols.
Hypothesis select_apart : selectColIndex cols <> tailoredColIndex cols.

Lemma tailorRow_agrees (st : loop_state) (r r' : list cell) :
  same_but_tailored cols r r' ->
  match tailorRow answers jd cols st r, tailorRow answers jd cols st r' with
  | Returns (st1, out), Returns (st1', out') => st1 = st1' /\ rows_agree cols out out'
  | Throws, Throws => True
  | _, _ => False
  end.
Proof.
  intro H. unfold tailorRow, row_selected.
  rewrite <- (H _ select_apart), <- (H _ bullet_apart).
  destruct (Stage3.is_selected (nth (selectColIndex cols) r CUndef)) eqn:Es.
  - destruct (tailorGuards _ jd (json_prop jd "jobTitle")) as [|guard]; [exact I |].
    destruct (match guard with
              | inl early => (early, calls st)
              | inr bullet => (tailoredFromResponse (answers (calls st)) bullet,
                               S (calls st))
              end) as [tailoredOutput calls'].
    split; [reflexivity |]. split.
    + intros j Hj. rewrite !array_set_other by exact Hj. now apply H.
    + intros _ j. destruct (Nat.eq_dec j (tailoredColIndex cols)) as [-> | Hj].
      * now rewrite !array_set_same.
      * rewrite !array_set_other by exact Hj. now apply H.
  - split; [reflexivity |]. split; [exact H |].
    unfold row_selected. rewrite Es. discriminate.
Qed.

Lemma tailorRows_agree (data data' : list (list cell)) :
  Forall2 (same_but_tailored cols) data data' ->
  forall st,
    match tailorRows answers jd cols st data, tailorRows answers jd cols st data' with
    | Returns (st1, out), Returns (st1', out') =>
        st1 = st1' /\ Forall2 (rows_agree cols) out out'
    | Throws, Throws => True
    | _, _ => False
    end.
Proof.
  induction 1 as [|r r' rest rest' Hr _ IH]; intro st; simpl.
  - split; [reflexivity | constructor].
  - pose proof (tailorRow_agrees st r r' Hr) as H1.
    destruct (tailorRow answers jd cols st r) as [|[st1 out]],
             (tailorRow answers jd cols st r') as [|[st1' out']];
      try contradiction; [exact I |].
    destruct H1 as [<- Hout].
    specialize (IH st1).
    destruct (tailorRows answers jd cols st1 rest) as [|[st2 outs]],
             (tailorRows answers jd cols st1 rest') as [|[st2' outs']];
      try contradiction; [exact I |].
    destruct IH as [<- Houts]. split; [reflexivity |]. now constructor.
Qed.

End TwoSheets.

End RerunFacts.

(** X29. Stage 2 never reads the tailored column: run on two sheets
    that differ in that column only, the stage ends the same way (the
    same failure, a [TypeError] in both, or the same count of tailored
    bullets), and the rows it hands to the sheet agree outside the
    tailored column in every row and in every column in the selected
    rows.  What an earlier run left in the column has no influence on a
    later run. *)
Theorem stage2_ignores_the_tailored_column (answers : nat -> string) (jdCell : cell)
    (headers : list cell) (cols : Stage2.columns) (data data' : list (list cell)) :
  Stage2.find_columns headers = Some cols ->
  Forall2 (Rerun.same_but_tailored cols) data data' ->
  Rerun.results_agree cols
    (Stage2.runStage2 answers jdCell (headers :: data))
    (Stage2.runStage2 answers jdCell (headers :: data')).
Proof.
  intros Hcols Hdata.
  destruct (RerunFacts.columns_apart headers cols Hcols) as [Hb Hs].
  unfold Stage2.runStage2.
  destruct jdCell as [s| |]; try reflexivity.
  destruct (is_empty s || is_empty (trim s)); [reflexivity |].
  destruct (JSON_parse s) as [jd|]; [|reflexivity].
  destruct (negb (json_truthy jd) || negb (prop_truthy jd "jobTitle"));
    [reflexivity |].
  inversion Hdata as [|r r' rest rest' Hr Hrest]; subst.
  - split; [reflexivity | exact I].
  - rewrite Hcols.
    pose proof (RerunFacts.tailorRows_agree answers jd cols Hb Hs
                  (r :: rest) (r' :: rest') Hdata (Stage2.mkLoop 0 0 0 false)) as H.
    destruct (Stage2.tailorRows answers jd cols (Stage2.mkLoop 0 0 0 false)
                (r :: rest)) as [|[st1 out]],
             (Stage2.tailorRows answers jd cols (Stage2.mkLoop 0 0 0 false)
                (r' :: rest')) as [|[st1' out']];
      try contradiction; [exact I |].
    destruct H as [<- Hout]. simpl. split; [reflexivity |].
    now destruct (Stage2.modifiedDataForSheet st1).
Qed.

Lemma stage2_ignores_the_tailored_column_witness :
  Stage2.find_columns scoring_headers = Some (Stage2.mkColumns 3 7 8 4 0)
  /\ Rerun.results_agree (Stage2.mkColumns 3 7 8 4 0)
       (Stage2.runStage2 (fun _ => Samples2.fenced_envelope)
          (CText Samples2.jd_text)
          [scoring_headers;
           Samples.scored "EXP_J0_B0" "EXPERIENCE" "Acme Corp" "Built X" "0.90" "yes" "";
           Samples.scored "EXP_J0_B1" "EXPERIENCE" "Acme Corp" "Led Y" "0.50" "" ""])
       (Stage2.runStage2 (fun _ => Samples2.fenced_envelope)
          (CText Samples2.jd_text)
          [scoring_headers;
           Samples.scored "EXP_J0_B0" "EXPERIENCE" "Acme Corp" "Built X" "0.90" "yes"
             "An earlier tailoring";
           Samples.scored "EXP_J0_B1" "EXPERIENCE" "Acme Corp" "Led Y" "0.50" ""
             "Another one"]).
Proof.
  split; [reflexivity |].
  apply (stage2_ignores_the_tailored_column (fun _ => Samples2.fenced_envelope)
           (CText Samples2.jd_text) scoring_headers (Stage2.mkColumns 3 7 8 4 0));
    [reflexivity |].
  repeat constructor;
    intros j Hj;
    do 8 (destruct j as [|j]; [reflexivity |]);
    (destruct j as [|j]; [exfalso; apply Hj; reflexivity |]);
    destruct j; reflexivity.
Defined.

(** ** Stage 1, unit by unit *)

Module UnitFacts.
Import Stage1 Scoring Stage1Facts Units.

Local Open Scope string_scope.

Lemma scored_text_bulletText (b : jsv) (o : option string) :
  bulletText b = Returns o -> scored_text b = o.
Proof.
  destruct b as [[s| |t shown]|l|ob]; simpl; try discriminate.
  - destruct s as [|c r].
    + intros [= <-]. reflexivity.
    + change (is_empty (String c r)) with false. cbn [orb].
      destruct (is_empty (trim (String c r))); now intros [= <-].
  - intros [= <-]. reflexivity.
  - destruct t; [discriminate | now intros [= <-]].
Qed.

Section Loops.

Variable Number_toString : Q -> string.
Variable answers : nat -> string.
Variable jdAnalysis : json.

Lemma numbered_app (a b : list unit) :
  forall n,
    numbered jdAnalysis n (a ++ b)
    = (numbered jdAnalysis n a
       ++ numbered jdAnalysis (calls_after jdAnalysis n a) b)%list.
Proof.
  induction a as [|u a IH]; intro n; simpl; [reflexivity |]. now rewrite IH.
Qed.

Lemma calls_after_app (a b : list unit) :
  forall n,
    calls_after jdAnalysis n (a ++ b)
    = calls_after jdAnalysis (calls_after jdAnalysis n a) b.
Proof. induction a as [|u a IH]; intro n; simpl; [reflexivity | apply IH]. Qed.

Lemma scores_ret_nil : scores jdAnalysis Number_toString answers [] (ret []).
Proof. intros n rows n' [= <- <-]. split; [constructor | reflexivity]. Qed.

Lemma scores_concatM (uss : list (list unit)) (ms : list (M (list (list cell)))) :
  Forall2 (scores jdAnalysis Number_toString answers) uss ms ->
  scores jdAnalysis Number_toString answers (concat uss) (concatM ms).
Proof.
  induction 1 as [|us m uss ms Hm _ IH]; intros n rows n'; simpl.
  - intros [= <- <-]. split; [constructor | reflexivity].
  - unfold bind. destruct (m n) as [|[xs k]] eqn:E; [discriminate |].
    destruct (concatM ms k) as [|[ys j]] eqn:E'; [discriminate |].
    intros [= <- <-]. destruct (Hm n xs k E) as [Hx ->].
    destruct (IH _ ys j E') as [Hy ->].
    rewrite numbered_app, calls_after_app. split; [|reflexivity].
    now apply Forall2_app.
Qed.

Lemma Forall2_indexed_both {A B C : Type} (R : B -> C -> Prop) (f : A -> nat -> B)
    (g : A -> nat -> C) (xs : list A) :
  (forall x i, R (f x i) (g x i)) ->
  forall i, Forall2 R (indexed f i xs) (indexed g i xs).
Proof. intro H. induction xs; intro i; simpl; constructor; auto. Qed.

Lemma scores_bind_lift {A : Type} (us : list unit) (o : outcome A)
    (k : A -> M (list (list cell))) :
  (forall a, o = Returns a -> scores jdAnalysis Number_toString answers us (k a)) ->
  scores jdAnalysis Number_toString answers us (bind (lift o) k).
Proof.
  intros Hk n rows n'. unfold bind, lift. destruct o as [|a]; [discriminate |].
  now apply Hk.
Qed.

Lemma callMatch_own_answer (text : string) (n : nat) :
  callMatch answers jdAnalysis text n
  = Returns (matchResumeSection (answers n) text jdAnalysis,
             match matchGuards text jdAnalysis with
             | None => S n
             | Some _ => n
             end).
Proof.
  unfold callMatch, matchResumeSection. now destruct (matchGuards text jdAnalysis).
Qed.

Lemma asks_next (u : unit) (n : nat) :
  (if asks jdAnalysis u then S n else n)
  = match matchGuards (unit_text u) jdAnalysis with None => S n | Some _ => n end.
Proof. unfold asks. now destruct (matchGuards (unit_text u) jdAnalysis). Qed.

Lemma scoreBullets_scores (msg : messages) (uniqueIdOf : string -> nat -> string)
    (sectionTitle : string) (identifier : cell) (bullets : list (string * jsv)) :
  forall bulletIndex,
    scores jdAnalysis Number_toString answers
      (bullet_units msg uniqueIdOf sectionTitle identifier bulletIndex bullets)
      (scoreBullets Number_toString answers jdAnalysis msg uniqueIdOf sectionTitle
         identifier bulletIndex bullets).
Proof.
  induction bullets as [|[tag b] rest IH]; intros idx n rows n'; simpl.
  - intros [= <- <-]. split; [constructor | reflexivity].
  - unfold bind, lift.
    destruct (bulletText b) as [|o] eqn:Eb; [discriminate |].
    rewrite (scored_text_bulletText b o Eb). destruct o as [text|].
    + rewrite callMatch_own_answer.
      destruct (scoredCells Number_toString msg
                  (matchResumeSection (answers n) text jdAnalysis))
        as [|cells] eqn:Ec; [discriminate |].
      destruct (scoreBullets _ _ _ _ _ _ _ _ rest _) as [|[rows1 j]] eqn:Er;
        [discriminate |].
      intros [= <- <-]. cbn [app numbered calls_after]. rewrite asks_next.
      cbn [unit_text]. destruct (IH _ _ _ _ Er) as [Hr ->].
      split; [|reflexivity]. constructor; [|exact Hr].
      exists cells. split; [exact Ec | reflexivity].
    + intro H. exact (IH _ _ _ _ H).
Qed.

Lemma scoreTechItem_scores (subIndex : nat) (item : object) (itemIndex : nat) :
  scores jdAnalysis Number_toString answers
         (tech_item_units subIndex item itemIndex)
         (scoreTechItem Number_toString answers jdAnalysis subIndex item itemIndex).
Proof.
  intros n rows n'. unfold scoreTechItem, tech_item_units, bind, lift.
  destruct (techUnit item) as [|[[[text ident] kind]|]]; [discriminate | |].
  - destruct (is_empty text).
    + intros [= <- <-]. split; [constructor | reflexivity].
    + rewrite callMatch_own_answer.
      destruct (scoredCells Number_toString techMessages
                  (matchResumeSection (answers n) text jdAnalysis))
        as [|cells] eqn:Ec; [discriminate |].
      intros [= <- <-]. cbn [numbered calls_after]. rewrite asks_next.
      cbn [unit_text]. split; [|reflexivity]. constructor; [|constructor].
      exists cells. split; [exact Ec | reflexivity].
  - intros [= <- <-]. split; [constructor | reflexivity].
Qed.

(** The four loops record the rows of the units of the master record. *)
Lemma scoreMaster_scores (master : resume) :
  scores jdAnalysis Number_toString answers (units master)
         (scoreMaster Number_toString answers jdAnalysis master).
Proof.
  unfold scoreMaster, units.
  replace (experience_units master ++ project_units master
           ++ leadership_units master ++ tech_units master)%list
    with (concat [experience_units master; project_units master;
                  leadership_units master; tech_units master])
    by (simpl; now rewrite app_nil_r).
  apply scores_concatM.
  apply Forall2_cons; [|apply Forall2_cons; [|apply Forall2_cons;
    [|apply Forall2_cons; [|apply Forall2_nil]]]].
  - unfold scoreExperience, experience_units.
    destruct (find_section "EXPERIENCE" (sections master)) as [[t [jobs|] subs]|];
      try apply scores_ret_nil.
    apply scores_concatM. apply Forall2_indexed_both. intros job i.
    apply scoreBullets_scores.
  - unfold scoreProjects, project_units.
    destruct (find_section "PROJECTS" (sections master)) as [[t its [subs|]]|];
      try apply scores_ret_nil.
    apply scores_concatM. apply Forall2_indexed_both. intros sub i.
    apply scores_concatM. apply Forall2_indexed_both. intros project j.
    apply scores_bind_lift. intros name Hname. unfold project_name.
    rewrite Hname. apply scoreBullets_scores.
  - unfold scoreLeadership, leadership_units.
    destruct (find_section "LEADERSHIP & UNIVERSITY INVOLVEMENT" (sections master))
      as [[t [entries|] subs]|]; try apply scores_ret_nil.
    apply scores_concatM. apply Forall2_indexed_both. intros item i.
    apply scoreBullets_scores.
  - unfold scoreTechnicalSkills, tech_units.
    destruct (find_section "TECHNICAL SKILLS & CERTIFICATES" (sections master))
      as [[t its [subs|]]|]; try apply scores_ret_nil.
    apply scores_concatM. apply Forall2_indexed_both. intros sub i.
    apply scores_concatM. apply Forall2_indexed_both. intros item j.
    apply scoreTechItem_scores.
Qed.

End Loops.

End UnitFacts.

(** ** A score written with two decimals, read back *)

Module DecimalFacts.
Import Stage1 Units.

Local Open Scope string_scope.

Lemma digit_cases (P : N -> Prop) :
  Forall P (map N.of_nat (seq 0 10)) -> forall d, (d < 10)%N -> P d.
Proof.
  intros H d Hd. rewrite Forall_forall in H. apply H.
  apply in_map_iff. exists (N.to_nat d). split; [apply N2Nat.id |].
  apply in_seq. lia.
Qed.

Lemma digit_of_digit (d : N) :
  (d < 10)%N -> digit_of (ascii_of_N (48 + d)) = Some (Z.of_N d).
Proof.
  revert d. apply digit_cases.
  repeat (constructor; [reflexivity |]). constructor.
Qed.

Lemma digits_from_step (f : nat) (n : N) (acc : string) :
  digits_from (S f) n acc
  = if N.eqb (n / 10) 0 then String (ascii_of_N (48 + n mod 10)) acc
    else digits_from f (n / 10) (String (ascii_of_N (48 + n mod 10)) acc).
Proof. reflexivity. Qed.

Lemma read_digits_step (a : Z) (c : nat) (d : N) (r : string) :
  (d < 10)%N ->
  read_digits a c (String (ascii_of_N (48 + d)) r)
  = read_digits (a * 10 + Z.of_N d) (S c) r.
Proof. intro H. cbn [read_digits]. now rewrite (digit_of_digit d H). Qed.

Lemma mod10_lt (n : N) : (n mod 10 < 10)%N.
Proof. apply N.mod_lt. discriminate. Qed.

(** Reading the digits of [n] back: they are read to the last, and they
    add [n] to what has been read before them. *)
Lemma read_digits_digits_from (f : nat) :
  forall (n : N) (rest : string),
    (n < 2 ^ N.of_nat f)%N ->
    exists (k : nat) (p : Z),
      (1 <= k)%nat
      /\ forall a c,
           read_digits a c (digits_from (S f) n rest)
           = read_digits (a * p + Z.of_N n) (c + k) rest.
Proof.
  induction f as [|f IH]; intros n rest Hn; rewrite digits_from_step.
  - assert (n = 0%N) by (simpl in Hn; lia). subst n.
    exists 1%nat, 10%Z. split; [lia |]. intros a c.
    change (0 / 10 =? 0)%N with true. cbn iota.
    rewrite read_digits_step by apply mod10_lt.
    now rewrite Nat.add_1_r.
  - destruct (N.eqb_spec (n / 10) 0) as [E | E].
    + exists 1%nat, 10%Z. split; [lia |]. intros a c.
      rewrite read_digits_step by apply mod10_lt.
      rewrite Nat.add_1_r.
      pose proof (N.div_mod n 10 ltac:(discriminate)) as Hd.
      match goal with
      | |- read_digits ?x _ _ = read_digits ?y _ _ => replace x with y by lia
      end.
      reflexivity.
    + assert (Hq : (n / 10 < 2 ^ N.of_nat f)%N).
      { apply N.Div0.div_lt_upper_bound.
        rewrite Nat2N.inj_succ, N.pow_succ_r' in Hn. lia. }
      destruct (IH (n / 10)%N (String (ascii_of_N (48 + n mod 10)) rest) Hq)
        as [k [p [Hk H]]].
      exists (S k), (p * 10)%Z. split; [lia |]. intros a c.
      rewrite H, read_digits_step by apply mod10_lt.
      rewrite Nat.add_succ_r.
      pose proof (N.div_mod n 10 ltac:(discriminate)) as Hd.
      match goal with
      | |- read_digits ?x _ _ = read_digits ?y _ _ => replace x with y by lia
      end.
      reflexivity.
Qed.

Lemma append_char (x : string) (c : ascii) (acc : string) :
  (x ++ String c "") ++ acc = x ++ String c acc.
Proof. induction x as [|a x IH]; simpl; [reflexivity | now rewrite IH]. Qed.

Lemma digits_from_app (f : nat) :
  forall (n : N) (acc : string), digits_from f n acc = digits_from f n "" ++ acc.
Proof.
  induction f as [|f IH]; intros n acc; [reflexivity |].
  rewrite !digits_from_step. destruct (n / 10 =? 0)%N; [reflexivity |].
  rewrite IH, (IH _ (String _ "")). now rewrite append_char.
Qed.

Lemma size_nat_gt (n : N) : (n < 2 ^ N.of_nat (N.size_nat n))%N.
Proof.
  destruct n as [|p]; [reflexivity |]. simpl N.size_nat.
  induction p as [p IH | p IH |]; simpl Pos.size_nat;
    rewrite ?Nat2N.inj_succ, ?N.pow_succ_r'; lia.
Qed.

Lemma read_digits_digits (n : N) (rest : string) :
  exists (k : nat) (p : Z),
    (1 <= k)%nat
    /\ forall a c,
         read_digits a c (digits n ++ rest)
         = read_digits (a * p + Z.of_N n) (c + k) rest.
Proof.
  unfold digits. rewrite <- digits_from_app.
  apply read_digits_digits_from.
  eapply N.lt_le_trans; [apply size_nat_gt |].
  apply N.pow_le_mono_r; lia.
Qed.

Lemma digits_digit (d : N) :
  (d < 10)%N -> digits d = String (ascii_of_N (48 + d)) "".
Proof.
  intro H. unfold digits. rewrite digits_from_step.
  rewrite (N.div_small d 10 H), (N.mod_small d 10 H). reflexivity.
Qed.

Lemma digits_from_head (f : nat) :
  forall (n : N) (acc : string),
    exists d r, (d < 10)%N /\ digits_from (S f) n acc = String (ascii_of_N (48 + d)) r.
Proof.
  induction f as [|f IH]; intros n acc; rewrite digits_from_step.
  - exists (n mod 10)%N, acc. split; [apply mod10_lt |].
    now destruct (n / 10 =? 0)%N.
  - destruct (n / 10 =? 0)%N; [|apply IH].
    exists (n mod 10)%N, acc. split; [apply mod10_lt | reflexivity].
Qed.

Lemma fixed2_head (n : N) :
  exists d r, (d < 10)%N /\ fixed2 n = String (ascii_of_N (48 + d)) r.
Proof.
  unfold fixed2, digits at 1.
  destruct (digits_from_head (N.size_nat (n / 100)) (n / 100) "") as [d [r [Hd E]]].
  rewrite E. exists d. eexists. split; [exact Hd | reflexivity].
Qed.

Lemma hundreds_tens_units (n : N) :
  (((0 * 1 + Z.of_N (n / 100)) * 10 + Z.of_N (n mod 100 / 10)) * 10
   + Z.of_N (n mod 10))%Z = Z.of_N n.
Proof.
  pose proof (N.div_mod n 100 ltac:(discriminate)) as H.
  pose proof (N.div_mod (n mod 100) 10 ltac:(discriminate)) as H1.
  assert (H2 : ((n mod 100) mod 10 = n mod 10)%N).
  { change 100%N with (10 * 10)%N.
    rewrite N.Div0.mod_mul_r.
    rewrite N.mul_comm, N.Div0.mod_add. apply N.Div0.mod_mod. }
  lia.
Qed.

Lemma tens_lt (n : N) : (n mod 100 / 10 < 10)%N.
Proof. apply N.Div0.div_lt_upper_bound. apply N.mod_lt. discriminate. Qed.

(** A number written with two decimals reads back as its hundredths. *)
Lemma read_unsigned_fixed2 (n : N) :
  read_unsigned (fixed2 n) = Some (Z.of_N n # 100, "").
Proof.
  unfold read_unsigned, fixed2.
  destruct (read_digits_digits (n / 100)
              ("." ++ digits (n mod 100 / 10) ++ digits (n mod 10)))
    as [k [p [Hk H]]].
  rewrite H, (digits_digit _ (tens_lt n)), (digits_digit _ (mod10_lt n)).
  cbn [append read_digits].
  change (digit_of ".") with (@None Z). cbn iota.
  change (Nat.eqb (code ".") 46) with true. cbn iota.
  rewrite !read_digits_step by (apply tens_lt || apply mod10_lt).
  cbn [read_digits]. destruct k as [|k]; [lia |].
  rewrite Nat.add_succ_r. cbn iota.
  change (read_exponent "") with (0%Z, ""). cbn iota.
  rewrite Z.mul_0_l, Z.add_0_l.
  pose proof (hundreds_tens_units n) as E.
  rewrite Z.mul_0_l, Z.add_0_l in E. rewrite E. reflexivity.
Qed.

Lemma parseFloat_digit_head (d : N) (r : string) :
  (d < 10)%N ->
  parseFloat (String (ascii_of_N (48 + d)) r)
  = match read_unsigned (String (ascii_of_N (48 + d)) r) with
    | Some (q, _) => Fin q
    | None => NaN
    end
  /\ parseFloat (String "-" (String (ascii_of_N (48 + d)) r))
     = match read_unsigned (String (ascii_of_N (48 + d)) r) with
       | Some (q, _) => Fin (- q)
       | None => NaN
       end.
Proof.
  revert d. apply digit_cases.
  repeat (constructor; [split; reflexivity |]). constructor.
Qed.

Lemma parseFloat_fixed2_any (n : N) :
  parseFloat (fixed2 n) = Fin (Z.of_N n # 100)
  /\ parseFloat ("-" ++ fixed2 n) = Fin (- (Z.of_N n # 100)).
Proof.
  destruct (fixed2_head n) as [d [r [Hd E]]].
  destruct (parseFloat_digit_head d r Hd) as [H1 H2].
  cbn [append]. rewrite E, H1, H2, <- E, read_unsigned_fixed2. split; reflexivity.
Qed.

Section Range.

Variable Number_toString : Q -> string.

Lemma Qabs_nonneg_eq (q : Q) : (0 <= q)%Q -> Qabs q = q.
Proof.
  destruct q as [n d]. unfold Qle. simpl. intro H. unfold Qabs. f_equal.
  apply Z.abs_eq. lia.
Qed.

Lemma Qabs_neg_eq (q : Q) : ~ (0 <= q)%Q -> Qabs q = (- q)%Q.
Proof.
  destruct q as [n d]. unfold Qle. simpl. intro H. unfold Qabs, Qopp. simpl.
  f_equal. apply Z.abs_neq. lia.
Qed.

(** [toFixed(2)] of a number below [10^21] in magnitude. *)
Lemma toFixed2_small (q : Q) :
  (Qabs q < inject_Z (10 ^ 21))%Q ->
  toFixed2 Number_toString q
  = if Qle_bool 0 q then fixed2 (hundredths q)
    else "-" ++ fixed2 (hundredths (- q)).
Proof.
  intro H. unfold toFixed2.
  assert (Hbig : Qle_bool (inject_Z (10 ^ 21)) (Qabs q) = false).
  { destruct (Qle_bool (inject_Z (10 ^ 21)) (Qabs q)) eqn:E; [|reflexivity].
    apply Qle_bool_iff in E. exfalso. apply (Qlt_not_le _ _ H). exact E. }
  rewrite Hbig. destruct (Qle_bool 0 q) eqn:E; cbn [negb].
  - apply Qle_bool_iff in E. now rewrite (Qabs_nonneg_eq q E).
  - assert (Hn : ~ (0 <= q)%Q).
    { intro H0. apply Qle_bool_iff in H0. congruence. }
    now rewrite (Qabs_neg_eq q Hn).
Qed.

Lemma hundredths_le (q : Q) (k : Z) :
  (0 <= q)%Q -> (0 <= k)%Z ->
  ((hundredths q <= Z.to_N k)%N <-> (q * 100 + (1 # 2) < inject_Z (k + 1))%Q).
Proof.
  intros H0 Hk. unfold hundredths.
  assert (Hf : (0 <= Qfloor (q * 100 + (1 # 2)))%Z).
  { change 0%Z with (Qfloor 0). apply Qfloor_resp_le. lra. }
  pose proof (Qfloor_le (q * 100 + (1 # 2))) as Hle.
  pose proof (Qlt_floor (q * 100 + (1 # 2))) as Hlt.
  split; intro H.
  - assert (Hz : (Qfloor (q * 100 + (1 # 2)) + 1 <= k + 1)%Z) by lia.
    rewrite Zle_Qle in Hz. lra.
  - assert (Hz : (Qfloor (q * 100 + (1 # 2)) < k + 1)%Z).
    { rewrite Zlt_Qlt. lra. }
    lia.
Qed.

(** The score cell of a number below [10^21] in magnitude reads from 0
    to 1 exactly when the number lies between -0.005 and 1.005, the
    bounds left out. *)
Lemma reads_in_unit_interval_toFixed2 (q : Q) :
  (Qabs q < inject_Z (10 ^ 21))%Q ->
  (reads_in_unit_interval (toFixed2 Number_toString q) = true
   <-> (- (1 # 200) < q)%Q /\ (q < 201 # 200)%Q).
Proof.
  intro H. rewrite (toFixed2_small q H). unfold reads_in_unit_interval.
  destruct (Qle_bool 0 q) eqn:E.
  - apply Qle_bool_iff in E.
    destruct (parseFloat_fixed2_any (hundredths q)) as [-> _].
    cbn [jsnum_ge]. rewrite andb_true_iff, !Qle_bool_iff.
    pose proof (hundredths_le q 100 E ltac:(lia)) as Hh.
    change (inject_Z (100 + 1)) with (101 # 1)%Q in Hh.
    change (Z.to_N 100) with 100%N in Hh.
    unfold Qle at 1 2. cbn [Qnum Qden].
    split.
    + intros [_ H1]. split; [lra |].
      assert (Hn : (hundredths q <= 100)%N) by lia.
      apply Hh in Hn. lra.
    + intros [_ H1]. split; [lia |].
      assert (Hn : (hundredths q <= 100)%N) by (apply Hh; lra). lia.
  - assert (Hn : ~ (0 <= q)%Q).
    { intro H0. apply Qle_bool_iff in H0. congruence. }
    assert (Hneg : (0 <= - q)%Q) by (apply Qnot_le_lt in Hn; lra).
    destruct (parseFloat_fixed2_any (hundredths (- q))) as [_ ->].
    cbn [jsnum_ge]. rewrite andb_true_iff, !Qle_bool_iff.
    pose proof (hundredths_le (- q) 0 Hneg ltac:(lia)) as Hh.
    change (inject_Z (0 + 1)) with 1%Q in Hh.
    change (Z.to_N 0) with 0%N in Hh.
    unfold Qle at 1 2. cbn [Qnum Qden Qopp].
    apply Qnot_le_lt in Hn.
    split.
    + intros [H0 _]. split; [|lra].
      assert (Hz : (hundredths (- q) <= 0)%N) by lia.
      apply Hh in Hz. lra.
    + intros [H0 _].
      assert (Hz : (hundredths (- q) <= 0)%N) by (apply Hh; lra).
      split; lia.
Qed.

End Range.

End DecimalFacts.

(** ** The rows of stage 1 *)

Module UnitRows.
Import Stage1 Scoring Stage1Facts Units UnitFacts.

Local Open Scope string_scope.

Section Rows.

Variable Number_toString : Q -> string.
Variable answers : nat -> string.
Variable jdAnalysis : json.

(** The score cell among the cells of a scorer's result. *)
Lemma scoredCells_score_cell (msg : messages) (m : json)
    (cells : string * string * cell) :
  scoredCells Number_toString msg m = Returns cells ->
  fst (fst cells)
  = match model_score m with
    | Some q => toFixed2 Number_toString q
    | None => "0.00"
    end.
Proof.
  unfold scoredCells, model_score.
  destruct (json_truthy m && negb (prop_truthy m "error")).
  - destruct (json_prop m "relevanceScore") as [[ |b|q|s|l|o]|];
      try (intros [= <-]; reflexivity).
    destruct (json_prop m "matchingKeywords") as [[ |b|q'|s|l|o]|]; cbn [json_truthy];
      try (intros [= <-]; reflexivity); try discriminate.
    + destruct b; [discriminate | intros [= <-]; reflexivity].
    + destruct (negb (Qeq_bool q' 0)); [discriminate | intros [= <-]; reflexivity].
    + destruct (negb (is_empty s)); [discriminate | intros [= <-]; reflexivity].
  - destruct (json_truthy m && prop_truthy m "error"); intros [= <-]; reflexivity.
Qed.


Lemma row_of_score_of_own_answer (uk : unit * nat) (row : list cell) :
  row_of jdAnalysis Number_toString answers uk row ->
  score_of_own_answer jdAnalysis Number_toString answers uk row.
Proof.
  intro H. split; [exact H |]. destruct H as [cells [Hc ->]].
  rewrite <- (scoredCells_score_cell _ _ cells Hc).
  now destruct cells as [[score keywords] justification].
Qed.

(** A record the normaliser returns is scored unit by unit: stage 1
    returns one row for each unit of the record, in the order of the
    units, each made of the scorer's result for the unit's own answer. *)
Lemma parsed_record_rows (Date_parse : string -> option (nat * Z))
    (allData : list (list cell)) (master : resume) :
  MasterResumeData.getMasterResumeData Date_parse allData = Some master ->
  exists rows,
    allScoredBulletsDataForSheet Number_toString answers jdAnalysis master
    = Returns rows
    /\ Forall2 (row_of jdAnalysis Number_toString answers)
         (numbered jdAnalysis 0 (units master)) rows.
Proof.
  intro H. apply ScorableFacts.getMasterResumeData_scorable in H.
  unfold allScoredBulletsDataForSheet.
  destruct (ScorableFacts.scoreMaster_returns Number_toString answers jdAnalysis
              master H 0) as [rows [n E]].
  rewrite E. exists rows. split; [reflexivity |].
  exact (proj1 (scoreMaster_scores Number_toString answers jdAnalysis master
                  0 rows n E)).
Qed.

End Rows.

End UnitRows.

Import Stage1 Scoring Units Samples1.

(** C8 (range of the stored score), as the code has it.  Stage 1 scores
    the record the normaliser returns and records one row for each of its
    units, in their order; the score cell of a unit's row is the
    [relevanceScore] that [JSON.parse] read from the model's answer for
    that unit, written with two decimals, and 0.00 when the scorer's
    result for the unit is an error or carries no number.  Nothing clamps
    the number: for a number below [10^21] in magnitude the cell reads
    from 0 to 1 exactly when the number lies strictly between -0.005 and
    1.005. *)
Theorem C8_score_is_the_models_number (Date_parse : string -> option (nat * Z))
    (Number_toString : Q -> string) (answers : nat -> string) (jdAnalysis : json)
    (allData : list (list cell)) (master : resume) :
  MasterResumeData.getMasterResumeData Date_parse allData = Some master ->
  (exists rows,
     allScoredBulletsDataForSheet Number_toString answers jdAnalysis master
     = Returns rows
     /\ Forall2 (score_of_own_answer jdAnalysis Number_toString answers)
          (numbered jdAnalysis 0 (units master)) rows)
  /\ (forall q : Q,
        (Qabs q < inject_Z (10 ^ 21))%Q ->
        (reads_in_unit_interval (toFixed2 Number_toString q) = true
         <-> (- (1 # 200) < q)%Q /\ (q < 201 # 200)%Q)).
Proof.
  intro H. split.
  - destruct (UnitRows.parsed_record_rows Number_toString answers jdAnalysis
                Date_parse allData master H) as [rows [E Hrows]].
    exists rows. split; [exact E |].
    eapply Forall2_impl; [|exact Hrows].
    apply UnitRows.row_of_score_of_own_answer.
  - apply DecimalFacts.reads_in_unit_interval_toFixed2.
Qed.

Lemma C8_witness :
  MasterResumeData.getMasterResumeData MasterResumeData.Date_parse_iso
    SamplesN.master_sheet = Some SamplesN.normalised_master
  /\ (exists rows,
        allScoredBulletsDataForSheet show_whole answers_fail_then_score jd_sample
          SamplesN.normalised_master
        = Returns rows
        /\ Forall2 (score_of_own_answer jd_sample show_whole answers_fail_then_score)
             (numbered jd_sample 0 (units SamplesN.normalised_master)) rows)
  /\ (forall q : Q,
        (Qabs q < inject_Z (10 ^ 21))%Q ->
        (reads_in_unit_interval (toFixed2 show_whole q) = true
         <-> (- (1 # 200) < q)%Q /\ (q < 201 # 200)%Q)).
Proof.
  split; [reflexivity |].
  exact (C8_score_is_the_models_number MasterResumeData.Date_parse_iso show_whole
           answers_fail_then_score jd_sample SamplesN.master_sheet
           SamplesN.normalised_master eq_refl).
Defined.

(** The model's 1.005 is the binary64 number just below it and is
    recorded as 1.00; its -0.004 is recorded as -0.00, which reads as
    zero. *)
Example scores_at_the_edges :
  allScoredBulletsDataForSheet show_whole (fun _ => answer_scored "1.005") jd_sample
    master_acme
  = Returns
      [scoredRow "EXP_J0_B0" "EXPERIENCE" (CText "Acme Corp") "Built X"
         ("1.00", "Rocq", CText "Close match.");
       scoredRow "EXP_J0_B1" "EXPERIENCE" (CText "Acme Corp") "Led Y"
         ("1.00", "Rocq", CText "Close match.")]
  /\ allScoredBulletsDataForSheet show_whole (fun _ => answer_scored "-0.004")
       jd_sample master_acme
     = Returns
         [scoredRow "EXP_J0_B0" "EXPERIENCE" (CText "Acme Corp") "Built X"
            ("-0.00", "Rocq", CText "Close match.");
          scoredRow "EXP_J0_B1" "EXPERIENCE" (CText "Acme Corp") "Led Y"
            ("-0.00", "Rocq", CText "Close match.")]
  /\ reads_in_unit_interval "1.00" = true
  /\ reads_in_unit_interval "-0.00" = true
  /\ reads_in_unit_interval "7.00" = false.
Proof. repeat split. Qed.



(** The units of the sample record with the numbers of their answers,
    and the rows stage 1 records for them: the first scoring fails, the
    other two succeed. *)
Example units_and_rows_of_the_sample :
  map (fun uk => (unit_uniqueId (fst uk), unit_text (fst uk), snd uk))
      (numbered jd_sample 0 (units SamplesN.normalised_master))
  = [("EXP_J0_B0", "Built X", 0); ("EXP_J0_B1", "Led Y", 1);
     ("EXP_J1_B0", "Did Z", 2)]
  /\ allScoredBulletsDataForSheet show_whole answers_fail_then_score jd_sample
       SamplesN.normalised_master
     = Returns
         [scoredRow "EXP_J0_B0" "EXPERIENCE" (CText "Acme Corp") "Built X"
            ("0.00", "",
             CText "Error: Groq API call failed for matching.. Raw: ERROR: API Call Failed (Groq) - HTTP 429");
          scoredRow "EXP_J0_B1" "EXPERIENCE" (CText "Acme Corp") "Led Y"
            ("0.80", "Rocq", CText "Close match.");
          scoredRow "EXP_J1_B0" "EXPERIENCE" (CText "Beta LLC") "Did Z"
            ("0.80", "Rocq", CText "Close match.")].
Proof. split; reflexivity. Qed.
